(* ===== verification/_CoqProject ===== *)
-Q . S2P
Prelude.v
Services.v
Uefi.v
Pool.v
CapsuleParse.v
CapsuleScan.v
CapsuleWorld.v
CapsuleSpec.v
CapsuleResources.v
CapsuleReset.v
CapsuleTests.v
Interleave.v
SerialIo.v
SerialSpec.v
SerialRace.v
SerialRaceSpec.v
SerialReset.v
SerialDriver.v
SerialDriverSpec.v
EdkStrings.v
Json.v
Inventory.v
InventorySpec.v
InventoryReports.v
JsonLib.v
Sync.v
SyncSpec.v
SyncBounds.v
SyncResources.v
EthConfig.v
EthConfigSpec.v
EthConfigStore.v
EthIface.v
EthIfaceDxe.v
EthIfaceResources.v
EthIfaceErrors.v
EthIfaceSpec.v
EthPolicy.v
EthCollection.v
EthCollectionSpec.v
EthCollectionResources.v
EthFlow.v
EthFirst.v
EthHost.v
EthBoots.v
HostInterface.v
Credential.v
ConnectApp.v
Ptt.v
PttSpec.v
Board.v
BoardSpec.v
BoardTables.v
