(* ===== verification/Prelude.v ===== *)
(** * The NUC BIOS firmware components

    The repository builds a coreboot + EDK2 UefiPayload BIOS for an Intel NUC
    that is managed by a BMC attached over USB.  Its own C code is a set of
    UEFI drivers and libraries (NucRedfishPkg, under
    meta-nuc-bios/recipes-bsp/edk2-uefipayload/files/) and a coreboot
    mainboard.  This library models the drivers as programs over the firmware
    services they call, and proves what makes them correct.

    ** Parts of the system

    - Capsules (Library/NucCapsuleOnDiskLib): at ReadyToBoot the scanner looks
      for firmware capsules in \EFI\UpdateCapsule of every volume, validates
      them (NucCapsuleParse.c), hands them to UpdateCapsule, checks the
      firmware-management protocol's last-attempt record, deletes what was
      applied and resets (NucCapsuleOnDiskLib.c).
    - Serial port (UsbCdcAcmDxe): a driver for the BMC's CDC-ACM function.  A
      timer drains the bulk IN endpoint into a ring that Read serves from
      (SerialIo.c), the two ordered by task priority alone; the driver binding finds the data interface next to the
      control interface (UsbCdcAcmDxe.c).
    - Redfish exchange (NucRedfishSyncDxe): once RedfishPkg has discovered the
      BMC, the driver reports identity, memory, processors, drives and
      firmware as JSON (NucRedfishInventory.c), then reads back and applies a
      one-time boot override (NucRedfishSyncDxe.c).

    - IPv4 policy (EthConfigDxe): the EthCfg variable holds the policy of the
      onboard NIC; when Ip4Dxe installs its configuration protocol, the first
      interface that is not the BMC's USB link gets a setup page and the
      stored policy (EthConfigDxe.c).
    - EthernetInterface feature drivers: the Redfish feature core calls the
      collection driver (RedfishEthernetInterfaceCollectionDxe), which walks
      the BMC's collection and has the resource driver
      (RedfishEthernetInterfaceDxe) identify, check, provision, consume and
      update each member.  Consuming writes the questions of EthConfigDxe's
      setup page, and so the EthCfg variable; updating reports them.
    - Host link: the SMBIOS type 42 record that leads RedfishPkg to the BMC
      (NucRedfishHostInterfaceLib), its credentials (NucRedfishCredentialLib),
      and an application that connects the drivers (ConnectRedfishApp).
    - coreboot mainboard: the firmware TPM (ptt.c), the Super I/O's power
      policy (bootblock.c, smihandler.c), fan and SATA options (ramstage.c),
      the setup menu (cfr.c), and the tables of pins, audio verbs and USB
      ports (gpio.c, hda_verb.c, pei_data.c).

    The parts meet through firmware services (variables, protocols, setup
    options, the reset); the EthCfg variable is what the feature driver and
    EthConfigDxe share, the setup options what the menu and the mainboard
    share.

    ** Method

    A component is a program of type [fw S A] (Services.v): a tree of calls of
    a signature [S], its services.  [exec p t a] says that [p] can make the
    calls [t], with the answers recorded in [t], and return [a].  The answers
    are arbitrary, so a theorem about [exec] holds for every behaviour of the
    file systems, buses, protocols and BMC.  Theorems that need documented
    behaviour state it as a hypothesis about a handler ([run]) or about the
    answers in the trace, and a witness instantiates it with a concrete
    handler.  [wp] is the weakest precondition of such programs and [mon] the
    same for a monitor that reads the trace: resource disciplines are
    monitors over multisets and stacks of what is held.  Where two programs
    interrupt each other, their trees are the accesses they make, and a step
    relation (Interleave.v) runs them by priority; [rg] is a rely/guarantee
    logic for them, sound for that relation.

    C data: integers are [Z], kept at their width with [wrap] where the code
    can overflow; buffers are byte lists and a read outside one is [None], so
    safety is that the result is not [None]; pointers that can be NULL are
    options; EFI_STATUS is the number with its error bit; structures are
    records with the C field names.

    ** Files

    - Prelude: scopes, machine integers, C strings, byte buffers, tactics.
    - Services: programs, executions, [wp], [only], monitors, invariants of
      service state along a run.
    - Uefi: status codes, GUIDs, little-endian integers, device paths.
    - Pool: live pool memory as a multiset.
    - CapsuleParse: NucCapsuleParse.c.  ReadLe32, NucCapsuleIsFmpCapsule,
      NucCapsuleValidateHeader, NucCapsuleGetPayloadVersion,
      NucCapsuleIsCandidateFile, and theorems: no read outside the buffer,
      exactly which headers are accepted, the version search is the search by
      specification,
      which names are candidates.
    - CapsuleScan: NucCapsuleOnDiskLib.c, every function, ApplyOneCapsule in
      its three phases (open and read; gate; commit).
    - CapsuleWorld: a concrete platform with files that can be deleted, for
      the witnesses.
    - CapsuleSpec: what a successful apply proves (and that without a
      readable snapshot it proves less), which bytes can reach UpdateCapsule,
      the bound per drop box, the OsIndications bits.
    - CapsuleResources: file handles form a stack, which is empty at the end
      of every scan.  Of the pool memory only directory-entry buffers can be
      left: one where the first pass stopped at a capsule, and one for each
      enumeration that failed.
    - CapsuleReset: the callback resets exactly when a capsule was consumed,
      cannot loop through resets, and terminates.
    - CapsuleTests: the parser's host tests, hack/nuccapsule/test/test-parse.c,
      which the model passes.
    - Interleave: two clients of one memory, each a list of calls, run access
      by access; the higher priority preempts.  Reachability, the
      rely/guarantee rules and their soundness.
    - SerialIo, SerialSpec: the ring and the protocol members.  The class
      [RxQueue] is the contract of a receive queue (an abstract list); the
      ring is an instance, and the theorem on whole sessions is proved against
      the contract.  SetAttributes, SetControl and Reset are shown to put on
      the wire what they record.
    - SerialRace, SerialRaceSpec: the timer callback and Read as single loads
      and stores of the ring.  Under every interleaving what is read is, in
      order, a prefix of each packet received, and the whole of it unless the
      Read ran above the callback's level; such a Read can cut a packet; run
      alone, the accesses compute the functions of SerialIo.
    - SerialReset: Reads and Resets that the callback interrupts, also between
      the two stores of a Reset, are the reader's side of one run of a queue,
      and from a Reset's first access on the queue runs from empty.
    - SerialDriver, SerialDriverSpec: binding, start and stop; start is all
      or nothing unless an uninstall is refused on its way out, stop gives
      everything back or, refused, changes nothing, and the data interface
      found belongs to the same device and is held by no driver (the network
      function's own is not told apart).
    - EdkStrings: AsciiStrCatS, AsciiSPrint and the hexadecimal digits as a
      class with laws, and decimal printing.
    - Json: JSON values, their text, a parser, and that the parser reads the
      text back.
    - Inventory: NucRedfishInventory.c, and the services of the whole driver.
    - InventorySpec, InventoryReports: string lookup and identify strings;
      each body built in the 1 KiB buffer parses to exactly the members it
      should have; memory and drives are collected completely, in order,
      without duplicates and within bounds.
    - JsonLib: the JSON library of the Redfish drivers as a class with laws,
      and an instance.
    - Sync: NucRedfishSyncDxe.c.
    - SyncSpec: which boot option an override selects; the host resets only
      into an acknowledged override, and does so when the services allow.
    - SyncBounds, SyncResources: requests and stalls are bounded; one exchange
      per boot; memory and answers are released, and option lists but for an
      empty one.
    - EthConfig: EthConfigDxe.c and the variable's layout.  [NetLib] is the
      interface of the address functions.
    - EthConfigSpec: a concrete NetLib and machine for the witnesses; only the
      onboard NIC is touched; the settings made are the stored policy's; no
      event outlives a static apply.
    - EthConfigStore: the layout round trips; MAC seeding changes one field
      and settles.
    - EthIface, EthIfaceDxe: EthernetInterfaceCommon.c and
      EthernetInterfaceDxe.c.  [None] is a failed ASSERT or a NULL
      dereference.
    - EthIfaceResources, EthIfaceErrors: every request gives back what it was
      given; how a request ends, and for which causes it does not return.
    - EthIfaceSpec, EthPolicy: the questions as an abstract store
      ([QuestionDb] is the contract of the question database); consuming
      updates it and reporting reads it; in the EthCfg variable, a BMC edit is
      the policy EthConfigDxe applies; report and edit settle.
    - EthCollection, EthCollectionSpec, EthCollectionResources:
      EthernetInterfaceCollectionDxe.c; which requests a callback makes, in
      which order; what it releases, and what each callback keeps for good.
    - EthFlow: the collection driver run against the resource driver
      ([linked]: a request for the driver's schema is served by it), over one
      question store; an edit on the BMC ends in the variable, and from there
      in the settings EthConfigDxe makes of the NIC at the next boot.
    - EthFirst: the same run when there is nothing to consume: the first boot,
      which creates the member, and a BMC that does not answer.
    - EthHost: EthConfigDxe over one boot, from the entry point to the claimed
      interface: it completes, and keeps the policy in the variable.
    - EthBoots: the three drivers boot after boot over the one variable; the
      abstract machine is a policy and its edits, and the boots refine it.
    - HostInterface: the type 42 data, read back as DSP0270 defines it.
    - Credential, ConnectApp: credentials are all or nothing; the passes over
      the handle database.
    - Ptt, PttSpec: ptt.c.  A clear request is honoured at most once, also
      across interrupted boots; a TPM is announced exactly where it is
      enabled, its window decodes and its buffer size is kept.
    - Board, BoardSpec: the rest of the mainboard.  Power after an outage is
      the configured policy; fan curves are sound and the one chosen; menu
      and code agree on the options.
    - BoardTables: the constant tables, as the C initialisers build them: no
      pin is left unset, the verb table is as long as it says, the UUID is the
      SMBIOS form of its text.

    ** Bounds and fuel

    Loops over arrays recurse on the list.  The payload search takes the
    length of its buffer as fuel and the SMBIOS walk the length of its string
    area, which the theorems show to be enough.  Directory enumerations are
    as long as the file system says: the scanner takes fuel for each, answers
    [None] when it runs out, and scan_terminates shows that one more step than
    the longest directory is enough.  The wait for an address and the queue of
    new interfaces are as long as the timer and Ip4Dxe say; static_applied
    shows that the wait lacks fuel only after that many polls of an unexpired
    timer, boots_follow_edits that the queue's length and the timer's polls
    together are enough for a boot, and tpm2_announced that the wait for the
    TPM lacks fuel for the same cause only.  Printing a 64-bit number takes 20
    digits.

    ** Not modelled

    Console and debug output; allocation failure inside third-party
    libraries; a Reset from a level above the callback's, and a compiler that keeps
    the ring's indices in registers across calls (the accesses are the ones
    the source writes, in either order of evaluation); NULL arguments between
    functions of one driver, whose callers pass none (those of public
    interfaces are booleans or options).  UEFI
    core services, the USB stack, FmpDxe, RedfishPkg and its client library,
    NetLib, JsonLib and coreboot's drivers are services or interfaces.  The
    resource-config library between the collection driver and the resource
    driver is modelled in EthFlow as its hand-over of a request alone: what it
    puts into the exchange is a parameter, and how it finds a driver is the
    comparison of schemas.  Patches to third-party trees, recipes and scripts
    are not C code of this repository. *)

From Stdlib Require Export ZArith Lia Bool.
From Stdlib Require String Ascii.
From stdpp Require Export base tactics option list numbers strings.

(** ** Scopes

    Machine quantities are [Z]; list indices and loop fuel are [nat]. *)
Global Open Scope Z_scope.
Global Open Scope list_scope.

(** ** Machine-width integers

    A [w]-bit unsigned C integer is a [Z] in [0, 2^w); arithmetic that can
    leave the range is wrapped where the code wraps it. *)

Definition wrap (w x : Z) : Z := x mod 2 ^ w.

Definition is_uint (w x : Z) : Prop := 0 <= x < 2 ^ w.

(** Signed reading of a [w]-bit pattern: what [%d] prints of a UINT32. *)
Definition to_signed (w x : Z) : Z :=
  if x <? 2 ^ (w - 1) then x else x - 2 ^ w.

Lemma wrap_range w x : 0 <= w -> is_uint w (wrap w x).
Proof. intros Hw. unfold is_uint, wrap. apply Z.mod_pos_bound. lia. Qed.

Lemma wrap_id w x : is_uint w x -> wrap w x = x.
Proof. apply Z.mod_small. Qed.

Lemma to_signed_small w x : 0 <= x < 2 ^ (w - 1) -> to_signed w x = x.
Proof. intros H. unfold to_signed. destruct (Z.ltb_spec x (2 ^ (w - 1))); lia. Qed.

(** ** Boolean comparisons *)

(** Turn every boolean integer test in the context into its proposition. *)
Ltac b2p :=
  repeat match goal with
  | H : _ && _ = true |- _ => apply andb_true_iff in H; destruct H
  | H : _ || _ = false |- _ => apply orb_false_iff in H; destruct H
  | H : negb _ = true |- _ => apply negb_true_iff in H
  | H : negb _ = false |- _ => apply negb_false_iff in H
  | H : (_ =? _) = true |- _ => apply Z.eqb_eq in H
  | H : (_ =? _) = false |- _ => apply Z.eqb_neq in H
  | H : (_ <? _) = true |- _ => apply Z.ltb_lt in H
  | H : (_ <? _) = false |- _ => apply Z.ltb_ge in H
  | H : (_ <=? _) = true |- _ => apply Z.leb_le in H
  | H : (_ <=? _) = false |- _ => apply Z.leb_gt in H
  end.

(** Case analysis on the boolean or option scrutinised by the goal. *)
Ltac case_bool :=
  match goal with
  | |- context [if ?b then _ else _] => destruct b eqn:?
  end.

(** ** C strings

    A CHAR8 or CHAR16 string is the list of its character codes, without the
    terminating NUL; [lit] gives the codes of a literal. *)

Definition lit (s : string) : list Z :=
  map (fun a => Z.of_N (Ascii.N_of_ascii a)) (String.list_ascii_of_string s).

(** The string a NUL-terminated buffer holds: its codes up to the first NUL. *)
Fixpoint cstr (b : list Z) : list Z :=
  match b with
  | [] => []
  | c :: b => if c =? 0 then [] else c :: cstr b
  end.

Lemma cstr_no_nul b : Forall (fun c => c <> 0) (cstr b).
Proof.
  induction b as [|c b IH]; simpl; [constructor|].
  destruct (Z.eqb_spec c 0); by constructor.
Qed.

Lemma cstr_id b : Forall (fun c => c <> 0) b -> cstr b = b.
Proof.
  induction 1 as [|c b Hc _ IH]; simpl; [done|].
  apply Z.eqb_neq in Hc. rewrite Hc. by f_equal.
Qed.

Lemma cstr_nul b r : Forall (fun c => c <> 0) b -> cstr (b ++ 0 :: r) = b.
Proof. induction 1 as [|c b Hc _ IH]; [done|]. cbn. destruct (Z.eqb_spec c 0); [done|]. by rewrite IH. Qed.

Lemma cstr_length b : (length (cstr b) <= length b)%nat.
Proof. induction b as [|c b IH]; simpl; [lia|]. destruct (c =? 0); simpl; lia. Qed.

Lemma cstr_Forall (P : Z -> Prop) b : Forall P b -> Forall P (cstr b).
Proof. induction 1; simpl; [done|]. destruct (_ =? 0); by constructor. Qed.

(** ** Buffers

    [mem_get b i] is the C read [b[i]]: [None] is an access outside the
    buffer, which the safety theorems show never happens. *)

Definition mem_get (b : list Z) (i : Z) : option Z :=
  if i <? 0 then None else b !! Z.to_nat i.

Definition len (b : list Z) : Z := Z.of_nat (length b).

Lemma mem_get_Some b i :
  0 <= i < len b -> exists x, mem_get b i = Some x /\ x ∈ b.
Proof.
  intros [Hi Hl]. unfold mem_get, len in *.
  destruct (Z.ltb_spec i 0); [lia|].
  destruct (lookup_lt_is_Some_2 b (Z.to_nat i)) as [x Hx]; [lia|].
  exists x. split; [done|]. by eapply list_elem_of_lookup_2.
Qed.

Lemma mem_get_bound b i x : mem_get b i = Some x -> 0 <= i < len b.
Proof.
  unfold mem_get, len. destruct (Z.ltb_spec i 0); [done|].
  intros Hx%lookup_lt_Some. lia.
Qed.

Lemma len_nonneg b : 0 <= len b.
Proof. unfold len. lia. Qed.

Lemma len_app a b : len (a ++ b) = len a + len b.
Proof. unfold len. rewrite length_app. lia. Qed.

Lemma len_cons c b : len (c :: b) = len b + 1.
Proof. unfold len. simpl. lia. Qed.

Lemma len_nil : len [] = 0.
Proof. done. Qed.

Lemma mem_get_app_r a b i : mem_get (a ++ b) (len a + i) = if i <? 0 then mem_get a (len a + i) else mem_get b i.
Proof.
  unfold mem_get, len.
  destruct (Z.ltb_spec i 0).
  - destruct (Z.ltb_spec (Z.of_nat (length a) + i) 0); [done|].
    rewrite lookup_app_l; [done|lia].
  - destruct (Z.ltb_spec (Z.of_nat (length a) + i) 0); [lia|].
    rewrite lookup_app_r by lia. f_equal. lia.
Qed.

Create HintDb nuc.
Create Rewrite HintDb nuc.
#[export] Hint Resolve len_nonneg wrap_range cstr_no_nul : nuc.
#[export] Hint Rewrite len_app len_cons len_nil : nuc.

(** Arithmetic on buffer lengths. *)
Ltac len_lia := autorewrite with nuc in *; lia.
