(* ===== verification/Services.v ===== *)
(** * Firmware services as effects

    The code under verification runs against services it does not contain:
    UEFI boot and runtime services, file systems, the firmware-management
    protocol, USB I/O, the Redfish HTTP client.  A program is a tree of
    service calls; a service answers each call with an arbitrary value of
    the call's result type.  Theorems about [exec] therefore hold for every
    behaviour of the services; theorems that need documented behaviour of a
    service are stated over [run] with a handler and a named hypothesis
    about it. *)

From S2P Require Import Prelude.

(** A signature: the calls of a service and the result type of each. *)
Record sig := Sig { op : Type; res : op -> Type }.

Inductive fw (S : sig) (A : Type) : Type :=
  | Ret (a : A)
  | Do (c : op S) (k : res S c -> fw S A).
Arguments Ret {S A} a.
Arguments Do {S A} c k.

(** One call. *)
Definition call {S : sig} (c : op S) : fw S (res S c) := Do c Ret.

#[global] Instance fw_ret S : MRet (fw S) := fun A a => Ret a.
#[global] Instance fw_bind S : MBind (fw S) :=
  fun A B f => fix bind (p : fw S A) : fw S B :=
    match p with
    | Ret a => f a
    | Do c k => Do c (fun r => bind (k r))
    end.

(** A call whose answer the code ignores. *)
Definition call_ {S : sig} (c : op S) : fw S unit := _ ← call c; mret tt.

(** [for] over a list, body without result. *)
Fixpoint for_each {S A} (l : list A) (body : A -> fw S unit) : fw S unit :=
  match l with
  | [] => mret tt
  | x :: l => _ ← body x; for_each l body
  end.

(** Programs with a loop whose length the services decide take fuel and
    return [None] when it runs out; [x ←? p; q] stops there. *)
Definition obind {S A B} (p : fw S (option A)) (f : A -> fw S (option B)) : fw S (option B) :=
  o ← p; match o with Some a => f a | None => mret None end.
Notation "x ←? p ; q" := (obind p (fun x => q))
  (at level 20, p at level 100, q at level 200, only parsing) : stdpp_scope.
Notation "' x ←? p ; q" := (obind p (fun x => q))
  (at level 20, x pattern, p at level 100, q at level 200, only parsing) : stdpp_scope.

(** A performed call with the answer it got. *)
Record event (S : sig) := Ev { ev_op : op S; ev_res : res S ev_op }.
Arguments Ev {S} ev_op ev_res.
Arguments ev_op {S} e.
Arguments ev_res {S} e.

(** [exec p t a]: [p] can perform the calls [t], in this order and with these
    answers, and return [a]. *)
Fixpoint exec {S A} (p : fw S A) (t : list (event S)) (a : A) : Prop :=
  match p with
  | Ret b => t = [] /\ a = b
  | Do c k => exists r t', t = Ev c r :: t' /\ exec (k r) t' a
  end.

(** [wp p Q]: every execution of [p] satisfies [Q]. *)
Fixpoint wp {S A} (p : fw S A) (Q : A -> list (event S) -> Prop) : Prop :=
  match p with
  | Ret a => Q a []
  | Do c k => forall r, wp (k r) (fun a t => Q a (Ev c r :: t))
  end.

(** A handler runs a program against a concrete service with state [W]. *)
Definition handler (S : sig) (W : Type) : Type := forall c : op S, W -> res S c * W.

Fixpoint run {S A W} (H : handler S W) (p : fw S A) (w : W) : A * W * list (event S) :=
  match p with
  | Ret a => (a, w, [])
  | Do c k =>
      let rw := H c w in
      let out := run H (k (fst rw)) (snd rw) in
      (fst (fst out), snd (fst out), Ev c (fst rw) :: snd out)
  end.

Definition run_val {S A W} (H : handler S W) (p : fw S A) (w : W) : A := fst (fst (run H p w)).
Definition run_state {S A W} (H : handler S W) (p : fw S A) (w : W) : W := snd (fst (run H p w)).
Definition run_trace {S A W} (H : handler S W) (p : fw S A) (w : W) : list (event S) := snd (run H p w).

Section theory.
Context {S : sig}.
Implicit Types (t : list (event S)).

Lemma wp_exec {A} (p : fw S A) (Q : A -> list (event S) -> Prop) :
  wp p Q <-> forall t a, exec p t a -> Q a t.
Proof.
  revert Q. induction p as [b|c k IH]; intros Q; simpl.
  - split; [by intros HQ t a [-> ->] | by intros HQ; apply HQ].
  - split.
    + intros HQ t a (r & t' & -> & Hex). by apply (proj1 (IH r _) (HQ r) t' a).
    + intros HQ r. apply IH. intros t a Hex. apply HQ. eauto.
Qed.

Lemma wp_mono {A} (p : fw S A) (Q Q' : A -> list (event S) -> Prop) :
  (forall a t, Q a t -> Q' a t) -> wp p Q -> wp p Q'.
Proof.
  intros HQ. rewrite !wp_exec. eauto.
Qed.

Lemma wp_true {A} (p : fw S A) : wp p (fun _ _ => True).
Proof. by rewrite wp_exec. Qed.

Lemma wp_and {A} (p : fw S A) (Q Q' : A -> list (event S) -> Prop) :
  wp p Q -> wp p Q' -> wp p (fun a t => Q a t /\ Q' a t).
Proof. rewrite !wp_exec. eauto. Qed.

Lemma exec_bind {A B} (p : fw S A) (f : A -> fw S B) t b :
  exec (p ≫= f) t b <->
  exists t1 a t2, t = t1 ++ t2 /\ exec p t1 a /\ exec (f a) t2 b.
Proof.
  revert t. induction p as [a|c k IH]; intros t.
  - simpl. split.
    + intros H. exists [], a, t. naive_solver.
    + by intros (t1 & a' & t2 & -> & [-> ->] & H).
  - change (exec (Do c (fun r => k r ≫= f)) t b <->
            exists t1 a t2, t = t1 ++ t2 /\ exec (Do c k) t1 a /\ exec (f a) t2 b).
    simpl. split.
    + intros (r & t' & -> & (t1 & a & t2 & -> & H1 & H2)%IH).
      exists (Ev c r :: t1), a, t2. split; [done|]. split; [eauto|done].
    + intros (t1 & a & t2 & -> & (r & t' & -> & H1) & H2).
      exists r, (t' ++ t2). split; [done|]. apply IH. eauto 6.
Qed.

Lemma wp_bind {A B} (p : fw S A) (f : A -> fw S B) (Q : B -> list (event S) -> Prop) :
  wp (p ≫= f) Q <-> wp p (fun a t => wp (f a) (fun b t' => Q b (t ++ t'))).
Proof.
  rewrite !wp_exec. setoid_rewrite wp_exec. setoid_rewrite exec_bind. split.
  - intros HQ t1 a H1 t2 b H2. apply HQ. eauto 7.
  - intros HQ t b (t1 & a & t2 & -> & H1 & H2). eauto.
Qed.

(** Sequencing through an intermediate assertion. *)
Lemma wp_seq {A B} (p : fw S A) (f : A -> fw S B)
    (R : A -> list (event S) -> Prop) (Q : B -> list (event S) -> Prop) :
  wp p R ->
  (forall a t, R a t -> wp (f a) (fun b t' => Q b (t ++ t'))) ->
  wp (p ≫= f) Q.
Proof. intros Hp Hf. apply wp_bind. eapply wp_mono; [|exact Hp]. eauto. Qed.

Lemma exec_run {A W} (H : handler S W) (p : fw S A) w :
  exec p (run_trace H p w) (run_val H p w).
Proof.
  unfold run_trace, run_val. revert w. induction p as [a|c k IH]; intros w; simpl; [done|].
  eexists _, _. split; [done|]. apply IH.
Qed.

Lemma run_bind {A B W} (H : handler S W) (p : fw S A) (f : A -> fw S B) w :
  run H (p ≫= f) w =
  let o1 := run H p w in
  let o2 := run H (f (fst (fst o1))) (snd (fst o1)) in
  (fst o2, snd o1 ++ snd o2).
Proof.
  revert w. induction p as [a|c k IH]; intros w.
  - simpl. by destruct (run H (f a) w) as [[??]?].
  - change (run H (Do c k ≫= f) w) with (run H (Do c (fun r => k r ≫= f)) w).
    cbn [run fst snd]. rewrite IH. cbv zeta. by destruct (run H (f _) _) as [[??]?].
Qed.

(** A property of all executions holds of every run. *)
Lemma wp_run {A W} (H : handler S W) (p : fw S A) (Q : A -> list (event S) -> Prop) w :
  wp p Q -> Q (run_val H p w) (run_trace H p w).
Proof. rewrite wp_exec. intros HQ. apply HQ, exec_run. Qed.
End theory.

(** Assertions are compared pointwise; [wp] respects that. *)
#[global] Instance wp_proper {S A} (p : fw S A) :
  Proper (pointwise_relation _ (pointwise_relation _ iff) ==> iff) (wp p).
Proof. intros Q Q' HQ. split; apply wp_mono; intros a t; apply HQ. Qed.

(** ** Which calls a program can make

    [only P p]: every call of every execution of [p] satisfies [P]. *)

Fixpoint only {S A} (P : op S -> Prop) (p : fw S A) : Prop :=
  match p with
  | Ret _ => True
  | Do c k => P c /\ forall r, only P (k r)
  end.

Section only.
Context {S : sig} (P : op S -> Prop).

Lemma only_ret {A} (a : A) : only P (mret (M := fw S) a).
Proof. done. Qed.

Lemma only_call (c : op S) : P c -> only P (call c).
Proof. by simpl. Qed.

Lemma only_bind {A B} (p : fw S A) (f : A -> fw S B) :
  only P p -> (forall a, only P (f a)) -> only P (p ≫= f).
Proof.
  intros Hp Hf. induction p as [a|c k IH]; [apply Hf|].
  destruct Hp as [Hc Hk]. split; [done|]. intros r. by apply IH.
Qed.

Lemma only_for_each {A} (l : list A) (body : A -> fw S unit) :
  (forall x, only P (body x)) -> only P (for_each l body).
Proof. intros Hb. induction l as [|x l IH]; simpl; [done|]. by apply only_bind. Qed.

Lemma only_obind {A B} (p : fw S (option A)) (f : A -> fw S (option B)) :
  only P p -> (forall a, only P (f a)) -> only P (obind p f).
Proof. intros Hp Hf. apply only_bind; [done|]. intros [a|]; [apply Hf|done]. Qed.

Lemma only_wp {A} (p : fw S A) : only P p -> wp p (fun _ t => Forall (fun e => P (ev_op e)) t).
Proof.
  induction p as [a|c k IH]; simpl; [constructor|].
  intros [Hc Hk] r. eapply wp_mono; [|apply IH, Hk]. intros a t Ht. by constructor.
Qed.

Lemma only_exec {A} (p : fw S A) t a :
  only P p -> exec p t a -> Forall (fun e => P (ev_op e)) t.
Proof. intros Ho. apply (proj1 (wp_exec _ _) (only_wp p Ho)). Qed.
End only.

Lemma only_mono {S A} (P P' : op S -> Prop) (p : fw S A) :
  (forall c, P c -> P' c) -> only P p -> only P' p.
Proof.
  intros HP. induction p as [a|c k IH]; simpl; [done|]. intros [Hc Hk]. split; [by apply HP|].
  intros r. by apply IH.
Qed.

#[export] Hint Resolve only_ret only_call only_bind only_for_each only_obind : nuc.

(** ** Monitors

    A monitor reads a trace event by event and fails on the first one that
    breaks its protocol. *)

Section monitor.
Context {S : sig} {M : Type} (step : M -> event S -> option M).

Fixpoint monitor (m : M) (t : list (event S)) : option M :=
  match t with
  | [] => Some m
  | e :: t => match step m e with Some m => monitor m t | None => None end
  end.

Lemma monitor_app m t1 t2 :
  monitor m (t1 ++ t2) = match monitor m t1 with Some m => monitor m t2 | None => None end.
Proof. revert m. induction t1 as [|e t1 IH]; intros m; simpl; [done|]. by destruct (step m e). Qed.

(** [mon m p Q]: from state [m] the monitor accepts every execution of [p],
    and its final state and the result satisfy [Q]. *)
Definition mon {A} (m : M) (p : fw S A) (Q : A -> M -> Prop) : Prop :=
  wp p (fun a t => exists m', monitor m t = Some m' /\ Q a m').

Lemma mon_ret {A} m (a : A) (Q : A -> M -> Prop) : Q a m -> mon m (mret a) Q.
Proof. intros HQ. by exists m. Qed.

Lemma mon_mono {A} m (p : fw S A) (Q Q' : A -> M -> Prop) :
  (forall a m', Q a m' -> Q' a m') -> mon m p Q -> mon m p Q'.
Proof. intros HQ. apply wp_mono. intros a t (m' & Ht & Ha). exists m'. auto. Qed.

Lemma mon_bind {A B} m (p : fw S A) (f : A -> fw S B) (Q : B -> M -> Prop) :
  mon m p (fun a m1 => mon m1 (f a) Q) -> mon m (p ≫= f) Q.
Proof.
  intros Hp. eapply wp_seq; [exact Hp|]. simpl. intros a t (m1 & Ht & Hf).
  eapply wp_mono; [|exact Hf]. simpl. intros b t' (m2 & Ht' & HQ).
  exists m2. by rewrite monitor_app, Ht.
Qed.

Lemma mon_call m (c : op S) (Q : res S c -> M -> Prop) :
  (forall r, exists m', step m (Ev c r) = Some m' /\ Q r m') -> mon m (call c) Q.
Proof. intros Hs r. destruct (Hs r) as (m' & Hm & HQ). exists m'. simpl. by rewrite Hm. Qed.

Lemma mon_call_ m (c : op S) (Q : unit -> M -> Prop) :
  (forall r, exists m', step m (Ev c r) = Some m' /\ Q tt m') -> mon m (call_ c) Q.
Proof. intros Hs r. destruct (Hs r) as (m' & Hm & HQ). exists m'. simpl. by rewrite Hm. Qed.

(** Calls the monitor does not look at leave its state alone. *)
Lemma mon_only (P : op S -> Prop) {A} m (p : fw S A) (Q : A -> M -> Prop) :
  (forall m c r, P c -> step m (Ev c r) = Some m) ->
  only P p -> (forall a, Q a m) -> mon m p Q.
Proof.
  intros HP Ho HQ. unfold mon. induction p as [a|c k IH]; simpl; [by exists m|].
  destruct Ho as [Hc Hk]. intros r. eapply wp_mono; [|apply IH, Hk].
  intros a t (m' & Ht & Ha). exists m'. simpl. by rewrite HP.
Qed.

Lemma mon_for_each {A} m (l : list A) (body : A -> fw S unit) :
  (forall x, mon m (body x) (fun _ m' => m' = m)) ->
  mon m (for_each l body) (fun _ m' => m' = m).
Proof.
  intros Hb. induction l as [|x l IH]; cbn [for_each]; [by apply mon_ret|].
  apply mon_bind. eapply mon_mono; [|apply Hb]. by intros _ m' ->.
Qed.

Lemma mon_exec {A} m (p : fw S A) (Q : A -> M -> Prop) t a :
  mon m p Q -> exec p t a -> exists m', monitor m t = Some m' /\ Q a m'.
Proof. intros Hm. apply (proj1 (wp_exec _ _) Hm). Qed.
End monitor.

(** ** Postconditions of runs

    [rwp H p w Q]: the run of [p] against the handler [H] from state [w]
    returns a value and leaves a state that satisfy [Q]. *)

Section rwp.
Context {S : sig} {W : Type} (H : handler S W).

Definition rwp {A} (p : fw S A) (w : W) (Q : A -> W -> Prop) : Prop := Q (run_val H p w) (run_state H p w).

Lemma rwp_ret {A} (a : A) w (Q : A -> W -> Prop) : Q a w -> rwp (mret a) w Q.
Proof. done. Qed.
Lemma rwp_call (c : op S) w (Q : res S c -> W -> Prop) : Q (fst (H c w)) (snd (H c w)) -> rwp (call c) w Q.
Proof. done. Qed.
Lemma rwp_call_ (c : op S) w (Q : unit -> W -> Prop) : Q tt (snd (H c w)) -> rwp (call_ c) w Q.
Proof. done. Qed.
Lemma rwp_bind {A B} (p : fw S A) (f : A -> fw S B) w (Q : B -> W -> Prop) :
  rwp p w (fun a w' => rwp (f a) w' Q) -> rwp (p ≫= f) w Q.
Proof. unfold rwp, run_val, run_state. by rewrite run_bind. Qed.
Lemma rwp_mono {A} (p : fw S A) w (Q Q' : A -> W -> Prop) : (forall a w', Q a w' -> Q' a w') -> rwp p w Q -> rwp p w Q'.
Proof. unfold rwp. auto. Qed.
Lemma rwp_run {A} (p : fw S A) w (Q : A -> W -> Prop) : rwp p w Q <-> Q (run_val H p w) (run_state H p w).
Proof. done. Qed.
Lemma rwp_and {A} (p : fw S A) w (Q Q' : A -> W -> Prop) : rwp p w Q -> rwp p w Q' -> rwp p w (fun a w' => Q a w' /\ Q' a w').
Proof. by split. Qed.

(** With the calls made on the way. *)
Definition rtwp {A} (p : fw S A) (w : W) (Q : A -> W -> list (event S) -> Prop) : Prop :=
  Q (run_val H p w) (run_state H p w) (run_trace H p w).

Lemma rtwp_ret {A} (a : A) w (Q : A -> W -> list (event S) -> Prop) : Q a w [] -> rtwp (mret a) w Q.
Proof. done. Qed.
Lemma rtwp_mono {A} (p : fw S A) w (Q Q' : A -> W -> list (event S) -> Prop) :
  (forall a w' t, Q a w' t -> Q' a w' t) -> rtwp p w Q -> rtwp p w Q'.
Proof. unfold rtwp. auto. Qed.
Lemma rtwp_bind {A B} (p : fw S A) (f : A -> fw S B) w (Q : B -> W -> list (event S) -> Prop) :
  rtwp p w (fun a w' t => rtwp (f a) w' (fun b w'' t' => Q b w'' (t ++ t'))) -> rtwp (p ≫= f) w Q.
Proof. unfold rtwp, run_val, run_state, run_trace. by rewrite run_bind. Qed.
Lemma rtwp_call (c : op S) w (Q : res S c -> W -> list (event S) -> Prop) :
  Q (fst (H c w)) (snd (H c w)) [Ev c (fst (H c w))] -> rtwp (call c) w Q.
Proof. unfold rtwp, run_val, run_state, run_trace. cbn. by destruct (H c w). Qed.
Lemma rtwp_and {A} (p : fw S A) w (Q Q' : A -> W -> list (event S) -> Prop) :
  rtwp p w Q -> rtwp p w Q' -> rtwp p w (fun a w' t => Q a w' t /\ Q' a w' t).
Proof. by split. Qed.
Lemma rtwp_run {A} (p : fw S A) w (Q : A -> W -> list (event S) -> Prop) : rtwp p w Q <-> Q (run_val H p w) (run_state H p w) (run_trace H p w).
Proof. done. Qed.
Lemma rwp_rtwp {A} (p : fw S A) w (Q : A -> W -> Prop) : rwp p w Q -> rtwp p w (fun a w' _ => Q a w').
Proof. done. Qed.
(** What holds of every execution, and what holds of this one. *)
Lemma rtwp_both {A} (p : fw S A) w (R : A -> list (event S) -> Prop) (Q : A -> W -> Prop) :
  wp p R -> rwp p w Q -> rtwp p w (fun a w' t => R a t /\ Q a w').
Proof. intros HR HQ. split; [|exact HQ]. apply (proj1 (wp_exec p R) HR), exec_run. Qed.
End rwp.
#[global] Opaque rwp rtwp.

(** ** Invariants of the service state along a run *)

Section measures.
Context {S : sig} {W : Type} (H : handler S W).

(** A relation every single call respects is respected by whole programs. *)
Lemma run_preserves (R : W -> W -> Prop) `{!PreOrder R} {A} (p : fw S A) w :
  (forall c w, R w (snd (H c w))) -> R w (run_state H p w).
Proof.
  intros HR. unfold run_state. revert w. induction p as [a|c k IH]; intros w; simpl; [reflexivity|].
  transitivity (snd (H c w)); [apply HR|apply IH].
Qed.

#[local] Instance measure_preorder (m : W -> nat) :
  PreOrder (fun a b => (m b <= m a)%nat).
Proof. split; [intros x; simpl; lia | intros x y z; simpl; lia]. Qed.

(** A measure no call increases, and that some call whose event satisfies
    [P] strictly decreases, is smaller after a run whose trace has such an
    event. *)
Lemma run_decreases (m : W -> nat) (P : event S -> Prop) {A} (p : fw S A) w :
  (forall c w, (m (snd (H c w)) <= m w)%nat) ->
  (forall c w, P (Ev c (fst (H c w))) -> (m (snd (H c w)) < m w)%nat) ->
  Exists P (run_trace H p w) ->
  (m (run_state H p w) < m w)%nat.
Proof.
  intros Hle Hlt. unfold run_trace, run_state. revert w.
  induction p as [a|c k IH]; intros w; simpl; [by intros ?%Exists_nil|].
  intros [He|He]%Exists_cons.
  - pose proof (Hlt _ _ He).
    pose proof (run_preserves (fun a b => (m b <= m a)%nat) (k (fst (H c w))) (snd (H c w)) Hle).
    unfold run_state in *. lia.
  - specialize (IH _ _ He). specialize (Hle c w). lia.
Qed.
End measures.

(** ** Proof automation

    [wp_step] performs one step of symbolic execution: it enters binds,
    answers calls with an arbitrary result and splits on conditions. *)

Lemma wp_call_ {S : sig} (c : op S) (Q : unit -> list (event S) -> Prop) :
  (forall r, Q tt [Ev c r]) -> wp (call_ c) Q.
Proof. done. Qed.

Lemma wp_call_bind {S : sig} {B} (c : op S) (f : res S c -> fw S B) (Q : B -> list (event S) -> Prop) :
  (forall r, wp (f r) (fun b t => Q b (Ev c r :: t))) -> wp (call c ≫= f) Q.
Proof. intros Hf. apply wp_bind. exact Hf. Qed.

Lemma wp_ret {S : sig} {A} (a : A) (Q : A -> list (event S) -> Prop) :
  Q a [] -> wp (mret a) Q.
Proof. done. Qed.

Ltac wp_step :=
  lazymatch goal with
  | |- wp (mbind _ _) _ => apply wp_bind
  | |- wp (call _) _ => cbn [wp call]; intros ?; cbn beta iota
  | |- wp (call_ _) _ => apply wp_call_; intros ?; cbn beta iota
  | |- wp (mret _) _ => apply wp_ret; cbn beta iota
  | |- wp (if ?b then _ else _) _ => destruct b eqn:?
  | |- wp (match ?x with (_, _) => _ end) _ => destruct x eqn:?
  | |- wp (match ?x with Some _ => _ | None => _ end) _ => destruct x eqn:?
  | |- wp (let _ := _ in _) _ => cbv zeta
  end.
Ltac wp_go := repeat wp_step; cbn [app].

(** The same for monitored programs; [mon_call] leaves the state the monitor
    moves to and the answer to the caller. *)
Ltac mon_step :=
  lazymatch goal with
  | |- mon _ _ (mbind _ _) _ => apply mon_bind
  | |- mon _ _ (obind _ _) _ => apply mon_bind
  | |- mon _ _ (call _) _ => apply mon_call; intros ?; cbn beta iota
  | |- mon _ _ (call_ _) _ => apply mon_call_; intros ?; cbn beta iota
  | |- mon _ _ (mret _) _ => apply mon_ret; cbn beta iota
  | |- mon _ _ (if ?b then _ else _) _ => destruct b eqn:?
  | |- mon _ _ (match ?x with (_, _) => _ end) _ => destruct x eqn:?
  | |- mon _ _ (match ?x with Some _ => _ | None => _ end) _ => destruct x eqn:?
  | |- mon _ _ (let _ := _ in _) _ => cbv zeta
  end.

(** Case split for [only] goals. *)
Ltac only_go :=
  repeat first
    [ assumption
    | apply only_bind; [|intros ?]
    | apply only_obind; [|intros ?]
    | apply only_for_each; intros ?
    | apply only_call; done
    | exact I
    | match goal with
      | |- only _ (call_ _) => split; [done|done]
      | |- only _ (mret _) => exact I
      | |- only _ (if ?b then _ else _) => destruct b
      | |- only _ (match ?x with _ => _ end) => destruct x
      | |- only _ (let _ := _ in _) => cbv zeta
      end ].
