(* ===== verification/Uefi.v ===== *)
(** * UEFI data shared by the components

    Status codes, GUIDs and device-path nodes as the UEFI headers define
    them, for X64 (UINTN is 64 bits wide). *)

From S2P Require Import Prelude.

(** ** EFI_STATUS: a UINTN whose top bit marks an error *)

Abbreviation EFI_STATUS := Z (only parsing).

Definition MAX_BIT : Z := 2 ^ 63.
Definition EFI_ERROR (s : EFI_STATUS) : bool := MAX_BIT <=? s.

Definition EFI_SUCCESS : EFI_STATUS := 0.
Definition EFI_WARN_DELETE_FAILURE : EFI_STATUS := 2.
Definition EFI_INVALID_PARAMETER : EFI_STATUS := MAX_BIT + 2.
Definition EFI_UNSUPPORTED : EFI_STATUS := MAX_BIT + 3.
Definition EFI_BAD_BUFFER_SIZE : EFI_STATUS := MAX_BIT + 4.
Definition EFI_BUFFER_TOO_SMALL : EFI_STATUS := MAX_BIT + 5.
Definition EFI_NOT_READY : EFI_STATUS := MAX_BIT + 6.
Definition EFI_DEVICE_ERROR : EFI_STATUS := MAX_BIT + 7.
Definition EFI_WRITE_PROTECTED : EFI_STATUS := MAX_BIT + 8.
Definition EFI_OUT_OF_RESOURCES : EFI_STATUS := MAX_BIT + 9.
Definition EFI_NO_MEDIA : EFI_STATUS := MAX_BIT + 12.
Definition EFI_NOT_FOUND : EFI_STATUS := MAX_BIT + 14.
Definition EFI_ACCESS_DENIED : EFI_STATUS := MAX_BIT + 15.
Definition EFI_TIMEOUT : EFI_STATUS := MAX_BIT + 18.
Definition EFI_ALREADY_STARTED : EFI_STATUS := MAX_BIT + 20.

(** A warning is not an error, and is not success either. *)
Lemma warning_not_error : EFI_ERROR EFI_WARN_DELETE_FAILURE = false /\ EFI_WARN_DELETE_FAILURE <> EFI_SUCCESS.
Proof. done. Qed.

(** ** GUIDs *)

Record EFI_GUID := mkGuid { Data1 : Z; Data2 : Z; Data3 : Z; Data4 : list Z }.

#[global] Instance EFI_GUID_eq_dec : EqDecision EFI_GUID.
Proof. solve_decision. Defined.

Definition CompareGuid (a b : EFI_GUID) : bool := bool_decide (a = b).

Lemma CompareGuid_eq a b : CompareGuid a b = true <-> a = b.
Proof. apply bool_decide_eq_true. Qed.

(** ** Little-endian integers

    [le_combine] is the arithmetic reading of a byte sequence, least
    significant byte first; the code assembles the same value with shifts
    and ors. *)

Fixpoint le_combine (b : list Z) : Z :=
  match b with
  | [] => 0
  | x :: b => x + 256 * le_combine b
  end.

Fixpoint le_split (n : nat) (x : Z) : list Z :=
  match n with
  | O => []
  | S n => x mod 256 :: le_split n (x / 256)
  end.

Definition is_byte (x : Z) : Prop := is_uint 8 x.
Abbreviation bytes b := (Forall is_byte b).

Lemma le_split_bytes n x : bytes (le_split n x).
Proof.
  revert x. induction n as [|n IH]; intros x; constructor; [|apply IH].
  unfold is_byte, is_uint. change (2 ^ 8) with 256. apply Z.mod_pos_bound. lia.
Qed.

Lemma le_split_length n x : length (le_split n x) = n.
Proof. revert x. induction n; intros x; simpl; auto. Qed.

Lemma le_combine_split n x : is_uint (8 * Z.of_nat n) x -> le_combine (le_split n x) = x.
Proof.
  unfold is_uint. revert x. induction n as [|n IH]; intros x Hx.
  - simpl in *. lia.
  - cbn [le_split le_combine]. rewrite IH.
    + pose proof (Z.div_mod x 256). lia.
    + replace (8 * Z.of_nat (S n)) with (8 + 8 * Z.of_nat n) in Hx by lia.
      rewrite Z.pow_add_r in Hx by lia. change (2 ^ 8) with 256 in Hx.
      split; [apply Z.div_pos; lia|]. apply Z.div_lt_upper_bound; lia.
Qed.

Lemma le_combine_range b : bytes b -> 0 <= le_combine b < 256 ^ Z.of_nat (length b).
Proof.
  induction 1 as [|x b Hx _ IH]; [simpl; lia|].
  cbn [le_combine length]. rewrite Nat2Z.inj_succ, Z.pow_succ_r by lia.
  unfold is_byte, is_uint in Hx. change (2 ^ 8) with 256 in Hx. lia.
Qed.

(** Or-ing in a value shifted past the bits in use is an addition. *)
Lemma lor_shiftl_add a b n : 0 <= n -> 0 <= a < 2 ^ n -> Z.lor a (Z.shiftl b n) = a + b * 2 ^ n.
Proof.
  intros Hn Ha.
  assert (Hland : Z.land a (Z.shiftl b n) = 0).
  { apply Z.bits_inj'. intros k Hk. rewrite Z.land_spec, Z.shiftl_spec, Z.bits_0 by done.
    destruct (Z.lt_ge_cases k n).
    - rewrite (Z.testbit_neg_r _ (k - n)) by lia. apply andb_false_r.
    - rewrite <- (Z.mod_small a (2 ^ n)) by done.
      rewrite Z.mod_pow2_bits_high by lia. done. }
  rewrite <- Z.lxor_lor by done. rewrite <- Z.add_nocarry_lxor by done.
  rewrite Z.shiftl_mul_pow2 by done. done.
Qed.

(** ** Device paths: a sequence of typed nodes before the end node *)

Record dp_node := mkNode { dp_type : Z; dp_subtype : Z; dp_data : list Z }.

#[global] Instance dp_node_eq_dec : EqDecision dp_node.
Proof. solve_decision. Defined.

Definition HARDWARE_DEVICE_PATH : Z := 0x01.
Definition MESSAGING_DEVICE_PATH : Z := 0x03.
Definition MEDIA_DEVICE_PATH : Z := 0x04.
Definition HW_VENDOR_DP : Z := 0x04.
Definition MSG_ATAPI_DP : Z := 0x01.
Definition MSG_SCSI_DP : Z := 0x02.
Definition MSG_USB_DP : Z := 0x05.
Definition MSG_MAC_ADDR_DP : Z := 0x0b.
Definition MSG_UART_DP : Z := 0x0e.
Definition MSG_SATA_DP : Z := 0x12.
Definition MSG_NVME_NAMESPACE_DP : Z := 0x17.
Definition MSG_UFS_DP : Z := 0x19.
Definition MSG_SD_DP : Z := 0x1a.
Definition MSG_EMMC_DP : Z := 0x1d.
Definition MEDIA_HARDDRIVE_DP : Z := 0x01.
Definition MEDIA_PIWG_FW_FILE_DP : Z := 0x06.

(** The bytes of a node: type, subtype, 16-bit length, payload. *)
Definition node_bytes (n : dp_node) : list Z :=
  dp_type n :: dp_subtype n :: le_split 2 (len (dp_data n) + 4) ++ dp_data n.
