(* ===== verification/Pool.v ===== *)
(** * Pool memory

    The live allocations of a component as a multiset of pointers; a free
    must name a live one. *)

From S2P Require Import Prelude.
From stdpp Require Import gmultiset.
#[local] Open Scope Z_scope.

Section pool.
Context {A : Type} `{Countable A}.

Definition allocates (m : gmultiset A) (p : option A) : gmultiset A :=
  match p with Some p => m ⊎ {[+ p +]} | None => m end.

Definition frees (m : gmultiset A) (p : A) : option (gmultiset A) :=
  if decide (p ∈ m) then Some (m ∖ {[+ p +]}) else None.

Lemma frees_last m p : frees (m ⊎ {[+ p +]}) p = Some m.
Proof. unfold frees. rewrite decide_True by multiset_solver. f_equal. multiset_solver. Qed.

(** Freeing something older leaves what came later. *)
Lemma frees_under m x p q : frees m p = Some q -> frees (m ⊎ {[+ x +]}) p = Some (q ⊎ {[+ x +]}).
Proof.
  unfold frees. destruct (decide (p ∈ m)); [|done]. intros [= <-]. rewrite decide_True by multiset_solver. f_equal.
  multiset_solver.
Qed.
End pool.

Ltac solve_frees := first [apply frees_last | apply frees_under; solve_frees].
