(* ===== verification/CapsuleParse.v ===== *)
(** * Capsule headers and drop-box file names (NucCapsuleParse.c)

    Pure decoding of the EFI_CAPSULE_HEADER and FMP_PAYLOAD_HEADER fields out
    of a raw file buffer.  A read outside the buffer is [None]; the theorems
    show that no guard combination reaches one, and characterise each
    function by the bytes it accepts. *)

From S2P Require Import Prelude Uefi.

(** ** Definitions *)

Definition CAPSULE_FLAGS_PERSIST_ACROSS_RESET : Z := 0x00010000.

Definition mFmpCapsuleGuid : EFI_GUID :=
  mkGuid 0x6dcbd5ed 0xe82d 0x4c44 [0xbd; 0xa1; 0x71; 0x94; 0x19; 0x9a; 0xd9; 0x2a].

Definition CAPSULE_OFF_GUID : Z := 0.
Definition CAPSULE_OFF_HEADER_SIZE : Z := 16.
Definition CAPSULE_OFF_FLAGS : Z := 20.
Definition CAPSULE_OFF_IMAGE_SIZE : Z := 24.
Definition CAPSULE_MIN_HEADER : Z := 28.
Definition FMP_PAYLOAD_SIGNATURE : Z := 0x3153534D.
Definition FMP_PAYLOAD_MIN_HEADER : Z := 16.
Definition FMP_PAYLOAD_MAX_HEADER : Z := 4096.
Definition FMP_PAYLOAD_SEARCH_LIMIT : Z := 64 * 1024.

Definition ReadLe32 (Buf : list Z) (p : Z) : option Z :=
  p0 ← mem_get Buf p;
  p1 ← mem_get Buf (p + 1);
  p2 ← mem_get Buf (p + 2);
  p3 ← mem_get Buf (p + 3);
  Some (Z.lor (Z.lor (Z.lor p0 (Z.shiftl p1 8)) (Z.shiftl p2 16)) (Z.shiftl p3 24)).

(** [None] is the NULL pointer. *)
Definition NucCapsuleIsFmpCapsule (Guid : option EFI_GUID) : bool :=
  match Guid with
  | None => false
  | Some Guid =>
      if negb (Data1 Guid =? Data1 mFmpCapsuleGuid)
         || negb (Data2 Guid =? Data2 mFmpCapsuleGuid)
         || negb (Data3 Guid =? Data3 mFmpCapsuleGuid)
      then false
      else forallb (fun Index => bool_decide (Data4 Guid !! Index = Data4 mFmpCapsuleGuid !! Index))
                   (seq 0 8)
  end.

(** Result: the status, and the values stored through [ImageSize] and
    [Flags] on success.  The two booleans say whether those output pointers
    are non-NULL. *)
Definition NucCapsuleValidateHeader
    (Buf : option (list Z)) (Len : Z) (ImageSize Flags : bool)
    : option (EFI_STATUS * option (Z * Z)) :=
  match Buf with
  | None => Some (EFI_INVALID_PARAMETER, None)
  | Some Buf =>
      if negb ImageSize || negb Flags then Some (EFI_INVALID_PARAMETER, None)
      else if Len <? CAPSULE_MIN_HEADER then Some (EFI_BAD_BUFFER_SIZE, None)
      else
        d1 ← ReadLe32 Buf CAPSULE_OFF_GUID;
        b4 ← mem_get Buf 4;
        b5 ← mem_get Buf 5;
        b6 ← mem_get Buf 6;
        b7 ← mem_get Buf 7;
        d4 ← mapM (fun Index => mem_get Buf (8 + Index)) (seqZ 0 8);
        let Guid := mkGuid d1 (wrap 16 (Z.lor b4 (Z.shiftl b5 8)))
                           (wrap 16 (Z.lor b6 (Z.shiftl b7 8))) d4 in
        if negb (NucCapsuleIsFmpCapsule (Some Guid)) then Some (EFI_UNSUPPORTED, None)
        else
          HeaderSize ← ReadLe32 Buf CAPSULE_OFF_HEADER_SIZE;
          CapsuleFlags ← ReadLe32 Buf CAPSULE_OFF_FLAGS;
          CapsuleImageSize ← ReadLe32 Buf CAPSULE_OFF_IMAGE_SIZE;
          if negb (Z.land CapsuleFlags CAPSULE_FLAGS_PERSIST_ACROSS_RESET =? 0)
          then Some (EFI_UNSUPPORTED, None)
          else if (HeaderSize <? CAPSULE_MIN_HEADER) || (Len <? HeaderSize)
          then Some (EFI_BAD_BUFFER_SIZE, None)
          else if (CapsuleImageSize <? HeaderSize) || (Len <? CapsuleImageSize)
          then Some (EFI_BAD_BUFFER_SIZE, None)
          else Some (EFI_SUCCESS, Some (CapsuleImageSize, CapsuleFlags))
  end.

(** The search loop.  Fuel exhaustion is [None], like a stray read: the
    totality theorem excludes both. *)
Fixpoint payload_scan (fuel : nat) (Buf : list Z) (Len Limit Offset : Z) : option (option Z) :=
  match fuel with
  | O => None
  | S fuel =>
      if negb (Offset + FMP_PAYLOAD_MIN_HEADER <=? Limit) then Some None
      else
        Signature ← ReadLe32 Buf Offset;
        if negb (Signature =? FMP_PAYLOAD_SIGNATURE)
        then payload_scan fuel Buf Len Limit (Offset + 1)
        else
          HeaderSize ← ReadLe32 Buf (Offset + 4);
          if (HeaderSize <? FMP_PAYLOAD_MIN_HEADER)
             || (FMP_PAYLOAD_MAX_HEADER <=? HeaderSize)
             || (Len <=? Offset + HeaderSize)
          then payload_scan fuel Buf Len Limit (Offset + 1)
          else
            FwVersion ← ReadLe32 Buf (Offset + 8);
            Some (Some FwVersion)
  end.

(** Result: [Some (Some v)] is TRUE with [*FwVersion = v], [Some None] is
    FALSE.  [FwVersion] says whether the output pointer is non-NULL. *)
Definition NucCapsuleGetPayloadVersion
    (Buf : option (list Z)) (Len : Z) (FwVersion : bool) : option (option Z) :=
  match Buf with
  | None => Some None
  | Some Buf =>
      if negb FwVersion || (Len <? FMP_PAYLOAD_MIN_HEADER) then Some None
      else
        let Limit := if Len <? FMP_PAYLOAD_SEARCH_LIMIT then Len else FMP_PAYLOAD_SEARCH_LIMIT in
        payload_scan (S (Z.to_nat Limit)) Buf Len Limit 0
  end.

(** ASCII lower-casing of one CHAR16, as the comparison loop does it. *)
Definition lower16 (C : Z) : Z :=
  if (0x41 <=? C) && (C <=? 0x5A) then wrap 16 (C + (0x61 - 0x41)) else C.

Definition NucCapsuleIsCandidateFile (Name : option (list Z)) : bool :=
  let Ext := lit ".cap" in
  match Name with
  | None => false
  | Some Name =>
      let Len := length Name in
      if (Len =? 1)%nat && bool_decide (Name !! 0%nat = Some 0x2E) then false
      else if (Len =? 2)%nat && bool_decide (Name !! 0%nat = Some 0x2E)
              && bool_decide (Name !! 1%nat = Some 0x2E) then false
      else if (Len <? 4)%nat then false
      else forallb (fun Index =>
                      bool_decide (lower16 <$> Name !! (Len - 4 + Index)%nat = Ext !! Index))
                   (seq 0 4)
  end.

(** ** Specification vocabulary *)

(** The 32-bit little-endian value at offset [p]. *)
Definition le32 (Buf : list Z) (p : Z) : Z := le_combine (take 4 (drop (Z.to_nat p) Buf)).

(** The EFI_FIRMWARE_MANAGEMENT_CAPSULE_ID_GUID as it lies in the file. *)
Definition fmp_guid_bytes : list Z :=
  [0xed; 0xd5; 0xcb; 0x6d; 0x2d; 0xe8; 0x44; 0x4c;
   0xbd; 0xa1; 0x71; 0x94; 0x19; 0x9a; 0xd9; 0x2a].

(** A capsule header this platform applies: FMP GUID, no persistence
    request, and sizes that nest inside the file. *)
Definition applicable_header (Buf : list Z) (Len : Z) : Prop :=
  CAPSULE_MIN_HEADER <= Len
  /\ take 16 Buf = fmp_guid_bytes
  /\ Z.testbit (le32 Buf 20) 16 = false
  /\ CAPSULE_MIN_HEADER <= le32 Buf 16 <= le32 Buf 24
  /\ le32 Buf 24 <= Len.

(** A plausible FMP payload header at offset [o]. *)
Definition plausible_at (Buf : list Z) (Len o : Z) : Prop :=
  le32 Buf o = FMP_PAYLOAD_SIGNATURE
  /\ FMP_PAYLOAD_MIN_HEADER <= le32 Buf (o + 4) < FMP_PAYLOAD_MAX_HEADER
  /\ o + le32 Buf (o + 4) < Len.

(** ** Lemmas *)

Lemma mem_get_drop Buf p k :
  0 <= p -> 0 <= k -> mem_get Buf (p + k) = drop (Z.to_nat p) Buf !! Z.to_nat k.
Proof.
  intros Hp Hk. unfold mem_get. destruct (Z.ltb_spec (p + k) 0); [lia|].
  rewrite lookup_drop. f_equal. lia.
Qed.

Lemma is_byte_iff x : is_byte x <-> 0 <= x < 256.
Proof. done. Qed.

(** The shifts and ors of ReadLe32 compute the little-endian value. *)
Lemma lor_bytes4 p0 p1 p2 p3 :
  is_byte p0 -> is_byte p1 -> is_byte p2 -> is_byte p3 ->
  Z.lor (Z.lor (Z.lor p0 (Z.shiftl p1 8)) (Z.shiftl p2 16)) (Z.shiftl p3 24)
  = le_combine [p0; p1; p2; p3].
Proof.
  rewrite !is_byte_iff. intros H0 H1 H2 H3.
  rewrite (lor_shiftl_add p0 p1 8) by lia.
  rewrite (lor_shiftl_add _ p2 16) by lia.
  rewrite (lor_shiftl_add _ p3 24) by lia.
  cbn [le_combine]. lia.
Qed.

Lemma lor_bytes2 p0 p1 :
  is_byte p0 -> is_byte p1 -> wrap 16 (Z.lor p0 (Z.shiftl p1 8)) = le_combine [p0; p1].
Proof.
  rewrite !is_byte_iff. intros H0 H1.
  rewrite (lor_shiftl_add p0 p1 8) by lia. rewrite wrap_id; [cbn [le_combine]; lia|].
  unfold is_uint. lia.
Qed.

Lemma ReadLe32_spec Buf p :
  bytes Buf -> 0 <= p -> p + 4 <= len Buf -> ReadLe32 Buf p = Some (le32 Buf p).
Proof.
  intros Hb Hp Hl. unfold ReadLe32, le32.
  rewrite <- (Z.add_0_r p) at 1. rewrite !mem_get_drop by lia.
  assert (Hd : bytes (drop (Z.to_nat p) Buf)) by by apply Forall_drop.
  assert (Hn : (4 <= length (drop (Z.to_nat p) Buf))%nat) by (rewrite length_drop; unfold len in Hl; lia).
  destruct (drop (Z.to_nat p) Buf) as [|p0 [|p1 [|p2 [|p3 rest]]]]; simpl in Hn; try lia.
  repeat match goal with H : bytes (_ :: _) |- _ => apply Forall_cons in H as [??] end.
  change (take 4 (p0 :: p1 :: p2 :: p3 :: rest)) with [p0; p1; p2; p3].
  rewrite <- lor_bytes4 by done. reflexivity.
Qed.

Lemma le32_range Buf p : bytes Buf -> is_uint 32 (le32 Buf p).
Proof.
  intros Hb. unfold le32, is_uint.
  set (l := take 4 (drop (Z.to_nat p) Buf)).
  assert (Hl : bytes l) by by apply Forall_take, Forall_drop.
  pose proof (le_combine_range l Hl) as [H0 H1]. split; [done|].
  eapply Z.lt_le_trans; [exact H1|]. change (2 ^ 32) with (256 ^ 4).
  apply Z.pow_le_mono_r; [lia|]. subst l. rewrite length_take. lia.
Qed.

(** The GUID test accepts exactly one GUID (among those with 8 trailing
    bytes, which is what the C type has). *)
Lemma NucCapsuleIsFmpCapsule_iff g :
  length (Data4 g) = 8%nat ->
  NucCapsuleIsFmpCapsule (Some g) = true <-> g = mFmpCapsuleGuid.
Proof.
  intros Hl. destruct g as [a b c d]. cbn [NucCapsuleIsFmpCapsule Data1 Data2 Data3 Data4] in *.
  split; [|by intros [= -> -> -> ->]].
  destruct (negb _ || negb _ || negb _) eqn:E; [done|]. b2p.
  cbn [Data1 Data2 Data3 mFmpCapsuleGuid] in *. subst a b c.
  intros H. f_equal. apply list_eq. intros i.
  rewrite forallb_forall in H. destruct (decide (i < 8)%nat).
  - assert (Hin : In i (seq 0 8)) by (apply in_seq; lia).
    apply H in Hin. by apply bool_decide_eq_true in Hin.
  - rewrite !lookup_ge_None_2; [done|simpl; lia|lia].
Qed.

Lemma land_bit_zero x : (Z.land x CAPSULE_FLAGS_PERSIST_ACROSS_RESET =? 0) = negb (Z.testbit x 16).
Proof.
  unfold CAPSULE_FLAGS_PERSIST_ACROSS_RESET. change 0x10000 with (2 ^ 16).
  apply eq_true_iff_eq. rewrite Z.eqb_eq, negb_true_iff. split.
  - intros H. assert (Ht : Z.testbit (Z.land x (2 ^ 16)) 16 = false) by by rewrite H.
    rewrite Z.land_spec, Z.pow2_bits_true in Ht by lia. by rewrite andb_true_r in Ht.
  - intros H. apply Z.bits_inj'. intros k Hk. rewrite Z.land_spec, Z.bits_0.
    destruct (decide (k = 16)) as [->|Hne]; [by rewrite H|].
    rewrite Z.pow2_bits_false by lia. apply andb_false_r.
Qed.

(** A buffer of at least [n] elements starts with [n] named ones. *)
Lemma mem_get_prefix (Buf : list Z) (i : Z) :
  bytes Buf -> 0 <= i < len Buf -> exists x, mem_get Buf i = Some x /\ is_byte x.
Proof.
  intros Hb Hi. destruct (mem_get_Some Buf i Hi) as (x & Hx & Hin).
  exists x. split; [done|]. by eapply Forall_forall in Hin.
Qed.

(** Decoding of the GUID fields, as the code reads them. *)
Definition header_guid (Buf : list Z) : EFI_GUID :=
  mkGuid (le32 Buf 0) (le_combine (take 2 (drop 4 Buf))) (le_combine (take 2 (drop 6 Buf)))
         (take 8 (drop 8 Buf)).

Lemma list_ge_16 {A} (l : list A) :
  (16 <= length l)%nat ->
  exists a b c d e f g h i j k m n o p q rest,
    l = a :: b :: c :: d :: e :: f :: g :: h :: i :: j :: k :: m :: n :: o :: p :: q :: rest.
Proof.
  intros H. do 16 (destruct l as [|? l]; simpl in H; [lia|]). repeat eexists.
Qed.

(** The decoded GUID is the FMP one exactly when the first 16 bytes are. *)
Lemma header_guid_fmp Buf :
  bytes Buf -> 16 <= len Buf ->
  header_guid Buf = mFmpCapsuleGuid <-> take 16 Buf = fmp_guid_bytes.
Proof.
  intros Hb Hl. unfold len in Hl.
  destruct (list_ge_16 Buf ltac:(lia)) as (a&b&c&d&e&f&g&h&i&j&k&m&n&o&p&q&rest&->).
  repeat match goal with H : bytes (_ :: _) |- _ => apply Forall_cons in H as [??] end.
  unfold header_guid, le32. change (Z.to_nat 0) with 0%nat.
  cbn [take drop]. split.
  - intros Hg. injection Hg as Hd1 Hd2 Hd3 -> -> -> -> -> -> -> ->.
    rewrite is_byte_iff in *. cbn [le_combine] in Hd1, Hd2, Hd3.
    assert (d = 0x6d /\ c = 0xcb /\ b = 0xd5 /\ a = 0xed) as (-> & -> & -> & ->) by lia.
    assert (f = 0xe8 /\ e = 0x2d) as (-> & ->) by lia.
    assert (h = 0x4c /\ g = 0x44) as (-> & ->) by lia.
    done.
  - by intros [= -> -> -> -> -> -> -> -> -> -> -> -> -> -> -> ->].
Qed.

(** With enough bytes every read of ValidateHeader succeeds, and the
    function is the decision over the decoded fields. *)
Lemma ValidateHeader_decoded Buf Len :
  bytes Buf -> CAPSULE_MIN_HEADER <= Len <= len Buf ->
  NucCapsuleValidateHeader (Some Buf) Len true true =
  Some (if negb (bool_decide (header_guid Buf = mFmpCapsuleGuid)) then (EFI_UNSUPPORTED, None)
        else if Z.testbit (le32 Buf 20) 16 then (EFI_UNSUPPORTED, None)
        else if (le32 Buf 16 <? 28) || (Len <? le32 Buf 16) then (EFI_BAD_BUFFER_SIZE, None)
        else if (le32 Buf 24 <? le32 Buf 16) || (Len <? le32 Buf 24) then (EFI_BAD_BUFFER_SIZE, None)
        else (EFI_SUCCESS, Some (le32 Buf 24, le32 Buf 20))).
Proof.
  unfold CAPSULE_MIN_HEADER. intros Hb Hl. cbn [NucCapsuleValidateHeader].
  unfold CAPSULE_OFF_GUID, CAPSULE_OFF_HEADER_SIZE, CAPSULE_OFF_FLAGS, CAPSULE_OFF_IMAGE_SIZE, CAPSULE_MIN_HEADER.
  cbn [negb orb]. destruct (Z.ltb_spec Len 28); [lia|].
  rewrite !ReadLe32_spec by (done || lia). cbn [mbind option_bind].
  assert (Hg : exists b4 b5 b6 b7 d4,
    mem_get Buf 4 = Some b4 /\ mem_get Buf 5 = Some b5 /\ mem_get Buf 6 = Some b6 /\
    mem_get Buf 7 = Some b7 /\ mapM (fun i => mem_get Buf (8 + i)) (seqZ 0 8) = Some d4 /\
    mkGuid (le32 Buf 0) (wrap 16 (Z.lor b4 (Z.shiftl b5 8))) (wrap 16 (Z.lor b6 (Z.shiftl b7 8))) d4
    = header_guid Buf).
  { unfold len in Hl. destruct (list_ge_16 Buf ltac:(lia)) as (a&b&c&d&e&f&g&h&i&j&k&m&n&o&p&q&rest&->).
    repeat match goal with H : bytes (_ :: _) |- _ => apply Forall_cons in H as [??] end.
    exists e, f, g, h, [i; j; k; m; n; o; p; q]. repeat (split; [reflexivity|]).
    unfold header_guid. f_equal; by apply lor_bytes2. }
  destruct Hg as (b4 & b5 & b6 & b7 & d4 & -> & -> & -> & -> & -> & Hguid).
  cbn [mbind option_bind]. rewrite Hguid, land_bit_zero, negb_involutive.
  assert (Heq : NucCapsuleIsFmpCapsule (Some (header_guid Buf))
                = bool_decide (header_guid Buf = mFmpCapsuleGuid)).
  { apply eq_true_iff_eq. rewrite bool_decide_eq_true. apply NucCapsuleIsFmpCapsule_iff.
    cbn. rewrite length_take, length_drop. unfold len in Hl. lia. }
  rewrite Heq. by repeat case_match.
Qed.

(** ** Theorems: header validation *)

(** C11: NucCapsuleValidateHeader never reads outside the buffer: whenever
    [Len] does not exceed the bytes really there, the call returns a status,
    whatever the pointers and whatever the bytes. *)
Theorem ValidateHeader_safe (Buf : list Z) (Len : Z) (b : bool) (ImageSize Flags : bool)
    (Hbytes : bytes Buf) (Hlen : Len <= len Buf) :
  is_Some (NucCapsuleValidateHeader (if b then Some Buf else None) Len ImageSize Flags).
Proof.
  destruct b; [|by eexists]. destruct ImageSize, Flags; try by eexists.
  destruct (Z.lt_ge_cases Len CAPSULE_MIN_HEADER) as [Hs|Hs].
  - cbn. apply Z.ltb_lt in Hs. rewrite Hs. by eexists.
  - rewrite ValidateHeader_decoded by done. by eexists.
Qed.

Lemma ValidateHeader_safe_witness :
  is_Some (NucCapsuleValidateHeader (Some (repeat 0xff 28)) 28 true true).
Proof.
  apply (ValidateHeader_safe (repeat 0xff 28) 28 true true true).
  - apply Forall_forall. intros x Hx. vm_compute in Hx.
    repeat (apply elem_of_cons in Hx as [->|Hx]; [done|]). by apply not_elem_of_nil in Hx.
  - vm_compute. discriminate.
Defined.

(** C10: Header validation accepts exactly the capsules this platform can
    apply.  EFI_SUCCESS is returned, with the image size and flags fields of
    the header, if and only if the file starts with the FMP capsule GUID,
    does not ask to persist across reset, and its header and image sizes
    nest inside the file. *)
Theorem ValidateHeader_success_iff (Buf : list Z) (Len isz fl : Z)
    (Hbytes : bytes Buf) (Hlen : Len <= len Buf) :
  NucCapsuleValidateHeader (Some Buf) Len true true = Some (EFI_SUCCESS, Some (isz, fl)) <->
  applicable_header Buf Len /\ isz = le32 Buf 24 /\ fl = le32 Buf 20.
Proof.
  unfold applicable_header. destruct (Z.lt_ge_cases Len CAPSULE_MIN_HEADER) as [Hs|Hs].
  { cbn. apply Z.ltb_lt in Hs as Hs'. rewrite Hs'. split; [done|lia]. }
  rewrite ValidateHeader_decoded by done.
  rewrite <- header_guid_fmp by (unfold CAPSULE_MIN_HEADER in *; done || lia).
  destruct (bool_decide _) eqn:Hg; cbn [negb].
  2:{ apply bool_decide_eq_false in Hg. split; [done|]. by intros ((_ & ? & _) & _). }
  apply bool_decide_eq_true in Hg. destruct (Z.testbit _ 16) eqn:Ht.
  { split; [done|]. by intros ((_ & _ & ? & _) & _). }
  unfold CAPSULE_MIN_HEADER in *.
  destruct ((_ <? 28) || _) eqn:H1;
    [|destruct ((le32 Buf 24 <? _) || _) eqn:H2].
  - split; [done|]. apply orb_true_iff in H1. rewrite !Z.ltb_lt in H1. lia.
  - split; [done|]. apply orb_true_iff in H2. rewrite !Z.ltb_lt in H2. lia.
  - b2p. split; [|by intros (_ & -> & ->)].
    intros Heq. assert (le32 Buf 24 = isz /\ le32 Buf 20 = fl) as [<- <-] by (split; congruence).
    repeat split; (done || lia).
Qed.

(** A minimal capsule: FMP GUID, header size 28, flags 0, image size 32. *)
Definition sample_capsule : list Z :=
  fmp_guid_bytes ++ le_split 4 28 ++ le_split 4 0 ++ le_split 4 32 ++ [1; 2; 3; 4].

Lemma sample_capsule_bytes : bytes sample_capsule.
Proof.
  apply Forall_forall. intros x Hx. vm_compute in Hx.
  repeat (apply elem_of_cons in Hx as [->|Hx]; [done|]). by apply not_elem_of_nil in Hx.
Qed.

Lemma ValidateHeader_success_witness :
  applicable_header sample_capsule 32 /\ 32 = le32 sample_capsule 24 /\ 0 = le32 sample_capsule 20.
Proof.
  apply (ValidateHeader_success_iff sample_capsule 32 32 0 sample_capsule_bytes).
  - vm_compute. discriminate.
  - vm_compute. reflexivity.
Defined.

(** ** Theorems: the payload version search *)

Lemma payload_scan_spec (Buf : list Z) (Len Limit : Z) (Hbytes : bytes Buf)
    (Hlim : Limit <= len Buf) fuel Offset :
  0 <= Offset <= Limit -> Limit - Offset < Z.of_nat fuel ->
  match payload_scan fuel Buf Len Limit Offset with
  | None => False
  | Some None => forall o, Offset <= o -> o + 16 <= Limit -> ~ plausible_at Buf Len o
  | Some (Some v) =>
      exists o, Offset <= o /\ o + 16 <= Limit /\ plausible_at Buf Len o /\
        (forall o', Offset <= o' < o -> ~ plausible_at Buf Len o') /\ v = le32 Buf (o + 8)
  end.
Proof.
  revert Offset. induction fuel as [|fuel IH]; intros Offset Ho Hf; [lia|].
  cbn [payload_scan]. unfold FMP_PAYLOAD_MIN_HEADER.
  destruct (Z.leb_spec (Offset + 16) Limit) as [Hin|Hout]; cbn [negb]; [|intros o ??; lia].
  rewrite !ReadLe32_spec by (done || lia). cbn [mbind option_bind].
  assert (Hnext : ~ plausible_at Buf Len Offset ->
    match payload_scan fuel Buf Len Limit (Offset + 1) with
    | None => False
    | Some None => forall o, Offset <= o -> o + 16 <= Limit -> ~ plausible_at Buf Len o
    | Some (Some v) =>
        exists o, Offset <= o /\ o + 16 <= Limit /\ plausible_at Buf Len o /\
          (forall o', Offset <= o' < o -> ~ plausible_at Buf Len o') /\ v = le32 Buf (o + 8)
    end).
  { intros Hno. specialize (IH (Offset + 1) ltac:(lia) ltac:(lia)).
    destruct (payload_scan fuel Buf Len Limit (Offset + 1)) as [[v|]|]; [| |done].
    - destruct IH as (o & ? & ? & ? & Hfirst & ->). exists o. split; [lia|]. split; [done|]. split; [done|]. split; [|done].
      intros o' Ho'. destruct (decide (o' = Offset)) as [->|]; [done|]. apply Hfirst. lia.
    - intros o Ho1 Ho2. destruct (decide (o = Offset)) as [->|]; [done|]. apply IH; lia. }
  destruct (Z.eqb_spec (le32 Buf Offset) FMP_PAYLOAD_SIGNATURE) as [Hsig|Hsig]; cbn [negb].
  2:{ apply Hnext. by intros [? _]. }
  destruct ((_ <? 16) || _ || _) eqn:Hh.
  - apply Hnext. intros (_ & [Hp1 Hp2] & Hp3). unfold FMP_PAYLOAD_MIN_HEADER, FMP_PAYLOAD_MAX_HEADER in *.
    rewrite !orb_true_iff, Z.ltb_lt, !Z.leb_le in Hh. lia.
  - b2p. exists Offset. repeat split; try lia; try done.
Qed.

#[global] Instance plausible_at_dec Buf Len o : Decision (plausible_at Buf Len o).
Proof. unfold plausible_at. apply _. Defined.

(** The search by specification: the offsets at which a minimal header fits
    into the first 64 KiB, in order. *)
Definition reference_version (Buf : list Z) (Len : Z) : option Z :=
  (fun o => le32 Buf (o + 8)) <$> List.find (fun o => bool_decide (plausible_at Buf Len o)) (seqZ 0 (Z.min Len 65536 - 15)).

Lemma find_none {A} (f : A -> bool) l : Forall (fun x => f x = false) l -> List.find f l = None.
Proof. induction 1 as [|x l Hx _ IH]; [done|]. cbn. by rewrite Hx. Qed.
Lemma find_skip {A} (f : A -> bool) l l' : Forall (fun x => f x = false) l -> List.find f (l ++ l') = List.find f l'.
Proof. induction 1 as [|x l Hx _ IH]; [done|]. cbn. by rewrite Hx. Qed.

(** C26: The payload version search is the search by specification.  For any
    buffer and length inside it the byte-wise loop reads only inside the
    buffer, terminates, and answers with the version of the first offset at
    which a plausible payload header lies in the first 64 KiB, or FALSE when
    there is none or the file is shorter than a header. *)
Theorem GetPayloadVersion_first (Buf : list Z) (Len : Z) (Hbytes : bytes Buf) (Hlen : Len <= len Buf) :
  NucCapsuleGetPayloadVersion (Some Buf) Len true = Some (reference_version Buf Len).
Proof.
  cbn [NucCapsuleGetPayloadVersion]. unfold reference_version. destruct (Z.ltb_spec Len FMP_PAYLOAD_MIN_HEADER) as [Hs|Hs];
    cbn [negb orb]; unfold FMP_PAYLOAD_MIN_HEADER, FMP_PAYLOAD_SEARCH_LIMIT in *.
  { rewrite seqZ_nil by lia. done. }
  replace (if Len <? 64 * 1024 then Len else 64 * 1024) with (Z.min Len 65536)
    by (destruct (Z.ltb_spec Len (64 * 1024)); lia).
  pose proof (payload_scan_spec Buf Len (Z.min Len 65536) Hbytes ltac:(lia) (S (Z.to_nat (Z.min Len 65536))) 0 ltac:(lia) ltac:(lia)) as Hsc.
  destruct (payload_scan _ _ _ _ _) as [[v|]|]; [| |done].
  - destruct Hsc as (o & Ho1 & Ho2 & Ho & Hfirst & ->).
    replace (Z.min Len 65536 - 15) with (o + (Z.min Len 65536 - 15 - o)) by lia. rewrite seqZ_app by lia.
    rewrite find_skip, (seqZ_cons (0 + o)) by lia || (apply Forall_forall; intros x Hx%elem_of_seqZ; apply bool_decide_false, Hfirst; lia).
    cbn [List.find]. by rewrite bool_decide_true.
  - rewrite find_none; [done|]. apply Forall_forall. intros x Hx%elem_of_seqZ. apply bool_decide_false, Hsc; lia.
Qed.

(** A capsule whose payload header declares version 0x10203. *)
Definition sample_versioned : list Z :=
  [9; 9; 9] ++ le_split 4 0x3153534D ++ le_split 4 16 ++ le_split 4 0x10203 ++ le_split 4 1 ++ [7].

Lemma GetPayloadVersion_witness :
  NucCapsuleGetPayloadVersion (Some sample_versioned) 20 true = Some (Some 0x10203).
Proof.
  assert (Hb : bytes sample_versioned).
  { apply Forall_forall. intros x Hx. vm_compute in Hx.
    repeat (apply elem_of_cons in Hx as [->|Hx]; [done|]). by apply not_elem_of_nil in Hx. }
  rewrite (GetPayloadVersion_first sample_versioned 20 Hb ltac:(vm_compute; discriminate)). vm_compute. reflexivity.
Defined.

(** ** Theorems: candidate file names *)

(** A directory entry is a capsule candidate exactly when its name ends
    in ".cap", compared without regard to ASCII case; in particular "." and
    ".." are not, and neither is "cap". *)
Theorem IsCandidateFile_iff (Name : list Z) :
  NucCapsuleIsCandidateFile (Some Name) = true <->
  exists base ext, Name = base ++ ext /\ map lower16 ext = lit ".cap".
Proof.
  cbn [NucCapsuleIsCandidateFile]. split.
  - destruct (_ && _) eqn:E1; [done|]. destruct (_ && _ && _) eqn:E2; [done|].
    destruct (length Name <? 4)%nat eqn:E3; [done|]. apply Nat.ltb_ge in E3.
    rewrite forallb_forall. intros H.
    exists (take (length Name - 4) Name), (drop (length Name - 4) Name).
    split; [by rewrite take_drop|]. apply list_eq. intros i.
    change (map lower16 ?l) with (lower16 <$> l). rewrite list_lookup_fmap, lookup_drop.
    destruct (decide (i < 4)%nat) as [Hi|Hi].
    + assert (Hin : In i (seq 0 4)) by (apply in_seq; lia).
      apply H in Hin. by apply bool_decide_eq_true in Hin.
    + rewrite lookup_ge_None_2 by lia. symmetry. apply lookup_ge_None_2. simpl. lia.
  - intros (base & ext & -> & He). rewrite length_app.
    assert (Hl : length ext = 4%nat) by (rewrite <- (length_map lower16 ext), He; done).
    rewrite Hl. destruct (Nat.eqb_spec (length base + 4) 1); [lia|].
    destruct (Nat.eqb_spec (length base + 4) 2); [lia|]. cbn [andb].
    destruct (Nat.ltb_spec (length base + 4) 4); [lia|].
    apply forallb_forall. intros i Hi. apply in_seq in Hi. apply bool_decide_eq_true.
    rewrite lookup_app_r by lia. rewrite <- He.
    change (map lower16 ?l) with (lower16 <$> l). rewrite list_lookup_fmap. do 2 f_equal. lia.
Qed.
