(* ===== verification/CapsuleScan.v ===== *)
(** * The capsule-on-disk scanner (NucCapsuleOnDiskLib.c)

    The ReadyToBoot callback as a program over the services it calls.  One
    definition per C function; ApplyOneCapsule is split at its three phases
    (open and read, gate, commit).  Console output is left out; everything
    that changes the state of a service, a pool or a file handle is a call. *)

From S2P Require Import Prelude Services Uefi CapsuleParse.

(** ** Constants *)

Definition CAPSULE_DIR_NAME : list Z := lit "\EFI\UpdateCapsule".
Definition MAX_CAPSULE_BYTES : Z := 128 * 1024 * 1024.
Definition MAX_CAPSULES : nat := 8.
Definition SUMMARY_STALL_US : Z := 5 * 1000 * 1000.

Definition mNucCapsuleFmpImageTypeId : EFI_GUID :=
  mkGuid 0xd25f89e1 0x94ec 0x4533 [0x80; 0xb9; 0x7f; 0x88; 0x55; 0xce; 0x0a; 0x94].

Definition EFI_FILE_MODE_READ : Z := 1.
Definition EFI_FILE_MODE_WRITE : Z := 2.
Definition EFI_FILE_DIRECTORY : Z := 0x10.
Definition EFI_VARIABLE_NON_VOLATILE : Z := 1.
Definition EFI_VARIABLE_BOOTSERVICE_ACCESS : Z := 2.
Definition EFI_VARIABLE_RUNTIME_ACCESS : Z := 4.
Definition EFI_OS_INDICATIONS_FILE_CAPSULE_DELIVERY_SUPPORTED : Z := 4.
Definition USB_MASS_STORE_CLASS : Z := 0x08.
Definition LAST_ATTEMPT_STATUS_SUCCESS : Z := 0.
Definition LAST_ATTEMPT_STATUS_ERROR_UNSUCCESSFUL : Z := 1.
Definition LAST_ATTEMPT_STATUS_ERROR_INSUFFICIENT_RESOURCES : Z := 2.
Definition LAST_ATTEMPT_STATUS_ERROR_INCORRECT_VERSION : Z := 3.
Definition LAST_ATTEMPT_STATUS_ERROR_INVALID_FORMAT : Z := 4.
Definition LAST_ATTEMPT_STATUS_ERROR_AUTH_ERROR : Z := 5.
Definition LAST_ATTEMPT_STATUS_ERROR_PWR_EVT_AC : Z := 6.
Definition LAST_ATTEMPT_STATUS_ERROR_PWR_EVT_BATT : Z := 7.

(** The name ReportLastAttempt prints for a recorded status. *)
Definition LastAttemptStatusName (LastAttemptStatus : Z) : list Z :=
  if LastAttemptStatus =? LAST_ATTEMPT_STATUS_SUCCESS then lit "success"
  else if LastAttemptStatus =? LAST_ATTEMPT_STATUS_ERROR_UNSUCCESSFUL then lit "unsuccessful"
  else if LastAttemptStatus =? LAST_ATTEMPT_STATUS_ERROR_INSUFFICIENT_RESOURCES then lit "insufficient resources"
  else if LastAttemptStatus =? LAST_ATTEMPT_STATUS_ERROR_INCORRECT_VERSION then lit "incorrect version"
  else if LastAttemptStatus =? LAST_ATTEMPT_STATUS_ERROR_INVALID_FORMAT then lit "invalid image format"
  else if LastAttemptStatus =? LAST_ATTEMPT_STATUS_ERROR_AUTH_ERROR
  then lit "authentication error (capsule not signed with the certificate this firmware trusts)"
  else if LastAttemptStatus =? LAST_ATTEMPT_STATUS_ERROR_PWR_EVT_AC then lit "AC power not connected"
  else if LastAttemptStatus =? LAST_ATTEMPT_STATUS_ERROR_PWR_EVT_BATT then lit "insufficient battery"
  else lit "vendor/device specific".

(** ** The services *)

Inductive cod_var := OsIndicationsSupported | OsIndications.
Inductive cod_protocol := Usb2Hc | UsbIo | SimpleFileSystem | FirmwareManagement.
Inductive reset_type := EfiResetCold | EfiResetWarm.

Record EFI_FILE_INFO := mkInfo { Attribute : Z; FileSize : Z; FileName : list Z }.

(** What the second GetImageInfo call reports; [PackageVersionName] is the
    pool pointer it may hand out. *)
Record fmp_info := mkFmp {
  DescriptorVersion : Z; DescriptorCount : Z; PackageVersionName : option Z;
  ImageTypeId : EFI_GUID; Version : Z; LastAttemptVersion : Z; LastAttemptStatus : Z }.

(** Calls.  Handles, protocol interfaces, file handles and pool pointers are
    opaque numbers; [option Z] is a pointer that may be NULL. *)
Inductive cod_op :=
  | GetVariable (v : cod_var)
  | SetVariable (v : cod_var) (attributes value : Z)
  | LocateHandleBuffer (p : cod_protocol)
  | HandleProtocol (h : Z) (p : cod_protocol)
  | ConnectController (h : Z) (recursive : bool)
  | UsbGetInterfaceDescriptor (usbio : Z)
  | OpenVolume (fs : Z)
  | FileOpen (dir : Z) (name : list Z) (mode : Z)
  | FileHandleFindFirstFile (dir : Z)
  | FileHandleFindNextFile (dir : Z) (info : EFI_FILE_INFO)
  | FileHandleGetSize (file : Z)
  | FileHandleRead (file : Z) (size : Z)
  | FileHandleClose (file : Z)
  | FileHandleDelete (file : Z)
  | AllocatePool (size : Z)
  | AllocateCopyPool (name : list Z)
  | FreePool (p : Z)
  | GetImageInfoSize (fmp : Z)
  | GetImageInfo (fmp : Z) (size : Z)
  | UpdateCapsule (image : list Z)
  | Stall (us : Z)
  | ResetSystem (type : reset_type)
  | CreateEventEx.

Definition cod_res (c : cod_op) : Type :=
  match c with
  | GetVariable _ => EFI_STATUS * Z
  | LocateHandleBuffer _ => EFI_STATUS * (Z * list Z)
  | HandleProtocol _ _ => EFI_STATUS * Z
  | UsbGetInterfaceDescriptor _ => EFI_STATUS * Z
  | OpenVolume _ => EFI_STATUS * Z
  | FileOpen _ _ _ => EFI_STATUS * Z
  | FileHandleFindFirstFile _ => EFI_STATUS * option EFI_FILE_INFO
  | FileHandleFindNextFile _ _ => EFI_STATUS * (bool * EFI_FILE_INFO)
  | FileHandleGetSize _ => EFI_STATUS * Z
  | FileHandleRead _ _ => EFI_STATUS * list Z
  | AllocatePool _ => option Z
  | AllocateCopyPool _ => option Z
  | GetImageInfoSize _ => EFI_STATUS * Z
  | GetImageInfo _ _ => EFI_STATUS * fmp_info
  | FreePool _ | Stall _ | ResetSystem _ => unit
  | SetVariable _ _ _ | ConnectController _ _ | FileHandleClose _ | FileHandleDelete _
  | UpdateCapsule _ | CreateEventEx => EFI_STATUS
  end.

Definition cod : sig := Sig cod_op cod_res.

(** The bytes a read stored in a UINT8 buffer. *)
Definition as_bytes (raw : list Z) : list Z := map (wrap 8) raw.

(** ** OsIndications *)

Definition AdvertiseFileCapsuleDelivery : fw cod unit :=
  '(Status, data) ← call (S := cod) (GetVariable OsIndicationsSupported);
  let Supported := if EFI_ERROR Status then 0 else data in
  if EFI_ERROR Status && negb (Status =? EFI_NOT_FOUND) then mret tt
  else if negb (Z.land Supported EFI_OS_INDICATIONS_FILE_CAPSULE_DELIVERY_SUPPORTED =? 0) then mret tt
  else call_ (S := cod) (SetVariable OsIndicationsSupported
                (Z.lor EFI_VARIABLE_BOOTSERVICE_ACCESS EFI_VARIABLE_RUNTIME_ACCESS)
                (Z.lor Supported EFI_OS_INDICATIONS_FILE_CAPSULE_DELIVERY_SUPPORTED)).

Definition ClearFileCapsuleIndication : fw cod unit :=
  '(Status, OsInd) ← call (S := cod) (GetVariable OsIndications);
  if EFI_ERROR Status
     || (Z.land OsInd EFI_OS_INDICATIONS_FILE_CAPSULE_DELIVERY_SUPPORTED =? 0)
  then mret tt
  else call_ (S := cod) (SetVariable OsIndications
                (Z.lor (Z.lor EFI_VARIABLE_NON_VOLATILE EFI_VARIABLE_BOOTSERVICE_ACCESS)
                       EFI_VARIABLE_RUNTIME_ACCESS)
                (Z.land OsInd (Z.lnot EFI_OS_INDICATIONS_FILE_CAPSULE_DELIVERY_SUPPORTED))).

(** ** USB mass storage *)

Definition ConnectIfMassStorage (h : Z) : fw cod unit :=
  '(Status, usbio) ← call (S := cod) (HandleProtocol h UsbIo);
  if EFI_ERROR Status then mret tt
  else
    '(Status, InterfaceClass) ← call (S := cod) (UsbGetInterfaceDescriptor usbio);
    if EFI_ERROR Status || negb (InterfaceClass =? USB_MASS_STORE_CLASS) then mret tt
    else call_ (S := cod) (ConnectController h true).

Definition ConnectUsbMassStorage : fw cod unit :=
  '(Status, (Buffer, Handles)) ← call (S := cod) (LocateHandleBuffer Usb2Hc);
  _ ← (if EFI_ERROR Status then mret tt
       else _ ← for_each Handles (fun h => call_ (S := cod) (ConnectController h false));
            call_ (S := cod) (FreePool Buffer));
  '(Status, (Buffer, Handles)) ← call (S := cod) (LocateHandleBuffer UsbIo);
  if EFI_ERROR Status then mret tt
  else _ ← for_each Handles ConnectIfMassStorage;
       call_ (S := cod) (FreePool Buffer).

(** ** Volumes and drop boxes *)

Definition OpenVolumeRoot (FsHandle : Z) : fw cod (option Z) :=
  '(Status, Fs) ← call (S := cod) (HandleProtocol FsHandle SimpleFileSystem);
  if EFI_ERROR Status then mret None
  else
    '(Status, Root) ← call (S := cod) (OpenVolume Fs);
    mret (if EFI_ERROR Status then None else Some Root).

(** The test both drop-box loops apply to a directory entry. *)
Definition is_staged_entry (Info : EFI_FILE_INFO) : bool :=
  (Z.land (Attribute Info) EFI_FILE_DIRECTORY =? 0)
  && (0 <? FileSize Info)
  && NucCapsuleIsCandidateFile (Some (FileName Info)).

(** The [for] loop of DropBoxHasCapsules, from its condition on. *)
Fixpoint has_capsules_loop (fuel : nat) (Dir : Z) (Status : EFI_STATUS) (NoFile : bool)
    (Info : option EFI_FILE_INFO) (Found : bool) : fw cod (option bool) :=
  match fuel with
  | O => mret None
  | S fuel =>
      match Info with
      | Some Info =>
          if negb (EFI_ERROR Status) && negb NoFile && negb Found then
            let Found := if is_staged_entry Info then true else Found in
            '(Status, (NoFile, Info)) ← call (S := cod) (FileHandleFindNextFile Dir Info);
            has_capsules_loop fuel Dir Status NoFile (Some Info) Found
          else mret (Some Found)
      | None => mret (Some Found)
      end
  end.

Definition DropBoxHasCapsules (fuel : nat) (Root : Z) : fw cod (option bool) :=
  '(Status, Dir) ← call (S := cod) (FileOpen Root CAPSULE_DIR_NAME EFI_FILE_MODE_READ);
  if EFI_ERROR Status then mret (Some false)
  else
    '(Status, Info) ← call (S := cod) (FileHandleFindFirstFile Dir);
    Found ←? has_capsules_loop fuel Dir Status false Info false;
    _ ← call_ (S := cod) (FileHandleClose Dir);
    mret (Some Found).

(** ** The FMP's last-attempt record *)

(** What GetFmpLastAttemptStatus stores: status, attempted version, running
    version. *)
Record attempt := mkAttempt { at_status : Z; at_version : Z; at_running : Z }.

#[global] Instance attempt_eq_dec : EqDecision attempt.
Proof. solve_decision. Defined.

Definition fmp_match (Status : EFI_STATUS) (Info : fmp_info) : bool :=
  negb (EFI_ERROR Status) && (0 <? DescriptorCount Info)
  && CompareGuid (ImageTypeId Info) mNucCapsuleFmpImageTypeId
  && (3 <=? DescriptorVersion Info).

Definition fmp_attempt (Info : fmp_info) : attempt :=
  mkAttempt (LastAttemptStatus Info) (LastAttemptVersion Info) (Version Info).

Fixpoint fmp_loop (Handles : list Z) : fw cod (option attempt) :=
  match Handles with
  | [] => mret None
  | h :: Handles =>
      '(Status, Fmp) ← call (S := cod) (HandleProtocol h FirmwareManagement);
      if EFI_ERROR Status then fmp_loop Handles
      else
        '(Status, InfoSize) ← call (S := cod) (GetImageInfoSize Fmp);
        if negb (Status =? EFI_BUFFER_TOO_SMALL) then fmp_loop Handles
        else
          Info ← call (S := cod) (AllocatePool InfoSize);
          match Info with
          | None => fmp_loop Handles
          | Some Buffer =>
              '(Status, Info) ← call (S := cod) (GetImageInfo Fmp InfoSize);
              _ ← match PackageVersionName Info with
                  | Some p => call_ (S := cod) (FreePool p)
                  | None => mret tt
                  end;
              _ ← call_ (S := cod) (FreePool Buffer);
              if fmp_match Status Info then mret (Some (fmp_attempt Info)) else fmp_loop Handles
          end
  end.

Definition GetFmpLastAttemptStatus : fw cod (option attempt) :=
  '(Status, (Buffer, Handles)) ← call (S := cod) (LocateHandleBuffer FirmwareManagement);
  if EFI_ERROR Status then mret None
  else
    Found ← fmp_loop Handles;
    _ ← call_ (S := cod) (FreePool Buffer);
    mret Found.

Definition ReportLastAttempt : fw cod unit := _ ← GetFmpLastAttemptStatus; mret tt.

(** ** Applying one capsule *)

Definition close_false (File : Z) : fw cod bool := _ ← call_ (S := cod) (FileHandleClose File); mret false.

(** Commit phase: hand the image to UpdateCapsule, demand proof of the apply
    from the FMP, and report success only for a capsule that is gone. *)
Definition ApplyOneCapsule_commit (File : Z) (CanDelete : bool) (Capsule : Z) (image : list Z)
    (Before : option attempt) : fw cod bool :=
  Status ← call (S := cod) (UpdateCapsule image);
  _ ← call_ (S := cod) (FreePool Capsule);
  if EFI_ERROR Status then _ ← ReportLastAttempt; close_false File
  else
    After ← GetFmpLastAttemptStatus;
    match After with
    | None => close_false File
    | Some After =>
        if negb (at_status After =? LAST_ATTEMPT_STATUS_SUCCESS) then close_false File
        else if at_version After =? 0 then close_false File
        else if match Before with
                | Some Before => (at_version After =? at_version Before)
                                 && (at_status After =? at_status Before)
                | None => false
                end
        then close_false File
        else if negb CanDelete then close_false File
        else
          Status ← call (S := cod) (FileHandleDelete File);
          mret (Status =? EFI_SUCCESS)
    end.

(** Gate phase: header validation, pre-apply snapshot and version gate. *)
Definition ApplyOneCapsule_gate (File : Z) (CanDelete : bool) (Capsule : Z) (image : list Z)
    : fw cod bool :=
  match NucCapsuleValidateHeader (Some image) (len image) true true with
  | Some (Status, Some (ImageSize, CapsuleFlags)) =>
      let Version := NucCapsuleGetPayloadVersion (Some image) (len image) true in
      Before ← GetFmpLastAttemptStatus;
      match Version, Before with
      | Some (Some CapsuleVersion), Some B =>
          if CapsuleVersion =? at_running B then
            _ ← (if CanDelete then call_ (S := cod) (FileHandleDelete File) else call_ (S := cod) (FileHandleClose File));
            _ ← call_ (S := cod) (FreePool Capsule);
            mret false
          else ApplyOneCapsule_commit File CanDelete Capsule image Before
      | _, _ => ApplyOneCapsule_commit File CanDelete Capsule image Before
      end
  | _ =>
      _ ← call_ (S := cod) (FreePool Capsule);
      close_false File
  end.

(** Open and read phase. *)
Definition ApplyOneCapsule (Dir : Z) (Name : list Z) : fw cod bool :=
  '(Status, File) ← call (S := cod)
      (FileOpen Dir Name (Z.lor EFI_FILE_MODE_READ EFI_FILE_MODE_WRITE));
  '(CanDelete, Status, File) ←
    (if EFI_ERROR Status then
       '(Status, File) ← call (S := cod) (FileOpen Dir Name EFI_FILE_MODE_READ);
       mret (false, Status, File)
     else mret (true, Status, File));
  if EFI_ERROR Status then mret false
  else
    '(Status, FileSize) ← call (S := cod) (FileHandleGetSize File);
    if EFI_ERROR Status || (FileSize =? 0) || (MAX_CAPSULE_BYTES <? FileSize) then close_false File
    else
      Capsule ← call (S := cod) (AllocatePool FileSize);
      match Capsule with
      | None => close_false File
      | Some Capsule =>
          '(Status, raw) ← call (S := cod) (FileHandleRead File FileSize);
          let image := as_bytes raw in
          if EFI_ERROR Status || negb (len image =? FileSize) then
            _ ← call_ (S := cod) (FreePool Capsule);
            close_false File
          else ApplyOneCapsule_gate File CanDelete Capsule image
      end.

(** ** One drop box *)

(** The collecting [for] loop of ProcessDropBox, from its condition on.
    [Names] pairs each pool copy with the name it holds. *)
Fixpoint collect_names (fuel : nat) (Dir : Z) (Status : EFI_STATUS) (NoFile : bool)
    (Info : option EFI_FILE_INFO) (Names : list (Z * list Z)) : fw cod (option (list (Z * list Z))) :=
  match fuel with
  | O => mret None
  | S fuel =>
      match Info with
      | Some Info =>
          if negb (EFI_ERROR Status) && negb NoFile then
            Names ← (if is_staged_entry Info && (length Names <? MAX_CAPSULES)%nat then
                       Copy ← call (S := cod) (AllocateCopyPool (FileName Info));
                       mret (match Copy with
                             | Some p => Names ++ [(p, FileName Info)]
                             | None => Names
                             end)
                     else mret Names);
            '(Status, (NoFile, Info)) ← call (S := cod) (FileHandleFindNextFile Dir Info);
            collect_names fuel Dir Status NoFile (Some Info) Names
          else mret (Some Names)
      | None => mret (Some Names)
      end
  end.

Fixpoint apply_names (Dir : Z) (Names : list (Z * list Z)) (Applied Failed : nat)
    : fw cod (nat * nat) :=
  match Names with
  | [] => mret (Applied, Failed)
  | (Copy, Name) :: Names =>
      ok ← ApplyOneCapsule Dir Name;
      _ ← call_ (S := cod) (FreePool Copy);
      if ok : bool then apply_names Dir Names (S Applied) Failed
      else apply_names Dir Names Applied (S Failed)
  end.

Definition ProcessDropBox (fuel : nat) (Root : Z) (Applied Failed : nat)
    : fw cod (option (nat * nat)) :=
  '(Status, Dir) ← call (S := cod) (FileOpen Root CAPSULE_DIR_NAME EFI_FILE_MODE_READ);
  if EFI_ERROR Status then mret (Some (Applied, Failed))
  else
    '(Status, Info) ← call (S := cod) (FileHandleFindFirstFile Dir);
    Names ←? collect_names fuel Dir Status false Info [];
    counts ← apply_names Dir Names Applied Failed;
    _ ← call_ (S := cod) (FileHandleClose Dir);
    mret (Some counts).

(** ** The ReadyToBoot callback *)

(** First pass: is anything staged anywhere? *)
Fixpoint any_staged (fuel : nat) (Handles : list Z) (AnyStaged : bool) : fw cod (option bool) :=
  match Handles with
  | [] => mret (Some AnyStaged)
  | h :: Handles =>
      if AnyStaged then mret (Some AnyStaged)
      else
        Root ← OpenVolumeRoot h;
        match Root with
        | None => any_staged fuel Handles AnyStaged
        | Some Root =>
            Staged ←? DropBoxHasCapsules fuel Root;
            _ ← call_ (S := cod) (FileHandleClose Root);
            any_staged fuel Handles Staged
        end
  end.

(** Second pass: apply what is staged on every volume. *)
Fixpoint process_volumes (fuel : nat) (Handles : list Z) (Applied Failed : nat)
    : fw cod (option (nat * nat)) :=
  match Handles with
  | [] => mret (Some (Applied, Failed))
  | h :: Handles =>
      Root ← OpenVolumeRoot h;
      match Root with
      | None => process_volumes fuel Handles Applied Failed
      | Some Root =>
          counts ←? ProcessDropBox fuel Root Applied Failed;
          _ ← call_ (S := cod) (FileHandleClose Root);
          process_volumes fuel Handles (fst counts) (snd counts)
      end
  end.

(** The tail of the callback: the reset and the stalls. *)
Definition scan_finish (Applied Failed : nat) : fw cod unit :=
  _ ← (if (0 <? Applied)%nat then
         _ ← call_ (S := cod) (Stall SUMMARY_STALL_US);
         call_ (S := cod) (ResetSystem EfiResetCold)
       else mret tt);
  if (0 <? Failed)%nat then call_ (S := cod) (Stall SUMMARY_STALL_US) else mret tt.

(** [mNucCodScanDone] is the module's static latch; the result is its new
    value and whether the loops ended within the fuel. *)
Definition OnReadyToBoot (fuel : nat) (mNucCodScanDone : bool) : fw cod (bool * option unit) :=
  if mNucCodScanDone then mret (mNucCodScanDone, Some tt)
  else
    _ ← AdvertiseFileCapsuleDelivery;
    _ ← ConnectUsbMassStorage;
    '(Status, (Buffer, Handles)) ← call (S := cod) (LocateHandleBuffer SimpleFileSystem);
    if EFI_ERROR Status then
      _ ← ClearFileCapsuleIndication;
      mret (true, Some tt)
    else
      out ← (AnyStaged ←? any_staged fuel Handles false;
             if negb AnyStaged then
               _ ← ClearFileCapsuleIndication;
               _ ← call_ (S := cod) (FreePool Buffer);
               mret (Some tt)
             else
               counts ←? process_volumes fuel Handles 0 0;
               _ ← call_ (S := cod) (FreePool Buffer);
               _ ← ClearFileCapsuleIndication;
               _ ← scan_finish (fst counts) (snd counts);
               mret (Some tt));
      mret (true, out).

Definition NucCapsuleOnDiskLibConstructor : fw cod EFI_STATUS :=
  _ ← call_ (S := cod) CreateEventEx;
  mret EFI_SUCCESS.
