(* ===== verification/CapsuleWorld.v ===== *)
(** * A concrete platform for the capsule scanner

    One volume with a drop box of named files, a pool, and a firmware
    management protocol whose record UpdateCapsule advances.  The theorems
    about the scanner hold for every service; this one shows that their
    hypotheses can be met, and runs the scanner end to end. *)

From S2P Require Import Prelude Services Uefi CapsuleParse CapsuleScan.

Record world := mkWorld {
  w_files : list (option (list Z * list Z));  (* name and content; None: deleted *)
  w_cursor : nat;                             (* next directory entry *)
  w_fmp : attempt;                            (* the FMP's last-attempt record *)
  w_alloc : Z                                 (* next pool address *)
}.

Fixpoint live (l : list (option (list Z * list Z))) : nat :=
  match l with [] => O | Some _ :: l => S (live l) | None :: l => live l end.
Definition staged (w : world) : nat := live (w_files w).

(** The first live entry at or after [i]: its index and file info. *)
Definition entry_from (w : world) (i : nat) : option (nat * EFI_FILE_INFO) :=
  head (omap (fun k => match w_files w !! k with
                       | Some (Some (n, c)) => Some (k, mkInfo 0 (len c) n)
                       | _ => None
                       end) (seq i (length (w_files w) - i))).

Definition file_at (w : world) (h : Z) : option (list Z * list Z) :=
  match w_files w !! Z.to_nat (h - 100) with Some (Some f) => Some f | _ => None end.

Definition name_index (w : world) (n : list Z) : option nat :=
  fst <$> list_find (fun f => (fst <$> f) = Some n) (w_files w).

Definition set_cursor (w : world) (i : nat) : world :=
  mkWorld (w_files w) i (w_fmp w) (w_alloc w).

Definition alloc (w : world) : option Z * world :=
  (Some (w_alloc w), mkWorld (w_files w) (w_cursor w) (w_fmp w) (w_alloc w + 1)).

(** Handles: volume 1, file system 2, root 3, drop box 4, FMP 7, file [i] of
    the drop box 100 + i. *)
Definition platform : handler cod world := fun c w =>
  match c as c return cod_res c * world with
  | GetVariable _ => ((EFI_NOT_FOUND, 0), w)
  | SetVariable _ _ _ => (EFI_SUCCESS, w)
  | LocateHandleBuffer SimpleFileSystem => ((EFI_SUCCESS, (w_alloc w, [1])), snd (alloc w))
  | LocateHandleBuffer FirmwareManagement => ((EFI_SUCCESS, (w_alloc w, [7])), snd (alloc w))
  | LocateHandleBuffer _ => ((EFI_NOT_FOUND, (0, [])), w)
  | HandleProtocol h SimpleFileSystem => ((EFI_SUCCESS, 2), w)
  | HandleProtocol h FirmwareManagement => ((EFI_SUCCESS, 7), w)
  | HandleProtocol _ _ => ((EFI_UNSUPPORTED, 0), w)
  | ConnectController _ _ => (EFI_SUCCESS, w)
  | UsbGetInterfaceDescriptor _ => ((EFI_UNSUPPORTED, 0), w)
  | OpenVolume _ => ((EFI_SUCCESS, 3), w)
  | FileOpen dir n _ =>
      if dir =? 3 then ((EFI_SUCCESS, 4), w)
      else match name_index w n with
           | Some i => ((EFI_SUCCESS, 100 + Z.of_nat i), w)
           | None => ((EFI_NOT_FOUND, 0), w)
           end
  | FileHandleFindFirstFile _ =>
      match entry_from w 0 with
      | Some (i, info) => ((EFI_SUCCESS, Some info), set_cursor w (S i))
      | None => ((EFI_NOT_FOUND, None), w)
      end
  | FileHandleFindNextFile _ info =>
      match entry_from w (w_cursor w) with
      | Some (i, info) => ((EFI_SUCCESS, (false, info)), set_cursor w (S i))
      | None => ((EFI_SUCCESS, (true, info)), w)
      end
  | FileHandleGetSize f =>
      match file_at w f with
      | Some (_, c) => ((EFI_SUCCESS, len c), w)
      | None => ((EFI_DEVICE_ERROR, 0), w)
      end
  | FileHandleRead f _ =>
      match file_at w f with
      | Some (_, c) => ((EFI_SUCCESS, c), w)
      | None => ((EFI_DEVICE_ERROR, []), w)
      end
  | FileHandleClose _ => (EFI_SUCCESS, w)
  | FileHandleDelete f =>
      match file_at w f with
      | Some _ => (EFI_SUCCESS, mkWorld (<[Z.to_nat (f - 100) := None]> (w_files w))
                                        (w_cursor w) (w_fmp w) (w_alloc w))
      | None => (EFI_WARN_DELETE_FAILURE, w)
      end
  | AllocatePool _ => alloc w
  | AllocateCopyPool _ => alloc w
  | FreePool _ => (tt, w)
  | GetImageInfoSize _ => ((EFI_BUFFER_TOO_SMALL, 120), w)
  | GetImageInfo _ _ =>
      ((EFI_SUCCESS, mkFmp 3 1 None mNucCapsuleFmpImageTypeId (at_running (w_fmp w))
                           (at_version (w_fmp w)) (at_status (w_fmp w))), w)
  | UpdateCapsule _ =>
      (EFI_SUCCESS, mkWorld (w_files w) (w_cursor w)
                      (mkAttempt 0 (at_version (w_fmp w) + 1) (at_running (w_fmp w))) (w_alloc w))
  | Stall _ => (tt, w)
  | ResetSystem _ => (tt, w)
  | CreateEventEx => (EFI_SUCCESS, w)
  end.

(** Two staged capsules and a file that is not one. *)
Definition two_staged : world :=
  mkWorld [Some (lit "fw.cap", sample_capsule); Some (lit "notes.txt", [1]); Some (lit "B.CAP", sample_capsule)]
          0 (mkAttempt 1 0 5) 1000.

(** On this platform one boot applies both, deletes them and resets. *)
Example two_staged_boot :
  let out := run platform (OnReadyToBoot 10 false) two_staged in
  fst (fst out) = (true, Some tt)
  /\ w_files (snd (fst out)) = [None; Some (lit "notes.txt", [1]); None]
  /\ last (snd out) = Some (Ev (S := cod) (ResetSystem EfiResetCold) tt).
Proof. vm_compute. repeat split. Qed.

(** The directory entry found is at or after the start and live. *)
Lemma entry_from_Some w i k info :
  entry_from w i = Some (k, info) -> (i <= k < length (w_files w))%nat.
Proof.
  unfold entry_from. intros H.
  assert (Hin : (k, info) ∈ omap (fun k => match w_files w !! k with
                       | Some (Some (n, c)) => Some (k, mkInfo 0 (len c) n)
                       | _ => None
                       end) (seq i (length (w_files w) - i))).
  { destruct (omap _ _) as [|x l]; [done|]. injection H as ->. constructor. }
  apply list_elem_of_omap in Hin as (k' & Hk & Hs). apply elem_of_seq in Hk.
  repeat case_match; simplify_eq. lia.
Qed.

Lemma live_delete l i : (live (<[i := None]> l) <= live l)%nat.
Proof.
  revert i. induction l as [|[x|] l IH]; intros [|i]; simpl; try lia; specialize (IH i); lia.
Qed.

Lemma live_delete_lt l i f : l !! i = Some (Some f) -> (live (<[i := None]> l) < live l)%nat.
Proof.
  revert i. induction l as [|[x|] l IH]; intros [|i] H; simpl in *; try done; try lia;
    specialize (IH i H); lia.
Qed.

(** No call of the platform stages a capsule; a delete that succeeds
    unstages one. *)
Lemma platform_staged c w : (staged (snd (platform c w)) <= staged w)%nat.
Proof. unfold staged. destruct c; cbn; repeat case_match; cbn; try done; apply live_delete. Qed.

Lemma platform_delete f w :
  fst (platform (FileHandleDelete f) w) = EFI_SUCCESS ->
  (staged (snd (platform (FileHandleDelete f) w)) < staged w)%nat.
Proof.
  unfold staged. cbn. unfold file_at. destruct (_ !! _) as [[x|]|] eqn:Hf; cbn; try done.
  intros _. by eapply live_delete_lt.
Qed.
