(* ===== verification/CapsuleSpec.v ===== *)
(** * What the capsule scanner guarantees

    Theorems about CapsuleScan over every behaviour of the services: an
    apply is reported only with proof and consumption, nothing reaches
    UpdateCapsule past the header check and the version gate, one drop box
    is good for at most eight applies, and the OsIndications variables
    change in one bit only. *)

From S2P Require Import Prelude Services Uefi CapsuleParse CapsuleScan CapsuleWorld.

Implicit Types (t : list (event cod)).

(** Symbolic execution in which the FMP query is described by its own
    executions. *)
Ltac wp_cod :=
  repeat first
    [ wp_step
    | match goal with
      | |- wp GetFmpLastAttemptStatus _ => apply wp_exec; intros ? ? ?
      | |- wp ReportLastAttempt _ => unfold ReportLastAttempt
      | |- wp (close_false _) _ => unfold close_false
      end ]; cbn [app].

(** ** The bytes handed to UpdateCapsule are bytes *)

Lemma as_bytes_bytes raw : bytes (as_bytes raw).
Proof.
  apply Forall_map, Forall_true. intros x. apply (wrap_range 8). lia.
Qed.

(** The gate's header check never hits the stray-read case of the model. *)
Lemma gate_header_safe raw : is_Some (NucCapsuleValidateHeader (Some (as_bytes raw)) (len (as_bytes raw)) true true).
Proof.
  pose proof (as_bytes_bytes raw) as Hb.
  destruct (Z.lt_ge_cases (len (as_bytes raw)) CAPSULE_MIN_HEADER) as [Hs|Hs].
  - cbn. apply Z.ltb_lt in Hs. rewrite Hs. by eexists.
  - rewrite ValidateHeader_decoded by (done || lia). by eexists.
Qed.

(** Outputs are stored only with EFI_SUCCESS, and then the header is
    applicable. *)
Lemma validate_outputs image (Hb : bytes image) s isz fl :
  NucCapsuleValidateHeader (Some image) (len image) true true = Some (s, Some (isz, fl)) ->
  applicable_header image (len image).
Proof.
  unfold applicable_header. destruct (Z.lt_ge_cases (len image) CAPSULE_MIN_HEADER) as [Hs|Hs].
  { cbn. apply Z.ltb_lt in Hs. rewrite Hs. done. }
  rewrite ValidateHeader_decoded by (done || lia).
  destruct (bool_decide _) eqn:Hg; [|done]. apply bool_decide_eq_true in Hg.
  destruct (Z.testbit _ 16) eqn:Ht; [done|].
  destruct ((_ <? 28) || _) eqn:H1; [done|].
  destruct ((le32 image 24 <? _) || _) eqn:H2; [done|]. intros _. b2p.
  unfold CAPSULE_MIN_HEADER in *. rewrite header_guid_fmp in Hg by (done || lia).
  repeat split; (done || lia).
Qed.

(** ** Proof of apply *)

(** The FMP record [After], read after the apply, proves this apply: success,
    a recorded version and, where there is a snapshot to compare with, a
    change from it. *)
Definition proves_apply (Before : option attempt) (After : attempt) : Prop :=
  at_status After = LAST_ATTEMPT_STATUS_SUCCESS
  /\ at_version After <> 0
  /\ (forall b, Before = Some b ->
        at_version After <> at_version b \/ at_status After <> at_status b).

(** The calls of a commit that reports success. *)
Definition committed (File Capsule : Z) (image : list Z) (Before : option attempt) t : Prop :=
  exists st tc After,
    t = [Ev (S := cod) (UpdateCapsule image) st; Ev (S := cod) (FreePool Capsule) tt]
        ++ tc ++ [Ev (S := cod) (FileHandleDelete File) EFI_SUCCESS]
    /\ EFI_ERROR st = false
    /\ exec GetFmpLastAttemptStatus tc (Some After)
    /\ proves_apply Before After.

Lemma commit_true File CanDelete Capsule image Before :
  wp (ApplyOneCapsule_commit File CanDelete Capsule image Before)
     (fun ok t => ok = true -> CanDelete = true /\ committed File Capsule image Before t).
Proof.
  unfold ApplyOneCapsule_commit, ReportLastAttempt. wp_cod; try done.
  intros Hok. b2p.
  destruct CanDelete; [|done]. split; [done|]. unfold committed.
  match goal with H : exec _ ?tc (Some ?aft) |- _ => eexists _, tc, aft end.
  destruct r0. split; [|split; [done|split; [done|]]].
  - simpl in Hok. subst. done.
  - split; [done|]. split; [done|]. intros b ->. simpl in *.
    match goal with H : _ && _ = false |- _ => apply andb_false_iff in H as [H|H]; b2p; auto end.
Qed.

(** The version gate lets [image] through with snapshot [Before]: not known
    to be the running version. *)
Definition version_gate (image : list Z) (Before : option attempt) : Prop :=
  forall v b, NucCapsuleGetPayloadVersion (Some image) (len image) true = Some (Some v) ->
    Before = Some b -> v <> at_running b.

Definition no_update_ev (c : cod_op) : Prop := forall i, c <> UpdateCapsule i.
Abbreviation no_update := (only (S := cod) no_update_ev).

(** Every execution of the gate phase either never reaches the commit, and
    then calls UpdateCapsule on nothing, or passes both gates first. *)
Definition gated (File : Z) (CanDelete : bool) (Capsule : Z) (image : list Z)
    (ok : bool) t : Prop :=
  (ok = false /\ Forall (fun e : event cod => no_update_ev (ev_op e)) t)
  \/ exists tb Before tc,
       t = tb ++ tc
       /\ applicable_header image (len image)
       /\ exec GetFmpLastAttemptStatus tb Before
       /\ version_gate image Before
       /\ exec (ApplyOneCapsule_commit File CanDelete Capsule image Before) tc ok.

Lemma fmp_loop_no_update Handles : no_update (fmp_loop Handles).
Proof. induction Handles as [|h Handles IH]; cbn [fmp_loop]; only_go. Qed.

Lemma GetFmpLastAttemptStatus_no_update : no_update GetFmpLastAttemptStatus.
Proof. pose proof fmp_loop_no_update. unfold GetFmpLastAttemptStatus. only_go; auto. Qed.

Lemma gate_cases File CanDelete Capsule image :
  bytes image ->
  wp (ApplyOneCapsule_gate File CanDelete Capsule image) (gated File CanDelete Capsule image).
Proof.
  intros Hb. unfold ApplyOneCapsule_gate.
  assert (Hrej : wp (_ ← call_ (S := cod) (FreePool Capsule); close_false File)
                    (gated File CanDelete Capsule image)).
  { wp_cod. left. split; [done|]. by repeat constructor. }
  destruct (NucCapsuleValidateHeader _ _ _ _) as [[s [[isz fl]|]]|] eqn:Hv; try exact Hrej.
  apply validate_outputs in Hv; [|done].
  apply wp_bind, wp_exec. intros tb Before Htb.
  assert (Hcommit : version_gate image Before ->
    wp (ApplyOneCapsule_commit File CanDelete Capsule image Before)
       (fun ok t => gated File CanDelete Capsule image ok (tb ++ t))).
  { intros Hg. apply wp_exec. intros tc ok Htc. right. exists tb, Before, tc. done. }
  pose proof (only_exec _ _ _ _ GetFmpLastAttemptStatus_no_update Htb) as Hno.
  destruct (NucCapsuleGetPayloadVersion _ _ _) as [[v|]|] eqn:Hver;
    [|apply Hcommit; intros ??; congruence..].
  destruct Before as [b|]; [|apply Hcommit; intros ??; congruence].
  destruct (Z.eqb_spec v (at_running b)); [|apply Hcommit; intros ??; congruence].
  destruct CanDelete; wp_cod; left; (split; [done|]);
    apply Forall_app; (split; [done|]); by repeat constructor.
Qed.

(** The open and read phase: what has happened when the gate is entered. *)
Definition opened (Dir : Z) (Name : list Z) (CanDelete : bool) (File Capsule : Z) (raw : list Z) t : Prop :=
  exists s1 s2 s3 sz topen,
    t = topen ++ [Ev (S := cod) (FileHandleGetSize File) (s2, sz);
                  Ev (S := cod) (AllocatePool sz) (Some Capsule);
                  Ev (S := cod) (FileHandleRead File sz) (s3, raw)]
    /\ (if CanDelete then topen = [Ev (S := cod) (FileOpen Dir Name 3) (s1, File)]
        else exists s0 f0, topen = [Ev (S := cod) (FileOpen Dir Name 3) (s0, f0);
                                   Ev (S := cod) (FileOpen Dir Name 1) (s1, File)]
                           /\ EFI_ERROR s0 = true)
    /\ EFI_ERROR s1 = false /\ EFI_ERROR s2 = false /\ EFI_ERROR s3 = false
    /\ len raw = sz /\ 0 < sz <= MAX_CAPSULE_BYTES.

Lemma len_as_bytes raw : len (as_bytes raw) = len raw.
Proof. unfold len, as_bytes. by rewrite length_map. Qed.

Lemma apply_cases Dir Name :
  wp (ApplyOneCapsule Dir Name) (fun ok t =>
    (ok = false /\ Forall (fun e : event cod => no_update_ev (ev_op e)) t)
    \/ exists CanDelete File Capsule raw t1 t2,
         t = t1 ++ t2 /\ opened Dir Name CanDelete File Capsule raw t1
         /\ exec (ApplyOneCapsule_gate File CanDelete Capsule (as_bytes raw)) t2 ok).
Proof.
  unfold ApplyOneCapsule. wp_cod;
    try (left; split; [done|]; by repeat constructor);
    (apply wp_exec; intros t ok Hex; right; b2p;
     match goal with H : len (as_bytes ?l) = ?z |- _ =>
       rewrite len_as_bytes in H; pose proof (len_nonneg l); subst z end).
  - eexists false, _, _, _, [_; _; _; _; _], t. split; [reflexivity|]. split; [|exact Hex].
    eexists _, _, _, _, [_; _]. split; [reflexivity|]. split; [by eexists _, _|].
    repeat split; (done || lia).
  - eexists true, _, _, _, [_; _; _; _], t. split; [reflexivity|]. split; [|exact Hex].
    eexists _, _, _, _, [_]. split; [reflexivity|]. split; [done|].
    repeat split; (done || lia).
Qed.

(** C1: ApplyOneCapsule answers TRUE only for a capsule whose apply the
    FMP's record confirms and whose file is gone.  Whatever the services do, the run then consists of:
    the file opened read-write and read in full; an image whose header this
    platform accepts; a snapshot of the FMP's last-attempt record; an
    UpdateCapsule call on exactly those bytes that did not fail; a second
    look at the record that shows success and a non-zero version and, if the
    snapshot could be read, differs from it (with no readable snapshot the
    code asks for no change); and, last, a delete of the file answered
    EFI_SUCCESS (a warning is not enough). *)
Theorem ApplyOneCapsule_true_proof (Dir : Z) (Name : list Z) (t : list (event cod))
    (Hrun : exec (ApplyOneCapsule Dir Name) t true) :
  exists s1 s2 s3 File sz Capsule raw tb Before tc,
    t = [Ev (S := cod) (FileOpen Dir Name 3) (s1, File);
         Ev (S := cod) (FileHandleGetSize File) (s2, sz);
         Ev (S := cod) (AllocatePool sz) (Some Capsule);
         Ev (S := cod) (FileHandleRead File sz) (s3, raw)] ++ tb ++ tc
    /\ EFI_ERROR s1 = false /\ EFI_ERROR s2 = false /\ EFI_ERROR s3 = false
    /\ len raw = sz /\ 0 < sz <= MAX_CAPSULE_BYTES
    /\ applicable_header (as_bytes raw) sz
    /\ exec GetFmpLastAttemptStatus tb Before
    /\ version_gate (as_bytes raw) Before
    /\ committed File Capsule (as_bytes raw) Before tc.
Proof.
  apply (proj1 (wp_exec _ _) (apply_cases Dir Name)) in Hrun
    as [[? _]|(CanDelete & File & Capsule & raw & t1 & t2 & -> & Ho & Hg)]; [done|].
  apply (proj1 (wp_exec _ _) (gate_cases _ _ _ _ (as_bytes_bytes raw))) in Hg
    as [[? _]|(tb & Before & tc & -> & Happ & Htb & Hver & Hc)]; [done|].
  apply (proj1 (wp_exec _ _) (commit_true _ _ _ _ _)) in Hc as [-> Hc]; [|done].
  destruct Ho as (s1 & s2 & s3 & sz & topen & -> & -> & ? & ? & ? & <- & ?).
  rewrite len_as_bytes in Happ.
  exists s1, s2, s3, File, (len raw), Capsule, raw, tb, Before, tc. done.
Qed.

Lemma ApplyOneCapsule_true_proof_witness :
  exists s1 s2 s3 File sz Capsule raw tb Before tc,
    run_trace platform (ApplyOneCapsule 4 (lit "fw.cap")) two_staged =
    [Ev (S := cod) (FileOpen 4 (lit "fw.cap") 3) (s1, File);
     Ev (S := cod) (FileHandleGetSize File) (s2, sz);
     Ev (S := cod) (AllocatePool sz) (Some Capsule);
     Ev (S := cod) (FileHandleRead File sz) (s3, raw)] ++ tb ++ tc
    /\ EFI_ERROR s1 = false /\ EFI_ERROR s2 = false /\ EFI_ERROR s3 = false
    /\ len raw = sz /\ 0 < sz <= MAX_CAPSULE_BYTES
    /\ applicable_header (as_bytes raw) sz
    /\ exec GetFmpLastAttemptStatus tb Before
    /\ version_gate (as_bytes raw) Before
    /\ committed File Capsule (as_bytes raw) Before tc.
Proof.
  apply ApplyOneCapsule_true_proof.
  assert (Hv : run_val platform (ApplyOneCapsule 4 (lit "fw.cap")) two_staged = true)
    by (vm_compute; reflexivity).
  rewrite <- Hv. apply exec_run.
Defined.

(** A platform on which the FMP is found only once UpdateCapsule was called,
    and on which that call records nothing. *)
Definition late_fmp : handler cod (bool * world) := fun c w =>
  match c as c return cod_res c * (bool * world) with
  | LocateHandleBuffer FirmwareManagement =>
      if fst w then let a := platform (LocateHandleBuffer FirmwareManagement) (snd w) in (fst a, (true, snd a))
      else ((EFI_NOT_FOUND, (0, [])), w)
  | UpdateCapsule _ => (EFI_SUCCESS, (true, snd w))
  | c => let a := platform c (snd w) in (fst a, (fst w, snd a))
  end.
Definition old_record : bool * world := (false, mkWorld [Some (lit "fw.cap", sample_capsule)] 0 (mkAttempt 0 9 5) 1000).

(** Without a snapshot the change is not demanded: the FMP's record is the
    one of an earlier update throughout, and the capsule still counts as
    applied and is deleted. *)
Theorem stale_record_accepted :
  run_val late_fmp (ApplyOneCapsule 4 (lit "fw.cap")) old_record = true
  /\ w_files (snd (run_state late_fmp (ApplyOneCapsule 4 (lit "fw.cap")) old_record)) = [None]
  /\ w_fmp (snd (run_state late_fmp (ApplyOneCapsule 4 (lit "fw.cap")) old_record)) = w_fmp (snd old_record).
Proof. vm_compute. repeat split. Qed.

(** ** Nothing else reaches UpdateCapsule *)

Definition updates_only (image : list Z) (c : cod_op) : Prop :=
  forall i, c = UpdateCapsule i -> i = image.

Lemma commit_updates File CanDelete Capsule image Before :
  only (S := cod) (updates_only image) (ApplyOneCapsule_commit File CanDelete Capsule image Before).
Proof.
  assert (Hf : only (S := cod) (updates_only image) GetFmpLastAttemptStatus).
  { eapply only_mono; [|apply GetFmpLastAttemptStatus_no_update]. intros c Hc i ->. by destruct (Hc i). }
  unfold ApplyOneCapsule_commit, ReportLastAttempt, close_false. only_go.
  apply only_call. by intros i [= ->].
Qed.

Lemma no_update_absent t image st :
  Forall (fun e : event cod => no_update_ev (ev_op e)) t ->
  ~ In (Ev (S := cod) (UpdateCapsule image) st) t.
Proof. rewrite Forall_forall. intros Ht Hin. apply list_elem_of_In, Ht in Hin. by apply (Hin image). Qed.

Lemma opened_no_update Dir Name CanDelete File Capsule raw t :
  opened Dir Name CanDelete File Capsule raw t ->
  Forall (fun e : event cod => no_update_ev (ev_op e)) t.
Proof.
  intros (s1 & s2 & s3 & sz & topen & -> & Ho & _). apply Forall_app. split; [|by repeat constructor].
  destruct CanDelete; [subst topen; by repeat constructor|].
  destruct Ho as (s0 & f0 & -> & _). by repeat constructor.
Qed.

(** C2: Whatever the services answer, bytes reach UpdateCapsule only through
    the gates: they are exactly what was read from the named file, of a
    length between 1 byte and 128 MiB, their header is applicable, and the
    FMP record read just before them does not show their payload version as
    already running.  This holds of every run, successful or not. *)
Theorem ApplyOneCapsule_update_gated (Dir : Z) (Name : list Z) (ok : bool) (image : list Z) (st : Z)
    (t : list (event cod)) (Hrun : exec (ApplyOneCapsule Dir Name) t ok)
    (Hup : In (Ev (S := cod) (UpdateCapsule image) st) t) :
  exists CanDelete File Capsule raw t1 tb Before tc,
    t = t1 ++ tb ++ tc
    /\ opened Dir Name CanDelete File Capsule raw t1
    /\ image = as_bytes raw
    /\ applicable_header image (len image)
    /\ exec GetFmpLastAttemptStatus tb Before
    /\ version_gate image Before.
Proof.
  apply (proj1 (wp_exec _ _) (apply_cases Dir Name)) in Hrun
    as [[_ Hno]|(CanDelete & File & Capsule & raw & t1 & t2 & -> & Ho & Hg)];
    [by apply (no_update_absent _ _ _ Hno) in Hup|].
  apply in_app_or in Hup as [Hup|Hup].
  { by apply (no_update_absent _ _ _ (opened_no_update _ _ _ _ _ _ _ Ho)) in Hup. }
  apply (proj1 (wp_exec _ _) (gate_cases _ _ _ _ (as_bytes_bytes raw))) in Hg
    as [[_ Hno]|(tb & Before & tc & -> & Happ & Htb & Hver & Hc)];
    [by apply (no_update_absent _ _ _ Hno) in Hup|].
  apply in_app_or in Hup as [Hup|Hup].
  { pose proof (only_exec _ _ _ _ GetFmpLastAttemptStatus_no_update Htb) as Hno.
    by apply (no_update_absent _ _ _ Hno) in Hup. }
  pose proof (only_exec _ _ _ _ (commit_updates _ _ _ _ _) Hc) as Hall.
  rewrite Forall_forall in Hall. apply list_elem_of_In, Hall in Hup. rewrite (Hup image eq_refl).
  exists CanDelete, File, Capsule, raw, t1, tb, Before, tc. done.
Qed.

Lemma ApplyOneCapsule_update_gated_witness :
  exists CanDelete File Capsule raw t1 tb Before tc,
    run_trace platform (ApplyOneCapsule 4 (lit "fw.cap")) two_staged = t1 ++ tb ++ tc
    /\ opened 4 (lit "fw.cap") CanDelete File Capsule raw t1
    /\ sample_capsule = as_bytes raw
    /\ applicable_header sample_capsule (len sample_capsule)
    /\ exec GetFmpLastAttemptStatus tb Before
    /\ version_gate sample_capsule Before.
Proof.
  apply (ApplyOneCapsule_update_gated 4 (lit "fw.cap")
           (run_val platform (ApplyOneCapsule 4 (lit "fw.cap")) two_staged) sample_capsule 0).
  - apply exec_run.
  - vm_compute. repeat first [left; reflexivity | right].
Defined.

(** ** At most eight capsules per drop box *)

(** Counts the calls of UpdateCapsule. *)
Definition update_step (n : nat) (e : event cod) : option nat :=
  Some (match ev_op e with UpdateCapsule _ => S n | _ => n end).

Lemma update_frame {A} (p : fw cod A) n (Q : A -> nat -> Prop) :
  no_update p -> (forall a, Q a n) -> mon update_step n p Q.
Proof. apply mon_only. intros ? c ? Hc. unfold update_step. destruct c; try done. by destruct (Hc image). Qed.

Ltac upd_go :=
  repeat first
    [ mon_step
    | match goal with
      | |- exists m', update_step _ _ = Some m' /\ _ => eexists; (split; [reflexivity|]); cbn [ev_op]
      | |- mon _ _ GetFmpLastAttemptStatus _ =>
          apply update_frame; [apply GetFmpLastAttemptStatus_no_update|intros ?; cbn beta]
      end ].

Lemma ApplyOneCapsule_updates n Dir Name :
  mon update_step n (ApplyOneCapsule Dir Name) (fun _ m' => (m' <= S n)%nat).
Proof.
  unfold ApplyOneCapsule, ApplyOneCapsule_gate, ApplyOneCapsule_commit, ReportLastAttempt, close_false.
  upd_go; try lia; upd_go; try lia; repeat case_match; upd_go; lia.
Qed.

Lemma apply_names_updates n Dir Names Applied Failed :
  mon update_step n (apply_names Dir Names Applied Failed) (fun _ m' => (m' <= n + length Names)%nat).
Proof.
  revert n Applied Failed. induction Names as [|[Copy Name] Names IH]; intros; cbn [apply_names length];
    [upd_go; lia|].
  apply mon_bind. eapply mon_mono; [|apply ApplyOneCapsule_updates]. intros ok m' Hm'. cbn beta.
  upd_go; (eapply mon_mono; [|apply IH]); intros; cbn in *; lia.
Qed.

Lemma collect_names_bounded fuel Dir Status NoFile Info Names :
  (length Names <= MAX_CAPSULES)%nat ->
  wp (collect_names fuel Dir Status NoFile Info Names)
     (fun o _ => forall l, o = Some l -> (length l <= MAX_CAPSULES)%nat).
Proof.
  revert Status NoFile Info Names. induction fuel as [|fuel IH]; intros Status NoFile Info Names Hn;
    cbn [collect_names]; [done|].
  wp_go; try (by intros ? [= <-]); apply IH; try done.
  b2p. match goal with H : (_ <? _)%nat = true |- _ => apply Nat.ltb_lt in H end.
  case_match; [rewrite length_app; cbn|]; lia.
Qed.

Lemma collect_names_no_update fuel Dir Status NoFile Info Names :
  no_update (collect_names fuel Dir Status NoFile Info Names).
Proof.
  revert Status NoFile Info Names. induction fuel as [|fuel IH]; intros; cbn [collect_names]; only_go; auto.
Qed.

(** However many capsules a drop box holds, and whatever the file system
    answers, processing it hands at most MAX_CAPSULES = 8 images to
    UpdateCapsule. *)
Theorem ProcessDropBox_bounded (fuel : nat) (Root : Z) (Applied Failed : nat) (t : list (event cod))
    (o : option (nat * nat)) (Hrun : exec (ProcessDropBox fuel Root Applied Failed) t o) :
  exists n, monitor update_step 0%nat t = Some n /\ (n <= 8)%nat.
Proof.
  refine (mon_exec update_step 0%nat _ (fun _ n => (n <= 8)%nat) t o _ Hrun). clear.
  unfold ProcessDropBox. upd_go; try lia.
  match goal with |- mon _ _ (collect_names ?f ?d ?s ?nf ?i []) _ =>
    pose proof (collect_names_bounded f d s nf i [] ltac:(cbn; lia)) as Hb;
    pose proof (update_frame _ 0%nat (fun _ n => n = 0%nat) (collect_names_no_update f d s nf i []) (fun _ => eq_refl)) as Hu
  end.
  eapply wp_mono; [|apply (wp_and _ _ _ Hb Hu)]. cbn beta. intros out t [Hl (n & Ht & ->)].
  exists 0%nat. split; [done|]. destruct out as [Names|]; upd_go; try lia.
  eapply mon_mono; [|apply apply_names_updates]. intros counts m' Hm'. upd_go.
  specialize (Hl _ eq_refl). unfold MAX_CAPSULES in Hl. cbn beta in Hm'. lia.
Qed.

Lemma ProcessDropBox_bounded_witness :
  exists n, monitor update_step 0%nat (run_trace platform (ProcessDropBox 10 3 0 0) two_staged) = Some n
            /\ (n <= 8)%nat.
Proof. exact (ProcessDropBox_bounded 10 3 0 0 _ _ (exec_run platform _ two_staged)). Defined.

(** ** The OsIndications variables *)

(** What was last read of each variable; [None]: nothing yet. *)
Record reads := mkReads { last_supported : option (EFI_STATUS * Z); last_indications : option (EFI_STATUS * Z) }.

(** A write is accepted when it changes the file-capsule bit, weight 4, of
    the value last read and nothing else: it is added to the supported mask
    (which counts as 0 when the variable does not exist yet) and taken from
    the pending requests, with the attributes each variable has. *)
Definition indication_step (m : reads) (e : event cod) : option reads :=
  match e with
  | Ev c r =>
      match c as c return cod_res c -> option reads with
      | GetVariable OsIndicationsSupported => fun r => Some (mkReads (Some r) (last_indications m))
      | GetVariable OsIndications => fun r => Some (mkReads (last_supported m) (Some r))
      | SetVariable OsIndicationsSupported a v => fun _ =>
          match last_supported m with
          | Some (s, d) =>
              if (a =? 6) && (if EFI_ERROR s then (s =? EFI_NOT_FOUND) && (v =? 4)
                              else negb (Z.testbit d 2) && (v =? d + 4))
              then Some m else None
          | None => None
          end
      | SetVariable OsIndications a v => fun _ =>
          match last_indications m with
          | Some (s, d) =>
              if (a =? 7) && negb (EFI_ERROR s) && Z.testbit d 2 && (v =? d - 4) then Some m else None
          | None => None
          end
      | _ => fun _ => Some m
      end r
  end.

Lemma land4_testbit d : (Z.land d 4 =? 0) = negb (Z.testbit d 2).
Proof.
  change 4 with (2 ^ 2). apply eq_true_iff_eq. rewrite Z.eqb_eq, negb_true_iff. split.
  - intros H. assert (Ht : Z.testbit (Z.land d (2 ^ 2)) 2 = false) by by rewrite H.
    rewrite Z.land_spec, Z.pow2_bits_true, andb_true_r in Ht by lia. done.
  - intros H. apply Z.bits_inj'. intros k Hk. rewrite Z.land_spec, Z.bits_0.
    destruct (decide (k = 2)) as [->|Hne]; [by rewrite H|].
    rewrite Z.pow2_bits_false by lia. apply andb_false_r.
Qed.

Lemma set_bit2 d : Z.testbit d 2 = false -> Z.lor d 4 = d + 4.
Proof.
  intros Hd. assert (Hl : Z.land d 4 = 0) by (apply Z.eqb_eq; by rewrite land4_testbit, Hd).
  rewrite <- Z.lxor_lor by done. by rewrite <- Z.add_nocarry_lxor.
Qed.

Lemma clear_bit2 d : Z.testbit d 2 = true -> Z.land d (Z.lnot 4) = d - 4.
Proof.
  intros Hd. rewrite <- Z.ldiff_land. symmetry. apply Z.sub_nocarry_ldiff.
  change 4 with (2 ^ 2). apply Z.bits_inj'. intros k Hk. rewrite Z.ldiff_spec, Z.bits_0.
  destruct (decide (k = 2)) as [->|Hne]; [by rewrite Hd|]. by rewrite Z.pow2_bits_false by lia.
Qed.

Definition no_variable (c : cod_op) : Prop :=
  match c with GetVariable _ | SetVariable _ _ _ => False | _ => True end.

Lemma indication_frame {A} (p : fw cod A) m :
  only (S := cod) no_variable p -> mon indication_step m p (fun _ _ => True).
Proof.
  intros Hp. apply (mon_only (S := cod) indication_step no_variable); [|done|done]. intros ? c ?. by destruct c.
Qed.

Lemma Advertise_one_bit m : mon indication_step m AdvertiseFileCapsuleDelivery (fun _ _ => True).
Proof.
  unfold AdvertiseFileCapsuleDelivery. apply mon_bind, mon_call. intros [s d].
  eexists. split; [reflexivity|]. cbn beta iota zeta.
  destruct (EFI_ERROR s) eqn:Es; cbn [andb]; [destruct (s =? EFI_NOT_FOUND) eqn:En; cbn [negb]; [|by apply mon_ret]|].
  - apply mon_call_. intros r. cbn [indication_step last_supported last_indications]; unfold EFI_OS_INDICATIONS_FILE_CAPSULE_DELIVERY_SUPPORTED;
      change (Z.lor EFI_VARIABLE_BOOTSERVICE_ACCESS EFI_VARIABLE_RUNTIME_ACCESS =? 6) with true; rewrite Es, En. by eexists.
  - rewrite land4_testbit, negb_involutive. destruct (Z.testbit d 2) eqn:Ed; [by apply mon_ret|].
    apply mon_call_. intros r. cbn [indication_step last_supported last_indications]; unfold EFI_OS_INDICATIONS_FILE_CAPSULE_DELIVERY_SUPPORTED;
      change (Z.lor EFI_VARIABLE_BOOTSERVICE_ACCESS EFI_VARIABLE_RUNTIME_ACCESS =? 6) with true; rewrite Es, Ed, set_bit2, Z.eqb_refl by done. by eexists.
Qed.

Lemma Clear_one_bit m : mon indication_step m ClearFileCapsuleIndication (fun _ _ => True).
Proof.
  unfold ClearFileCapsuleIndication. apply mon_bind, mon_call. intros [s d].
  eexists. split; [reflexivity|]. cbn beta iota.
  destruct (EFI_ERROR s) eqn:Es; cbn [orb]; [by apply mon_ret|].
  rewrite land4_testbit. destruct (Z.testbit d 2) eqn:Ed; cbn [negb]; [|by apply mon_ret].
  apply mon_call_. intros r. cbn [indication_step last_supported last_indications]; unfold EFI_OS_INDICATIONS_FILE_CAPSULE_DELIVERY_SUPPORTED;
    change (Z.lor (Z.lor EFI_VARIABLE_NON_VOLATILE EFI_VARIABLE_BOOTSERVICE_ACCESS) EFI_VARIABLE_RUNTIME_ACCESS =? 7) with true; rewrite Es, Ed, clear_bit2, Z.eqb_refl by done. by eexists.
Qed.

Abbreviation variable_free := (only (S := cod) no_variable).

Lemma GetFmp_variable_free : variable_free GetFmpLastAttemptStatus.
Proof.
  assert (Hl : forall l, variable_free (fmp_loop l)).
  { induction l as [|h l IH]; cbn [fmp_loop]; only_go. }
  unfold GetFmpLastAttemptStatus. only_go; auto.
Qed.

Lemma ApplyOneCapsule_variable_free Dir Name : variable_free (ApplyOneCapsule Dir Name).
Proof.
  pose proof GetFmp_variable_free.
  unfold ApplyOneCapsule, ApplyOneCapsule_gate, ApplyOneCapsule_commit, ReportLastAttempt, close_false. only_go.
Qed.

Lemma ProcessDropBox_variable_free fuel Root Applied Failed :
  variable_free (ProcessDropBox fuel Root Applied Failed).
Proof.
  assert (Hc : forall fuel d s nf i l, variable_free (collect_names fuel d s nf i l)).
  { clear. induction fuel as [|fuel IH]; intros; cbn [collect_names]; only_go; auto. }
  assert (Ha : forall d l a f, variable_free (apply_names d l a f)).
  { intros d l. induction l as [|[c n] l IH]; intros; cbn [apply_names]; [done|].
    apply only_bind; [apply ApplyOneCapsule_variable_free|intros ok]. only_go; auto. }
  unfold ProcessDropBox. only_go; auto.
Qed.

Lemma process_volumes_variable_free fuel Handles Applied Failed :
  variable_free (process_volumes fuel Handles Applied Failed).
Proof.
  revert Applied Failed. induction Handles as [|h Handles IH]; intros; cbn [process_volumes]; [done|].
  apply only_bind; [unfold OpenVolumeRoot; only_go|]. intros [Root|]; [|apply IH].
  apply only_obind; [apply ProcessDropBox_variable_free|intros counts]. only_go; auto.
Qed.

Lemma any_staged_variable_free fuel Handles AnyStaged : variable_free (any_staged fuel Handles AnyStaged).
Proof.
  assert (Hh : forall fuel d s nf i f, variable_free (has_capsules_loop fuel d s nf i f)).
  { clear. induction fuel as [|fuel IH]; intros; cbn [has_capsules_loop]; only_go; auto. }
  revert AnyStaged. induction Handles as [|h Handles IH]; intros; cbn [any_staged];
    unfold OpenVolumeRoot, DropBoxHasCapsules; only_go; auto.
Qed.

(** C40: The callback changes the OsIndications variables in one bit only.
    In every run, each write adds the file-capsule-delivery bit to the
    OsIndicationsSupported value just read (0 when it does not exist yet),
    or takes it from the OsIndications value just read, and leaves every
    other bit as it was; a variable that could not be read is not written,
    and a bit that is already right is not written again. *)
Theorem scan_indications_one_bit (fuel : nat) (latch : bool) (t : list (event cod)) (o : bool * option unit)
    (Hrun : exec (OnReadyToBoot fuel latch) t o) :
  is_Some (monitor indication_step (mkReads None None) t).
Proof.
  cut (mon indication_step (mkReads None None) (OnReadyToBoot fuel latch) (fun _ _ => True)).
  { intros Hm. destruct (mon_exec _ _ _ _ _ _ Hm Hrun) as (m' & -> & _). by eexists. }
  assert (Hseq : forall A B (p : fw cod A) (f : A -> fw cod B) m,
    (forall m, mon indication_step m p (fun _ _ => True)) ->
    (forall a m, mon indication_step m (f a) (fun _ _ => True)) ->
    mon indication_step m (p ≫= f) (fun _ _ => True)).
  { intros A B p f m Hp Hf. apply mon_bind. eapply mon_mono; [|apply Hp]. intros; apply Hf. }
  assert (Hfr : forall A (p : fw cod A) m, variable_free p -> mon indication_step m p (fun _ _ => True))
    by (intros; by apply indication_frame).
  unfold OnReadyToBoot. destruct latch; [by apply mon_ret|].
  apply Hseq; [apply Advertise_one_bit|intros _ ?].
  apply Hseq; [intros; apply Hfr; unfold ConnectUsbMassStorage; only_go|intros _ ?].
  apply Hseq; [intros; apply Hfr; only_go|intros [Status [Buffer Handles]] ?].
  destruct (EFI_ERROR Status); [apply Hseq; [apply Clear_one_bit|intros; by apply mon_ret]|].
  apply Hseq; [|intros; by apply mon_ret]. intros mv.
  apply Hseq; [intros; apply Hfr, any_staged_variable_free|intros [[]|] ?; cbn [negb]; [| |by apply mon_ret]].
  - apply Hseq; [intros; apply Hfr, process_volumes_variable_free|intros [counts|] ?; [|by apply mon_ret]].
    apply Hseq; [intros; apply Hfr; only_go|intros _ ?].
    apply Hseq; [apply Clear_one_bit|intros _ ?]. apply Hfr. unfold scan_finish. only_go.
  - apply Hseq; [apply Clear_one_bit|intros _ ?]. apply Hfr. only_go.
Qed.

Lemma scan_indications_one_bit_witness :
  is_Some (monitor indication_step (mkReads None None) (run_trace platform (OnReadyToBoot 10 false) two_staged)).
Proof. exact (scan_indications_one_bit 10 false _ _ (exec_run platform _ two_staged)). Defined.

(** The printed name tells the statuses of the specification apart from each
    other and from any other code: two codes share a name only when they are
    equal or both vendor specific. *)
Theorem status_names_distinct (s t : Z) :
  LastAttemptStatusName s = LastAttemptStatusName t -> s = t \/ (~ 0 <= s <= 7 /\ ~ 0 <= t <= 7).
Proof.
  assert (Hn : forall u, (0 <= u <= 7 /\ In u (seqZ 0 8)) \/ (~ 0 <= u <= 7 /\ LastAttemptStatusName u = lit "vendor/device specific")).
  { intros u. destruct (decide (0 <= u <= 7)) as [H|H]; [left; split; [done|]|right; split; [done|]].
    - apply list_elem_of_In, elem_of_seqZ. lia.
    - unfold LastAttemptStatusName. repeat (case_match; b2p; [exfalso; apply H; subst; vm_compute; by split|]). done. }
  destruct (Hn s) as [[_ Hs]|[Hs Es]], (Hn t) as [[_ Ht]|[Ht Et]]; [| | |by right].
  - cbn in Hs, Ht. intros E. left. by repeat destruct Hs as [<-|Hs]; repeat destruct Ht as [<-|Ht].
  - cbn in Hs. rewrite Et. by repeat destruct Hs as [<-|Hs].
  - cbn in Ht. rewrite Es. by repeat destruct Ht as [<-|Ht].
Qed.
