(* ===== verification/CapsuleResources.v ===== *)
(** * Resource disciplines of the capsule scanner

    Two monitors over the calls of CapsuleScan: file handles form a stack
    (only the most recently opened handle is used or released), and pool
    memory is a multiset (a free always names a live allocation).  A scan
    that ends within its fuel has no handle open at its end, and no memory
    but directory-entry buffers, of which it leaves at most one per
    enumeration it breaks off. *)

From S2P Require Import Prelude Services Uefi Pool CapsuleParse CapsuleScan CapsuleWorld.
From stdpp Require Import gmultiset.
#[local] Open Scope Z_scope.

(** ** File handles *)

(** Push the handle of a successful open. *)
Definition opens (m : list Z) (r : EFI_STATUS * Z) : option (list Z) :=
  Some (if EFI_ERROR (fst r) then m else snd r :: m).

(** Use, or release, the handle on top. *)
Definition uses (m : list Z) (h : Z) : option (list Z) :=
  match m with h' :: _ => if h' =? h then Some m else None | [] => None end.
Definition releases (m : list Z) (h : Z) : option (list Z) :=
  match m with h' :: m => if h' =? h then Some m else None | [] => None end.

(** FileHandleDelete releases the handle whatever it answers, as UEFI's
    EFI_FILE_PROTOCOL.Delete does. *)
Definition file_step (m : list Z) (e : event cod) : option (list Z) :=
  match e with
  | Ev c r =>
      match c as c return cod_res c -> option (list Z) with
      | OpenVolume _ => fun r => opens m r
      | FileOpen dir _ _ => fun r => match uses m dir with Some m => opens m r | None => None end
      | FileHandleFindFirstFile dir => fun _ => uses m dir
      | FileHandleFindNextFile dir _ => fun _ => uses m dir
      | FileHandleGetSize f => fun _ => uses m f
      | FileHandleRead f _ => fun _ => uses m f
      | FileHandleClose f => fun _ => releases m f
      | FileHandleDelete f => fun _ => releases m f
      | _ => fun _ => Some m
      end r
  end.

Lemma uses_top h m : uses (h :: m) h = Some (h :: m).
Proof. simpl. by rewrite Z.eqb_refl. Qed.
Lemma releases_top h m : releases (h :: m) h = Some m.
Proof. simpl. by rewrite Z.eqb_refl. Qed.

(** ** Pool memory *)

(** Memory by address, and the EFI_FILE_INFO buffer of an enumeration of
    [dir], whose address the calls do not show. *)
Inductive block := Block (p : Z) | Entry (dir : Z).
#[global] Instance block_eq_dec : EqDecision block.
Proof. solve_decision. Defined.
#[global] Instance block_countable : Countable block.
Proof.
  refine (inj_countable' (fun b => match b with Block p => inl p | Entry d => inr d end)
            (fun x => match x with inl p => Block p | inr d => Entry d end) _).
  by intros [].
Defined.

(** What is held, and how often reading on in a directory has failed. *)
Definition ledger : Type := gmultiset block * nat.

(** Each call that hands out pool memory, and FreePool.  FileHandleLib
    allocates the entry buffer in FindFirstFile and releases it in the
    FindNextFile that reports the end; FindNextFile stores into it, so it must
    be held. *)
Definition pool_step (s : ledger) (e : event cod) : option ledger :=
  let '(m, f) := s in
  match e with
  | Ev c r =>
      match c as c return cod_res c -> option ledger with
      | LocateHandleBuffer _ => fun r =>
          Some (if EFI_ERROR (fst r) then m else m ⊎ {[+ Block (fst (snd r)) +]}, f)
      | AllocatePool _ => fun r => Some (allocates m (option_map Block r), f)
      | AllocateCopyPool _ => fun r => Some (allocates m (option_map Block r), f)
      | GetImageInfo _ _ => fun r => Some (allocates m (option_map Block (PackageVersionName (snd r))), f)
      | FreePool p => fun _ => match frees m (Block p) with Some m => Some (m, f) | None => None end
      | FileHandleFindFirstFile dir => fun r =>
          Some (if EFI_ERROR (fst r) then m else match snd r with Some _ => m ⊎ {[+ Entry dir +]} | None => m end, f)
      | FileHandleFindNextFile dir _ => fun r =>
          match frees m (Entry dir) with
          | Some m' => Some (if EFI_ERROR (fst r) then (m, S f) else if fst (snd r) then (m', f) else (m, f))
          | None => None
          end
      | _ => fun _ => Some s
      end r
  end.

(** ** Automation

    After [mon_step] has opened a call the next monitor state is computed;
    uses and releases of the top handle, and frees of the last allocation,
    resolve by rewriting. *)

Ltac res_step :=
  first
    [ mon_step
    | match goal with
      | |- exists m', file_step _ _ = Some m' /\ _ =>
          cbn [file_step]; rewrite ?uses_top, ?releases_top; eexists; (split; [reflexivity|])
      | |- exists m', pool_step _ _ = Some m' /\ _ =>
          cbn [pool_step]; rewrite ?frees_last; cbn beta iota; eexists; (split; [reflexivity|])
      | H : ?x = _ |- mon _ (match ?x with _ => _ end) _ _ => rewrite H
      | H : EFI_ERROR ?x = _ |- context [EFI_ERROR ?x] => rewrite H
      end ]; unfold opens; cbn [fst snd allocates option_map].
Ltac res_go := repeat res_step.

(** ** Calls outside the disciplines *)

Definition no_file (c : cod_op) : Prop :=
  match c with
  | OpenVolume _ | FileOpen _ _ _ | FileHandleFindFirstFile _ | FileHandleFindNextFile _ _
  | FileHandleGetSize _ | FileHandleRead _ _ | FileHandleClose _ | FileHandleDelete _ => False
  | _ => True
  end.

Definition no_pool (c : cod_op) : Prop :=
  match c with
  | LocateHandleBuffer _ | AllocatePool _ | AllocateCopyPool _ | GetImageInfo _ _ | FreePool _
  | FileHandleFindFirstFile _ | FileHandleFindNextFile _ _ => False
  | _ => True
  end.

Lemma file_step_other m c r : no_file c -> file_step m (Ev (S := cod) c r) = Some m.
Proof. by destruct c. Qed.
Lemma pool_step_other m c r : no_pool c -> pool_step m (Ev (S := cod) c r) = Some m.
Proof. by destruct m, c. Qed.

Lemma file_frame {A} (p : fw cod A) m (Q : A -> list Z -> Prop) :
  only (S := cod) no_file p -> (forall a, Q a m) -> mon file_step m p Q.
Proof. apply mon_only. intros ???. apply file_step_other. Qed.

Lemma pool_frame {A} (p : fw cod A) m (Q : A -> ledger -> Prop) :
  only (S := cod) no_pool p -> (forall a, Q a m) -> mon pool_step m p Q.
Proof. apply mon_only. intros ???. apply pool_step_other. Qed.

Lemma fmp_loop_no_file Handles : only (S := cod) no_file (fmp_loop Handles).
Proof. induction Handles as [|h Handles IH]; cbn [fmp_loop]; only_go. Qed.

Lemma GetFmpLastAttemptStatus_no_file : only (S := cod) no_file GetFmpLastAttemptStatus.
Proof. pose proof fmp_loop_no_file. unfold GetFmpLastAttemptStatus. only_go; auto. Qed.

(** ** Handles: every function returns the stack it was given *)

Abbreviation balanced m p := (mon file_step m p (fun _ m' => m' = m)).
(** A fuelled loop promises this only when it ends. *)
Abbreviation balanced_opt m p := (mon file_step m p (fun o m' => is_Some o -> m' = m)).

Lemma GetFmp_balanced m : balanced m GetFmpLastAttemptStatus.
Proof. apply file_frame; [apply GetFmpLastAttemptStatus_no_file|done]. Qed.

Lemma commit_releases m File CanDelete Capsule image Before :
  mon file_step (File :: m) (ApplyOneCapsule_commit File CanDelete Capsule image Before)
      (fun _ m' => m' = m).
Proof.
  unfold ApplyOneCapsule_commit, ReportLastAttempt, close_false.
  res_go; try done;
    (eapply mon_mono; [|apply GetFmp_balanced]; intros After m' ->; cbn beta; res_go; done).
Qed.

Lemma gate_releases m File CanDelete Capsule image :
  mon file_step (File :: m) (ApplyOneCapsule_gate File CanDelete Capsule image)
      (fun _ m' => m' = m).
Proof.
  unfold ApplyOneCapsule_gate, close_false.
  destruct (NucCapsuleValidateHeader _ _ _ _) as [[s [[isz fl]|]]|]; [|res_go; done..].
  cbv zeta. apply mon_bind. eapply mon_mono; [|apply GetFmp_balanced]. intros Before m' ->. cbn beta.
  destruct (NucCapsuleGetPayloadVersion _ _ _) as [[v|]|]; [|apply commit_releases..].
  destruct Before as [b|]; [|apply commit_releases].
  destruct (v =? at_running b); [|apply commit_releases]. res_go; done.
Qed.

Lemma ApplyOneCapsule_balanced Dir m Name : balanced (Dir :: m) (ApplyOneCapsule Dir Name).
Proof.
  unfold ApplyOneCapsule, close_false. res_go; try done; apply gate_releases.
Qed.

Lemma has_capsules_balanced fuel Dir m Status NoFile Info Found :
  balanced (Dir :: m) (has_capsules_loop fuel Dir Status NoFile Info Found).
Proof.
  revert Status NoFile Info Found.
  induction fuel as [|fuel IH]; intros; cbn [has_capsules_loop]; res_go; auto.
Qed.

Lemma DropBoxHasCapsules_balanced fuel Root m : balanced_opt (Root :: m) (DropBoxHasCapsules fuel Root).
Proof.
  unfold DropBoxHasCapsules. res_go; try done.
  eapply mon_mono; [|apply has_capsules_balanced]. intros out m' ->. cbn beta. res_go; [done|].
  by intros [? ?].
Qed.

Lemma collect_names_balanced fuel Dir m Status NoFile Info Names :
  balanced (Dir :: m) (collect_names fuel Dir Status NoFile Info Names).
Proof.
  revert Status NoFile Info Names.
  induction fuel as [|fuel IH]; intros; cbn [collect_names]; res_go; auto.
Qed.

Lemma apply_names_balanced Dir m Names Applied Failed :
  balanced (Dir :: m) (apply_names Dir Names Applied Failed).
Proof.
  revert Applied Failed. induction Names as [|[Copy Name] Names IH]; intros; cbn [apply_names]; [by res_go|].
  apply mon_bind. eapply mon_mono; [|apply ApplyOneCapsule_balanced]. intros ok m' ->. cbn beta.
  res_go; auto.
Qed.

Lemma ProcessDropBox_balanced fuel Root m Applied Failed :
  balanced_opt (Root :: m) (ProcessDropBox fuel Root Applied Failed).
Proof.
  unfold ProcessDropBox. res_go; try done.
  eapply mon_mono; [|apply collect_names_balanced]. intros out m' ->. cbn beta.
  destruct out as [Names|]; [|res_go; by intros [? ?]].
  apply mon_bind. eapply mon_mono; [|apply apply_names_balanced]. intros counts m' ->. cbn beta. res_go. done.
Qed.

(** A volume root is pushed when OpenVolumeRoot finds one. *)
Lemma OpenVolumeRoot_pushes h m :
  mon file_step m (OpenVolumeRoot h)
      (fun o m' => m' = match o with Some Root => Root :: m | None => m end).
Proof. unfold OpenVolumeRoot. res_go; try done. by case_match. Qed.

Lemma any_staged_balanced fuel Handles m AnyStaged : balanced_opt m (any_staged fuel Handles AnyStaged).
Proof.
  revert AnyStaged. induction Handles as [|h Handles IH]; intros; cbn [any_staged]; [by res_go|].
  destruct AnyStaged; [by res_go|].
  apply mon_bind. eapply mon_mono; [|apply OpenVolumeRoot_pushes]. intros [Root|] m' ->; cbn beta iota; [|apply IH].
  apply mon_bind. eapply mon_mono; [|apply DropBoxHasCapsules_balanced]. intros [Staged|] m' Hm'; cbn beta iota.
  - rewrite Hm' by done. res_go. apply IH.
  - res_go. by intros [? ?].
Qed.

Lemma process_volumes_balanced fuel Handles m Applied Failed :
  balanced_opt m (process_volumes fuel Handles Applied Failed).
Proof.
  revert Applied Failed. induction Handles as [|h Handles IH]; intros; cbn [process_volumes]; [by res_go|].
  apply mon_bind. eapply mon_mono; [|apply OpenVolumeRoot_pushes]. intros [Root|] m' ->; cbn beta iota; [|apply IH].
  apply mon_bind. eapply mon_mono; [|apply ProcessDropBox_balanced]. intros [counts|] m' Hm'; cbn beta iota.
  - rewrite Hm' by done. res_go. apply IH.
  - res_go. by intros [? ?].
Qed.

(** ** Pool: every function frees what it allocates *)

Abbreviation pool_neutral s p := (mon pool_step s p (fun _ s' => s' = s)).

Lemma fmp_loop_neutral Handles m f : pool_neutral (m, f) (fmp_loop Handles).
Proof.
  induction Handles as [|h Handles IH]; cbn [fmp_loop]; res_go; auto.
  all: repeat match goal with H : _ = Some _ |- _ => rewrite H end.
  all: repeat match goal with H : _ = None |- _ => rewrite H end.
  all: cbn [allocates option_map]; res_go; auto.
Qed.

Lemma GetFmp_neutral m f : pool_neutral (m, f) GetFmpLastAttemptStatus.
Proof.
  unfold GetFmpLastAttemptStatus. res_go; try done.
  eapply mon_mono; [|apply fmp_loop_neutral]. intros Found m' ->. cbn beta. by res_go.
Qed.

Lemma commit_frees m f File CanDelete Capsule image Before :
  mon pool_step (m ⊎ {[+ Block Capsule +]}, f) (ApplyOneCapsule_commit File CanDelete Capsule image Before)
      (fun _ s' => s' = (m, f)).
Proof.
  unfold ApplyOneCapsule_commit, ReportLastAttempt, close_false. res_go; try done;
    (eapply mon_mono; [|apply GetFmp_neutral]; intros After m' ->; cbn beta; res_go; done).
Qed.

Lemma gate_frees m f File CanDelete Capsule image :
  mon pool_step (m ⊎ {[+ Block Capsule +]}, f) (ApplyOneCapsule_gate File CanDelete Capsule image)
      (fun _ s' => s' = (m, f)).
Proof.
  unfold ApplyOneCapsule_gate, close_false.
  destruct (NucCapsuleValidateHeader _ _ _ _) as [[s [[isz fl]|]]|]; [|res_go; done..].
  cbv zeta. apply mon_bind. eapply mon_mono; [|apply GetFmp_neutral]. intros Before m' ->. cbn beta.
  destruct (NucCapsuleGetPayloadVersion _ _ _) as [[v|]|]; [|apply commit_frees..].
  destruct Before as [b|]; [|apply commit_frees].
  destruct (v =? at_running b); [|apply commit_frees]. res_go; done.
Qed.

Lemma ApplyOneCapsule_neutral m f Dir Name : pool_neutral (m, f) (ApplyOneCapsule Dir Name).
Proof.
  unfold ApplyOneCapsule, close_false. res_go; try done.
  all: repeat match goal with H : _ = Some _ |- _ => rewrite H | H : _ = None |- _ => rewrite H end.
  all: cbn [allocates option_map]; res_go; try done; apply gate_frees.
Qed.

(** ** Enumerations *)

(** The entry buffers left behind, at most [n] more than failures. *)
Definition entries (l : list Z) : gmultiset block := list_to_set_disj (map Entry l).
Definition spent (m : gmultiset block) (f n : nat) (s : ledger) : Prop :=
  exists l, fst s = m ⊎ entries l /\ (length l + f <= snd s + n)%nat.

Lemma spent_none m f n : spent m f n (m, f).
Proof. exists []. change (entries []) with (∅ : gmultiset block). split; [by rewrite (right_id_L ∅ (⊎))|cbn; lia]. Qed.
Lemma spent_one m f f' n dir : (f < f' + n)%nat -> spent m f n (m ⊎ {[+ Entry dir +]}, f').
Proof. intros Hf. exists [dir]. change (entries [dir]) with ({[+ Entry dir +]} ⊎ ∅ : gmultiset block). split; [by rewrite (right_id_L ∅ (⊎))|cbn; lia]. Qed.
Lemma spent_trans m f n n' s s' : spent m f n s -> spent (fst s) (snd s) n' s' -> spent m f (n + n') s'.
Proof.
  intros (l & Hm & Hl) (l' & Hm' & Hl'). exists (l ++ l'). unfold entries in *. rewrite map_app, list_to_set_disj_app, length_app.
  split; [rewrite Hm', Hm; multiset_solver|lia].
Qed.

(** The calls both loops make on the entry buffer. *)
Lemma next_entry m f Dir Info (Q : EFI_STATUS * (bool * EFI_FILE_INFO) -> ledger -> Prop) :
  (forall r, EFI_ERROR (fst r) = true -> Q r (m ⊎ {[+ Entry Dir +]}, S f)) ->
  (forall r, EFI_ERROR (fst r) = false -> fst (snd r) = true -> Q r (m, f)) ->
  (forall r, EFI_ERROR (fst r) = false -> fst (snd r) = false -> Q r (m ⊎ {[+ Entry Dir +]}, f)) ->
  mon pool_step (m ⊎ {[+ Entry Dir +]}, f) (call (S := cod) (FileHandleFindNextFile Dir Info)) Q.
Proof.
  intros H1 H2 H3. apply mon_call. intros r. cbn [pool_step]. rewrite frees_last. eexists. split; [reflexivity|].
  destruct (EFI_ERROR (fst r)) eqn:E; [by apply H1|]. destruct (fst (snd r)) eqn:En; [by apply H2|by apply H3].
Qed.

Lemma has_capsules_pool fuel m f Dir Status Info Found :
  EFI_ERROR Status = false ->
  mon pool_step (m ⊎ {[+ Entry Dir +]}, f) (has_capsules_loop fuel Dir Status false (Some Info) Found)
    (fun o s => forall b, o = Some b -> spent m f (if b then 1 else 0) s).
Proof.
  revert Status Info Found. induction fuel as [|fuel IH]; intros Status Info Found Hst; cbn [has_capsules_loop]; [by apply mon_ret|].
  rewrite Hst. destruct Found; cbn [negb andb]; [apply mon_ret; intros b [= <-]; apply spent_one; lia|].
  cbv zeta. set (Found := if is_staged_entry Info then true else false). apply mon_bind, next_entry; intros [st [nf i]]; cbn [fst snd].
  - intros Hs. destruct fuel; [by apply mon_ret|]. cbn [has_capsules_loop]. rewrite Hs. apply mon_ret. intros b _. apply spent_one. destruct b; lia.
  - intros Hs ->. destruct fuel; [by apply mon_ret|]. cbn [has_capsules_loop]. rewrite andb_false_r. apply mon_ret. intros b _. apply spent_none.
  - intros Hs ->. by apply IH.
Qed.

Lemma DropBoxHasCapsules_pool fuel Root m f :
  mon pool_step (m, f) (DropBoxHasCapsules fuel Root) (fun o s => forall b, o = Some b -> spent m f (if b then 1 else 0) s).
Proof.
  unfold DropBoxHasCapsules. apply mon_bind, mon_call. intros [st Dir]. eexists. split; [reflexivity|]. cbn beta iota.
  destruct (EFI_ERROR st); [apply mon_ret; intros b [= <-]; apply spent_none|].
  apply mon_bind, mon_call. intros [st2 Info]. cbn [pool_step fst snd]. eexists. split; [reflexivity|]. cbn beta iota.
  apply mon_bind. eapply (mon_mono (S := cod) _ _ _ (fun (o : option bool) s => forall b, o = Some b -> spent m f (if b then 1 else 0) s)).
  { intros [b|] s Hs; [|by apply mon_ret]. apply mon_bind, mon_call_. intros x. destruct s as [m' f']. eexists. split; [reflexivity|].
    apply mon_ret. intros ? [= <-]. by apply Hs. }
  destruct (EFI_ERROR st2) eqn:E; [|destruct Info as [i|]; [by apply has_capsules_pool|]];
    (destruct fuel; cbn [has_capsules_loop]; [by apply mon_ret|]); rewrite ?E; try destruct Info;
    apply mon_ret; intros b [= <-]; apply spent_none.
Qed.

Lemma OpenVolumeRoot_no_pool h : only (S := cod) no_pool (OpenVolumeRoot h).
Proof. unfold OpenVolumeRoot. only_go. Qed.

Lemma any_staged_pool fuel Handles m f :
  mon pool_step (m, f) (any_staged fuel Handles false) (fun o s => forall b, o = Some b -> spent m f (if b then 1 else 0) s).
Proof.
  revert m f. induction Handles as [|h Handles IH]; intros m f; cbn [any_staged]; [apply mon_ret; intros b [= <-]; apply spent_none|].
  apply mon_bind, pool_frame; [apply OpenVolumeRoot_no_pool|]. intros [Root|]; [|apply IH].
  apply mon_bind. eapply mon_mono; [|apply DropBoxHasCapsules_pool]. intros [b|] [m1 f1] Hs; cbn beta iota; [|by apply mon_ret].
  apply mon_bind, mon_call_. intros x. eexists. split; [reflexivity|]. specialize (Hs b eq_refl). destruct b.
  - destruct Handles; apply mon_ret; intros b [= <-]; exact Hs.
  - eapply mon_mono; [|apply IH]. intros o s' Ho b Hb. exact (spent_trans m f 0 _ (m1, f1) s' Hs (Ho b Hb)).
Qed.

(** The pool copies of the collected names. *)
Definition copies (Names : list (Z * list Z)) : gmultiset block := list_to_set_disj (map Block Names.*1).

Lemma copies_snoc Names p n : copies (Names ++ [(p, n)]) = copies Names ⊎ {[+ Block p +]}.
Proof. unfold copies. rewrite fmap_app, map_app, list_to_set_disj_app. simpl. multiset_solver. Qed.

Definition collected (m : gmultiset block) (f : nat) (o : option (list (Z * list Z))) (s : ledger) : Prop :=
  forall l, o = Some l -> spent (m ⊎ copies l) f 0 s.

Lemma collect_names_pool fuel m f Dir Status Info Names :
  EFI_ERROR Status = false ->
  mon pool_step (m ⊎ copies Names ⊎ {[+ Entry Dir +]}, f) (collect_names fuel Dir Status false (Some Info) Names) (collected m f).
Proof.
  revert Status Info Names. induction fuel as [|fuel IH]; intros Status Info Names Hst; cbn [collect_names]; [by apply mon_ret|].
  rewrite Hst. cbn [negb andb]. apply mon_bind.
  apply (mon_mono (S := cod) _ _ _ (fun Names' s => s = (m ⊎ copies Names' ⊎ {[+ Entry Dir +]}, f))).
  { intros Names' ? ->. apply mon_bind, next_entry; intros [st [nf i]]; cbn [fst snd].
    - intros Hs. destruct fuel; [by apply mon_ret|]. cbn [collect_names]. rewrite Hs. apply mon_ret. intros l [= <-]. apply spent_one. lia.
    - intros Hs ->. destruct fuel; [by apply mon_ret|]. cbn [collect_names]. rewrite andb_false_r. apply mon_ret. intros l [= <-]. apply spent_none.
    - intros Hs ->. by apply IH. }
  destruct (_ && _); [|by apply mon_ret]. apply mon_bind, mon_call. intros [p|]; cbn [pool_step option_map allocates];
    (eexists; split; [reflexivity|]); apply mon_ret; [|done]. f_equal. rewrite copies_snoc. multiset_solver.
Qed.

Lemma frees_copies m p n Names : frees (m ⊎ copies ((p, n) :: Names)) (Block p) = Some (m ⊎ copies Names).
Proof.
  change (copies ((p, n) :: Names)) with ({[+ Block p +]} ⊎ copies Names).
  rewrite (comm_L (⊎) {[+ Block p +]}), (assoc_L (⊎)). apply frees_last.
Qed.

Lemma apply_names_pool m f Dir Names Applied Failed :
  mon pool_step (m ⊎ copies Names, f) (apply_names Dir Names Applied Failed) (fun _ s' => s' = (m, f)).
Proof.
  revert Applied Failed. induction Names as [|[Copy Name] Names IH]; intros; cbn [apply_names].
  { res_go. unfold copies. simpl. f_equal. multiset_solver. }
  apply mon_bind. eapply mon_mono; [|apply ApplyOneCapsule_neutral]. intros ok m' ->. cbn beta.
  apply mon_bind, mon_call_. intros r. cbn [pool_step]. rewrite frees_copies.
  eexists. split; [reflexivity|]. res_go; apply IH.
Qed.

Lemma ProcessDropBox_pool fuel Root m f Applied Failed :
  mon pool_step (m, f) (ProcessDropBox fuel Root Applied Failed) (fun o s => is_Some o -> spent m f 0 s).
Proof.
  unfold ProcessDropBox. apply mon_bind, mon_call. intros [st Dir]. eexists. split; [reflexivity|]. cbn beta iota.
  destruct (EFI_ERROR st); [apply mon_ret; intros _; apply spent_none|].
  apply mon_bind, mon_call. intros [st2 Info]. cbn [pool_step fst snd]. eexists. split; [reflexivity|]. cbn beta iota.
  apply mon_bind. apply (mon_mono _ _ _ (collected m f)).
  { intros [Names|] [m1 f1] Hs; [|apply mon_ret; by intros []]. destruct (Hs Names eq_refl) as (l & Hm & Hl). cbn [fst snd] in Hm, Hl.
    replace m1 with (m ⊎ entries l ⊎ copies Names) by (rewrite Hm; multiset_solver).
    apply mon_bind. eapply mon_mono; [|apply apply_names_pool]. intros counts ? ->. apply mon_bind, mon_call_. intros x. eexists. split; [reflexivity|].
    apply mon_ret. intros _. exists l. split; [done|exact Hl]. }
  assert (Hnone : collected m f (Some []) (m, f)) by (intros l [= <-]; replace (m ⊎ copies []) with m by (unfold copies; simpl; multiset_solver); apply spent_none).
  destruct (EFI_ERROR st2) eqn:E; [|destruct Info as [i|]].
  2:{ pose proof (collect_names_pool fuel m f Dir st2 i [] E) as Hc. by replace (m ⊎ copies []) with m in Hc by (unfold copies; simpl; multiset_solver). }
  all: destruct fuel; cbn [collect_names]; [by apply mon_ret|]; rewrite ?E; try destruct Info; by apply mon_ret.
Qed.

Lemma process_volumes_pool fuel Handles m f Applied Failed :
  mon pool_step (m, f) (process_volumes fuel Handles Applied Failed) (fun o s => is_Some o -> spent m f 0 s).
Proof.
  revert m f Applied Failed. induction Handles as [|h Handles IH]; intros; cbn [process_volumes]; [apply mon_ret; intros _; apply spent_none|].
  apply mon_bind, pool_frame; [apply OpenVolumeRoot_no_pool|]. intros [Root|]; [|apply IH].
  apply mon_bind. eapply mon_mono; [|apply ProcessDropBox_pool]. intros [counts|] [m1 f1] Hs; cbn beta iota; [|apply mon_ret; by intros []].
  apply mon_bind, mon_call_. intros x. eexists. split; [reflexivity|]. eapply mon_mono; [|apply IH].
  intros o s' Ho Hsome. exact (spent_trans m f 0 0 (m1, f1) s' (Hs ltac:(by eexists)) (Ho Hsome)).
Qed.

Lemma ConnectUsbMassStorage_neutral m f : pool_neutral (m, f) ConnectUsbMassStorage.
Proof.
  unfold ConnectUsbMassStorage. res_go; try done.
  all: match goal with
       | |- mon _ _ (for_each _ (fun _ => call_ _)) _ => apply pool_frame; [only_go|intros _]
       | |- mon _ _ (for_each _ ConnectIfMassStorage) _ =>
           apply pool_frame; [apply only_for_each; intros x; unfold ConnectIfMassStorage; only_go|intros _]
       end; res_go; try done.
  apply pool_frame; [apply only_for_each; intros x; unfold ConnectIfMassStorage; only_go|intros _].
  by res_go.
Qed.

(** ** The callback *)

Lemma Clear_frames : only (S := cod) (fun c => no_file c /\ no_pool c) ClearFileCapsuleIndication.
Proof. unfold ClearFileCapsuleIndication. only_go. Qed.

Lemma finish_frames Applied Failed :
  only (S := cod) (fun c => no_file c /\ no_pool c) (scan_finish Applied Failed).
Proof. unfold scan_finish. only_go. Qed.

Lemma Advertise_frames :
  only (S := cod) (fun c => no_file c /\ no_pool c) AdvertiseFileCapsuleDelivery.
Proof. unfold AdvertiseFileCapsuleDelivery. only_go. Qed.

Lemma Connect_no_file : only (S := cod) no_file ConnectUsbMassStorage.
Proof.
  unfold ConnectUsbMassStorage. only_go.
Qed.

(** The callback as a composition: the functions outside the discipline are
    framed away with [fr]; [connect], [first_pass] and [second_pass] are the
    lemmas for the USB sweep and the two passes. *)
Ltac scan_mon fr connect first_pass second_pass :=
  repeat first
    [ res_step
    | match goal with
      | |- mon _ _ AdvertiseFileCapsuleDelivery _ =>
          apply fr; [eapply only_mono; [|apply Advertise_frames]; by intros ? []|intros _]
      | |- mon _ _ ClearFileCapsuleIndication _ =>
          apply fr; [eapply only_mono; [|apply Clear_frames]; by intros ? []|intros _]
      | |- mon _ _ (scan_finish _ _) _ =>
          apply fr; [eapply only_mono; [|apply finish_frames]; by intros ? []|intros _]
      | |- mon _ _ ConnectUsbMassStorage _ =>
          eapply mon_mono; [|apply connect]; intros _ ? ->; cbn beta
      | |- mon _ _ (any_staged _ _ _) _ =>
          eapply mon_mono; [|apply first_pass]; intros [?|] ? Hm; cbn beta iota;
          [rewrite Hm by done; clear Hm|]
      | |- mon _ _ (process_volumes _ _ _ _) _ =>
          eapply mon_mono; [|apply second_pass]; intros [?|] ? Hm; cbn beta iota;
          [rewrite Hm by done; clear Hm|]
      end ].

Lemma OnReadyToBoot_files fuel m latch :
  mon file_step m (OnReadyToBoot fuel latch) (fun o m' => snd o = Some tt -> m' = m).
Proof.
  assert (Hc : forall m, balanced m ConnectUsbMassStorage)
    by (intros; apply file_frame; [apply Connect_no_file|done]).
  unfold OnReadyToBoot.
  scan_mon @file_frame Hc any_staged_balanced process_volumes_balanced; done.
Qed.

Lemma frees_buffer m (Buffer : block) (l : gmultiset block) : frees (m ⊎ {[+ Buffer +]} ⊎ l) Buffer = Some (m ⊎ l).
Proof. rewrite <- (assoc_L (⊎)), (comm_L (⊎) {[+ Buffer +]}), (assoc_L (⊎)). apply frees_last. Qed.

Lemma OnReadyToBoot_pool fuel m f latch :
  mon pool_step (m, f) (OnReadyToBoot fuel latch) (fun o s => snd o = Some tt -> spent m f 1 s).
Proof.
  unfold OnReadyToBoot. destruct latch; [apply mon_ret; intros _; apply spent_none|].
  apply mon_bind, pool_frame; [eapply only_mono; [|apply Advertise_frames]; by intros ? []|]. intros _.
  apply mon_bind. eapply mon_mono; [|apply ConnectUsbMassStorage_neutral]. intros _ ? ->.
  assert (Hclear : forall s, pool_neutral s ClearFileCapsuleIndication).
  { intros s. apply pool_frame; [eapply only_mono; [|apply Clear_frames]; by intros ? []|done]. }
  apply mon_bind, mon_call. intros [st [Buffer Handles]]. cbn [pool_step fst snd]. eexists. split; [reflexivity|]. cbn beta iota.
  destruct (EFI_ERROR st).
  { apply mon_bind. eapply mon_mono; [|apply Hclear]. intros _ ? ->. apply mon_ret. intros _. apply spent_none. }
  apply mon_bind. eapply (mon_mono (S := cod) _ _ _ (fun o s => o = Some tt -> spent m f 1 s)); [intros o s Hs; by apply mon_ret|].
  apply mon_bind. eapply mon_mono; [|apply any_staged_pool]. intros [b|] [m1 f1] Hs; cbn beta iota; [|by apply mon_ret].
  destruct (Hs b eq_refl) as (l & Hm & Hl). cbn [fst snd] in Hm, Hl. subst m1. destruct b; cbn [negb].
  - apply mon_bind. eapply mon_mono; [|apply process_volumes_pool]. intros [counts|] [m2 f2] Hs2; cbn beta iota; [|by apply mon_ret].
    destruct (Hs2 ltac:(by eexists)) as (l' & Hm2 & Hl2). cbn [fst snd] in Hm2, Hl2. rewrite <- (assoc_L (⊎)) in Hm2. subst m2.
    apply mon_bind, mon_call_. intros x. cbn [pool_step]. rewrite frees_buffer. eexists. split; [reflexivity|].
    apply mon_bind. eapply mon_mono; [|apply Hclear]. intros _ ? ->.
    apply mon_bind, pool_frame; [eapply only_mono; [|apply finish_frames]; by intros ? []|]. intros _. apply mon_ret. intros _.
    exists (l ++ l'). unfold entries. rewrite map_app, list_to_set_disj_app, length_app. cbn [fst snd]. split; [done|lia].
  - apply mon_bind. eapply mon_mono; [|apply Hclear]. intros _ ? ->.
    apply mon_bind, mon_call_. intros x. cbn [pool_step]. rewrite frees_buffer. eexists. split; [reflexivity|]. apply mon_ret. intros _.
    exists l. cbn [fst snd]. split; [done|lia].
Qed.

Lemma two_staged_exec :
  exec (OnReadyToBoot 10 false) (run_trace platform (OnReadyToBoot 10 false) two_staged) (true, Some tt).
Proof.
  assert (Hv : run_val platform (OnReadyToBoot 10 false) two_staged = (true, Some tt))
    by (vm_compute; reflexivity).
  rewrite <- Hv. apply exec_run.
Qed.

(** C21: File handles are never leaked, used after release or released twice.
    In every run of the callback that ends, on every branch and whatever the
    services answer, each call on a file or directory handle names the most
    recently opened handle still held, each successful open is matched by
    exactly one Close or Delete, and none is held at the end. *)
Theorem scan_file_discipline (fuel : nat) (latch latch' : bool) (t : list (event cod))
    (Hrun : exec (OnReadyToBoot fuel latch) t (latch', Some tt)) :
  monitor file_step [] t = Some [].
Proof.
  destruct (mon_exec _ _ _ _ _ _ (OnReadyToBoot_files fuel [] latch) Hrun) as (m' & Ht & Hm).
  by rewrite Hm in Ht.
Qed.

Lemma scan_file_discipline_witness :
  monitor file_step [] (run_trace platform (OnReadyToBoot 10 false) two_staged) = Some [].
Proof. exact (scan_file_discipline 10 false true _ two_staged_exec). Defined.



(** And that one is lost: with two capsules staged the first pass stops at the
    first, no call fails, and its entry buffer is never freed. *)
Theorem first_pass_leaks :
  exists dir, monitor pool_step (∅, 0%nat) (run_trace platform (OnReadyToBoot 10 false) two_staged) = Some (entries [dir], 0%nat).
Proof.
  destruct (mon_exec _ _ _ _ _ _ (OnReadyToBoot_pool 10 ∅ 0 false) two_staged_exec) as ([m' f'] & Ht & Hm).
  destruct (Hm eq_refl) as (l & Hl & Hn). cbn [fst snd] in *. rewrite (left_id_L ∅ (⊎)) in Hl.
  assert (Hf : option_map (fun s => (size (fst s), snd s)) (monitor pool_step (∅, 0%nat) (run_trace platform (OnReadyToBoot 10 false) two_staged))
               = Some (1%nat, 0%nat)) by (vm_compute; reflexivity).
  rewrite Ht in Hf |- *. injection Hf as Hs ->. destruct l as [|dir [|d l]]; [|by exists dir; rewrite Hl|cbn in Hn; lia].
  rewrite Hl in Hs. discriminate Hs.
Qed.
