(* ===== verification/CapsuleReset.v ===== *)
(** * When the capsule scanner resets the machine

    A monitor counts the capsules applied and consumed and the resets; the
    scanner resets exactly once, last, and only when it consumed one.  With
    a file system that does not grow capsules, a chain of self-inflicted
    resets is therefore bounded by what was staged. *)

From S2P Require Import Prelude Services Uefi CapsuleParse CapsuleScan CapsuleWorld.

(** ** The accounting monitor *)

(** [pending]: UpdateCapsule was accepted and the file is not yet released;
    [consumed]: such files deleted with EFI_SUCCESS; [resets]: resets so far. *)
Record tally := mkTally { pending : bool; consumed : nat; resets : nat }.

(** Nothing may be applied or deleted after a reset; only a cold reset that
    follows a consumed capsule is accepted, and only once. *)
Definition reset_step (m : tally) (e : event cod) : option tally :=
  match e with
  | Ev c r =>
      match c as c return cod_res c -> option tally with
      | UpdateCapsule _ => fun st =>
          if (resets m =? 0)%nat then Some (mkTally (negb (EFI_ERROR st)) (consumed m) (resets m)) else None
      | FileHandleClose _ => fun _ => Some (mkTally false (consumed m) (resets m))
      | FileHandleDelete _ => fun st =>
          if (resets m =? 0)%nat
          then Some (mkTally false (if pending m && (st =? EFI_SUCCESS) then S (consumed m) else consumed m) (resets m))
          else None
      | ResetSystem EfiResetCold => fun _ =>
          if (0 <? consumed m)%nat && (resets m =? 0)%nat
          then Some (mkTally (pending m) (consumed m) 1) else None
      | ResetSystem _ => fun _ => None
      | _ => fun _ => Some m
      end r
  end.

Definition no_reset_ev (c : cod_op) : Prop :=
  match c with
  | UpdateCapsule _ | FileHandleClose _ | FileHandleDelete _ | ResetSystem _ => False
  | _ => True
  end.

Lemma reset_frame {A} (p : fw cod A) m (Q : A -> tally -> Prop) :
  only (S := cod) no_reset_ev p -> (forall a, Q a m) -> mon reset_step m p Q.
Proof. apply mon_only. intros ? c ?. by destruct c. Qed.

(** Before a reset. *)
Abbreviation so_far n := (mkTally false n 0).

Ltac rst_step :=
  first
    [ mon_step
    | match goal with
      | |- exists m', reset_step _ _ = Some m' /\ _ =>
          cbn [reset_step resets pending consumed Nat.eqb andb]; eexists; (split; [reflexivity|])
      | H : EFI_ERROR ?x = _ |- context [EFI_ERROR ?x] => rewrite H
      end ]; cbn [fst snd negb andb].
Ltac rst_go := repeat rst_step.

Lemma fmp_loop_no_reset Handles : only (S := cod) no_reset_ev (fmp_loop Handles).
Proof. induction Handles as [|h Handles IH]; cbn [fmp_loop]; only_go. Qed.

Lemma GetFmp_no_reset : only (S := cod) no_reset_ev GetFmpLastAttemptStatus.
Proof. pose proof fmp_loop_no_reset. unfold GetFmpLastAttemptStatus. only_go; auto. Qed.

Ltac fmp_frame := apply reset_frame; [apply GetFmp_no_reset|intros ?; cbn beta].

(** A function that answers whether it consumed a capsule counts it. *)
Abbreviation counts_one n p :=
  (mon reset_step (so_far n) p (fun (ok : bool) m' => m' = so_far (if ok then S n else n))).

Lemma commit_counts n File CanDelete Capsule image Before :
  counts_one n (ApplyOneCapsule_commit File CanDelete Capsule image Before).
Proof.
  unfold ApplyOneCapsule_commit, ReportLastAttempt, close_false.
  rst_go; try fmp_frame; rst_go; done.
Qed.

Lemma gate_counts n File CanDelete Capsule image :
  counts_one n (ApplyOneCapsule_gate File CanDelete Capsule image).
Proof.
  unfold ApplyOneCapsule_gate, close_false.
  destruct (NucCapsuleValidateHeader _ _ _ _) as [[s [[isz fl]|]]|]; [|rst_go; done..].
  cbv zeta. apply mon_bind. fmp_frame.
  destruct (NucCapsuleGetPayloadVersion _ _ _) as [[v|]|]; [|apply commit_counts..].
  destruct a as [b|]; [|apply commit_counts].
  destruct (v =? at_running b); [|apply commit_counts]. rst_go; done.
Qed.

Lemma ApplyOneCapsule_counts n Dir Name : counts_one n (ApplyOneCapsule Dir Name).
Proof. unfold ApplyOneCapsule, close_false. rst_go; try done; apply gate_counts. Qed.

Lemma apply_names_counts n Dir Names Applied Failed :
  mon reset_step (so_far n) (apply_names Dir Names Applied Failed)
      (fun o m' => (Applied <= fst o)%nat /\ m' = so_far (n + (fst o - Applied))).
Proof.
  revert n Applied Failed. induction Names as [|[Copy Name] Names IH]; intros; cbn [apply_names].
  { rst_go. split; [done|]. f_equal. lia. }
  apply mon_bind. eapply mon_mono; [|apply ApplyOneCapsule_counts]. intros ok m' ->. cbn beta.
  rst_go; (eapply mon_mono; [|apply IH]); intros o m' [? ->]; (split; [lia|f_equal; lia]).
Qed.

(** The counts a fuelled pass returns. *)
Abbreviation counts_opt n Applied p :=
  (mon reset_step (so_far n) p (fun (o : option (nat * nat)) m' =>
     match o with
     | Some o => (Applied <= fst o)%nat /\ m' = so_far (n + (fst o - Applied))
     | None => exists k, m' = so_far k
     end)).

Lemma collect_names_no_reset fuel Dir Status NoFile Info Names :
  only (S := cod) no_reset_ev (collect_names fuel Dir Status NoFile Info Names).
Proof.
  revert Status NoFile Info Names. induction fuel as [|fuel IH]; intros; cbn [collect_names]; only_go; auto.
Qed.

Lemma ProcessDropBox_counts fuel n Root Applied Failed :
  counts_opt n Applied (ProcessDropBox fuel Root Applied Failed).
Proof.
  unfold ProcessDropBox. rst_go; [split; [done|f_equal; lia]|].
  apply reset_frame; [apply collect_names_no_reset|]. intros [Names|]; rst_go; [|by eexists].
  eapply mon_mono; [|apply apply_names_counts]. intros counts m' [? ->]. cbn beta. by rst_go.
Qed.

Lemma process_volumes_counts fuel n Handles Applied Failed :
  counts_opt n Applied (process_volumes fuel Handles Applied Failed).
Proof.
  revert n Applied Failed. induction Handles as [|h Handles IH]; intros; cbn [process_volumes].
  { rst_go. split; [done|f_equal; lia]. }
  apply mon_bind, reset_frame; [unfold OpenVolumeRoot; only_go|]. intros [Root|]; [|apply IH].
  apply mon_bind. eapply mon_mono; [|apply ProcessDropBox_counts].
  intros [counts|] m' Hm'; cbn beta iota; [destruct Hm' as [? ->]|destruct Hm' as [? ->]; rst_go; by eexists].
  rst_go. eapply mon_mono; [|apply IH]. intros [o|] m' Hm'; [|done]. destruct Hm' as [? ->].
  split; [lia|f_equal; lia].
Qed.

Lemma has_capsules_no_reset fuel Dir Status NoFile Info Found :
  only (S := cod) no_reset_ev (has_capsules_loop fuel Dir Status NoFile Info Found).
Proof.
  revert Status NoFile Info Found. induction fuel as [|fuel IH]; intros; cbn [has_capsules_loop]; only_go; auto.
Qed.

Lemma any_staged_counts fuel n Handles AnyStaged :
  mon reset_step (so_far n) (any_staged fuel Handles AnyStaged) (fun _ m' => m' = so_far n).
Proof.
  revert AnyStaged. induction Handles as [|h Handles IH]; intros; cbn [any_staged]; [by rst_go|].
  destruct AnyStaged; [by rst_go|].
  apply mon_bind, reset_frame; [unfold OpenVolumeRoot; only_go|]. intros [Root|]; [|apply IH].
  unfold DropBoxHasCapsules. rst_go; try done; try apply IH.
  apply reset_frame; [apply has_capsules_no_reset|]. intros [Found|]; rst_go; (done || apply IH).
Qed.

Definition final_tally (n : nat) : tally := mkTally false n (if (0 <? n)%nat then 1 else 0).

Lemma scan_finish_counts Applied Failed :
  mon reset_step (so_far Applied) (scan_finish Applied Failed) (fun _ m' => m' = final_tally Applied).
Proof.
  unfold scan_finish, final_tally. destruct (0 <? Applied)%nat eqn:E; rst_go; try done;
    eexists; (split; [cbn [reset_step resets pending consumed Nat.eqb andb]; rewrite E; reflexivity|]);
    rst_go; done.
Qed.

Lemma OnReadyToBoot_counts fuel latch :
  mon reset_step (so_far 0) (OnReadyToBoot fuel latch)
      (fun o m' => exists n, m' = match snd o with Some _ => final_tally n | None => so_far n end).
Proof.
  unfold OnReadyToBoot. destruct latch; [rst_go; by exists O|].
  apply mon_bind, reset_frame; [unfold AdvertiseFileCapsuleDelivery; only_go|intros _].
  apply mon_bind, reset_frame; [unfold ConnectUsbMassStorage; only_go|intros _].
  assert (Hclear : only (S := cod) no_reset_ev ClearFileCapsuleIndication)
    by (unfold ClearFileCapsuleIndication; only_go).
  rst_go; [apply reset_frame; [done|]; intros _; rst_go; by exists O|].
  eapply mon_mono; [|apply any_staged_counts]. intros [[]|] m' ->; cbn [negb]; rst_go; [| |by exists O].
  - eapply mon_mono; [|apply process_volumes_counts].
    intros [[Applied Failed]|] m' Hm'; [|destruct Hm' as [k ->]; rst_go; by exists k].
    cbn [fst snd] in *. destruct Hm' as [_ ->]. rewrite Nat.sub_0_r. cbn [Nat.add].
    rst_go. apply reset_frame; [done|]. intros _. apply mon_bind.
    eapply mon_mono; [|apply scan_finish_counts]. intros _ m' ->. rst_go. by exists Applied.
  - apply reset_frame; [done|]. intros _. rst_go. by exists O.
Qed.

(** C3: The callback resets the machine exactly when it consumed a capsule.
    In every run of the callback that ends, whatever the services answer:
    the number of capsules handed to UpdateCapsule without error whose file
    was then deleted with EFI_SUCCESS decides the reset; with none there is
    no reset, otherwise there is exactly one, it is a cold reset, and no
    capsule is applied and no file deleted after it. *)
Theorem scan_reset_exactly (fuel : nat) (latch latch' : bool) (t : list (event cod))
    (Hrun : exec (OnReadyToBoot fuel latch) t (latch', Some tt)) :
  exists n, monitor reset_step (mkTally false 0 0) t = Some (final_tally n).
Proof.
  destruct (mon_exec _ _ _ _ _ _ (OnReadyToBoot_counts fuel latch) Hrun) as (m' & Ht & n & ->).
  by exists n.
Qed.

Lemma scan_reset_exactly_witness :
  exists n, monitor reset_step (mkTally false 0 0)
              (run_trace platform (OnReadyToBoot 10 false) two_staged) = Some (final_tally n).
Proof.
  apply (scan_reset_exactly 10 false true).
  assert (Hv : run_val platform (OnReadyToBoot 10 false) two_staged = (true, Some tt)) by (vm_compute; reflexivity).
  rewrite <- Hv. apply exec_run.
Defined.

(** ** Boot loops *)

Definition is_reset (e : event cod) : Prop := exists ty, ev_op e = ResetSystem ty.
Definition is_consumed (e : event cod) : Prop :=
  match e with
  | Ev c r => match c as c return cod_res c -> Prop with
              | FileHandleDelete _ => fun st => st = EFI_SUCCESS
              | _ => fun _ => False
              end r
  end.

(** A monitored trace whose count grew has a successful delete in it; one
    whose reset count grew has a positive count. *)
Lemma tally_grows t m m' :
  monitor reset_step m t = Some m' -> (consumed m < consumed m')%nat -> Exists is_consumed t.
Proof.
  revert m. induction t as [|[c r] t IH]; intros m; cbn [monitor]; [intros [= ->]; lia|].
  destruct (reset_step m (Ev c r)) as [m1|] eqn:Hs; [|done]. intros Ht Hlt.
  destruct (decide (consumed m1 = consumed m)) as [He|He].
  { right. apply (IH m1); [done|lia]. }
  left. destruct c; cbn in Hs; simplify_eq; cbn in *; try done; repeat case_match; simplify_eq; cbn in *; try done.
  by b2p.
Qed.

Lemma tally_resets t m m' :
  monitor reset_step m t = Some m' -> Exists is_reset t -> (0 < consumed m')%nat.
Proof.
  revert m. induction t as [|[c r] t IH]; intros m; cbn [monitor]; [by intros _ ?%Exists_nil|].
  destruct (reset_step m (Ev c r)) as [m1|] eqn:Hs; [|done]. intros Ht.
  intros [[ty Hty]|He]%Exists_cons; [|by eapply IH].
  cbn in Hty. subst c. destruct ty; [|done]. cbn [reset_step] in Hs. case_match; [|done]. simplify_eq.
  assert (Hmono : forall t m, monitor reset_step m t = Some m' -> (consumed m <= consumed m')%nat).
  { clear. induction t as [|[c r] t IH]; intros m; cbn [monitor]; [by intros [= ->]|].
    destruct (reset_step m (Ev c r)) as [m1|] eqn:Hs; [|done]. intros Hm%IH.
    destruct c; cbn in Hs; repeat case_match; simplify_eq; cbn in *; lia. }
  apply Hmono in Ht. cbn in Ht. b2p.
  match goal with H : (0 <? _)%nat = true |- _ => apply Nat.ltb_lt in H end. lia.
Qed.

Lemma boot_reset_consumes fuel latch t o :
  exec (OnReadyToBoot fuel latch) t o -> Exists is_reset t -> Exists is_consumed t.
Proof.
  intros Hex Hr. destruct (mon_exec _ _ _ _ _ _ (OnReadyToBoot_counts fuel latch) Hex) as (m' & Ht & _).
  pose proof (tally_resets _ _ _ Ht Hr). by eapply (tally_grows _ _ _ Ht).
Qed.

(** What a boot does on a platform [H] whose state survives resets through
    [power_cycle]. *)
Definition reboot {W} (H : handler cod W) (fuel : nat) (power_cycle : W -> W) (w : W) : W :=
  power_cycle (run_state H (OnReadyToBoot fuel false) w).
Definition resets_itself {W} (H : handler cod W) (fuel : nat) (w : W) : Prop :=
  Exists is_reset (run_trace H (OnReadyToBoot fuel false) w).

#[global] Instance is_reset_dec e : Decision (is_reset e).
Proof.
  destruct e as [c r]. destruct c; try (right; intros [ty Hty]; discriminate). left. by eexists.
Defined.
#[global] Instance resets_itself_dec {W} (H : handler cod W) fuel w : Decision (resets_itself H fuel w).
Proof. unfold resets_itself. apply _. Defined.

Section boot_loop.
Context {W : Type} (H : handler cod W) (staged : W -> nat) (power_cycle : W -> W).
(** The platform stages no capsules of its own, and a file deleted with
    EFI_SUCCESS is no longer staged. *)
Context (Hstage : forall c w, (staged (snd (H c w)) <= staged w)%nat)
        (Hdelete : forall f w, fst (H (FileHandleDelete f) w) = EFI_SUCCESS ->
                     (staged (snd (H (FileHandleDelete f) w)) < staged w)%nat)
        (Hcycle : forall w, (staged (power_cycle w) <= staged w)%nat).

Lemma reset_unstages fuel w :
  resets_itself H fuel w -> (staged (reboot H fuel power_cycle w) < staged w)%nat.
Proof using Hstage Hdelete Hcycle.
  intros Hr. unfold reboot. eapply Nat.le_lt_trans; [apply Hcycle|].
  apply (run_decreases H staged is_consumed); [done| |].
  - intros c w'. destruct c; try done. apply Hdelete.
  - eapply boot_reset_consumes; [apply exec_run|done].
Qed.

Lemma boot_loop_ends fuel n w :
  (staged w <= n)%nat ->
  exists k, (k <= n)%nat /\ ~ resets_itself H fuel (Nat.iter k (reboot H fuel power_cycle) w).
Proof using Hstage Hdelete Hcycle.
  revert w. induction n as [|n IH]; intros w Hn;
    (destruct (decide (resets_itself H fuel w)) as [Hr|Hr]; [|exists O; split; [lia|done]]);
    pose proof (reset_unstages _ _ Hr); [lia|].
  destruct (IH (reboot H fuel power_cycle w)) as (k & Hk & Hnr); [lia|].
  exists (S k). split; [lia|]. rewrite Nat.iter_succ_r. done.
Qed.
End boot_loop.

(** C4: The scanner cannot trap the machine in a reset loop.  On any platform
    that stages no capsules by itself and where a file deleted with
    EFI_SUCCESS stays deleted across resets, at most as many boots in a row
    end in the scanner's own reset as capsules were staged at the start. *)
Theorem boot_loop_bounded {W : Type} (H : handler cod W) (staged : W -> nat) (power_cycle : W -> W)
    (Hstage : forall c w, (staged (snd (H c w)) <= staged w)%nat)
    (Hdelete : forall f w, fst (H (FileHandleDelete f) w) = EFI_SUCCESS ->
                 (staged (snd (H (FileHandleDelete f) w)) < staged w)%nat)
    (Hcycle : forall w, (staged (power_cycle w) <= staged w)%nat) (fuel : nat) (w : W) :
  exists k, (k <= staged w)%nat /\
    ~ resets_itself H fuel (Nat.iter k (reboot H fuel power_cycle) w).
Proof. by eapply boot_loop_ends. Qed.

Lemma boot_loop_bounded_witness :
  exists k, (k <= 3)%nat /\
    ~ resets_itself platform 10 (Nat.iter k (reboot platform 10 id) two_staged).
Proof.
  exact (boot_loop_bounded platform staged id platform_staged platform_delete
           (fun w => Nat.le_refl _) 10 two_staged).
Defined.

(** ** Termination *)

Section termination.
Context {W : Type} (H : handler cod W) (entries : Z -> W -> nat) (N : nat).
(** [entries d w]: directory entries of [d] the enumeration has not yet
    returned.  An enumeration starts with fewer than [N]; each entry it
    returns leaves fewer; copying a name does not add any. *)
Context (Hfirst : forall d w, (entries d (snd (H (FileHandleFindFirstFile d) w)) < N)%nat)
        (Hnext : forall d i w,
           let r := fst (H (FileHandleFindNextFile d i) w) in
           EFI_ERROR (fst r) = false -> fst (snd r) = false ->
           (entries d (snd (H (FileHandleFindNextFile d i) w)) < entries d w)%nat)
        (Hcopy : forall d n w, (entries d (snd (H (AllocateCopyPool n) w)) <= entries d w)%nat).

(** [ends p]: [p] returns [Some] on this platform. *)
Definition ends {A} (p : fw cod (option A)) (w : W) : Prop := is_Some (run_val H p w).

Lemma run_val_bind {A B} (p : fw cod A) (f : A -> fw cod B) w :
  run_val H (p ≫= f) w = run_val H (f (run_val H p w)) (run_state H p w).
Proof. unfold run_val, run_state. by rewrite run_bind. Qed.

Lemma run_state_bind {A B} (p : fw cod A) (f : A -> fw cod B) w :
  run_state H (p ≫= f) w = run_state H (f (run_val H p w)) (run_state H p w).
Proof. unfold run_val, run_state. by rewrite run_bind. Qed.

Lemma ends_bind {A B} (p : fw cod A) (f : A -> fw cod (option B)) w :
  (forall a w, ends (f a) w) -> ends (p ≫= f) w.
Proof. intros Hf. unfold ends. rewrite run_val_bind. apply Hf. Qed.

Lemma ends_obind {A B} (p : fw cod (option A)) (f : A -> fw cod (option B)) w :
  ends p w -> (forall a w, ends (f a) w) -> ends (obind p f) w.
Proof.
  intros [a Ha] Hf. unfold ends, obind. rewrite run_val_bind, Ha. apply Hf.
Qed.
(** Enough fuel to go on from loop state [Status], [NoFile]. *)
Definition enough (fuel : nat) (Dir : Z) (Status : EFI_STATUS) (NoFile : bool) (w : W) : Prop :=
  (entries Dir w + 2 <= fuel)%nat
  \/ ((1 <= fuel)%nat /\ negb (EFI_ERROR Status) && negb NoFile = false).

Lemma enough_next fuel Dir Status NoFile i w :
  negb (EFI_ERROR Status) && negb NoFile = true ->
  enough (S fuel) Dir Status NoFile w ->
  let r := H (FileHandleFindNextFile Dir i) w in
  enough fuel Dir (fst (fst r)) (fst (snd (fst r))) (snd r).
Proof using Hnext.
  intros Hgo [He|[_ Hs]]; [|congruence]. intros r. unfold enough.
  destruct (EFI_ERROR (fst (fst r))) eqn:E1; [right; split; [lia|done]|].
  destruct (fst (snd (fst r))) eqn:E2; [right; split; [lia|done]|]. left.
  specialize (Hnext Dir i w E1 E2). subst r. lia.
Qed.

Lemma enough_pos fuel Dir Status NoFile w : enough fuel Dir Status NoFile w -> exists f, fuel = S f.
Proof. intros Hw. destruct fuel; [|by eexists]. destruct Hw; lia. Qed.

Lemma has_capsules_ends fuel Dir Status NoFile Info Found w :
  enough fuel Dir Status NoFile w ->
  ends (has_capsules_loop fuel Dir Status NoFile Info Found) w.
Proof using Hnext.
  revert Status NoFile Info Found w. induction fuel as [|fuel IH]; intros Status NoFile Info Found w He.
  { destruct (enough_pos _ _ _ _ _ He) as [? [=]]. }
  cbn [has_capsules_loop]. destruct Info as [Info|]; [|by eexists].
  destruct (negb (EFI_ERROR Status) && negb NoFile) eqn:Hgo; [|by eexists].
  destruct (negb Found); cbn [andb]; [|by eexists].
  unfold ends. rewrite run_val_bind. pose proof (enough_next _ _ _ _ Info _ Hgo He) as Hn.
  unfold run_val at 2, run_state. cbn [run call fst snd] in *.
  destruct (H (FileHandleFindNextFile Dir Info) w) as [[St [Nf I]] w']. cbn in *. by apply IH.
Qed.

Lemma enough_copy fuel Dir Status NoFile n w :
  enough fuel Dir Status NoFile w ->
  enough fuel Dir Status NoFile (snd (H (AllocateCopyPool n) w)).
Proof using Hcopy. specialize (Hcopy Dir n w). intros [?|?]; [left; lia|by right]. Qed.

Lemma collect_names_ends fuel Dir Status NoFile Info Names w :
  enough fuel Dir Status NoFile w ->
  ends (collect_names fuel Dir Status NoFile Info Names) w.
Proof using Hnext Hcopy.
  revert Status NoFile Info Names w. induction fuel as [|fuel IH]; intros Status NoFile Info Names w He.
  { destruct (enough_pos _ _ _ _ _ He) as [? [=]]. }
  cbn [collect_names]. destruct Info as [Info|]; [|by eexists].
  destruct (negb (EFI_ERROR Status) && negb NoFile) eqn:Hgo; [|by eexists].
  unfold ends. rewrite !run_val_bind.
  match goal with |- context [run_state H (if _ then ?c else ?d) w] =>
    set (w1 := run_state H (if is_staged_entry Info && (length Names <? MAX_CAPSULES)%nat then c else d) w);
    assert (He1 : enough (S fuel) Dir Status NoFile w1) end.
  { subst w1. destruct (is_staged_entry Info && _); [|done]. rewrite run_state_bind. by apply enough_copy. }
  pose proof (enough_next _ _ _ _ Info _ Hgo He1) as Hn.
  unfold run_val at 2, run_state at 1. cbn [run call fst snd] in *.
  destruct (H (FileHandleFindNextFile Dir Info) w1) as [[St [Nf I]] w']. cbn in *. by apply IH.
Qed.

(** An enumeration that starts with FindFirst has enough fuel. *)
Lemma first_ends {A} Dir (f : EFI_STATUS * option EFI_FILE_INFO -> fw cod (option A)) w :
  (forall Status Info w, enough (S N) Dir Status false w -> ends (f (Status, Info)) w) ->
  ends (call (S := cod) (FileHandleFindFirstFile Dir) ≫= f) w.
Proof using Hfirst.
  intros Hf. unfold ends. rewrite run_val_bind. unfold run_val at 2, run_state. cbn [run call fst snd].
  specialize (Hfirst Dir w). destruct (H (FileHandleFindFirstFile Dir) w) as [[Status Info] w'].
  cbn in *. apply Hf. left. lia.
Qed.

Lemma DropBoxHasCapsules_ends Root w : ends (DropBoxHasCapsules (S N) Root) w.
Proof using Hfirst Hnext.
  unfold DropBoxHasCapsules. apply ends_bind. intros [Status Dir] w1.
  destruct (EFI_ERROR Status); [by eexists|]. apply first_ends. intros St Info w2 He.
  apply ends_obind; [by apply has_capsules_ends|]. intros Found w3. apply ends_bind. by eexists.
Qed.

Lemma ProcessDropBox_ends Root Applied Failed w : ends (ProcessDropBox (S N) Root Applied Failed) w.
Proof using Hfirst Hnext Hcopy.
  unfold ProcessDropBox. apply ends_bind. intros [Status Dir] w1.
  destruct (EFI_ERROR Status); [by eexists|]. apply first_ends. intros St Info w2 He.
  apply ends_obind; [by apply collect_names_ends|]. intros Names w3.
  apply ends_bind. intros counts w4. apply ends_bind. by eexists.
Qed.

Lemma any_staged_ends Handles AnyStaged w : ends (any_staged (S N) Handles AnyStaged) w.
Proof using Hfirst Hnext.
  revert AnyStaged w. induction Handles as [|h Handles IH]; intros AnyStaged w; cbn [any_staged]; [by eexists|].
  destruct AnyStaged; [by eexists|]. apply ends_bind. intros [Root|] w1; [|apply IH].
  apply ends_obind; [apply DropBoxHasCapsules_ends|]. intros Staged w2. apply ends_bind. intros; apply IH.
Qed.

Lemma process_volumes_ends Handles Applied Failed w : ends (process_volumes (S N) Handles Applied Failed) w.
Proof using Hfirst Hnext Hcopy.
  revert Applied Failed w. induction Handles as [|h Handles IH]; intros Applied Failed w;
    cbn [process_volumes]; [by eexists|].
  apply ends_bind. intros [Root|] w1; [|apply IH].
  apply ends_obind; [apply ProcessDropBox_ends|]. intros counts w2. apply ends_bind. intros; apply IH.
Qed.

Lemma OnReadyToBoot_ends latch w : run_val H (OnReadyToBoot (S N) latch) w = (true, Some tt).
Proof using Hfirst Hnext Hcopy.
  assert (Hunit : forall p : fw cod (option unit), (forall w, ends p w) -> forall w, run_val H p w = Some tt).
  { intros p Hp w'. destruct (Hp w') as [[] Hu]. done. }
  assert (Hseq : forall A (p : fw cod A) (f : A -> fw cod (bool * option unit)) w,
    (forall a w, run_val H (f a) w = (true, Some tt)) -> run_val H (p ≫= f) w = (true, Some tt)).
  { intros A p f w' Hf. rewrite run_val_bind. apply Hf. }
  unfold OnReadyToBoot. destruct latch; [done|]. do 2 (apply Hseq; intros _ ?).
  apply Hseq. intros [Status [Buffer Handles]] wv. destruct (EFI_ERROR Status); [by apply Hseq|].
  rewrite run_val_bind.
  rewrite Hunit; [done|]. intros w'. apply ends_obind; [apply any_staged_ends|]. intros [] w2; cbn [negb].
  - apply ends_obind; [apply process_volumes_ends|]. intros counts w3.
    repeat (apply ends_bind; intros ? ?). by eexists.
  - repeat (apply ends_bind; intros ? ?). by eexists.
Qed.
End termination.

(** C25: The callback terminates.  On any platform whose directory
    enumerations return fewer than [N] entries, every run of the callback
    ends, with [N + 1] steps of fuel per enumeration, and leaves the latch
    set, so a second ReadyToBoot signal finds it set and does nothing. *)
Theorem scan_terminates {W : Type} (H : handler cod W) (entries : Z -> W -> nat) (N : nat)
    (Hfirst : forall d w, (entries d (snd (H (FileHandleFindFirstFile d) w)) < N)%nat)
    (Hnext : forall d i w,
       let r := fst (H (FileHandleFindNextFile d i) w) in
       EFI_ERROR (fst r) = false -> fst (snd r) = false ->
       (entries d (snd (H (FileHandleFindNextFile d i) w)) < entries d w)%nat)
    (Hcopy : forall d n w, (entries d (snd (H (AllocateCopyPool n) w)) <= entries d w)%nat)
    (latch : bool) (w : W) :
  run_val H (OnReadyToBoot (S N) latch) w = (true, Some tt)
  /\ forall w', run_trace H (OnReadyToBoot (S N) (fst (run_val H (OnReadyToBoot (S N) latch) w))) w' = [].
Proof. rewrite (OnReadyToBoot_ends H entries N) by done. done. Qed.

(** The concrete platform with a directory of at most three entries. *)
Definition short_dir (w : world) : world :=
  mkWorld (take 3 (w_files w)) (w_cursor w) (w_fmp w) (w_alloc w).
Definition short_platform : handler cod world := fun c w => platform c (short_dir w).
Definition left_entries (d : Z) (w : world) : nat := (length (take 3 (w_files w)) - w_cursor w)%nat.

Lemma scan_terminates_witness :
  run_val short_platform (OnReadyToBoot 5 false) two_staged = (true, Some tt)
  /\ forall w', run_trace short_platform
       (OnReadyToBoot 5 (fst (run_val short_platform (OnReadyToBoot 5 false) two_staged))) w' = [].
Proof.
  apply (scan_terminates short_platform left_entries 4).
  - intros d w. unfold left_entries. rewrite length_take. lia.
  - intros d i w. unfold short_platform, left_entries. cbn [platform].
    destruct (entry_from (short_dir w) (w_cursor (short_dir w))) as [[k info]|] eqn:He; cbn [fst snd]; [|done].
    intros _ _. apply entry_from_Some in He. cbn in He |- *. rewrite !length_take in *. lia.
  - intros d n w. unfold left_entries. cbn. rewrite !length_take. lia.
Defined.
