(* ===== verification/CapsuleTests.v ===== *)
(** * The parser's host tests (hack/nuccapsule/test/test-parse.c)

    The repository's own unit tests of NucCapsuleParse.c, run against the
    model: each CHECK is a boolean, and [main] exits with 0 exactly when all
    of them hold.  The bytes the tests leave uninitialised are arguments. *)

From S2P Require Import Prelude Uefi CapsuleParse.

Definition FmpGuid : EFI_GUID :=
  mkGuid 0x6dcbd5ed 0xe82d 0x4c44 [0xbd; 0xa1; 0x71; 0x94; 0x19; 0x9a; 0xd9; 0x2a].
Definition OtherGuid : EFI_GUID :=
  mkGuid 0x11111111 0x2222 0x3333 [0x44; 0x44; 0x55; 0x55; 0x66; 0x66; 0x77; 0x77].

(** memcpy into a buffer, and the bytes of a GUID on a little-endian host. *)
Definition memcpy (Buf : list Z) (at_ : nat) (src : list Z) : list Z := list_inserts at_ src Buf.
Definition guid_image (g : EFI_GUID) : list Z :=
  le_split 4 (Data1 g) ++ le_split 2 (Data2 g) ++ le_split 2 (Data3 g) ++ Data4 g.

Definition BuildHeader (Buf : list Z) (Guid : EFI_GUID) (Flags ImageSize : Z) : list Z :=
  let Buf := memcpy Buf 0 (repeat 0 32) in
  let Buf := memcpy Buf 0 (guid_image Guid) in
  let Buf := memcpy Buf 16 (le_split 4 32) in
  let Buf := memcpy Buf 20 (le_split 4 Flags) in
  memcpy Buf 24 (le_split 4 ImageSize).

Definition BuildPayloadHeader (Buf : list Z) (At : nat) (HeaderSize FwVersion : Z) : list Z :=
  let Buf := memcpy Buf At (le_split 4 0x3153534D) in
  let Buf := memcpy Buf (At + 4) (le_split 4 HeaderSize) in
  let Buf := memcpy Buf (At + 8) (le_split 4 FwVersion) in
  memcpy Buf (At + 12) (le_split 4 1).

(** The status a call returns, and the variables after it: they keep their
    values unless the call stores new ones. *)
Definition validate (Buf : list Z) (Len ImageSize Flags : Z) : option (EFI_STATUS * Z * Z) :=
  '(Status, out) ← NucCapsuleValidateHeader (Some Buf) Len true true;
  Some (match out with Some (i, f) => (Status, i, f) | None => (Status, ImageSize, Flags) end).

Definition status_is (r : option (EFI_STATUS * Z * Z)) (s : EFI_STATUS) : bool :=
  match r with Some (Status, _, _) => Status =? s | None => false end.

Definition payload_version (Buf : list Z) (Version : Z) : option (bool * Z) :=
  out ← NucCapsuleGetPayloadVersion (Some Buf) (len Buf) true;
  Some (match out with Some v => (true, v) | None => (false, Version) end).

Definition TestRejectsPersistAcrossReset (Buf : list Z) : list bool :=
  [status_is (validate (BuildHeader Buf FmpGuid CAPSULE_FLAGS_PERSIST_ACROSS_RESET 64) 64 0 0) EFI_UNSUPPORTED].

Definition TestAcceptsFlaglessFmpCapsule (Buf : list Z) : list bool :=
  match validate (BuildHeader Buf FmpGuid 0 64) 64 0 0xFF with
  | Some (Status, ImageSize, Flags) => [Status =? EFI_SUCCESS; ImageSize =? 64; Flags =? 0]
  | None => [false]
  end.

Definition TestRejectsTruncatedHeader (Buf : list Z) : list bool :=
  [status_is (validate (BuildHeader Buf FmpGuid 0 64) 20 0 0) EFI_BAD_BUFFER_SIZE].

Definition TestRejectsImageSizeBeyondFile (Buf : list Z) : list bool :=
  [status_is (validate (BuildHeader Buf FmpGuid 0 4096) 64 0 0) EFI_BAD_BUFFER_SIZE].

Definition TestRejectsHeaderSizePastImageSize (Buf : list Z) : list bool :=
  [status_is (validate (BuildHeader Buf FmpGuid 0 16) 64 0 0) EFI_BAD_BUFFER_SIZE].

Definition TestFindsPayloadVersion : list bool :=
  match payload_version (BuildPayloadHeader (repeat 0xAA 256) 96 16 7) 0xDEAD with
  | Some (b, Version) => [b; Version =? 7]
  | None => [false]
  end.

Definition TestNoPayloadHeaderIsNotAVersion : list bool :=
  match payload_version (repeat 0xAA 256) 0xDEAD with
  | Some (b, Version) => [negb b; Version =? 0xDEAD]
  | None => [false]
  end.

Definition TestRejectsImplausiblePayloadHeaderSize : list bool :=
  match payload_version (BuildPayloadHeader (repeat 0xAA 256) 96 8 7) 0xDEAD with
  | Some (b, Version) =>
      match payload_version (BuildPayloadHeader (repeat 0xAA 256) 96 200 7) Version with
      | Some (b', _) => [negb b; negb b']
      | None => [negb b; false]
      end
  | None => [false]
  end.

Definition TestPayloadVersionZeroIsReported : list bool :=
  match payload_version (BuildPayloadHeader (repeat 0xAA 256) 32 16 0) 0xDEAD with
  | Some (b, Version) => [b; Version =? 0]
  | None => [false]
  end.

Definition TestIdentifiesFmpGuid : list bool :=
  [NucCapsuleIsFmpCapsule (Some FmpGuid); negb (NucCapsuleIsFmpCapsule (Some OtherGuid))].

Definition TestFileFiltering : list bool :=
  [NucCapsuleIsCandidateFile (Some (lit "fw.cap")); NucCapsuleIsCandidateFile (Some (lit "FW.CAP"));
   negb (NucCapsuleIsCandidateFile (Some (lit "fw.txt"))); negb (NucCapsuleIsCandidateFile (Some (lit ".")));
   negb (NucCapsuleIsCandidateFile (Some (lit ".."))); negb (NucCapsuleIsCandidateFile (Some (lit "cap")))].

(** [stack] is what each test finds in its uninitialised buffer. *)
Definition main (stack : nat -> list Z) : Z :=
  let checks :=
    TestRejectsPersistAcrossReset (stack 0%nat) ++ TestAcceptsFlaglessFmpCapsule (stack 1%nat)
    ++ TestRejectsTruncatedHeader (stack 2%nat) ++ TestRejectsImageSizeBeyondFile (stack 3%nat)
    ++ TestRejectsHeaderSizePastImageSize (stack 4%nat) ++ TestIdentifiesFmpGuid ++ TestFindsPayloadVersion
    ++ TestNoPayloadHeaderIsNotAVersion ++ TestRejectsImplausiblePayloadHeaderSize
    ++ TestPayloadVersionZeroIsReported ++ TestFileFiltering in
  let Failures := length (filter (fun b => b = false) checks) in
  if (Failures =? 0)%nat then 0 else 1.

(** BuildHeader settles the first 32 bytes, so a validation that reads no
    further does not depend on what the buffer held. *)
Lemma BuildHeader_app g f i (old : list Z) :
  length old = 64%nat -> length (guid_image g) = 16%nat ->
  BuildHeader old g f i = guid_image g ++ le_split 4 32 ++ le_split 4 f ++ le_split 4 i ++ repeat 0 4 ++ drop 32 old.
Proof.
  intros Ho. unfold BuildHeader, memcpy. generalize (guid_image g) as gb. intros gb Hg.
  do 32 (destruct old as [|? old]; [discriminate Ho|]). do 16 (destruct gb as [|? gb]; [discriminate Hg|]).
  by destruct gb.
Qed.

(** The model passes the repository's tests, whatever the stack held. *)
Theorem host_tests_pass (stack : nat -> list Z) :
  (forall i, length (stack i) = 64%nat) -> main stack = 0.
Proof.
  intros Hs. unfold main, TestRejectsPersistAcrossReset, TestAcceptsFlaglessFmpCapsule, TestRejectsTruncatedHeader,
    TestRejectsImageSizeBeyondFile, TestRejectsHeaderSizePastImageSize.
  rewrite !BuildHeader_app by (apply Hs || reflexivity).
  vm_compute. reflexivity.
Qed.
