(* ===== verification/Interleave.v ===== *)
(** * Calls that preempt each other

    Two clients of one driver, each making a sequence of calls at a task
    priority level, over shared memory.  A call is a program of single
    accesses; UEFI lets a call interrupt another between any two accesses
    exactly when its level is higher.  Rely/guarantee reasoning about such
    programs, and its soundness. *)

From S2P Require Import Prelude Services.
From stdpp Require Import relations.
#[local] Open Scope Z_scope.

Section interleave.
Context {S : sig} {M : Type}.
(** What an access may answer, and what it does to the memory. *)
Context (access : M -> event S -> M -> Prop).

(** ** Clients *)

Record client (A : Type) := mkClient { todo : list (fw S A); current : option (fw S A); finished : list A }.
Arguments mkClient {A}.
Arguments todo {A}.
Arguments current {A}.
Arguments finished {A}.

Definition idle {A} (k : client A) : Prop := current k = None.

(** One access of a program. *)
Definition advance {A} (p : fw S A) (e : event S) (p' : fw S A) : Prop :=
  match p with Ret _ => False | Do c k => exists r, e = Ev c r /\ p' = k r end.

(** A client begins a call, makes an access, or returns. *)
Inductive moves {A} (m : M) : client A -> M -> client A -> Prop :=
  | begins p ps done : moves m (mkClient (p :: ps) None done) m (mkClient ps (Some p) done)
  | accesses ps p e p' m' done :
      advance p e p' -> access m e m' -> moves m (mkClient ps (Some p) done) m' (mkClient ps (Some p') done)
  | returns ps a done : moves m (mkClient ps (Some (Ret a)) done) m (mkClient ps None (done ++ [a])).

(** ** Two clients *)

Record machine (A B : Type) := mkMachine { memory : M; first : client A; second : client B }.
Arguments mkMachine {A B}.
Arguments memory {A B}.
Arguments first {A B}.
Arguments second {A B}.

(** [tpl1] and [tpl2] are the levels the two clients call at. *)
Inductive step {A B} (tpl1 tpl2 : Z) : machine A B -> machine A B -> Prop :=
  | step_first m k1 k2 m' k1' :
      idle k2 \/ tpl2 < tpl1 -> moves m k1 m' k1' -> step tpl1 tpl2 (mkMachine m k1 k2) (mkMachine m' k1' k2)
  | step_second m k1 k2 m' k2' :
      idle k1 \/ tpl1 < tpl2 -> moves m k2 m' k2' -> step tpl1 tpl2 (mkMachine m k1 k2) (mkMachine m' k1 k2').

(** ** Rely/guarantee

    [G] is the memory with what the proof knows beyond it. *)
Context {G : Type} (mem : G -> M).

(** [rg rely guar p s Q]: from [s], while others change the state within
    [rely], every access of [p] stays within [guar] and the result satisfies
    [Q]. *)
Fixpoint rg {A} (rely guar : G -> G -> Prop) (p : fw S A) (s : G) (Q : A -> G -> Prop) : Prop :=
  match p with
  | Ret a => forall s', rely s s' -> Q a s'
  | Do c k => forall s', rely s s' -> forall r m', access (mem s') (Ev c r) m' ->
      exists s'', mem s'' = m' /\ guar s' s'' /\ rg rely guar (k r) s'' Q
  end.

Section rules.
Context (rely guar : G -> G -> Prop) `{!PreOrder rely}.

Lemma rg_ret {A} (a : A) s (Q : A -> G -> Prop) : (forall s', rely s s' -> Q a s') -> rg rely guar (mret a) s Q.
Proof. done. Qed.

Lemma rg_mono {A} (p : fw S A) s (Q Q' : A -> G -> Prop) :
  (forall a s', Q a s' -> Q' a s') -> rg rely guar p s Q -> rg rely guar p s Q'.
Proof.
  intros HQ. revert s. induction p as [a|c k IH]; intros s; cbn [rg]; [eauto|].
  intros Hp s' Hs r m' Ha. destruct (Hp s' Hs r m' Ha) as (s'' & Hm & Hg & Hk). eauto 6.
Qed.

Lemma rg_bind {A B} (p : fw S A) (f : A -> fw S B) s (Q : B -> G -> Prop) :
  rg rely guar p s (fun a s' => rg rely guar (f a) s' Q) -> rg rely guar (p ≫= f) s Q.
Proof.
  revert s. induction p as [a|c k IH]; intros s.
  - intros Hp. exact (Hp s ltac:(reflexivity)).
  - change (Do c k ≫= f) with (Do (S := S) c (fun r => k r ≫= f)). cbn [rg].
    intros Hp s' Hs r m' Ha. destruct (Hp s' Hs r m' Ha) as (s'' & Hm & Hg & Hk). eauto 6.
Qed.

Lemma rg_call (c : op S) s (Q : res S c -> G -> Prop) :
  (forall s' r m', rely s s' -> access (mem s') (Ev c r) m' ->
     exists s1, mem s1 = m' /\ guar s' s1 /\ forall s2, rely s1 s2 -> Q r s2) ->
  rg rely guar (call c) s Q.
Proof. intros Hc s' Hs r m' Ha. apply (Hc s' r m' Hs Ha). Qed.

(** What a program can assume survives the others. *)
Lemma rg_stable {A} (p : fw S A) s s' (Q : A -> G -> Prop) : rely s s' -> rg rely guar p s Q -> rg rely guar p s' Q.
Proof.
  intros Hs. destruct p as [a|c k]; cbn [rg]; intros Hp s1 Hs1; apply Hp; by transitivity s'.
Qed.
End rules.

(** ** Soundness *)

Section sound.
Context {A B : Type} (tpl1 tpl2 : Z).
(** While a call of the first client is running, the second one's accesses
    count as [run1] if they can happen at all; between calls they are
    [between1]. *)
Context (run1 between1 guar1 run2 between2 guar2 : G -> G -> Prop) (Idle1 : list A -> G -> Prop) (Idle2 : list B -> G -> Prop).
Context `{!PreOrder run1, !PreOrder run2}.
Context (stable1 : forall l s s', between1 s s' -> Idle1 l s -> Idle1 l s').
Context (stable2 : forall l s s', between2 s s' -> Idle2 l s -> Idle2 l s').
Context (compat12 : forall s s', guar1 s s' -> between2 s s' /\ (tpl2 < tpl1 -> run2 s s')).
Context (compat21 : forall s s', guar2 s s' -> between1 s s' /\ (tpl1 < tpl2 -> run1 s s')).

Definition holds {X} (run guar : G -> G -> Prop) (Idle : list X -> G -> Prop) (k : client X) (s : G) : Prop :=
  match current k with
  | None => Idle (finished k) s
  | Some p => rg run guar p s (fun a s' => Idle (finished k ++ [a]) s')
  end.
Definition fine {X} (run guar : G -> G -> Prop) (Idle : list X -> G -> Prop) (p : fw S X) : Prop :=
  forall l s, Idle l s -> rg run guar p s (fun a s' => Idle (l ++ [a]) s').

(** A move keeps the mover's assertion and changes the state within its
    guarantee, or not at all. *)
Lemma moves_holds {X} (run guar : G -> G -> Prop) `{!PreOrder run} (Idle : list X -> G -> Prop) m k m' k' s :
  moves m k m' k' -> mem s = m -> Forall (fine run guar Idle) (todo k) -> holds run guar Idle k s ->
  exists s', mem s' = m' /\ (s' = s \/ guar s s') /\ Forall (fine run guar Idle) (todo k') /\ holds run guar Idle k' s'.
Proof.
  intros Hm Hs Ht Hk. destruct Hm as [p ps done|ps p e p' m' done Ha He|ps a done]; cbn [todo] in *.
  - apply Forall_cons in Ht as [Hp Ht]. exists s. split_and!; [done|by left|done|]. by apply Hp.
  - destruct p as [a|c q]; [done|]. destruct Ha as (r & -> & ->). subst m. unfold holds in Hk. cbn [current rg] in Hk.
    destruct (Hk s ltac:(reflexivity) r m' He) as (s'' & <- & Hg & Hq). exists s''. split_and!; [done|by right|done|exact Hq].
  - exists s. split_and!; [done|by left|done|]. exact (Hk s ltac:(reflexivity)).
Qed.

(** The other client's assertion survives what it can see of a move. *)
Lemma holds_stable {X} (run between guar : G -> G -> Prop) `{!PreOrder run} (Idle : list X -> G -> Prop) (k : client X) s s' (lower : Prop) :
  (forall l s s', between s s' -> Idle l s -> Idle l s') -> between s s' /\ (lower -> run s s') -> idle k \/ lower ->
  holds run guar Idle k s -> holds run guar Idle k s'.
Proof.
  intros Hst [Hb Hr] Hmay. unfold holds. destruct (current k) as [q|] eqn:Ek; [|by apply Hst].
  apply rg_stable; [done|]. apply Hr. destruct Hmay as [Hi|]; [unfold idle in Hi; congruence|done].
Qed.

Abbreviation fine1 := (fine run1 guar1 Idle1).
Abbreviation fine2 := (fine run2 guar2 Idle2).

Definition invariant (c : machine A B) : Prop :=
  exists s, mem s = memory c /\ Forall fine1 (todo (first c)) /\ Forall fine2 (todo (second c))
    /\ holds run1 guar1 Idle1 (first c) s /\ holds run2 guar2 Idle2 (second c) s.

Lemma step_invariant c c' : step tpl1 tpl2 c c' -> invariant c -> invariant c'.
Proof.
  intros Hst (s & Hm & Ht1 & Ht2 & H1 & H2). destruct Hst as [m k1 k2 m' k1' Hmay Hmv|m k1 k2 m' k2' Hmay Hmv];
    cbn [memory first second] in *.
  - destruct (moves_holds run1 guar1 Idle1 _ _ _ _ s Hmv Hm Ht1 H1) as (s' & <- & Hg & Ht1' & H1').
    exists s'. split_and!; [done..|]. destruct Hg as [->|Hg]; [done|]. by apply (holds_stable run2 between2 guar2 Idle2 k2 s s' (tpl2 < tpl1)); auto.
  - destruct (moves_holds run2 guar2 Idle2 _ _ _ _ s Hmv Hm Ht2 H2) as (s' & <- & Hg & Ht2' & H2').
    exists s'. split_and!; [done..| |done]. destruct Hg as [->|Hg]; [done|]. by apply (holds_stable run1 between1 guar1 Idle1 k1 s s' (tpl1 < tpl2)); auto.
Qed.

Lemma reach_invariant c c' : rtc (step tpl1 tpl2) c c' -> invariant c -> invariant c'.
Proof. induction 1; eauto using step_invariant. Qed.
End sound.
End interleave.

Arguments mkClient {S A}.
Arguments todo {S A}.
Arguments current {S A}.
Arguments finished {S A}.
Arguments mkMachine {S M A B}.
Arguments memory {S M A B}.
Arguments first {S M A B}.
Arguments second {S M A B}.
Arguments rg : simpl never.

(** A proof over the states [G] carries over to richer states [G2], along a
    projection, where an invariant [T] of the richer states goes with it. *)
Lemma rg_lift {S : sig} {M G G2 : Type} (access : M -> event S -> M -> Prop) (mem : G -> M) (proj : G2 -> G)
    (rely guar : G -> G -> Prop) (rely2 guar2 : G2 -> G2 -> Prop) (T : G2 -> Prop)
    {A} (p : fw S A) (x : G2) (Q : A -> G -> Prop) :
  (forall x x', T x -> rely2 x x' -> rely (proj x) (proj x') /\ T x') ->
  (forall x s, T x -> guar (proj x) s -> exists x', proj x' = s /\ guar2 x x' /\ T x') ->
  T x -> rg access mem rely guar p (proj x) Q ->
  rg access (fun x => mem (proj x)) rely2 guar2 p x (fun a x' => Q a (proj x') /\ T x').
Proof.
  intros Hrely Hguar. revert x. induction p as [a|c k IH]; intros x HT Hp.
  - intros x' Hx. destruct (Hrely x x' HT Hx) as [Hr HT']. split; [by apply Hp|done].
  - intros x' Hx r m' Ha. destruct (Hrely x x' HT Hx) as [Hr HT']. destruct (Hp (proj x') Hr r m' Ha) as (s & Hm & Hg & Hk).
    destruct (Hguar x' s HT' Hg) as (x'' & <- & Hg2 & HT''). exists x''. split; [done|]. split; [done|]. by apply IH.
Qed.
