(* ===== verification/SerialIo.v ===== *)
(** * The CDC-ACM serial port (UsbCdcAcmDxe/SerialIo.c)

    The receive ring, the timer callback that fills it and the
    EFI_SERIAL_IO_PROTOCOL functions, as state-passing programs over the USB
    services.  An access outside the ring or the scratch buffer is [None]. *)

From S2P Require Import Prelude Services Uefi.

(** ** Constants *)

Definition USB_CDC_ACM_RX_FIFO_SIZE : Z := 4096.
Definition USB_CDC_ACM_XFER_TIMEOUT : Z := 1.
Definition USB_CDC_ACM_POLL_INTERVAL : Z := 10 * 1000.
Definition USB_CDC_SET_LINE_CODING : Z := 0x20.
Definition USB_CDC_SET_CONTROL_LINE_STATE : Z := 0x22.
Definition USB_CDC_ACM_CONTROL_DTR : Z := 1.
Definition USB_CDC_ACM_CONTROL_RTS : Z := 2.
Definition ACM_DEFAULT_BAUD_RATE : Z := 115200.
Definition ACM_DEFAULT_DATA_BITS : Z := 8.
Definition ACM_DEFAULT_TIMEOUT : Z := 1000000.
Definition USB_REQ_TYPE_CLASS : Z := 0x20.
Definition USB_TARGET_INTERFACE : Z := 0x01.

Definition EFI_SERIAL_DATA_TERMINAL_READY : Z := 0x1.
Definition EFI_SERIAL_REQUEST_TO_SEND : Z := 0x2.
Definition EFI_SERIAL_INPUT_BUFFER_EMPTY : Z := 0x100.
Definition EFI_SERIAL_OUTPUT_BUFFER_EMPTY : Z := 0x200.
Definition EFI_SERIAL_HARDWARE_LOOPBACK_ENABLE : Z := 0x1000.
Definition EFI_SERIAL_SOFTWARE_LOOPBACK_ENABLE : Z := 0x2000.
Definition EFI_SERIAL_HARDWARE_FLOW_CONTROL_ENABLE : Z := 0x4000.

Inductive EFI_PARITY_TYPE := DefaultParity | NoParity | EvenParity | OddParity | MarkParity | SpaceParity.
Inductive EFI_STOP_BITS_TYPE := DefaultStopBits | OneStopBit | OneFiveStopBits | TwoStopBits.

#[global] Instance EFI_PARITY_TYPE_eq_dec : EqDecision EFI_PARITY_TYPE.
Proof. solve_decision. Defined.
#[global] Instance EFI_STOP_BITS_TYPE_eq_dec : EqDecision EFI_STOP_BITS_TYPE.
Proof. solve_decision. Defined.

(** ** The device context *)

Record EFI_SERIAL_IO_MODE := mkMode {
  ControlMask : Z; Timeout : Z; BaudRate : Z; ReceiveFifoDepth : Z;
  DataBits : Z; Parity : EFI_PARITY_TYPE; StopBits : EFI_STOP_BITS_TYPE }.

(** The three fields that make up the receive ring. *)
Record rx_ring := mkRing { Rx : list Z; RxHead : Z; RxTail : Z }.

(** [RxScratch] is the pool pointer with the bytes behind it; pointers that
    can be NULL are options. *)
Record USB_CDC_ACM_DEV := mkDev {
  ControllerHandle : Z; DataHandle : Z; ChildHandle : option Z; DriverBindingHandle : Z;
  CtrlUsbIo : Z; DataUsbIo : Z;
  SerialMode : EFI_SERIAL_IO_MODE; DevicePath : option Z;
  ControlInterfaceNumber : Z; BulkIn : Z; BulkOut : Z; BulkInMaxPacket : Z; BulkOutMaxPacket : Z;
  PollEvent : option Z; RxScratch : option (Z * list Z); Ring : rx_ring; ControlBits : Z }.

(** Field updates. *)
Definition with_Ring (d : USB_CDC_ACM_DEV) (r : rx_ring) : USB_CDC_ACM_DEV :=
  mkDev (ControllerHandle d) (DataHandle d) (ChildHandle d) (DriverBindingHandle d) (CtrlUsbIo d) (DataUsbIo d)
    (SerialMode d) (DevicePath d) (ControlInterfaceNumber d) (BulkIn d) (BulkOut d) (BulkInMaxPacket d)
    (BulkOutMaxPacket d) (PollEvent d) (RxScratch d) r (ControlBits d).
Definition with_ControlBits (d : USB_CDC_ACM_DEV) (c : Z) : USB_CDC_ACM_DEV :=
  mkDev (ControllerHandle d) (DataHandle d) (ChildHandle d) (DriverBindingHandle d) (CtrlUsbIo d) (DataUsbIo d)
    (SerialMode d) (DevicePath d) (ControlInterfaceNumber d) (BulkIn d) (BulkOut d) (BulkInMaxPacket d)
    (BulkOutMaxPacket d) (PollEvent d) (RxScratch d) (Ring d) c.
Definition with_SerialMode (d : USB_CDC_ACM_DEV) (m : EFI_SERIAL_IO_MODE) : USB_CDC_ACM_DEV :=
  mkDev (ControllerHandle d) (DataHandle d) (ChildHandle d) (DriverBindingHandle d) (CtrlUsbIo d) (DataUsbIo d)
    m (DevicePath d) (ControlInterfaceNumber d) (BulkIn d) (BulkOut d) (BulkInMaxPacket d)
    (BulkOutMaxPacket d) (PollEvent d) (RxScratch d) (Ring d) (ControlBits d).
Definition with_RxScratch (d : USB_CDC_ACM_DEV) (s : option (Z * list Z)) : USB_CDC_ACM_DEV :=
  mkDev (ControllerHandle d) (DataHandle d) (ChildHandle d) (DriverBindingHandle d) (CtrlUsbIo d) (DataUsbIo d)
    (SerialMode d) (DevicePath d) (ControlInterfaceNumber d) (BulkIn d) (BulkOut d) (BulkInMaxPacket d)
    (BulkOutMaxPacket d) (PollEvent d) s (Ring d) (ControlBits d).
Definition with_child (d : USB_CDC_ACM_DEV) (child path event : option Z) : USB_CDC_ACM_DEV :=
  mkDev (ControllerHandle d) (DataHandle d) child (DriverBindingHandle d) (CtrlUsbIo d) (DataUsbIo d)
    (SerialMode d) path (ControlInterfaceNumber d) (BulkIn d) (BulkOut d) (BulkInMaxPacket d)
    (BulkOutMaxPacket d) event (RxScratch d) (Ring d) (ControlBits d).
Definition with_CtrlUsbIo (d : USB_CDC_ACM_DEV) (u : Z) : USB_CDC_ACM_DEV :=
  mkDev (ControllerHandle d) (DataHandle d) (ChildHandle d) (DriverBindingHandle d) u (DataUsbIo d)
    (SerialMode d) (DevicePath d) (ControlInterfaceNumber d) (BulkIn d) (BulkOut d) (BulkInMaxPacket d)
    (BulkOutMaxPacket d) (PollEvent d) (RxScratch d) (Ring d) (ControlBits d).
Definition with_control_interface (d : USB_CDC_ACM_DEV) (n : Z) : USB_CDC_ACM_DEV :=
  mkDev (ControllerHandle d) (DataHandle d) (ChildHandle d) (DriverBindingHandle d) (CtrlUsbIo d) (DataUsbIo d)
    (SerialMode d) (DevicePath d) n (BulkIn d) (BulkOut d) (BulkInMaxPacket d)
    (BulkOutMaxPacket d) (PollEvent d) (RxScratch d) (Ring d) (ControlBits d).
Definition with_data (d : USB_CDC_ACM_DEV) (h u : Z) : USB_CDC_ACM_DEV :=
  mkDev (ControllerHandle d) h (ChildHandle d) (DriverBindingHandle d) (CtrlUsbIo d) u
    (SerialMode d) (DevicePath d) (ControlInterfaceNumber d) (BulkIn d) (BulkOut d) (BulkInMaxPacket d)
    (BulkOutMaxPacket d) (PollEvent d) (RxScratch d) (Ring d) (ControlBits d).
Definition with_bulk (d : USB_CDC_ACM_DEV) (i o mi mo : Z) : USB_CDC_ACM_DEV :=
  mkDev (ControllerHandle d) (DataHandle d) (ChildHandle d) (DriverBindingHandle d) (CtrlUsbIo d) (DataUsbIo d)
    (SerialMode d) (DevicePath d) (ControlInterfaceNumber d) i o mi mo
    (PollEvent d) (RxScratch d) (Ring d) (ControlBits d).

(** ** The services *)

Record EFI_USB_DEVICE_REQUEST := mkReq { RequestType : Z; Request : Z; Value : Z; Index : Z; Length : Z }.
Inductive usb_direction := EfiUsbNoData | EfiUsbDataOut | EfiUsbDataIn.
Inductive timer_type := TimerCancel | TimerPeriodic.
Inductive open_mode := BY_DRIVER | BY_CHILD_CONTROLLER | GET_PROTOCOL.
Inductive acm_protocol := UsbIoProtocol | SerialIoProtocol.

Record EFI_USB_INTERFACE_DESCRIPTOR := mkInterface {
  InterfaceNumber : Z; InterfaceClass : Z; InterfaceSubClass : Z; NumEndpoints : Z }.
Record EFI_USB_ENDPOINT_DESCRIPTOR := mkEndpoint { EndpointAddress : Z; Attributes : Z; MaxPacketSize : Z }.

(** A bulk transfer answers with the length it reports and, for an IN
    endpoint, the bytes it stored at the start of the buffer. *)
Inductive acm_op :=
  | UsbBulkTransfer (usbio endpoint : Z) (data : list Z) (length timeout : Z)
  | UsbControlTransfer (usbio : Z) (req : EFI_USB_DEVICE_REQUEST) (dir : usb_direction)
                       (timeout : Z) (data : list Z) (length : Z)
  | GetDevicePath (h : Z)
  | AppendDevicePathNode (path : list dp_node) (node : dp_node)
  | InstallMultipleProtocolInterfaces (child path : option Z)
  | UninstallMultipleProtocolInterfaces (child path : option Z)
  | OpenProtocol (h : Z) (p : acm_protocol) (agent : Z) (controller : option Z) (mode : open_mode)
  | CloseProtocol (h : Z) (agent : Z) (controller : option Z)
  | CreateEvent
  | SetTimer (event : Z) (type : timer_type) (period : Z)
  | CloseEvent (event : Z)
  | LocateUsbIoHandles
  | AllocateZeroPool (size : Z)
  | FreePool (p : Z)
  | UsbGetInterfaceDescriptor (usbio : Z)
  | UsbGetEndpointDescriptor (usbio : Z) (index : Z).

Definition acm_res (c : acm_op) : Type :=
  match c with
  | UsbBulkTransfer _ _ _ _ _ => EFI_STATUS * (Z * list Z)
  | GetDevicePath _ => EFI_STATUS * list dp_node
  | AppendDevicePathNode _ _ => option Z
  | InstallMultipleProtocolInterfaces _ _ => EFI_STATUS * Z
  | OpenProtocol _ _ _ _ _ => EFI_STATUS * Z
  | CreateEvent => EFI_STATUS * Z
  | LocateUsbIoHandles => EFI_STATUS * (Z * list Z)
  | AllocateZeroPool _ => option Z
  | UsbGetInterfaceDescriptor _ => EFI_STATUS * EFI_USB_INTERFACE_DESCRIPTOR
  | UsbGetEndpointDescriptor _ _ => EFI_STATUS * EFI_USB_ENDPOINT_DESCRIPTOR
  | FreePool _ => unit
  | UsbControlTransfer _ _ _ _ _ _ | UninstallMultipleProtocolInterfaces _ _
  | CloseProtocol _ _ _ | SetTimer _ _ _ | CloseEvent _ => EFI_STATUS
  end.

Definition acm : sig := Sig acm_op acm_res.

(** ** The receive ring *)

Definition RxCount (r : rx_ring) : Z :=
  if RxTail r <=? RxHead r then wrap 64 (RxHead r - RxTail r)
  else wrap 64 (USB_CDC_ACM_RX_FIFO_SIZE - RxTail r + RxHead r).

Definition RxFree (r : rx_ring) : Z := wrap 64 (USB_CDC_ACM_RX_FIFO_SIZE - 1 - RxCount r).

(** [Rx[i] = x]: [None] when [i] is outside the array. *)
Definition rx_store (b : list Z) (i x : Z) : option (list Z) :=
  if (0 <=? i) && (i <? len b) then Some (<[Z.to_nat i := x]> b) else None.

(** The storing loop of RxPut; [n] iterations are left. *)
Fixpoint rx_put_loop (n : nat) (r : rx_ring) (Data : list Z) (Index : Z) : option rx_ring :=
  match n with
  | O => Some r
  | S n =>
      x ← mem_get Data Index;
      b ← rx_store (Rx r) (RxHead r) x;
      rx_put_loop n (mkRing b ((RxHead r + 1) mod USB_CDC_ACM_RX_FIFO_SIZE) (RxTail r)) Data (Index + 1)
  end.

Definition RxPut (r : rx_ring) (Data : list Z) (Length : Z) : option rx_ring :=
  let Room := RxFree r in
  let Length := if Room <? Length then Room else Length in
  rx_put_loop (Z.to_nat Length) r Data 0.

(** The storing loop of UsbCdcAcmRead.  The ring holds fewer bytes than its
    size, so that many rounds of fuel are enough. *)
Fixpoint read_loop (fuel : nat) (r : rx_ring) (Wanted : Z) (Out : list Z) : option (list Z * rx_ring) :=
  match fuel with
  | O => None
  | S fuel =>
      if (len Out <? Wanted) && (0 <? RxCount r) then
        x ← mem_get (Rx r) (RxTail r);
        read_loop fuel (mkRing (Rx r) (RxHead r) ((RxTail r + 1) mod USB_CDC_ACM_RX_FIFO_SIZE)) Wanted (Out ++ [x])
      else Some (Out, r)
  end.

(** ** The timer callback *)

(** A transfer overwrites the start of the scratch buffer. *)
Definition overwrite (b data : list Z) : list Z := take (length b) (data ++ drop (length data) b).

(** The result is [None] when RxPut leaves a buffer. *)
Definition UsbCdcAcmPoll (d : USB_CDC_ACM_DEV) : fw acm (option USB_CDC_ACM_DEV) :=
  if RxFree (Ring d) <? BulkInMaxPacket d then mret (Some d)
  else
    match RxScratch d with
    | None => mret None
    | Some (p, scratch) =>
        '(Status, (Length, data)) ← call (S := acm)
            (UsbBulkTransfer (DataUsbIo d) (BulkIn d) [] (BulkInMaxPacket d) USB_CDC_ACM_XFER_TIMEOUT);
        let scratch := overwrite scratch (map (wrap 8) data) in
        let d := with_RxScratch d (Some (p, scratch)) in
        if EFI_ERROR Status || (Length =? 0) then mret (Some d)
        else mret (with_Ring d <$> RxPut (Ring d) scratch Length)
    end.

(** ** Class requests *)

Definition AcmClassRequest (d : USB_CDC_ACM_DEV) (Req Val : Z) (Data : list Z) (Len : Z) : fw acm EFI_STATUS :=
  call (S := acm)
    (UsbControlTransfer (CtrlUsbIo d)
       (mkReq (Z.lor USB_REQ_TYPE_CLASS USB_TARGET_INTERFACE) Req Val (ControlInterfaceNumber d) (wrap 16 Len))
       (if Len =? 0 then EfiUsbNoData else EfiUsbDataOut) (ACM_DEFAULT_TIMEOUT / 1000) Data Len).

(** ** EFI_SERIAL_IO_PROTOCOL *)

Definition UsbCdcAcmSetControl (d : USB_CDC_ACM_DEV) (Control : Z) : fw acm (EFI_STATUS * USB_CDC_ACM_DEV) :=
  if negb (Z.land Control
             (Z.lor (Z.lor EFI_SERIAL_HARDWARE_LOOPBACK_ENABLE EFI_SERIAL_SOFTWARE_LOOPBACK_ENABLE)
                    EFI_SERIAL_HARDWARE_FLOW_CONTROL_ENABLE) =? 0)
  then mret (EFI_UNSUPPORTED, d)
  else
    let d := with_ControlBits d
               (Z.land Control (Z.lor EFI_SERIAL_DATA_TERMINAL_READY EFI_SERIAL_REQUEST_TO_SEND)) in
    let LineState := 0 in
    let LineState := if negb (Z.land (ControlBits d) EFI_SERIAL_DATA_TERMINAL_READY =? 0)
                     then Z.lor LineState USB_CDC_ACM_CONTROL_DTR else LineState in
    let LineState := if negb (Z.land (ControlBits d) EFI_SERIAL_REQUEST_TO_SEND =? 0)
                     then Z.lor LineState USB_CDC_ACM_CONTROL_RTS else LineState in
    _ ← AcmClassRequest d USB_CDC_SET_CONTROL_LINE_STATE LineState [] 0;
    mret (EFI_SUCCESS, d).

Definition UsbCdcAcmReset (d : USB_CDC_ACM_DEV) : fw acm (EFI_STATUS * USB_CDC_ACM_DEV) :=
  let d := with_Ring d (mkRing (Rx (Ring d)) 0 0) in
  UsbCdcAcmSetControl d (ControlBits d).

(** The SET_LINE_CODING payload. *)
Definition line_coding (Baud : Z) (Stop : EFI_STOP_BITS_TYPE) (Par : EFI_PARITY_TYPE) (Bits : Z) : list Z :=
  le_split 4 (wrap 32 Baud)
  ++ [if bool_decide (Stop = TwoStopBits) then 2 else if bool_decide (Stop = OneFiveStopBits) then 1 else 0;
      if bool_decide (Par = NoParity) then 0
      else if bool_decide (Par = OddParity) then 1
      else if bool_decide (Par = EvenParity) then 2
      else if bool_decide (Par = MarkParity) then 3 else 4;
      Bits].

Definition UsbCdcAcmSetAttributes (d : USB_CDC_ACM_DEV) (Baud FifoDepth Time : Z) (Par : EFI_PARITY_TYPE)
    (Bits : Z) (Stop : EFI_STOP_BITS_TYPE) : fw acm (EFI_STATUS * USB_CDC_ACM_DEV) :=
  let Baud := if Baud =? 0 then ACM_DEFAULT_BAUD_RATE else Baud in
  let Bits := if Bits =? 0 then ACM_DEFAULT_DATA_BITS else Bits in
  let Time := if Time =? 0 then ACM_DEFAULT_TIMEOUT else Time in
  let Par := if bool_decide (Par = DefaultParity) then NoParity else Par in
  let Stop := if bool_decide (Stop = DefaultStopBits) then OneStopBit else Stop in
  let d := with_SerialMode d
             (mkMode (ControlMask (SerialMode d)) Time Baud USB_CDC_ACM_RX_FIFO_SIZE Bits Par Stop) in
  _ ← AcmClassRequest d USB_CDC_SET_LINE_CODING 0 (line_coding Baud Stop Par Bits) 7;
  mret (EFI_SUCCESS, d).

(** [Control] says whether the output pointer is non-NULL; the value stored
    through it is the second component. *)
Definition UsbCdcAcmGetControl (d : USB_CDC_ACM_DEV) (Control : bool) : EFI_STATUS * option Z :=
  if negb Control then (EFI_INVALID_PARAMETER, None)
  else
    let C := Z.lor (ControlBits d) EFI_SERIAL_OUTPUT_BUFFER_EMPTY in
    let C := if RxCount (Ring d) =? 0 then Z.lor C EFI_SERIAL_INPUT_BUFFER_EMPTY else C in
    (EFI_SUCCESS, Some C).

(** [BufferSize] and [Buffer] are [None] for NULL pointers; the result is the
    status and the value stored through [BufferSize]. *)
Definition UsbCdcAcmWrite (d : USB_CDC_ACM_DEV) (BufferSize : option Z) (Buffer : option (list Z))
    : fw acm (EFI_STATUS * option Z) :=
  match BufferSize, Buffer with
  | Some BufferSize, Some Buffer =>
      if BufferSize =? 0 then mret (EFI_SUCCESS, Some 0)
      else
        '(Status, (Length, _)) ← call (S := acm)
            (UsbBulkTransfer (DataUsbIo d) (BulkOut d) Buffer BufferSize (Timeout (SerialMode d) / 1000));
        if EFI_ERROR Status then mret (EFI_DEVICE_ERROR, Some Length)
        else mret (EFI_SUCCESS, Some Length)
  | b, _ => mret (EFI_INVALID_PARAMETER, b)
  end.

(** The result is the status, the value stored through [BufferSize], the
    bytes stored in [Buffer] and the device. *)
Definition UsbCdcAcmRead (d : USB_CDC_ACM_DEV) (BufferSize : option Z) (Buffer : bool)
    : option (EFI_STATUS * option Z * list Z * USB_CDC_ACM_DEV) :=
  match BufferSize with
  | Some Wanted =>
      if negb Buffer then Some (EFI_INVALID_PARAMETER, Some Wanted, [], d)
      else
        '(Out, r) ← read_loop (Z.to_nat USB_CDC_ACM_RX_FIFO_SIZE) (Ring d) Wanted [];
        Some (if len Out =? Wanted then EFI_SUCCESS else EFI_TIMEOUT, Some (len Out), Out, with_Ring d r)
  | None => Some (EFI_INVALID_PARAMETER, None, [], d)
  end.
