(* ===== verification/SerialSpec.v ===== *)
(** * What the serial port guarantees

    The ring refines a bounded FIFO queue; the timer callback loses nothing;
    every byte delivered is read once and in order; the control and
    attribute functions report and transmit what they record. *)

From S2P Require Import Prelude Services Uefi SerialIo.

(** ** The abstract queue

    What a receive queue promises its clients: [put] appends what fits and
    drops the rest, [get] takes from the front. *)

Class RxQueue (D : Type) := {
  q_wf : D -> Prop;
  q_contents : D -> list Z;
  q_capacity : Z;
  q_put : D -> list Z -> Z -> option D;
  q_get : D -> Z -> option (list Z * D);
  q_bounded d : q_wf d -> len (q_contents d) <= q_capacity;
  q_put_spec d data n :
    q_wf d -> 0 <= n <= len data ->
    exists d', q_put d data n = Some d' /\ q_wf d' /\
      q_contents d' = q_contents d ++ take (Z.to_nat (Z.min n (q_capacity - len (q_contents d)))) data;
  q_get_spec d n :
    q_wf d -> 0 <= n ->
    exists d', q_get d n = Some (take (Z.to_nat n) (q_contents d), d') /\ q_wf d' /\
      q_contents d' = drop (Z.to_nat n) (q_contents d)
}.

(** ** The ring *)

Definition ring_wf (r : rx_ring) : Prop :=
  len (Rx r) = 4096 /\ 0 <= RxHead r < 4096 /\ 0 <= RxTail r < 4096.

(** The byte [i] places after the tail. *)
Definition ring_at (r : rx_ring) (i : Z) : Z := default 0 (Rx r !! Z.to_nat ((RxTail r + i) mod 4096)).

Definition ring_contents (r : rx_ring) : list Z := map (ring_at r) (seqZ 0 (RxCount r)).

Lemma RxCount_mod r : ring_wf r -> RxCount r = (RxHead r - RxTail r) mod 4096.
Proof.
  intros (_ & Hh & Ht). unfold RxCount, USB_CDC_ACM_RX_FIFO_SIZE.
  destruct (Z.leb_spec (RxTail r) (RxHead r)); rewrite wrap_id by (unfold is_uint; lia); Z.to_euclidean_division_equations; lia.
Qed.

Lemma RxCount_range r : ring_wf r -> 0 <= RxCount r <= 4095.
Proof. intros Hw. rewrite RxCount_mod by done. pose proof (Z.mod_pos_bound (RxHead r - RxTail r) 4096). lia. Qed.

(** On a well-formed ring the UINTN arithmetic does not wrap. *)
Lemma RxFree_eq r : ring_wf r -> RxFree r = 4095 - RxCount r.
Proof. intros Hw. pose proof (RxCount_range r Hw). unfold RxFree, USB_CDC_ACM_RX_FIFO_SIZE. rewrite wrap_id by (unfold is_uint; lia). lia. Qed.

Lemma len_contents r : ring_wf r -> len (ring_contents r) = RxCount r.
Proof.
  intros Hw. pose proof (RxCount_range r Hw). unfold len, ring_contents. rewrite length_map, length_seqZ. lia.
Qed.

(** Storing one byte. *)
Lemma ring_put_one r x b :
  ring_wf r -> RxCount r < 4095 -> rx_store (Rx r) (RxHead r) x = Some b ->
  let r' := mkRing b ((RxHead r + 1) mod USB_CDC_ACM_RX_FIFO_SIZE) (RxTail r) in
  ring_wf r' /\ RxCount r' = RxCount r + 1 /\ ring_contents r' = ring_contents r ++ [x].
Proof.
  intros Hw Hc Hs r'. pose proof (RxCount_range r Hw) as Hr. pose proof (RxCount_mod r Hw) as Hm.
  unfold rx_store in Hs. case_match; [|done]. b2p. injection Hs as <-.
  destruct Hw as (Hl & Hh & Ht). unfold USB_CDC_ACM_RX_FIFO_SIZE in r'.
  assert (Hw' : ring_wf r').
  { split; [unfold len in *; cbn; by rewrite length_insert|]. subst r'. cbn.
    pose proof (Z.mod_pos_bound (RxHead r + 1) 4096). lia. }
  assert (Hc' : RxCount r' = RxCount r + 1).
  { rewrite RxCount_mod, Hm by done. subst r'. cbn [RxHead RxTail].
    rewrite Hm in Hc. Z.to_euclidean_division_equations; lia. }
  split; [done|]. split; [done|]. unfold ring_contents. rewrite Hc'.
  replace (RxCount r + 1) with (Z.of_nat (S (Z.to_nat (RxCount r)))) by lia.
  rewrite seqZ_S. replace (Z.of_nat (Z.to_nat (RxCount r))) with (RxCount r) by lia.
  rewrite map_app. cbn [map]. f_equal.
  - apply map_ext_in. intros i Hi. apply list_elem_of_In, elem_of_seqZ in Hi.
    unfold ring_at. subst r'. cbn [Rx RxTail]. rewrite list_lookup_insert_ne; [done|].
    rewrite Hm in Hi. Z.to_euclidean_division_equations; lia.
  - f_equal. unfold ring_at. subst r'. cbn [Rx RxTail].
    replace ((RxTail r + (0 + RxCount r)) mod 4096) with (RxHead r)
      by (rewrite Hm; Z.to_euclidean_division_equations; lia).
    rewrite list_lookup_insert_eq; [done|]. unfold len in *. lia.
Qed.

Lemma rx_store_Some b i x : 0 <= i < len b -> exists b', rx_store b i x = Some b'.
Proof.
  intros Hi. unfold rx_store. destruct (Z.leb_spec 0 i); [|lia]. destruct (Z.ltb_spec i (len b)); [|lia].
  by eexists.
Qed.

Lemma rx_put_loop_spec n r Data Index :
  ring_wf r -> 0 <= Index -> Index + Z.of_nat n <= len Data -> RxCount r + Z.of_nat n <= 4095 ->
  exists r', rx_put_loop n r Data Index = Some r' /\ ring_wf r' /\
    ring_contents r' = ring_contents r ++ take n (drop (Z.to_nat Index) Data).
Proof.
  revert r Index. induction n as [|n IH]; intros r Index Hw Hi Hl Hc.
  { exists r. rewrite take_0, app_nil_r. done. }
  cbn [rx_put_loop]. destruct (mem_get_Some Data Index ltac:(lia)) as (x & Hx & _). rewrite Hx.
  destruct Hw as (Hlen & Hh & Ht). cbn [mbind option_bind].
  destruct (rx_store_Some (Rx r) (RxHead r) x ltac:(lia)) as [b Hb]. rewrite Hb.
  destruct (ring_put_one r x b) as (Hw' & Hc' & Hcont); [done|lia|done|]. cbn [mbind option_bind].
  destruct (IH _ (Index + 1) Hw') as (r' & -> & Hwr & Hcr); [lia..|].
  exists r'. split; [done|]. split; [done|]. rewrite Hcr, Hcont, <- (assoc_L (++)). f_equal.
  unfold mem_get in Hx. case_match; [done|]. apply drop_S in Hx. rewrite Hx. cbn. do 2 f_equal. f_equal. lia.
Qed.

Lemma RxPut_spec r Data n :
  ring_wf r -> 0 <= n <= len Data ->
  exists r', RxPut r Data n = Some r' /\ ring_wf r' /\
    ring_contents r' = ring_contents r ++ take (Z.to_nat (Z.min n (4095 - len (ring_contents r)))) Data.
Proof.
  intros Hw Hn. unfold RxPut. rewrite RxFree_eq, len_contents by done.
  pose proof (RxCount_range r Hw).
  replace (if _ <? n then _ else n) with (Z.min n (4095 - RxCount r))
    by (destruct (Z.ltb_spec (4095 - RxCount r) n); lia).
  destruct (rx_put_loop_spec (Z.to_nat (Z.min n (4095 - RxCount r))) r Data 0) as (r' & -> & Hw' & Hc');
    [done|lia..|]. exists r'. by rewrite Hc'.
Qed.

(** Taking one byte. *)
Lemma ring_get_one r :
  ring_wf r -> 0 < RxCount r ->
  exists x, mem_get (Rx r) (RxTail r) = Some x /\
  let r' := mkRing (Rx r) (RxHead r) ((RxTail r + 1) mod USB_CDC_ACM_RX_FIFO_SIZE) in
  ring_wf r' /\ RxCount r' = RxCount r - 1 /\ ring_contents r = x :: ring_contents r'.
Proof.
  intros Hw Hc. pose proof (RxCount_mod r Hw) as Hm. pose proof Hw as (Hl & Hh & Ht).
  destruct (mem_get_Some (Rx r) (RxTail r) ltac:(lia)) as (x & Hx & _). exists x. split; [done|].
  intros r'. unfold USB_CDC_ACM_RX_FIFO_SIZE in r'.
  assert (Hw' : ring_wf r').
  { subst r'. split; [done|]. cbn. pose proof (Z.mod_pos_bound (RxTail r + 1) 4096). lia. }
  assert (Hc' : RxCount r' = RxCount r - 1).
  { rewrite RxCount_mod, Hm by done. subst r'. cbn [RxHead RxTail].
    rewrite Hm in Hc. Z.to_euclidean_division_equations; lia. }
  split; [done|]. split; [done|]. unfold ring_contents. rewrite Hc', (seqZ_cons 0) by done. cbn [map]. f_equal.
  - unfold ring_at. rewrite Z.add_0_r, Z.mod_small by lia.
    unfold mem_get in Hx. case_match; [done|]. by rewrite Hx.
  - replace (seqZ (Z.succ 0) (Z.pred (RxCount r))) with (Z.add 1 <$> seqZ 0 (RxCount r - 1))
      by (rewrite fmap_add_seqZ; f_equal; lia).
    change (Z.add 1 <$> seqZ 0 (RxCount r - 1)) with (map (Z.add 1) (seqZ 0 (RxCount r - 1))). rewrite map_map.
    apply map_ext_in. intros i Hi. apply list_elem_of_In, elem_of_seqZ in Hi.
    unfold ring_at. subst r'. cbn [Rx RxTail]. do 3 f_equal.
    Z.to_euclidean_division_equations; lia.
Qed.

Lemma read_loop_spec fuel r Wanted Out :
  ring_wf r -> RxCount r < Z.of_nat fuel ->
  let n := Z.to_nat (Wanted - len Out) in
  exists r', read_loop fuel r Wanted Out = Some (Out ++ take n (ring_contents r), r') /\ ring_wf r' /\
    ring_contents r' = drop n (ring_contents r).
Proof.
  revert r Out. induction fuel as [|fuel IH]; intros r Out Hw Hf; [pose proof (RxCount_range r Hw); lia|].
  intros n. cbn [read_loop]. destruct (Z.ltb_spec (len Out) Wanted) as [Hlt|Hge]; cbn [andb].
  2:{ exists r. replace n with 0%nat by lia. rewrite take_0, app_nil_r, drop_0. done. }
  destruct (Z.ltb_spec 0 (RxCount r)) as [Hc|Hc].
  2:{ exists r. assert (Hnil : ring_contents r = []).
      { pose proof (RxCount_range r Hw). unfold ring_contents. by replace (RxCount r) with 0 by lia. }
      rewrite Hnil, take_nil, drop_nil, app_nil_r. done. }
  destruct (ring_get_one r Hw Hc) as (x & Hx & Hw' & Hc' & Hcont). rewrite Hx. cbn [mbind option_bind].
  destruct (IH _ (Out ++ [x]) Hw') as (r' & -> & Hwr & Hcr); [lia|]. exists r'.
  rewrite Hcont, Hcr. rewrite len_app, len_cons, len_nil in *.
  replace n with (S (Z.to_nat (Wanted - (len Out + (0 + 1))))) by (subst n; lia).
  cbn [take drop]. rewrite <- (assoc_L (++)). done.
Qed.

Lemma ring_read r n :
  ring_wf r -> 0 <= n ->
  exists r', read_loop (Z.to_nat USB_CDC_ACM_RX_FIFO_SIZE) r n [] = Some (take (Z.to_nat n) (ring_contents r), r')
    /\ ring_wf r' /\ ring_contents r' = drop (Z.to_nat n) (ring_contents r).
Proof.
  intros Hw Hn. pose proof (RxCount_range r Hw).
  assert (Hf : RxCount r < Z.of_nat (Z.to_nat USB_CDC_ACM_RX_FIFO_SIZE)).
  { unfold USB_CDC_ACM_RX_FIFO_SIZE. rewrite Z2Nat.id; lia. }
  destruct (read_loop_spec (Z.to_nat USB_CDC_ACM_RX_FIFO_SIZE) r n [] Hw Hf) as (r' & Hr & Hw' & Hc').
  exists r'. rewrite len_nil, Z.sub_0_r in Hr, Hc'. done.
Qed.

#[global] Program Instance ring_queue : RxQueue rx_ring := {|
  q_wf := ring_wf;
  q_contents := ring_contents;
  q_capacity := 4095;
  q_put := RxPut;
  q_get r n := read_loop (Z.to_nat USB_CDC_ACM_RX_FIFO_SIZE) r n []
|}.
Next Obligation. intros r Hw. cbn in *. rewrite len_contents by done. apply RxCount_range, Hw. Qed.
Next Obligation. intros r data n Hw Hn. by apply RxPut_spec. Qed.
Next Obligation.
  intros r n Hw Hn. by apply ring_read.
Qed.

(** ** The port *)

(** A started port: the scratch buffer is one packet long and the endpoint
    addresses carry their direction. *)
Definition port_wf (d : USB_CDC_ACM_DEV) : Prop :=
  q_wf (Ring d)
  /\ (exists p b, RxScratch d = Some (p, b) /\ len b = BulkInMaxPacket d)
  /\ Z.testbit (BulkIn d) 7 = true /\ Z.testbit (BulkOut d) 7 = false.

Abbreviation port_contents d := (q_contents (Ring d)).

(** UsbBulkTransfer as the UEFI specification describes it for an IN
    endpoint: it reports no more bytes than were asked for or stored. *)
Definition transfer_ok (e : event acm) : Prop :=
  match e with
  | Ev c r => match c as c return acm_res c -> Prop with
              | UsbBulkTransfer _ ep _ n _ => fun r =>
                  Z.testbit ep 7 = true -> 0 <= fst (snd r) <= len (snd (snd r)) /\ len (snd (snd r)) <= n
              | _ => fun _ => True
              end r
  end.

(** The bytes a successful IN transfer delivered. *)
Definition delivered_by (e : event acm) : list Z :=
  match e with
  | Ev c r => match c as c return acm_res c -> list Z with
              | UsbBulkTransfer _ ep _ _ _ => fun r =>
                  if Z.testbit ep 7 && negb (EFI_ERROR (fst r))
                  then take (Z.to_nat (fst (snd r))) (map (wrap 8) (snd (snd r))) else []
              | _ => fun _ => []
              end r
  end.
Definition delivered (t : list (event acm)) : list Z := flat_map delivered_by t.

Lemma overwrite_spec b data : (length data <= length b)%nat -> overwrite b data = data ++ drop (length data) b.
Proof.
  intros H. unfold overwrite. apply take_ge. rewrite length_app, length_drop. lia.
Qed.

Lemma with_Ring_wf d r : port_wf d -> q_wf r -> port_wf (with_Ring d r).
Proof. intros (_ & ? & ?) ?. done. Qed.

(** One timer tick appends what the transfer delivered, dropping nothing. *)
Lemma poll_spec d :
  port_wf d ->
  wp (UsbCdcAcmPoll d) (fun o t => Forall transfer_ok t ->
    exists d', o = Some d' /\ port_wf d' /\ port_contents d' = port_contents d ++ delivered t).
Proof.
  intros Hw. pose proof Hw as (Hr & (p & b & Hs & Hb) & Hin & Hout).
  unfold UsbCdcAcmPoll. destruct (RxFree (Ring d) <? BulkInMaxPacket d) eqn:Hroom.
  { intros _. exists d. rewrite app_nil_r. done. }
  rewrite Hs. apply wp_bind. cbn [wp call]. intros [st [L data]]. cbn beta iota.
  set (scratch := overwrite b (map (wrap 8) data)).
  set (d1 := with_RxScratch d (Some (p, scratch))).
  apply Z.ltb_ge in Hroom.
  assert (Hcase : transfer_ok (Ev (S := acm) (UsbBulkTransfer (DataUsbIo d) (BulkIn d) []
                     (BulkInMaxPacket d) USB_CDC_ACM_XFER_TIMEOUT) (st, (L, data))) ->
    scratch = map (wrap 8) data ++ drop (length data) b /\ 0 <= L <= len data /\ len data <= BulkInMaxPacket d
    /\ port_wf d1).
  { cbn. intros Hok. destruct (Hok Hin) as [HL Hd]. unfold len in *.
    assert (Hsc : scratch = map (wrap 8) data ++ drop (length data) b).
    { subst scratch. rewrite overwrite_spec; rewrite length_map; [done|lia]. }
    split; [done|]. split; [done|]. split; [done|]. split; [done|]. split; [|done].
    exists p, scratch. split; [done|]. unfold len. rewrite Hsc, length_app, length_map, length_drop. cbn. lia. }
  destruct (EFI_ERROR st || (L =? 0)) eqn:Hidle; apply wp_ret; cbn [app];
    intros [Hok%Hcase _]%Forall_cons; destruct Hok as (Hsc & HL & Hd & Hw1).
  - exists d1. split; [done|]. split; [done|]. cbn [delivered flat_map delivered_by fst snd].
    rewrite Hin. cbn [andb]. destruct (EFI_ERROR st); cbn [negb]; [by rewrite app_nil_r|].
    cbn in Hidle. b2p. subst L. by rewrite app_nil_r.
  - destruct (q_put_spec (Ring d) scratch L Hr) as (r' & Hput & Hwr & Hc).
    { rewrite Hsc. unfold len in *. rewrite length_app, length_map. lia. }
    cbn [q_put ring_queue] in Hput. change (Ring d1) with (Ring d). rewrite Hput. exists (with_Ring d1 r').
    split; [done|]. split; [by apply with_Ring_wf|]. cbn [Ring with_Ring]. rewrite Hc. f_equal.
    apply orb_false_iff in Hidle as [He _]. cbn [delivered flat_map delivered_by fst snd].
    rewrite Hin, He. cbn [andb negb]. rewrite app_nil_r.
    rewrite RxFree_eq, <- len_contents in Hroom by done.
    cbn [q_capacity q_contents ring_queue] in *. rewrite Z.min_l by (unfold len in *; lia).
    rewrite Hsc, take_app_le; [done|]. rewrite length_map. unfold len in *. lia.
Qed.

(** ** Sessions: ticks of the timer interleaved with protocol calls *)

Inductive port_op :=
  | Tick
  | ReadOp (wanted : Z)
  | WriteOp (data : list Z)
  | SetControlOp (control : Z)
  | SetAttributesOp (baud depth time : Z) (par : EFI_PARITY_TYPE) (bits : Z) (stop : EFI_STOP_BITS_TYPE).

(** Runs one operation; the result is the bytes it returned to the caller. *)
Definition port_do (o : port_op) (d : USB_CDC_ACM_DEV) : fw acm (option (list Z * USB_CDC_ACM_DEV)) :=
  match o with
  | Tick => o ← UsbCdcAcmPoll d; mret (match o with Some d' => Some ([], d') | None => None end)
  | ReadOp n => mret (match UsbCdcAcmRead d (Some n) true with
                      | Some (_, _, out, d') => Some (out, d')
                      | None => None
                      end)
  | WriteOp data => _ ← UsbCdcAcmWrite d (Some (len data)) (Some data); mret (Some ([], d))
  | SetControlOp c => r ← UsbCdcAcmSetControl d c; mret (Some ([], snd r))
  | SetAttributesOp baud depth time par bits stop =>
      r ← UsbCdcAcmSetAttributes d baud depth time par bits stop; mret (Some ([], snd r))
  end.

Fixpoint session (ops : list port_op) (d : USB_CDC_ACM_DEV) : fw acm (option (list Z * USB_CDC_ACM_DEV)) :=
  match ops with
  | [] => mret (Some ([], d))
  | o :: ops =>
      r ←? port_do o d;
      r' ←? session ops (snd r);
      mret (Some (fst r ++ fst r', snd r'))
  end.

(** What an operation, or a session, preserves. *)
Definition lossless (d : USB_CDC_ACM_DEV) (o : option (list Z * USB_CDC_ACM_DEV)) (t : list (event acm)) : Prop :=
  Forall transfer_ok t ->
  exists out d', o = Some (out, d') /\ port_wf d' /\ out ++ port_contents d' = port_contents d ++ delivered t.

Lemma read_spec d n :
  port_wf d -> 0 <= n ->
  exists d', UsbCdcAcmRead d (Some n) true
    = Some (if n <=? len (port_contents d) then EFI_SUCCESS else EFI_TIMEOUT,
            Some (Z.min n (len (port_contents d))), take (Z.to_nat n) (port_contents d), d')
    /\ port_wf d' /\ port_contents d' = drop (Z.to_nat n) (port_contents d).
Proof.
  intros Hw Hn. pose proof Hw as (Hr & _). unfold UsbCdcAcmRead. cbn [negb].
  destruct (ring_read (Ring d) n Hr Hn) as (r' & -> & Hwr & Hc). cbn [mbind option_bind].
  exists (with_Ring d r'). split; [|split; [by apply with_Ring_wf|done]].
  cbn [q_contents ring_queue]. set (c := ring_contents (Ring d)).
  assert (Hl : len (take (Z.to_nat n) c) = Z.min n (len c)) by (unfold len; rewrite length_take; lia).
  rewrite Hl. do 4 f_equal.
  destruct (Z.eqb_spec (Z.min n (len c)) n), (Z.leb_spec n (len c)); (done || lia).
Qed.

(** Operations that only talk to the control endpoint or the OUT endpoint. *)
Lemma quiet_lossless {A} (p : fw acm A) d (f : A -> USB_CDC_ACM_DEV) :
  port_wf d ->
  wp p (fun a t => port_wf (f a) /\ port_contents (f a) = port_contents d /\ delivered t = []) ->
  wp (a ← p; mret (Some ([], f a))) (lossless d).
Proof.
  intros Hw Hp. apply wp_bind. eapply wp_mono; [|exact Hp]. cbn beta. intros a t (Hwa & Hc & Hd).
  apply wp_ret. rewrite app_nil_r. intros _. exists [], (f a). rewrite Hc, Hd, app_nil_r. done.
Qed.

Lemma SetControl_quiet d c :
  port_wf d ->
  wp (UsbCdcAcmSetControl d c)
     (fun r t => port_wf (snd r) /\ port_contents (snd r) = port_contents d /\ delivered t = []).
Proof. intros Hw. unfold UsbCdcAcmSetControl, AcmClassRequest. wp_go; done. Qed.

Lemma port_do_lossless o d :
  port_wf d -> (forall n, o = ReadOp n -> 0 <= n) -> wp (port_do o d) (lossless d).
Proof.
  intros Hw Hn. destruct o; cbn [port_do].
  - apply wp_bind. eapply wp_mono; [|apply (poll_spec d Hw)]. cbn beta. intros o t Ht.
    apply wp_ret. rewrite app_nil_r. intros Hok. destruct (Ht Hok) as (d' & -> & Hw' & Hc). by exists [], d'.
  - apply wp_ret. intros _. destruct (read_spec d wanted Hw (Hn _ eq_refl)) as (d' & -> & Hw' & Hc).
    eexists _, d'. split; [done|]. split; [done|]. rewrite Hc, take_drop, app_nil_r. done.
  - apply (quiet_lossless _ _ (fun _ => d)); [done|]. unfold UsbCdcAcmWrite.
    destruct Hw as (? & ? & ? & Hout). wp_go; (split; [done|split; [done|]]); unfold delivered; cbn [flat_map delivered_by app]; try done; by rewrite Hout.
  - apply (quiet_lossless _ _ snd); [done|]. by apply SetControl_quiet.
  - apply (quiet_lossless _ _ snd); [done|]. unfold UsbCdcAcmSetAttributes, AcmClassRequest. wp_go; done.
Qed.

Lemma session_lossless ops d :
  port_wf d -> Forall (fun o => forall n, o = ReadOp n -> 0 <= n) ops -> wp (session ops d) (lossless d).
Proof.
  intros Hw Hops. revert d Hw. induction Hops as [|o ops Ho Hops IH]; intros d Hw; cbn [session].
  { apply wp_ret. intros _. exists [], d. by rewrite app_nil_r. }
  apply wp_bind. eapply wp_mono; [|by apply port_do_lossless]. cbn beta. intros r t Hr.
  rewrite wp_exec. intros t' out Hex Hok. apply Forall_app in Hok as [Hok1 Hok2].
  destruct (Hr Hok1) as (o1 & d1 & -> & Hw1 & Hc1). cbn [fst snd] in Hex.
  apply exec_bind in Hex as (t1 & r2 & t2 & -> & Hs & Hret). apply Forall_app in Hok2 as [Hok2 _].
  destruct (proj1 (wp_exec _ _) (IH d1 Hw1) _ _ Hs Hok2) as (o2 & d2 & -> & Hw2 & Hc2).
  destruct Hret as [-> ->]. exists (o1 ++ o2), d2. split; [done|]. split; [done|].
  rewrite <- (assoc_L (++)), Hc2, (assoc_L (++)), Hc1. unfold delivered. rewrite !flat_map_app, app_nil_r.
  by rewrite <- (assoc_L (++)).
Qed.

(** C6: The port neither loses, duplicates nor reorders received bytes.  For
    every interleaving of timer ticks with Read, Write, SetControl and
    SetAttributes calls, and every behaviour of the USB stack that reports
    transfer lengths within bounds, the session never leaves a buffer and
    the bytes the reads returned, followed by those still buffered, are
    those buffered at the start followed by all the bytes the bulk IN
    transfers delivered. *)
Theorem session_is_lossless (ops : list port_op) (d : USB_CDC_ACM_DEV) (t : list (event acm))
    (o : option (list Z * USB_CDC_ACM_DEV)) (Hwf : port_wf d)
    (Hops : Forall (fun o => forall n, o = ReadOp n -> 0 <= n) ops)
    (Hrun : exec (session ops d) t o) (Hok : Forall transfer_ok t) :
  exists out d', o = Some (out, d') /\ port_wf d' /\
    out ++ port_contents d' = port_contents d ++ delivered t.
Proof. exact (proj1 (wp_exec _ _) (session_lossless ops d Hwf Hops) t o Hrun Hok). Qed.

(** A started port with 64-byte packets, and a USB stack with a queue of
    packets to deliver. *)
Definition sample_mode : EFI_SERIAL_IO_MODE := mkMode 0 1000000 115200 4096 8 NoParity OneStopBit.
Definition sample_port : USB_CDC_ACM_DEV :=
  mkDev 1 2 (Some 3) 4 5 6 sample_mode (Some 7) 0 0x81 0x02 64 64 (Some 8) (Some (9, repeat 0 64))
        (mkRing (repeat 0 4096) 4094 4094) 3.

Definition packets : handler acm (list (list Z)) := fun c w =>
  match c as c return acm_res c * list (list Z) with
  | UsbBulkTransfer _ ep _ n _ =>
      if Z.testbit ep 7 then
        match w with
        | p :: w => let p := take (Z.to_nat n) p in ((EFI_SUCCESS, (len p, p)), w)
        | [] => ((EFI_TIMEOUT, (0, [])), [])
        end
      else ((EFI_SUCCESS, (n, [])), w)
  | GetDevicePath _ => ((EFI_SUCCESS, []), w)
  | AppendDevicePathNode _ _ => (Some 7, w)
  | InstallMultipleProtocolInterfaces _ _ => ((EFI_SUCCESS, 3), w)
  | OpenProtocol _ _ _ _ _ => ((EFI_SUCCESS, 5), w)
  | CreateEvent => ((EFI_SUCCESS, 8), w)
  | LocateUsbIoHandles => ((EFI_NOT_FOUND, (0, [])), w)
  | AllocateZeroPool _ => (Some 9, w)
  | UsbGetInterfaceDescriptor _ => ((EFI_SUCCESS, mkInterface 0 2 2 0), w)
  | UsbGetEndpointDescriptor _ _ => ((EFI_SUCCESS, mkEndpoint 0x81 2 64), w)
  | FreePool _ => (tt, w)
  | UsbControlTransfer _ _ _ _ _ _ | UninstallMultipleProtocolInterfaces _ _
  | CloseProtocol _ _ _ | SetTimer _ _ _ | CloseEvent _ => (EFI_SUCCESS, w)
  end.

Definition sample_ops : list port_op :=
  [Tick; ReadOp 2; WriteOp (lit "ls"); Tick; SetControlOp 1; ReadOp 10; Tick].

Lemma sample_port_wf : port_wf sample_port.
Proof.
  split; [repeat split; try done; vm_compute; reflexivity|]. split; [|done].
  exists 9, (repeat 0 64). split; vm_compute; reflexivity.
Qed.

(** Three bytes and then two arrive around the end of the ring. *)
Lemma session_is_lossless_witness :
  exists out d',
    run_val packets (session sample_ops sample_port) [lit "abc"; lit "de"] = Some (out, d') /\ port_wf d' /\
    out ++ port_contents d' = port_contents sample_port ++
      delivered (run_trace packets (session sample_ops sample_port) [lit "abc"; lit "de"]).
Proof.
  apply (session_is_lossless sample_ops sample_port).
  - exact sample_port_wf.
  - repeat constructor; intros n [= <-]; lia.
  - apply exec_run.
  - vm_compute. repeat constructor; discriminate.
Defined.

(** ** Reading and the buffer-state bits *)

Lemma testbit_lor_bits c : is_uint 8 c ->
  Z.testbit (Z.lor c 0x200) 8 = false /\ Z.testbit (Z.lor (Z.lor c 0x200) 0x100) 8 = true.
Proof.
  intros Hc. assert (H8 : Z.testbit c 8 = false).
  { rewrite <- (Z.mod_small c (2 ^ 8)) by exact Hc. apply Z.mod_pow2_bits_high. lia. }
  rewrite !Z.lor_spec, H8. done.
Qed.

(** GetControl and Read agree.  On a well-formed port whose recorded
    control bits are DTR and RTS, a Read returns the oldest buffered bytes,
    as many as were asked for and are there, and leaves the rest; it
    answers EFI_SUCCESS exactly when the request was met in full and
    EFI_TIMEOUT otherwise; and GetControl shows INPUT_BUFFER_EMPTY exactly
    when a Read would return nothing. *)
Theorem read_and_control_agree (d : USB_CDC_ACM_DEV) (n : Z) (Hwf : port_wf d) (Hn : 0 < n)
    (Hbits : 0 <= ControlBits d <= 3) :
  (exists d', UsbCdcAcmRead d (Some n) true
    = Some (if n <=? len (port_contents d) then EFI_SUCCESS else EFI_TIMEOUT,
            Some (Z.min n (len (port_contents d))), take (Z.to_nat n) (port_contents d), d')
    /\ port_wf d' /\ port_contents d' = drop (Z.to_nat n) (port_contents d))
  /\ exists c, UsbCdcAcmGetControl d true = (EFI_SUCCESS, Some c)
    /\ (Z.testbit c 8 = true <-> take (Z.to_nat n) (port_contents d) = []).
Proof.
  split; [apply read_spec; [done|lia]|].
  unfold UsbCdcAcmGetControl. cbn [negb]. eexists. split; [reflexivity|].
  destruct (testbit_lor_bits (ControlBits d)) as [H1 H2]; [split; lia|].
  unfold EFI_SERIAL_OUTPUT_BUFFER_EMPTY, EFI_SERIAL_INPUT_BUFFER_EMPTY.
  destruct Hwf as (Hr & _). cbn [q_contents ring_queue]. pose proof (len_contents _ Hr) as Hl.
  destruct (Z.eqb_spec (RxCount (Ring d)) 0) as [E|E].
  - rewrite H2. split; [|done]. intros _. rewrite E in Hl. unfold len in Hl.
    destruct (ring_contents (Ring d)); [by rewrite take_nil|]. cbn in Hl. lia.
  - rewrite H1. split; [done|]. intros Ht. exfalso. rewrite <- Hl in E.
    destruct (ring_contents (Ring d)); [done|]. destruct (Z.to_nat n) eqn:En; [lia|]. done.
Qed.

Lemma read_and_control_agree_witness :
  (exists d', UsbCdcAcmRead sample_port (Some 5) true
    = Some (if 5 <=? len (port_contents sample_port) then EFI_SUCCESS else EFI_TIMEOUT,
            Some (Z.min 5 (len (port_contents sample_port))), take (Z.to_nat 5) (port_contents sample_port), d')
    /\ port_wf d' /\ port_contents d' = drop (Z.to_nat 5) (port_contents sample_port))
  /\ exists c, UsbCdcAcmGetControl sample_port true = (EFI_SUCCESS, Some c)
    /\ (Z.testbit c 8 = true <-> take (Z.to_nat 5) (port_contents sample_port) = []).
Proof.
  apply (read_and_control_agree sample_port 5 sample_port_wf); [lia|]. vm_compute. split; discriminate.
Defined.

(** ** Line coding *)

(** The SET_LINE_CODING payload as CDC 1.2 (Table 17) defines it. *)
Definition decode_line_coding (b : list Z) : option (Z * EFI_STOP_BITS_TYPE * EFI_PARITY_TYPE * Z) :=
  match drop 4 b with
  | [s; p; n] =>
      stop ← (if s =? 0 then Some OneStopBit else if s =? 1 then Some OneFiveStopBits
              else if s =? 2 then Some TwoStopBits else None);
      par ← (if p =? 0 then Some NoParity else if p =? 1 then Some OddParity else if p =? 2 then Some EvenParity
             else if p =? 3 then Some MarkParity else if p =? 4 then Some SpaceParity else None);
      Some (le_combine (take 4 b), stop, par, n)
  | _ => None
  end.

Lemma line_coding_roundtrip Baud Stop Par Bits :
  is_uint 32 Baud -> Stop <> DefaultStopBits -> Par <> DefaultParity ->
  decode_line_coding (line_coding Baud Stop Par Bits) = Some (Baud, Stop, Par, Bits).
Proof.
  intros Hb Hs Hp. unfold line_coding, decode_line_coding. rewrite wrap_id by done.
  rewrite drop_app_length' by (by rewrite le_split_length).
  rewrite take_app_length' by (by rewrite le_split_length).
  rewrite (le_combine_split 4) by done. by destruct Stop, Par.
Qed.

(** SetAttributes tells the device exactly what it records.  For every
    32-bit baud rate and all other arguments, in every run: it answers
    EFI_SUCCESS after one class request on the control interface whose
    seven-byte payload decodes, by the CDC specification, to the baud rate,
    stop bits, parity and data bits it recorded in the port's mode; zero and
    Default arguments are recorded as 115200 8N1 with a one-second timeout,
    and nothing else of the device changes. *)
Theorem SetAttributes_transmits_mode (d : USB_CDC_ACM_DEV) (Baud Depth Time : Z) (Par : EFI_PARITY_TYPE)
    (Bits : Z) (Stop : EFI_STOP_BITS_TYPE) (t : list (event acm)) (r : EFI_STATUS * USB_CDC_ACM_DEV)
    (Hbaud : is_uint 32 Baud)
    (Hrun : exec (UsbCdcAcmSetAttributes d Baud Depth Time Par Bits Stop) t r) :
  exists payload st mode,
    t = [Ev (S := acm) (UsbControlTransfer (CtrlUsbIo d)
           (mkReq 0x21 0x20 0 (ControlInterfaceNumber d) 7) EfiUsbDataOut 1000 payload 7) st]
    /\ r = (EFI_SUCCESS, with_SerialMode d mode)
    /\ decode_line_coding payload = Some (BaudRate mode, StopBits mode, Parity mode, DataBits mode)
    /\ BaudRate mode = (if Baud =? 0 then 115200 else Baud)
    /\ DataBits mode = (if Bits =? 0 then 8 else Bits)
    /\ Timeout mode = (if Time =? 0 then 1000000 else Time)
    /\ ReceiveFifoDepth mode = 4096
    /\ Parity mode = match Par with DefaultParity => NoParity | p => p end
    /\ StopBits mode = match Stop with DefaultStopBits => OneStopBit | s => s end.
Proof.
  destruct Hrun as (st & t' & -> & -> & ->).
  eexists _, st, (mkMode _ _ _ _ _ _ _). split; [reflexivity|]. split; [reflexivity|].
  cbn [BaudRate StopBits Parity DataBits Timeout ReceiveFifoDepth].
  split; [|by destruct Par, Stop].
  apply line_coding_roundtrip; [|by destruct Stop|by destruct Par].
  destruct (Baud =? 0); [split; done|done].
Qed.

Lemma SetAttributes_transmits_mode_witness :
  let p := UsbCdcAcmSetAttributes sample_port 9600 0 0 EvenParity 7 DefaultStopBits in
  exists payload st mode,
    run_trace packets p [] = [Ev (S := acm) (UsbControlTransfer 5
           (mkReq 0x21 0x20 0 0 7) EfiUsbDataOut 1000 payload 7) st]
    /\ run_val packets p [] = (EFI_SUCCESS, with_SerialMode sample_port mode)
    /\ decode_line_coding payload = Some (BaudRate mode, StopBits mode, Parity mode, DataBits mode)
    /\ BaudRate mode = 9600 /\ DataBits mode = 7 /\ Timeout mode = 1000000
    /\ ReceiveFifoDepth mode = 4096 /\ Parity mode = EvenParity /\ StopBits mode = OneStopBit.
Proof.
  apply (SetAttributes_transmits_mode sample_port 9600 0 0 EvenParity 7 DefaultStopBits).
  - split; done.
  - apply exec_run.
Defined.

(** ** Control lines *)

Lemma line_state c :
  let b := Z.land c 3 in
  let l := if negb (Z.land b 1 =? 0) then Z.lor 0 1 else 0 in
  (if negb (Z.land b 2 =? 0) then Z.lor l 2 else l) = b.
Proof.
  intros b. assert (Hb : 0 <= b < 4).
  { subst b. change 3 with (Z.ones 2). rewrite Z.land_ones by lia. apply Z.mod_pos_bound. lia. }
  assert (b = 0 \/ b = 1 \/ b = 2 \/ b = 3) as [->|[->|[->| ->]]] by lia; done.
Qed.

Lemma SetControl_wire d Control :
  Z.land Control 0x7000 = 0 ->
  wp (UsbCdcAcmSetControl d Control) (fun r t =>
    r = (EFI_SUCCESS, with_ControlBits d (Z.land Control 3))
    /\ exists st, t = [Ev (S := acm) (UsbControlTransfer (CtrlUsbIo d)
         (mkReq 0x21 0x22 (Z.land Control 3) (ControlInterfaceNumber d) 0) EfiUsbNoData 1000 [] 0) st]).
Proof.
  intros Hc. unfold UsbCdcAcmSetControl.
  change (Z.lor (Z.lor EFI_SERIAL_HARDWARE_LOOPBACK_ENABLE EFI_SERIAL_SOFTWARE_LOOPBACK_ENABLE)
                EFI_SERIAL_HARDWARE_FLOW_CONTROL_ENABLE) with 0x7000.
  rewrite Hc. cbn [negb Z.eqb]. cbv zeta.
  change (Z.lor EFI_SERIAL_DATA_TERMINAL_READY EFI_SERIAL_REQUEST_TO_SEND) with 3.
  change (ControlBits (with_ControlBits d (Z.land Control 3))) with (Z.land Control 3).
  unfold EFI_SERIAL_DATA_TERMINAL_READY, EFI_SERIAL_REQUEST_TO_SEND, USB_CDC_ACM_CONTROL_DTR, USB_CDC_ACM_CONTROL_RTS.
  rewrite (line_state Control). apply wp_bind. intros st. apply wp_ret. split; [done|]. by exists st.
Qed.

(** SetControl and Reset assert exactly the lines they should.  A request
    for loopback or hardware flow control is refused with EFI_UNSUPPORTED,
    with nothing sent and nothing recorded; any other request records its
    DTR and RTS bits and sends them, and only them, in one
    SET_CONTROL_LINE_STATE request.  Reset empties the receive queue and
    sends the recorded bits again. *)
Theorem control_lines_on_wire (d : USB_CDC_ACM_DEV) (Control : Z) (Hbits : 0 <= ControlBits d <= 3) :
  (Z.land Control 0x7000 <> 0 ->
     forall t r, exec (UsbCdcAcmSetControl d Control) t r -> t = [] /\ r = (EFI_UNSUPPORTED, d))
  /\ (Z.land Control 0x7000 = 0 ->
     forall t r, exec (UsbCdcAcmSetControl d Control) t r ->
       r = (EFI_SUCCESS, with_ControlBits d (Z.land Control 3))
       /\ exists st, t = [Ev (S := acm) (UsbControlTransfer (CtrlUsbIo d)
            (mkReq 0x21 0x22 (Z.land Control 3) (ControlInterfaceNumber d) 0) EfiUsbNoData 1000 [] 0) st])
  /\ (forall t r, exec (UsbCdcAcmReset d) t r ->
       fst r = EFI_SUCCESS /\ port_contents (snd r) = [] /\ ControlBits (snd r) = ControlBits d
       /\ exists st, t = [Ev (S := acm) (UsbControlTransfer (CtrlUsbIo d)
            (mkReq 0x21 0x22 (ControlBits d) (ControlInterfaceNumber d) 0) EfiUsbNoData 1000 [] 0) st]).
Proof.
  split; [|split].
  - intros Hc t r. unfold UsbCdcAcmSetControl.
    change (Z.lor (Z.lor EFI_SERIAL_HARDWARE_LOOPBACK_ENABLE EFI_SERIAL_SOFTWARE_LOOPBACK_ENABLE)
                  EFI_SERIAL_HARDWARE_FLOW_CONTROL_ENABLE) with 0x7000.
    apply Z.eqb_neq in Hc. rewrite Hc. cbn [negb]. done.
  - intros Hc t r Hex. apply (proj1 (wp_exec _ _) (SetControl_wire d Control Hc) t r Hex).
  - intros t r Hex. set (d0 := with_Ring d (mkRing (Rx (Ring d)) 0 0)).
    assert (Hb : ControlBits d = 0 \/ ControlBits d = 1 \/ ControlBits d = 2 \/ ControlBits d = 3) by lia.
    assert (Hland : Z.land (ControlBits d) 0x7000 = 0 /\ Z.land (ControlBits d) 3 = ControlBits d)
      by (destruct Hb as [->|[->|[->| ->]]]; done).
    destruct Hland as [H0 H3].
    destruct (proj1 (wp_exec _ _) (SetControl_wire d0 (ControlBits d) H0) t r Hex) as [-> [st ->]].
    rewrite H3. split; [done|]. split; [done|]. split; [done|]. by exists st.
Qed.

Lemma control_lines_on_wire_witness :
  port_contents (snd (run_val packets (UsbCdcAcmReset sample_port) [])) = []
  /\ exists st, run_trace packets (UsbCdcAcmReset sample_port) []
              = [Ev (S := acm) (UsbControlTransfer 5 (mkReq 0x21 0x22 3 0 0) EfiUsbNoData 1000 [] 0) st].
Proof.
  assert (Hb : 0 <= ControlBits sample_port <= 3) by (vm_compute; split; discriminate).
  destruct (proj2 (proj2 (control_lines_on_wire sample_port 0 Hb)) _ _ (exec_run packets (UsbCdcAcmReset sample_port) []))
    as (_ & Hp & _ & Ht).
  split; [exact Hp|exact Ht].
Defined.
