(* ===== verification/SerialRace.v ===== *)
(** * The receive ring under preemption

    SerialIo.c guards the ring by task priority alone: the timer callback
    UsbCdcAcmPoll runs at TPL_CALLBACK and "cannot preempt a Read at the same
    level".  Here the callback and Read are programs of single memory
    accesses, as the C code makes them, and a caller at another level may
    interrupt, or be interrupted, between any two of them. *)

From S2P Require Import Prelude Services Uefi Interleave SerialIo SerialSpec.
From stdpp Require Import relations.
#[local] Open Scope Z_scope.

Definition TPL_APPLICATION : Z := 4.
Definition TPL_CALLBACK : Z := 8.
Definition TPL_NOTIFY : Z := 16.

(** ** Memory

    The members of USB_CDC_ACM_DEV the two share, and the scratch buffer. *)
Record ram := mkRam { r_ring : rx_ring; r_scratch : list Z }.

Inductive ram_op :=
  | LoadHead
  | LoadTail
  | StoreHead (v : Z)
  | StoreTail (v : Z)
  | LoadRx (i : Z)
  | StoreRx (i v : Z)
  | LoadScratch (i : Z)
  | BulkTransferIn (n : Z).

(** Accesses outside an array answer [None]. *)
Definition ram_res (c : ram_op) : Type :=
  match c with
  | LoadHead | LoadTail => Z
  | StoreHead _ | StoreTail _ => unit
  | LoadRx _ | LoadScratch _ => option Z
  | StoreRx _ _ => option unit
  | BulkTransferIn _ => EFI_STATUS * (Z * list Z)
  end.
Definition rams : sig := Sig ram_op ram_res.

Definition with_rx (m : ram) (b : list Z) : ram := mkRam (mkRing b (RxHead (r_ring m)) (RxTail (r_ring m))) (r_scratch m).
Definition with_head (m : ram) (h : Z) : ram := mkRam (mkRing (Rx (r_ring m)) h (RxTail (r_ring m))) (r_scratch m).
Definition with_tail (m : ram) (t : Z) : ram := mkRam (mkRing (Rx (r_ring m)) (RxHead (r_ring m)) t) (r_scratch m).

(** One access; [ans] is what the USB stack answers to a transfer. *)
Definition ram_do (ans : EFI_STATUS * (Z * list Z)) : handler rams ram := fun c m =>
  match c as c return ram_res c * ram with
  | LoadHead => (RxHead (r_ring m), m)
  | LoadTail => (RxTail (r_ring m), m)
  | StoreHead v => (tt, with_head m v)
  | StoreTail v => (tt, with_tail m v)
  | LoadRx i => (mem_get (Rx (r_ring m)) i, m)
  | StoreRx i v =>
      match rx_store (Rx (r_ring m)) i v with Some b => (Some tt, with_rx m b) | None => (None, m) end
  | LoadScratch i => (mem_get (r_scratch m) i, m)
  | BulkTransferIn _ => (ans, mkRam (r_ring m) (overwrite (r_scratch m) (map (wrap 8) (snd (snd ans)))))
  end.

(** A transfer reports no more than it stored, and stores no more than asked. *)
Definition transfer_fits (c : ram_op) (ans : EFI_STATUS * (Z * list Z)) : Prop :=
  match c with BulkTransferIn n => 0 <= fst (snd ans) <= len (snd (snd ans)) /\ len (snd (snd ans)) <= n | _ => True end.
Definition access (m : ram) (e : event rams) (m' : ram) : Prop :=
  match e with Ev c r => exists ans, transfer_fits c ans /\ ram_do ans c m = (r, m') end.

(** ** The code, access by access *)

Section steps.
(** Whether the compiler evaluates the left operand first. *)
Context (left_first : bool).

(** Dev->RxHead and Dev->RxTail, as the operands of one expression. *)
Definition loads : fw rams (Z * Z) :=
  if left_first then h ← call (S := rams) LoadHead; t ← call (S := rams) LoadTail; mret (h, t)
  else t ← call (S := rams) LoadTail; h ← call (S := rams) LoadHead; mret (h, t).

(** UINTN arithmetic. *)
Definition RxCount_steps : fw rams Z :=
  '(h, t) ← loads;
  if t <=? h then '(h, t) ← loads; mret (wrap 64 (h - t))
  else '(h, t) ← loads; mret (wrap 64 (USB_CDC_ACM_RX_FIFO_SIZE - t + h)).

Definition RxFree_steps : fw rams Z :=
  c ← RxCount_steps; mret (wrap 64 (USB_CDC_ACM_RX_FIFO_SIZE - 1 - c)).

Fixpoint put_steps (n : nat) (Index : Z) : fw rams (option unit) :=
  match n with
  | O => mret (Some tt)
  | S n =>
      x ←? call (S := rams) (LoadScratch Index);
      h ← call (S := rams) LoadHead;
      _ ←? call (S := rams) (StoreRx h x);
      h ← call (S := rams) LoadHead;
      _ ← call (S := rams) (StoreHead ((h + 1) mod USB_CDC_ACM_RX_FIFO_SIZE));
      put_steps n (Index + 1)
  end.

Definition RxPut_steps (Length : Z) : fw rams (option unit) :=
  Room ← RxFree_steps;
  let Length := if Room <? Length then Room else Length in
  put_steps (Z.to_nat Length) 0.

(** Returns the bytes handed to RxPut. *)
Definition UsbCdcAcmPoll_steps (BulkInMaxPacket : Z) : fw rams (option (list Z)) :=
  Free ← RxFree_steps;
  if Free <? BulkInMaxPacket then mret (Some [])
  else
    '(Status, (Length, data)) ← call (S := rams) (BulkTransferIn BulkInMaxPacket);
    if EFI_ERROR Status || (Length =? 0) then mret (Some [])
    else _ ←? RxPut_steps Length; mret (Some (take (Z.to_nat Length) (map (wrap 8) data))).

(** [n] bytes are still wanted. *)
Fixpoint read_steps (n : nat) (Out : list Z) : fw rams (option (list Z)) :=
  match n with
  | O => mret (Some Out)
  | S n =>
      c ← RxCount_steps;
      if 0 <? c then
        t ← call (S := rams) LoadTail;
        x ←? call (S := rams) (LoadRx t);
        t ← call (S := rams) LoadTail;
        _ ← call (S := rams) (StoreTail ((t + 1) mod USB_CDC_ACM_RX_FIFO_SIZE));
        read_steps n (Out ++ [x])
      else mret (Some Out)
  end.

Definition UsbCdcAcmRead_steps (Wanted : Z) : fw rams (option (EFI_STATUS * list Z)) :=
  Out ←? read_steps (Z.to_nat Wanted) [];
  mret (Some (if len Out =? Wanted then EFI_SUCCESS else EFI_TIMEOUT, Out)).
End steps.

(** ** Running alone

    Not interrupted, the accesses are the functions of SerialIo.v. *)

Section alone.
Context (left_first : bool) (ans : EFI_STATUS * (Z * list Z)).

Abbreviation alone p m Q := (rwp (ram_do ans) p m Q).

Ltac access :=
  match goal with
  | |- rwp _ (mbind _ (call ?c)) _ _ => apply rwp_bind, (rwp_call (S := rams) _ c)
  | |- rwp _ (obind (call ?c) _) _ _ => apply rwp_bind, (rwp_call (S := rams) _ c)
  end; cbn [ram_do fst snd].

Lemma loads_alone m (Q : Z * Z -> ram -> Prop) : Q (RxHead (r_ring m), RxTail (r_ring m)) m -> alone (loads left_first) m Q.
Proof. intros HQ. unfold loads. destruct left_first; do 2 access; by apply rwp_ret. Qed.

Lemma RxCount_alone m (Q : Z -> ram -> Prop) : ring_wf (r_ring m) -> Q (RxCount (r_ring m)) m -> alone (RxCount_steps left_first) m Q.
Proof.
  intros Hw HQ. unfold RxCount in HQ. unfold RxCount_steps.
  apply rwp_bind, loads_alone. revert HQ. destruct (_ <=? _); intros HQ; apply rwp_bind, loads_alone, rwp_ret; exact HQ.
Qed.
Lemma RxFree_alone m (Q : Z -> ram -> Prop) : ring_wf (r_ring m) -> Q (RxFree (r_ring m)) m -> alone (RxFree_steps left_first) m Q.
Proof.
  intros Hw HQ. unfold RxFree_steps. apply rwp_bind, RxCount_alone; [done|]. by apply rwp_ret.
Qed.

Lemma put_alone n m Index r' :
  rx_put_loop n (r_ring m) (r_scratch m) Index = Some r' ->
  alone (put_steps n Index) m (fun o m' => o = Some tt /\ m' = mkRam r' (r_scratch m)).
Proof.
  revert m Index. induction n as [|n IH]; intros m Index; cbn [rx_put_loop put_steps].
  { intros [= <-]. apply rwp_ret. by destruct m. }
  intros Hl. access. destruct (mem_get (r_scratch m) Index) as [x|]; [|done]. cbn [mbind option_bind] in Hl. access. access.
  destruct (rx_store _ _ x) as [b|]; [|done]. cbn [mbind option_bind fst snd] in *. access. access. by apply (IH (mkRam (mkRing b _ _) (r_scratch m))).
Qed.

Lemma read_alone fuel m Wanted Out o r' :
  ring_wf (r_ring m) -> read_loop fuel (r_ring m) Wanted Out = Some (o, r') ->
  alone (read_steps left_first (Z.to_nat (Wanted - len Out)) Out) m (fun x m' => x = Some o /\ m' = mkRam r' (r_scratch m)).
Proof.
  revert m Out. induction fuel as [|fuel IH]; intros m Out Hw; cbn [read_loop]; [done|].
  destruct (Z.ltb_spec (len Out) Wanted) as [Hlt|Hge]; cbn [andb].
  2:{ intros [= -> <-]. replace (Z.to_nat (Wanted - len o)) with 0%nat by lia. apply rwp_ret. by destruct m. }
  replace (Z.to_nat (Wanted - len Out)) with (S (Z.to_nat (Wanted - len (Out ++ [0])))) by (rewrite len_app, len_cons, len_nil; lia).
  cbn [read_steps]. intros Hl. apply rwp_bind, RxCount_alone; [done|]. destruct (Z.ltb_spec 0 (RxCount (r_ring m))) as [Hc|Hc].
  2:{ injection Hl as -> <-. apply rwp_ret. by destruct m. }
  destruct (ring_get_one _ Hw Hc) as (x & Hx & Hw' & _). rewrite Hx in Hl. cbn [mbind option_bind] in Hl. access. access. rewrite Hx. access. access.
  replace (len (Out ++ [0])) with (len (Out ++ [x])) by by rewrite !len_app. apply (IH (with_tail m _)); [done|exact Hl].
Qed.
End alone.
