(* ===== verification/SerialRaceSpec.v ===== *)
(** * What preemption can do to the ring

    An invariant on the ring and the history of its bytes, what each side
    relies on from the other, and the theorem on every interleaving; an
    interleaving that loses bytes; and the agreement of the access-level code
    with SerialIo.v. *)

From S2P Require Import Prelude Services Uefi Interleave SerialIo SerialSpec SerialRace.
From stdpp Require Import relations.
#[local] Open Scope Z_scope.

(** ** What the proof knows beyond the memory

    The bytes ever stored, and how many of them have been read. *)
Record ghost := mkGhost { g_ram : ram; g_hist : list Z; g_read : Z }.

Section race.
Context (left_first : bool) (mps : Z).

Abbreviation stored s := (len (g_hist s)).

(** Heads and tails count modulo the ring's size, and the slots between them
    hold the bytes not yet read. *)
Record ring_inv (s : ghost) : Prop := {
  inv_rx : len (Rx (r_ring (g_ram s))) = 4096;
  inv_head : RxHead (r_ring (g_ram s)) = stored s mod 4096;
  inv_tail : RxTail (r_ring (g_ram s)) = g_read s mod 4096;
  inv_range : 0 <= g_read s <= stored s /\ stored s <= g_read s + 4095;
  inv_slot i : g_read s <= i < stored s -> Rx (r_ring (g_ram s)) !! Z.to_nat (i mod 4096) = g_hist s !! Z.to_nat i;
  inv_scratch : len (r_scratch (g_ram s)) = mps
}.

(** What the reader does to the producer's view; [strict] when it cannot run
    at all while the callback does. *)
Definition reads (strict : bool) (s s' : ghost) : Prop :=
  (ring_inv s -> ring_inv s') /\ g_hist s' = g_hist s /\ Rx (r_ring (g_ram s')) = Rx (r_ring (g_ram s))
  /\ r_scratch (g_ram s') = r_scratch (g_ram s) /\ g_read s <= g_read s' /\ (strict = true -> g_read s' = g_read s).
(** What the callback does to the reader's view. *)
Definition writes (s s' : ghost) : Prop :=
  (ring_inv s -> ring_inv s') /\ g_read s' = g_read s /\ g_hist s `prefix_of` g_hist s'.

#[export] Instance reads_preorder strict : PreOrder (reads strict).
Proof.
  split.
  - intros s. unfold reads. split_and!; try done; lia.
  - intros s1 s2 s3 (H1 & H2 & H3 & H4 & H5 & H6) (K1 & K2 & K3 & K4 & K5 & K6).
    unfold reads. split_and!; [tauto|congruence|congruence|congruence|lia|]. intros Hs. rewrite K6, H6; done.
Qed.
#[export] Instance writes_preorder : PreOrder writes.
Proof.
  split.
  - intros s. by split_and!.
  - intros s1 s2 s3 (H1 & H2 & H3) (K1 & K2 & K3). unfold writes. split_and!; [tauto|congruence|by etransitivity].
Qed.
Lemma strict_reads s s' strict : reads strict s s' -> reads false s s'.
Proof. intros (H1 & H2 & H3 & H4 & H5 & _). by split_and!. Qed.
Lemma reads_inv strict s s' : reads strict s s' -> ring_inv s -> ring_inv s'.
Proof. intros [H _]. exact H. Qed.
Lemma writes_inv s s' : writes s s' -> ring_inv s -> ring_inv s'.
Proof. intros [H _]. exact H. Qed.

(** The producer's rely is [reads], the reader's is [writes]. *)
Abbreviation prod strict p s Q := (rg access g_ram (reads strict) writes p s Q).
Abbreviation cons p s Q := (rg access g_ram writes (reads false) p s Q).

(** Accesses that only look. *)
Definition looks (c : ram_op) : bool :=
  match c with LoadHead | LoadTail | LoadRx _ | LoadScratch _ => true | _ => false end.

Lemma look (rely guar : ghost -> ghost -> Prop) `{!Reflexive guar} c s (Q : ram_res c -> ghost -> Prop) ans :
  looks c = true ->
  (forall s1 s2, rely s s1 -> rely s1 s2 -> Q (fst (ram_do ans c (g_ram s1))) s2) -> rg access g_ram rely guar (call (S := rams) c) s Q.
Proof.
  intros Hc HQ. apply rg_call. intros s' r m' Hs (a & _ & Hd). exists s'.
  assert (Hr : ram_do a c (g_ram s') = ram_do ans c (g_ram s') /\ snd (ram_do ans c (g_ram s')) = g_ram s') by by destruct c.
  destruct Hr as [Hr1 Hr2]. rewrite Hr1 in Hd. rewrite Hd in Hr2. cbn in Hr2. split; [done|]. split; [reflexivity|].
  intros s2 H2. specialize (HQ s' s2 Hs H2). by rewrite Hd in HQ.
Qed.

Abbreviation some_answer := ((0, (0, [])) : EFI_STATUS * (Z * list Z)).

Lemma loads_prod strict s (Q : Z * Z -> ghost -> Prop) :
  ring_inv s ->
  (forall s1 s2, reads strict s s1 -> reads strict s1 s2 -> Q (stored s mod 4096, g_read s1 mod 4096) s2) -> prod strict (loads left_first) s Q.
Proof.
  intros Hi HQ. unfold loads. destruct left_first.
  - apply rg_bind; [apply _|]. apply (look _ _ LoadHead _ _ some_answer); [done|]. intros s1 s2 H1 H2. cbn [ram_do fst].
    apply rg_bind; [apply _|]. apply (look _ _ LoadTail _ _ some_answer); [done|]. intros s3 s4 H3 H4. cbn [ram_do fst]. apply rg_ret. intros s5 H5.
    assert (R1 : reads strict s s3) by (transitivity s1; [done|]; by transitivity s2).
    rewrite (inv_head _ (reads_inv _ _ _ H1 Hi)), (inv_tail _ (reads_inv _ _ _ R1 Hi)).
    replace (stored s1) with (stored s) by (by destruct H1 as (_ & -> & _)). apply HQ; [done|]. by transitivity s4.
  - apply rg_bind; [apply _|]. apply (look _ _ LoadTail _ _ some_answer); [done|]. intros s1 s2 H1 H2. cbn [ram_do fst].
    apply rg_bind; [apply _|]. apply (look _ _ LoadHead _ _ some_answer); [done|]. intros s3 s4 H3 H4. cbn [ram_do fst]. apply rg_ret. intros s5 H5.
    assert (R1 : reads strict s1 s3) by by transitivity s2.
    assert (R2 : reads strict s s3) by by transitivity s1.
    rewrite (inv_head _ (reads_inv _ _ _ R2 Hi)), (inv_tail _ (reads_inv _ _ _ H1 Hi)).
    replace (stored s3) with (stored s) by (by destruct R2 as (_ & -> & _)). apply HQ; [done|]. transitivity s3; [done|]. by transitivity s4.
Qed.

Lemma loads_cons s (Q : Z * Z -> ghost -> Prop) :
  ring_inv s ->
  (forall s1 s2, writes s s1 -> writes s1 s2 -> Q (stored s1 mod 4096, g_read s mod 4096) s2) -> cons (loads left_first) s Q.
Proof.
  intros Hi HQ. unfold loads. destruct left_first.
  - apply rg_bind; [apply _|]. apply (look _ _ LoadHead _ _ some_answer); [done|]. intros s1 s2 H1 H2. cbn [ram_do fst].
    apply rg_bind; [apply _|]. apply (look _ _ LoadTail _ _ some_answer); [done|]. intros s3 s4 H3 H4. cbn [ram_do fst]. apply rg_ret. intros s5 H5.
    assert (R1 : writes s1 s3) by by transitivity s2.
    assert (R2 : writes s s3) by by transitivity s1.
    rewrite (inv_head _ (writes_inv _ _ H1 Hi)), (inv_tail _ (writes_inv _ _ R2 Hi)).
    replace (g_read s3) with (g_read s) by (by destruct R2 as (_ & -> & _)). apply HQ; [done|]. transitivity s3; [done|]. by transitivity s4.
  - apply rg_bind; [apply _|]. apply (look _ _ LoadTail _ _ some_answer); [done|]. intros s1 s2 H1 H2. cbn [ram_do fst].
    apply rg_bind; [apply _|]. apply (look _ _ LoadHead _ _ some_answer); [done|]. intros s3 s4 H3 H4. cbn [ram_do fst]. apply rg_ret. intros s5 H5.
    assert (R1 : writes s s3) by (transitivity s1; [done|]; by transitivity s2).
    rewrite (inv_head _ (writes_inv _ _ R1 Hi)), (inv_tail _ (writes_inv _ _ H1 Hi)).
    replace (g_read s1) with (g_read s) by (by destruct H1 as (_ & -> & _)). apply HQ; [done|]. by transitivity s4.
Qed.

(** ** The producer *)

Definition free (s : ghost) : Z := 4095 - (stored s - g_read s).
(** Head and tail are on the same lap: the tail is not above the head. *)
Definition same_lap (s : ghost) : Prop := g_read s / 4096 = stored s / 4096.

Lemma reads_free strict s s' : reads strict s s' -> free s <= free s' /\ stored s' = stored s /\ (strict = true -> free s' = free s).
Proof.
  intros (_ & Hh & _ & _ & Hn & Hs). unfold free. rewrite Hh. split_and!; [lia|done|]. intros E. rewrite Hs; done.
Qed.
Lemma reads_lap strict s s' : reads strict s s' -> ring_inv s -> same_lap s -> same_lap s'.
Proof.
  intros Hr Hi. pose proof (inv_range _ (reads_inv _ _ _ Hr Hi)) as Hg'. pose proof (inv_range _ Hi) as Hg.
  destruct (reads_free _ _ _ Hr) as (_ & He & _). destruct Hr as (_ & _ & _ & _ & Hn & _).
  unfold same_lap. rewrite He in *. Z.to_euclidean_division_equations; lia.
Qed.

(** What RxFree answers for a head [h], and tails [t1] and [t2] of the two
    evaluations. *)
Definition free_of (h t1 t2 : Z) : Z :=
  wrap 64 (USB_CDC_ACM_RX_FIFO_SIZE - 1 - (if t1 <=? h then wrap 64 (h - t2) else wrap 64 (USB_CDC_ACM_RX_FIFO_SIZE - t2 + h))).

(** It is the free space at the second evaluation, unless the reader passed
    the end of the ring in between: then it is far too large. *)
Lemma free_of_value a n1 n2 :
  0 <= n1 <= n2 -> n2 <= a <= n1 + 4095 ->
  let f := free_of (a mod 4096) (n1 mod 4096) (n2 mod 4096) in
  f = 4095 - (a - n2) \/ n1 / 4096 <> a / 4096 /\ n2 / 4096 = a / 4096 /\ 2 ^ 63 <= f.
Proof.
  intros H1 H2 f. subst f. unfold free_of, USB_CDC_ACM_RX_FIFO_SIZE, wrap. change (2 ^ 64) with 18446744073709551616. change (2 ^ 63) with 9223372036854775808.
  destruct (Z.leb_spec (n1 mod 4096) (a mod 4096)) as [Hle|Hgt].
  - left. assert (E : a mod 4096 - n2 mod 4096 = a - n2) by (Z.to_euclidean_division_equations; lia).
    rewrite E, (Z.mod_small (a - n2)), Z.mod_small by lia. lia.
  - rewrite (Z.mod_small (4096 - _ + _)) by (pose proof (Z.mod_pos_bound n2 4096); pose proof (Z.mod_pos_bound a 4096); lia).
    destruct (Z.leb_spec (n2 mod 4096) (a mod 4096)) as [Hle2|Hgt2].
    + right. assert (E : n1 / 4096 <> a / 4096 /\ n2 / 4096 = a / 4096) by (split; Z.to_euclidean_division_equations; lia).
      destruct E. split_and!; [done..|]. assert (Hb : 0 <= a mod 4096 - n2 mod 4096 < 4096) by (Z.to_euclidean_division_equations; lia).
      rewrite <- (Z.mod_unique_pos _ 18446744073709551616 (-1) (18446744073709551616 - 1 - (a mod 4096 - n2 mod 4096))) by lia. lia.
    + left. assert (E : 4096 - n2 mod 4096 + a mod 4096 = a - n2) by (Z.to_euclidean_division_equations; lia).
      rewrite E, Z.mod_small by lia. lia.
Qed.

Lemma RxFree_prod strict s (Q : Z -> ghost -> Prop) :
  ring_inv s ->
  (forall f s', reads strict s s' -> free s <= f -> f <= free s' \/ same_lap s' /\ ~ same_lap s -> (strict = true -> f = free s) -> Q f s') ->
  prod strict (RxFree_steps left_first) s Q.
Proof.
  intros Hi HQ. unfold RxFree_steps, RxCount_steps. apply rg_bind; [apply _|]. apply rg_bind; [apply _|].
  apply loads_prod; [done|]. intros s1 s2 H1 H2. cbv beta iota.
  assert (R2 : reads strict s s2) by by transitivity s1. pose proof (reads_inv _ _ _ R2 Hi) as Hi2.
  assert (Hend : forall s3 s4, reads strict s2 s3 -> reads strict s3 s4 ->
    Q (free_of (stored s mod 4096) (g_read s1 mod 4096) (g_read s3 mod 4096)) s4).
  { intros s3 s4 H3 H4. assert (R3 : reads strict s s3) by by transitivity s2. assert (R13 : reads strict s1 s3) by by transitivity s2.
    destruct (reads_free _ _ _ H1) as (F1 & E1 & S1). destruct (reads_free _ _ _ R13) as (F13 & E13 & S13). destruct (reads_free _ _ _ H4) as (F4 & E4 & S4).
    pose proof (inv_range _ (reads_inv _ _ _ H1 Hi)) as G1. pose proof (inv_range _ (reads_inv _ _ _ R3 Hi)) as G3. pose proof (inv_range _ Hi) as G.
    assert (Hn : g_read s1 <= g_read s3) by apply R13. assert (Hn0 : g_read s <= g_read s1) by apply H1.
    apply HQ; [by transitivity s3| | |].
    - destruct (free_of_value (stored s) (g_read s1) (g_read s3)) as [->|(_ & _ & Hb)]; [lia..| |]; unfold free in *; lia.
    - destruct (free_of_value (stored s) (g_read s1) (g_read s3)) as [->|(Hl1 & Hl3 & _)]; [lia..|left; unfold free in *; lia|right].
      split; [apply (reads_lap strict s3); [done|by apply (reads_inv strict s)|unfold same_lap; rewrite E13, E1; lia]|].
      intros Hl. pose proof (reads_lap _ _ _ H1 Hi Hl) as Hl'. unfold same_lap in Hl'. rewrite E1 in Hl'. done.
    - intros Es. destruct (free_of_value (stored s) (g_read s1) (g_read s3)) as [->|(Hl1 & Hl3 & _)]; [lia..| |].
      + specialize (S1 Es). specialize (S13 Es). unfold free in *. lia.
      + exfalso. assert (g_read s3 = g_read s1) by (by apply R13). congruence. }
  unfold free_of in Hend. destruct (_ <=? _); (apply rg_bind; [apply _|]); (apply loads_prod; [done|]); intros s3 s4 H3 H4; cbv beta iota;
    apply rg_ret; intros s5 H5; apply rg_ret; intros s6 H6; rewrite (proj1 (proj2 (reads_free _ _ _ R2))); (apply (Hend s3); [done|]);
    (transitivity s4; [done|]); by transitivity s5.
Qed.

(** Storing into the slot at the head, and publishing it. *)
Lemma store_inv s x b :
  ring_inv s -> 0 < free s -> rx_store (Rx (r_ring (g_ram s))) (stored s mod 4096) x = Some b ->
  ring_inv (mkGhost (with_rx (g_ram s) b) (g_hist s) (g_read s)) /\ b !! Z.to_nat (stored s mod 4096) = Some x.
Proof.
  intros Hi Hf Hs. unfold rx_store in Hs. case_match; [|done]. b2p. injection Hs as <-.
  pose proof (inv_range _ Hi) as Hg. pose proof (inv_rx _ Hi) as Hl. unfold free in Hf. split.
  - constructor; cbn; try apply Hi; [unfold len; rewrite length_insert; exact Hl|].
    intros i Hr. rewrite list_lookup_insert_ne; [by apply (inv_slot _ Hi)|]. Z.to_euclidean_division_equations; lia.
  - rewrite list_lookup_insert_eq; [done|]. unfold len in *. lia.
Qed.
Lemma publish_inv s x :
  ring_inv s -> 0 < free s -> Rx (r_ring (g_ram s)) !! Z.to_nat (stored s mod 4096) = Some x ->
  ring_inv (mkGhost (with_head (g_ram s) ((stored s mod 4096 + 1) mod 4096)) (g_hist s ++ [x]) (g_read s)).
Proof.
  intros Hi Hf Hx. pose proof (inv_range _ Hi) as Hg. unfold free in Hf.
  constructor; cbn; try apply Hi; rewrite ?len_app, ?len_cons, ?len_nil; [|lia|].
  - Z.to_euclidean_division_equations; lia.
  - intros i Hr. destruct (decide (i = stored s)) as [->|Hne].
    + rewrite Hx, lookup_app_r by (unfold len; lia). unfold len. by rewrite Nat2Z.id, Nat.sub_diag.
    + rewrite lookup_app_l by (unfold len in *; lia). apply (inv_slot _ Hi). lia.
Qed.

(** An access that stores, from the state it finds. *)
Lemma act (rely guar : ghost -> ghost -> Prop) c s (Q : ram_res c -> ghost -> Prop) ans :
  match c with BulkTransferIn _ => False | _ => True end ->
  (forall s', rely s s' -> exists s1, g_ram s1 = snd (ram_do ans c (g_ram s')) /\ guar s' s1
     /\ forall s2, rely s1 s2 -> Q (fst (ram_do ans c (g_ram s'))) s2) ->
  rg access g_ram rely guar (call (S := rams) c) s Q.
Proof.
  intros Hc HQ. apply rg_call. intros s' r m' Hs (a & _ & Hd). destruct (HQ s' Hs) as (s2 & He & Hg & Hq).
  assert (Hr : ram_do a c (g_ram s') = ram_do ans c (g_ram s')) by by destruct c. rewrite Hr in Hd. rewrite Hd in He, Hq. by exists s2.
Qed.

Ltac look_at c := apply rg_bind; [apply _|]; apply (look _ _ c _ _ some_answer); [done|].
Ltac act_on c := apply rg_bind; [apply _|]; apply (act _ _ c _ _ some_answer); [done|].

Lemma writes_intro s s' : (ring_inv s -> ring_inv s') -> g_read s' = g_read s -> g_hist s `prefix_of` g_hist s' -> writes s s'.
Proof. intros. by split_and!. Qed.

(** What the producer still knows after the byte [x] is in the slot. *)
Definition slotted (s : ghost) (x : Z) (t : ghost) : Prop :=
  ring_inv t /\ g_hist t = g_hist s /\ Rx (r_ring (g_ram t)) !! Z.to_nat (stored s mod 4096) = Some x
  /\ r_scratch (g_ram t) = r_scratch (g_ram s) /\ free s <= free t.
Lemma slotted_stable strict s x t t' : reads strict t t' -> slotted s x t -> slotted s x t'.
Proof.
  intros Hr (Hi & Hh & Hx & Hs & Hf). destruct (reads_free _ _ _ Hr) as (Ff & _ & _). pose proof (reads_inv _ _ _ Hr Hi).
  destruct Hr as (_ & Eh & Ex & Es & _). unfold slotted. rewrite Eh, Ex, Es. split_and!; (done || lia).
Qed.

(** One byte of the storing loop, followed by [k]. *)
Lemma store_prod strict s x (k : fw rams (option unit)) (Q : option unit -> ghost -> Prop) :
  ring_inv s -> 0 < free s ->
  (forall s', ring_inv s' -> g_hist s' = g_hist s ++ [x] -> r_scratch (g_ram s') = r_scratch (g_ram s) -> free s - 1 <= free s' -> prod strict k s' Q) ->
  prod strict (h ← call (S := rams) LoadHead; _ ←? call (S := rams) (StoreRx h x); h ← call (S := rams) LoadHead;
               _ ← call (S := rams) (StoreHead ((h + 1) mod USB_CDC_ACM_RX_FIFO_SIZE)); k) s Q.
Proof.
  intros Hi Hf HQ. look_at LoadHead. intros s3 s4 R3 H4. cbn [ram_do fst].
  rewrite (inv_head _ (reads_inv _ _ _ R3 Hi)), (proj1 (proj2 (reads_free _ _ _ R3))).
  act_on (StoreRx (stored s mod 4096) x). intros s5 H5.
  assert (R5 : reads strict s s5) by (transitivity s3; [done|]; by transitivity s4).
  pose proof (reads_inv _ _ _ R5 Hi) as Hi5. destruct (reads_free _ _ _ R5) as (F5 & E5 & _).
  destruct (rx_store_Some (Rx (r_ring (g_ram s5))) (stored s mod 4096) x) as [b Hb]; [rewrite (inv_rx _ Hi5); Z.to_euclidean_division_equations; lia|].
  destruct (store_inv s5 x b Hi5 ltac:(lia)) as [Hi6 Hbx]; [by rewrite E5|].
  exists (mkGhost (with_rx (g_ram s5) b) (g_hist s5) (g_read s5)). cbn [ram_do]. rewrite Hb. cbn [fst snd g_ram]. split; [done|].
  split; [by apply writes_intro|].
  assert (Hsl : slotted s x (mkGhost (with_rx (g_ram s5) b) (g_hist s5) (g_read s5))).
  { unfold slotted. cbn [g_hist g_ram with_rx r_ring Rx r_scratch]. split_and!; [done|apply R5|by rewrite <- E5|apply R5|exact F5]. }
  intros s7 H7. apply (slotted_stable _ _ _ _ _ H7) in Hsl. look_at LoadHead. intros s8 s9 H8 H9. cbn [ram_do fst].
  apply (slotted_stable _ _ _ _ _ H8) in Hsl. pose proof Hsl as (Hi8 & Hh8 & _). rewrite (inv_head _ Hi8), Hh8.
  act_on (StoreHead ((stored s mod 4096 + 1) mod USB_CDC_ACM_RX_FIFO_SIZE)). intros s10 H10.
  pose proof (slotted_stable _ _ _ _ _ H10 (slotted_stable _ _ _ _ _ H9 Hsl)) as (Hi10 & Hh10 & Hrx & Hscr & Hfr).
  set (t := mkGhost (with_head (g_ram s10) ((stored s mod 4096 + 1) mod 4096)) (g_hist s10 ++ [x]) (g_read s10)).
  assert (Hi11 : ring_inv t) by (subst t; rewrite <- Hh10 in Hrx |- *; apply publish_inv; [done|lia|done]).
  exists t. split; [done|]. split; [apply writes_intro; [done|done|by exists [x]]|].
  intros s12 H12. destruct (reads_free _ _ _ H12) as (F12 & _ & _). apply HQ; [by apply (reads_inv _ _ _ H12)|..].
  - destruct H12 as (_ & -> & _). cbn. by rewrite Hh10.
  - destruct H12 as (_ & _ & _ & -> & _). exact Hscr.
  - unfold free in *. subst t. cbn in F12. rewrite len_app, len_cons, len_nil in F12. lia.
Qed.

Lemma put_prod strict n s Index (Q : option unit -> ghost -> Prop) :
  ring_inv s -> Z.of_nat n <= free s -> 0 <= Index -> Index + Z.of_nat n <= mps ->
  (forall s', ring_inv s' -> g_hist s' = g_hist s ++ take n (drop (Z.to_nat Index) (r_scratch (g_ram s))) -> Q (Some tt) s') ->
  prod strict (put_steps n Index) s Q.
Proof.
  revert s Index. induction n as [|n IH]; intros s Index Hi Hn H0 Hm HQ; cbn [put_steps].
  { apply rg_ret. intros s' Hs. apply HQ; [by apply (reads_inv strict s)|]. rewrite take_0, app_nil_r. apply Hs. }
  look_at (LoadScratch Index). intros s1 s2 H1 H2. cbn [ram_do fst].
  assert (R2 : reads strict s s2) by by transitivity s1. pose proof (reads_inv _ _ _ R2 Hi) as Hi2.
  destruct (reads_free _ _ _ R2) as (F2 & _ & _). assert (Hsc : r_scratch (g_ram s1) = r_scratch (g_ram s)) by apply H1.
  destruct (mem_get_Some (r_scratch (g_ram s)) Index) as (x & Hx & _); [rewrite (inv_scratch _ Hi); lia|]. rewrite Hsc, Hx.
  apply store_prod; [done|lia|]. intros s3 Hi3 Hh3 Hs3 Hf3. apply IH; [done|lia..|]. intros s' Hi' Hh'. apply HQ; [done|].
  destruct R2 as (_ & Eh & _ & Es & _). rewrite Hh', Hh3, Hs3, Es, Eh, <- (assoc_L (++)). f_equal. cbn [app].
  unfold mem_get in Hx. case_match; [done|]. apply drop_S in Hx. rewrite Hx. cbn [take]. do 3 f_equal. lia.
Qed.

(** The transfer fills the scratch buffer, which only the callback uses. *)
Lemma transfer_prod strict s (Q : EFI_STATUS * (Z * list Z) -> ghost -> Prop) :
  ring_inv s ->
  (forall st L data s1 s2, reads strict s s1 -> ring_inv s2 -> g_hist s2 = g_hist s1 -> g_read s1 <= g_read s2 ->
     0 <= L <= len data -> len data <= mps -> r_scratch (g_ram s2) = map (wrap 8) data ++ drop (length data) (r_scratch (g_ram s1)) ->
     Q (st, (L, data)) s2) ->
  prod strict (call (S := rams) (BulkTransferIn mps)) s Q.
Proof.
  intros Hi HQ. apply rg_call. intros s1 r m' H1 ([st [L data]] & [HL Hd] & Hdo). cbn in HL, Hd. injection Hdo as <- <-. cbn [snd fst].
  pose proof (reads_inv _ _ _ H1 Hi) as Hi1. pose proof (inv_scratch _ Hi1) as Hm. unfold len in Hm, Hd.
  rewrite overwrite_spec by (rewrite length_map; lia). rewrite length_map.
  set (s2 := mkGhost (mkRam (r_ring (g_ram s1)) (map (wrap 8) data ++ drop (length data) (r_scratch (g_ram s1)))) (g_hist s1) (g_read s1)).
  assert (Hi2 : ring_inv s2).
  { constructor; cbn; try apply Hi1. unfold len. rewrite length_app, length_map, length_drop. lia. }
  exists s2. split; [done|]. split; [by apply writes_intro|]. intros s3 H3.
  apply (HQ st L data s1); try done; [by apply (reads_inv _ _ _ H3)|apply H3|apply H3|]. by destruct H3 as (_ & _ & _ & -> & _).
Qed.

Lemma poll_prod strict s (Q : option (list Z) -> ghost -> Prop) :
  ring_inv s ->
  (forall s' pkt st, ring_inv s' -> g_hist s' = g_hist s ++ st -> st `prefix_of` pkt -> (strict = true -> st = pkt) -> Q (Some pkt) s') ->
  prod strict (UsbCdcAcmPoll_steps left_first mps) s Q.
Proof.
  intros Hi HQ.
  assert (Hnil : forall t, ring_inv t -> g_hist t = g_hist s -> prod strict (mret (Some [])) t Q).
  { intros t Ht Hh. apply rg_ret. intros s' Hs. apply (HQ s' [] []); [by apply (reads_inv _ _ _ Hs)| |done|done].
    rewrite app_nil_r. by destruct Hs as (_ & -> & _). }
  unfold UsbCdcAcmPoll_steps. apply rg_bind; [apply _|]. apply RxFree_prod; [done|]. intros f1 s1 R1 Hlo1 Hhi1 Hst1.
  pose proof (reads_inv _ _ _ R1 Hi) as Hi1. destruct (Z.ltb_spec f1 mps) as [|Hf1]; [apply Hnil; [done|apply R1]|].
  apply rg_bind; [apply _|]. apply transfer_prod; [done|]. intros st L data s2 s3 R2 Hi3 Hh3 Hn3 HL Hd Hs3. cbv beta iota.
  assert (Hh : g_hist s3 = g_hist s) by (rewrite Hh3; destruct R1 as (_ & <- & _); apply R2).
  assert (Hfree : free s1 <= free s3) by (destruct (reads_free _ _ _ R2) as (? & E & _); unfold free in *; rewrite Hh3; lia).
  assert (Hlap : same_lap s1 -> same_lap s3).
  { intros Hl. pose proof (reads_lap _ _ _ R2 Hi1 Hl) as Hl2. pose proof (inv_range _ Hi3). pose proof (inv_range _ (reads_inv _ _ _ R2 Hi1)).
    unfold same_lap in *. rewrite Hh3 in *. Z.to_euclidean_division_equations; lia. }
  destruct (EFI_ERROR st || (L =? 0)); [by apply Hnil|].
  apply rg_bind; [apply _|]. unfold RxPut_steps. apply rg_bind; [apply _|]. apply RxFree_prod; [done|]. intros f2 s4 R4 Hlo2 Hhi2 _. cbv zeta.
  destruct (reads_free _ _ _ R4) as (F4 & _ & _). assert (Hmin : (if f2 <? L then f2 else L) = Z.min L f2) by (destruct (Z.ltb_spec f2 L); lia).
  pose proof (inv_range _ Hi3) as Hg3. assert (Hpos : 0 <= free s3) by (unfold free; lia).
  assert (Hroom : Z.min L f2 <= free s4) by (destruct Hhi2 as [|[_ Hl3]]; [lia|]; destruct Hhi1 as [|[Hl1 _]]; [lia|tauto]).
  rewrite Hmin. apply put_prod; [by apply (reads_inv _ _ _ R4)|lia..|]. intros s5 Hi5 Hh5. apply rg_ret. intros s6 R6.
  assert (Hscr : r_scratch (g_ram s4) = r_scratch (g_ram s3)) by apply R4. rewrite Hscr, Hs3 in Hh5.
  set (n := Z.to_nat (Z.min L f2)) in *. change (Z.to_nat 0) with 0%nat in Hh5. rewrite drop_0 in Hh5.
  assert (Hlen : (n <= Z.to_nat L)%nat /\ (n <= length data)%nat) by (unfold len in HL; lia).
  rewrite take_app_le in Hh5 by (rewrite length_map; lia). apply (HQ s6 _ (take n (map (wrap 8) data))).
  - by apply (reads_inv _ _ _ R6).
  - destruct R6 as (_ & -> & _). rewrite Hh5. f_equal. destruct R4 as (_ & -> & _). done.
  - replace n with (n `min` Z.to_nat L)%nat by lia. rewrite <- take_take. apply prefix_take.
  - intros Es. f_equal. specialize (Hst1 Es). destruct (reads_free _ _ _ R1) as (F1 & _ & _). lia.
Qed.

(** ** The reader *)

Lemma writes_stored s s' : writes s s' -> stored s <= stored s' /\ g_read s' = g_read s.
Proof. intros (_ & Hn & Hp%prefix_length). unfold len. split; [lia|done]. Qed.

(** A positive count is a byte to read. *)
Lemma RxCount_cons s (Q : Z -> ghost -> Prop) :
  ring_inv s -> (forall c s', writes s s' -> (0 < c -> g_read s' < stored s') -> Q c s') -> cons (RxCount_steps left_first) s Q.
Proof.
  intros Hi HQ. unfold RxCount_steps. apply rg_bind; [apply _|]. apply loads_cons; [done|]. intros s1 s2 H1 H2. cbv beta iota.
  assert (R2 : writes s s2) by by transitivity s1. pose proof (writes_inv _ _ R2 Hi) as Hi2.
  pose proof (inv_range _ (writes_inv _ _ H1 Hi)) as G1. destruct (writes_stored _ _ H1) as [L1 N1].
  assert (Hend : forall v s3 s4, writes s2 s3 -> writes s3 s4 ->
     (0 < wrap 64 (v (stored s3 mod 4096)) -> g_read s < stored s3) -> forall s5, writes s4 s5 -> Q (wrap 64 (v (stored s3 mod 4096))) s5).
  { intros v s3 s4 H3 H4 Hv s5 H5. assert (R : writes s3 s5) by by transitivity s4.
    apply HQ; [by transitivity s3; [transitivity s2|]|]. intros Hc%Hv. destruct (writes_stored _ _ R). destruct (writes_stored _ _ H3). destruct (writes_stored _ _ R2). lia. }
  destruct (Z.leb_spec (g_read s mod 4096) (stored s1 mod 4096)) as [Hle|Hgt]; (apply rg_bind; [apply _|]); (apply loads_cons; [done|]);
    intros s3 s4 H3 H4; cbv beta iota; apply rg_ret; rewrite (proj2 (writes_stored _ _ R2)).
  - apply (Hend (fun h => h - g_read s mod 4096)); [done..|]. intros Hc.
    assert (R3 : writes s s3) by by transitivity s2. pose proof (inv_range _ (writes_inv _ _ R3 Hi)) as G3. rewrite (proj2 (writes_stored _ _ R3)) in G3.
    destruct (decide (g_read s = stored s3)) as [E|]; [|lia]. rewrite E, Z.sub_diag in Hc. by vm_compute in Hc.
  - apply (Hend (fun h => USB_CDC_ACM_RX_FIFO_SIZE - g_read s mod 4096 + h)); [done..|]. intros _.
    assert (R3 : writes s1 s3) by by transitivity s2. destruct (writes_stored _ _ R3). rewrite N1 in G1.
    destruct (decide (g_read s = stored s1)) as [E|]; [rewrite E in Hgt; lia|lia].
Qed.

Definition advanced (s : ghost) (t : Z) : ghost := mkGhost (with_tail (g_ram s) ((t + 1) mod 4096)) (g_hist s) (g_read s + 1).
Lemma advance_inv s : ring_inv s -> g_read s < stored s -> ring_inv (advanced s (g_read s mod 4096)).
Proof.
  intros Hi Hr. pose proof (inv_range _ Hi). constructor; cbn; try apply Hi; [Z.to_euclidean_division_equations; lia|lia|].
  intros i Hin. apply (inv_slot _ Hi). lia.
Qed.

(** One byte of the reading loop, followed by [k]. *)
Lemma take_cons s (k : Z -> fw rams (option (list Z))) (Q : option (list Z) -> ghost -> Prop) :
  ring_inv s -> g_read s < stored s ->
  (forall x s', ring_inv s' -> g_hist s !! Z.to_nat (g_read s) = Some x -> g_hist s `prefix_of` g_hist s' -> g_read s' = g_read s + 1 -> cons (k x) s' Q) ->
  cons (t ← call (S := rams) LoadTail; x ←? call (S := rams) (LoadRx t); t ← call (S := rams) LoadTail;
        _ ← call (S := rams) (StoreTail ((t + 1) mod USB_CDC_ACM_RX_FIFO_SIZE)); k x) s Q.
Proof.
  intros Hi Hr HQ. look_at LoadTail. intros s1 s2 H1 H2. cbn [ram_do fst].
  rewrite (inv_tail _ (writes_inv _ _ H1 Hi)), (proj2 (writes_stored _ _ H1)).
  look_at (LoadRx (g_read s mod 4096)). intros s3 s4 H3 H4. cbn [ram_do fst].
  assert (R3 : writes s s3) by (transitivity s1; [done|]; by transitivity s2). destruct (writes_stored _ _ R3) as [L3 N3].
  pose proof (writes_inv _ _ R3 Hi) as Hi3. pose proof (inv_range _ Hi) as G. pose proof (inv_slot _ Hi3 (g_read s) ltac:(lia)) as Hx.
  destruct (lookup_lt_is_Some_2 (g_hist s) (Z.to_nat (g_read s))) as [x Hhx]; [unfold len in *; lia|].
  rewrite (prefix_lookup_Some _ _ _ _ Hhx (proj2 (proj2 R3))) in Hx.
  replace (mem_get (Rx (r_ring (g_ram s3))) (g_read s mod 4096)) with (Some x)
    by (unfold mem_get; destruct (Z.ltb_spec (g_read s mod 4096) 0); [Z.to_euclidean_division_equations; lia|done]).
  look_at LoadTail. intros s5 s6 H5 H6. cbn [ram_do fst]. assert (R5 : writes s s5) by (transitivity s3; [done|]; by transitivity s4).
  rewrite (inv_tail _ (writes_inv _ _ R5 Hi)), (proj2 (writes_stored _ _ R5)).
  act_on (StoreTail ((g_read s mod 4096 + 1) mod USB_CDC_ACM_RX_FIFO_SIZE)). intros s7 H7.
  assert (R7 : writes s s7) by (transitivity s5; [done|]; by transitivity s6). pose proof (writes_inv _ _ R7 Hi) as Hi7. destruct (writes_stored _ _ R7) as [L7 N7].
  exists (advanced s7 (g_read s mod 4096)). split; [done|].
  assert (Hi8 : ring_inv (advanced s7 (g_read s mod 4096))) by (rewrite <- N7; apply advance_inv; [done|lia]).
  split; [split_and!; cbn; try done; lia|]. intros s9 H9. apply HQ; [by apply (writes_inv _ _ H9)|done| |].
  - transitivity (g_hist s7); apply R7 || apply H9.
  - rewrite (proj2 (writes_stored _ _ H9)). cbn. lia.
Qed.

Lemma read_cons n s Out (Q : option (list Z) -> ghost -> Prop) :
  ring_inv s ->
  (forall k s', (k <= n)%nat -> ring_inv s' -> g_read s' = g_read s + Z.of_nat k -> g_hist s `prefix_of` g_hist s' ->
     Q (Some (Out ++ take k (drop (Z.to_nat (g_read s)) (g_hist s')))) s') ->
  cons (read_steps left_first n Out) s Q.
Proof.
  assert (Hstop : forall n s Out (Q : option (list Z) -> ghost -> Prop), ring_inv s ->
    (forall k s', (k <= n)%nat -> ring_inv s' -> g_read s' = g_read s + Z.of_nat k -> g_hist s `prefix_of` g_hist s' ->
     Q (Some (Out ++ take k (drop (Z.to_nat (g_read s)) (g_hist s')))) s') -> cons (mret (Some Out)) s Q).
  { intros n' s' Out' Q' Hi HQ. apply rg_ret. intros s1 H1. rewrite <- (app_nil_r Out').
    apply (HQ 0%nat); [lia|by apply (writes_inv _ _ H1)|destruct (writes_stored _ _ H1); lia|apply H1]. }
  revert s Out. induction n as [|n IH]; intros s Out Hi HQ; cbn [read_steps]; [by apply (Hstop 0%nat)|].
  apply rg_bind; [apply _|]. apply RxCount_cons; [done|]. intros c s1 R1 Hc. pose proof (writes_inv _ _ R1 Hi) as Hi1.
  destruct (writes_stored _ _ R1) as [L1 N1]. assert (P1 : g_hist s `prefix_of` g_hist s1) by apply R1.
  destruct (Z.ltb_spec 0 c) as [Hpos|].
  2:{ apply (Hstop (S n)); [done|]. intros k s' Hk Hi' Hn Hp. rewrite N1 in *. apply HQ; [done..|]. by etransitivity. }
  apply take_cons; [done|by apply Hc|]. intros x s2 Hi2 Hx P2 N2. apply IH; [done|]. intros k s' Hk Hi' Hn Hp. pose proof (inv_range _ Hi) as G.
  replace ((Out ++ [x]) ++ _) with (Out ++ take (S k) (drop (Z.to_nat (g_read s)) (g_hist s'))).
  - apply HQ; [lia|done|lia|]. transitivity (g_hist s1); [done|]. by transitivity (g_hist s2).
  - rewrite <- (assoc_L (++)). f_equal. rewrite N1 in Hx, N2. rewrite N2.
    assert (Hx' : g_hist s' !! Z.to_nat (g_read s) = Some x) by (eapply prefix_lookup_Some; [exact Hx|by transitivity (g_hist s2)]).
    rewrite (drop_S _ _ _ Hx'). cbn [take app]. do 3 f_equal. lia.
Qed.

(** ** Between calls *)

Lemma inv_contents s :
  ring_inv s -> ring_wf (r_ring (g_ram s)) /\ ring_contents (r_ring (g_ram s)) = drop (Z.to_nat (g_read s)) (g_hist s).
Proof.
  intros Hi. pose proof (inv_range _ Hi) as G.
  assert (Hw : ring_wf (r_ring (g_ram s))).
  { split; [apply (inv_rx _ Hi)|]. rewrite (inv_head _ Hi), (inv_tail _ Hi). split; apply Z.mod_pos_bound; lia. }
  split; [done|]. assert (Hc : RxCount (r_ring (g_ram s)) = stored s - g_read s).
  { rewrite RxCount_mod, (inv_head _ Hi), (inv_tail _ Hi) by done. Z.to_euclidean_division_equations; lia. }
  apply list_eq. intros i. unfold ring_contents. rewrite Hc, lookup_drop.
  change (map ?f ?l) with (f <$> l). rewrite list_lookup_fmap.
  destruct (decide (Z.of_nat i < stored s - g_read s)) as [Hlt|Hge].
  - rewrite lookup_seqZ_lt by lia. cbn [fmap option_fmap option_map]. unfold ring_at. rewrite (inv_tail _ Hi).
    replace ((g_read s mod 4096 + (0 + Z.of_nat i)) mod 4096) with ((g_read s + Z.of_nat i) mod 4096) by (Z.to_euclidean_division_equations; lia).
    rewrite (inv_slot _ Hi) by lia. replace (Z.to_nat (g_read s + Z.of_nat i)) with (Z.to_nat (g_read s) + i)%nat by lia.
    destruct (lookup_lt_is_Some_2 (g_hist s) (Z.to_nat (g_read s) + i)) as [x ->]; [unfold len in *; lia|done].
  - rewrite lookup_seqZ_ge by lia. symmetry. apply lookup_ge_None_2. unfold len in *. lia.
Qed.

(** The packets received so far, and of each the part that was stored. *)
Definition produced (strict : bool) (hist0 : list Z) (l : list (option (list Z))) (s : ghost) : Prop :=
  ring_inv s /\ exists packets kept, l = map Some packets /\ Forall2 (fun k p => k `prefix_of` p) kept packets
    /\ (strict = true -> kept = packets) /\ g_hist s = hist0 ++ concat kept.
(** The reads made so far return the history from [n0] on. *)
Definition consumed (n0 : Z) (l : list (option (EFI_STATUS * list Z))) (s : ghost) : Prop :=
  ring_inv s /\ 0 <= n0 <= g_read s /\ exists outs, l = map Some outs
    /\ concat (map snd outs) = take (Z.to_nat (g_read s - n0)) (drop (Z.to_nat n0) (g_hist s)).

Lemma produced_stable strict hist0 l s s' : reads false s s' -> produced strict hist0 l s -> produced strict hist0 l s'.
Proof. intros Hr (Hi & pk & kp & Hl & Hf & Hs & Hh). split; [by apply (reads_inv _ _ _ Hr)|]. exists pk, kp. by destruct Hr as (_ & -> & _). Qed.
Lemma consumed_stable n0 l s s' : writes s s' -> consumed n0 l s -> consumed n0 l s'.
Proof.
  intros Hw (Hi & Hn & outs & Hl & Ho). split; [by apply (writes_inv _ _ Hw)|]. destruct Hw as (_ & -> & rest & ->). split; [done|]. exists outs. split; [done|].
  pose proof (inv_range _ Hi). rewrite Ho, drop_app_le, take_app_le; [done|rewrite length_drop|]; unfold len in *; lia.
Qed.

Lemma poll_fine strict hist0 :
  fine access g_ram (reads strict) writes (produced strict hist0) (UsbCdcAcmPoll_steps left_first mps).
Proof.
  intros l s (Hi & pk & kp & -> & Hf & Hs & Hh). apply poll_prod; [done|]. intros s' pkt st Hi' Hh' Hp Hst. split; [done|].
  exists (pk ++ [pkt]), (kp ++ [st]). rewrite map_app, Hh', Hh, concat_app, <- (assoc_L (++)). cbn [concat]. rewrite app_nil_r. split_and!; [done| | |done].
  - apply Forall2_app; [done|]. by constructor.
  - intros E. by rewrite Hs, Hst.
Qed.
Lemma read_fine n0 Wanted :
  fine access g_ram writes (reads false) (consumed n0) (UsbCdcAcmRead_steps left_first Wanted).
Proof.
  intros l s (Hi & Hn & outs & -> & Ho). unfold UsbCdcAcmRead_steps. apply rg_bind; [apply _|]. apply read_cons; [done|].
  intros k s1 Hk Hi1 Hn1 Hp. cbn [app]. apply rg_ret. intros s' Hs. apply (consumed_stable _ _ _ _ Hs). split; [done|]. split; [lia|].
  eexists (outs ++ [_]). split; [by rewrite map_app|]. rewrite map_app, concat_app. cbn [map concat snd]. rewrite app_nil_r, Ho.
  destruct Hp as [rest ->]. pose proof (inv_range _ Hi). rewrite Hn1.
  replace (Z.to_nat (g_read s + Z.of_nat k - n0)) with (Z.to_nat (g_read s - n0) + k)%nat by lia.
  rewrite <- take_take_drop, drop_drop. f_equal.
  - rewrite drop_app_le, take_app_le; [done|rewrite length_drop|]; unfold len in *; lia.
  - f_equal. f_equal. lia.
Qed.
End race.

(** ** The port under preemption *)

(** The timer fires [polls] times while one caller reads. *)
Definition start (left_first : bool) (mps : Z) (m : ram) (polls : nat) (wanted : list Z)
    : machine (S := rams) (M := ram) (option (list Z)) (option (EFI_STATUS * list Z)) :=
  mkMachine m (mkClient (replicate polls (UsbCdcAcmPoll_steps left_first mps)) None [])
              (mkClient (map (UsbCdcAcmRead_steps left_first) wanted) None []).

(** The history a ring stands for. *)
Definition past (r : rx_ring) : list Z := repeat 0 (Z.to_nat (RxTail r)) ++ ring_contents r.

Lemma past_length r : ring_wf r -> len (past r) = RxTail r + RxCount r.
Proof.
  intros Hw. unfold past. rewrite len_app, len_contents by done. unfold len. rewrite repeat_length. destruct Hw as (_ & _ & ?). lia.
Qed.
Lemma past_inv m : ring_wf (r_ring m) -> ring_inv (len (r_scratch m)) (mkGhost m (past (r_ring m)) (RxTail (r_ring m))).
Proof.
  intros Hw. pose proof (RxCount_range _ Hw) as Hc. pose proof (RxCount_mod _ Hw) as Hm. pose proof (past_length _ Hw) as Hp. pose proof Hw as (Hl & Hh & Ht).
  constructor; cbn [g_ram g_hist g_read]; rewrite ?Hp; [done| | |lia| |done].
  - rewrite Hm. Z.to_euclidean_division_equations; lia.
  - by rewrite Z.mod_small.
  - intros i Hi. unfold past. rewrite lookup_app_r by (rewrite repeat_length; lia). rewrite repeat_length. unfold ring_contents.
    change (map ?f ?l) with (f <$> l). rewrite list_lookup_fmap, lookup_seqZ_lt by lia. cbn [fmap option_fmap option_map]. unfold ring_at.
    replace (RxTail (r_ring m) + (0 + Z.of_nat (Z.to_nat i - Z.to_nat (RxTail (r_ring m))))) with i by lia.
    destruct (lookup_lt_is_Some_2 (Rx (r_ring m)) (Z.to_nat (i mod 4096))) as [x ->]; [|done].
    pose proof (Z.mod_pos_bound i 4096). unfold len in Hl. lia.
Qed.

(** Every interleaving, between calls. *)
Lemma interleaving_fifo (left_first : bool) (mps tpl : Z) (m : ram) (polls : nat) (wanted : list Z)
    (c : machine (S := rams) (M := ram) (option (list Z)) (option (EFI_STATUS * list Z)))
    (Hw : ring_wf (r_ring m)) (Hs : len (r_scratch m) = mps)
    (Hreach : rtc (step access TPL_CALLBACK tpl) (start left_first mps m polls wanted) c)
    (Hp : idle (first c)) (Hr : idle (second c)) :
  exists packets kept outs, finished (first c) = map Some packets /\ finished (second c) = map Some outs
    /\ ring_wf (r_ring (memory c))
    /\ concat (map snd outs) ++ ring_contents (r_ring (memory c)) = ring_contents (r_ring m) ++ concat kept
    /\ Forall2 (fun k p => k `prefix_of` p) kept packets /\ (tpl <= TPL_CALLBACK -> kept = packets).
Proof.
  set (strict := bool_decide (tpl <= TPL_CALLBACK)). set (n0 := RxTail (r_ring m)).
  pose proof (past_inv m Hw) as Hi0. rewrite Hs in Hi0. assert (Hn0 : 0 <= n0) by (destruct Hw as (_ & _ & ?); lia).
  assert (Hinv : invariant access g_ram (reads mps strict) (writes mps) (writes mps) (reads mps false)
                   (produced mps strict (past (r_ring m))) (consumed mps n0) c).
  { eapply (reach_invariant access g_ram TPL_CALLBACK tpl (reads mps strict) (reads mps false) (writes mps) (writes mps) (writes mps) (reads mps false));
      [apply _|apply _|intros *; apply produced_stable|intros *; apply consumed_stable|done| |exact Hreach|].
    - intros s s' Hss. split; [done|]. intros Hlt. unfold strict. rewrite bool_decide_false by lia. done.
    - exists (mkGhost m (past (r_ring m)) n0). cbn [start memory first second todo]. split; [done|]. split; [|split; [|split]].
      + apply Forall_replicate, poll_fine.
      + apply Forall_map, Forall_true. intros w. apply read_fine.
      + split; [done|]. exists [], []. rewrite app_nil_r. by split_and!.
      + split; [done|]. cbn [g_read]. split; [lia|]. exists []. by rewrite Z.sub_diag. }
  destruct Hinv as (s & Hm & _ & _ & H1 & H2). unfold holds in H1, H2. unfold idle in Hp, Hr. rewrite Hp in H1. rewrite Hr in H2.
  destruct H1 as (Hi & packets & kept & Hf & Hpre & Hst & Hh). destruct H2 as (_ & Hn & outs & Hf2 & Ho).
  destruct (inv_contents _ _ Hi) as [Hwf Hc]. rewrite Hm in Hwf, Hc. exists packets, kept, outs. split_and!; [done..| |done|].
  - rewrite Ho, Hc. pose proof (inv_range _ _ Hi).
    replace (drop (Z.to_nat (g_read s)) (g_hist s)) with (drop (Z.to_nat (g_read s - n0)) (drop (Z.to_nat n0) (g_hist s)))
      by (rewrite drop_drop; f_equal; lia).
    rewrite take_drop, Hh. unfold past. by rewrite <- (assoc_L (++)), drop_app_length' by by rewrite repeat_length.
  - intros Hle. apply Hst. unfold strict. by apply bool_decide_true.
Qed.

(** C7: The ring survives preemption.  The timer callback runs at
    TPL_CALLBACK and one caller reads at any level, each interrupting the
    other between any two memory accesses where its level allows, with the
    operands of an expression loaded in either order.  Whenever both are
    between calls: no access left an array, and the bytes read followed by
    the bytes buffered are the bytes buffered at the start followed by, of
    each packet received, a prefix; and the whole packet when the reader's
    level is not above the callback's. *)
Theorem preempted_ring_fifo (left_first : bool) (mps tpl : Z) (m : ram) (polls : nat) (wanted : list Z)
    (c : machine (S := rams) (M := ram) (option (list Z)) (option (EFI_STATUS * list Z)))
    (Hw : ring_wf (r_ring m)) (Hs : len (r_scratch m) = mps)
    (Hreach : rtc (step access TPL_CALLBACK tpl) (start left_first mps m polls wanted) c)
    (Hp : idle (first c)) (Hr : idle (second c)) :
  exists packets kept outs, finished (first c) = map Some packets /\ finished (second c) = map Some outs
    /\ ring_wf (r_ring (memory c))
    /\ concat (map snd outs) ++ ring_contents (r_ring (memory c)) = ring_contents (r_ring m) ++ concat kept
    /\ Forall2 (fun k p => k `prefix_of` p) kept packets /\ (tpl <= TPL_CALLBACK -> kept = packets).
Proof. exact (interleaving_fifo left_first mps tpl m polls wanted c Hw Hs Hreach Hp Hr). Qed.

(** ** Schedules that run *)

(** [Producer n] and [Reader n]: that side makes [n] moves. *)
Inductive turn := Producer (n : nat) | Reader (n : nat).

Definition fits (c : ram_op) (ans : EFI_STATUS * (Z * list Z)) : bool :=
  match c with
  | BulkTransferIn n => (0 <=? fst (snd ans)) && (fst (snd ans) <=? len (snd (snd ans))) && (len (snd (snd ans)) <=? n)
  | _ => true
  end.
Lemma fits_spec c ans : fits c ans = true -> transfer_fits c ans.
Proof. destruct c; try done. cbn. intros Hf. b2p. lia. Qed.

Definition move {A} (ans : EFI_STATUS * (Z * list Z)) (m : ram) (k : client (S := rams) A) : option (ram * client (S := rams) A) :=
  match k with
  | mkClient (p :: ps) None done => Some (m, mkClient ps (Some p) done)
  | mkClient [] None _ => None
  | mkClient ps (Some (Ret a)) done => Some (m, mkClient ps None (done ++ [a]))
  | mkClient ps (Some (Do c q)) done =>
      if fits c ans then Some (snd (ram_do ans c m), mkClient ps (Some (q (fst (ram_do ans c m)))) done) else None
  end.
Lemma move_moves {A} ans m (k : client (S := rams) A) m' k' : move ans m k = Some (m', k') -> moves access m k m' k'.
Proof.
  assert (Hdo : forall ps c q done, (if fits c ans then Some (snd (ram_do ans c m), mkClient ps (Some (q (fst (ram_do ans c m)))) done) else None)
            = Some (m', k') -> moves access m (mkClient ps (Some (Do (S := rams) c q)) done) m' k').
  { intros ps c q done. destruct (fits c ans) eqn:Hf; [|done]. intros [= <- <-]. eapply accesses; [by eexists|]. exists ans.
    split; [by apply fits_spec|]. by destruct (ram_do ans c m). }
  destruct k as [[|p ps] [[a|c q]|] done]; cbn [move]; try apply Hdo; try done; intros [= <- <-]; constructor.
Qed.

Section schedule.
Context {A B : Type} (tpl1 tpl2 : Z) (ans : EFI_STATUS * (Z * list Z)).
Abbreviation conf := (machine (S := rams) (M := ram) A B).

Definition may {X} (tpl other : Z) (k : client (S := rams) X) : bool := match current k with None => true | Some _ => other <? tpl end.
Lemma may_spec {X} tpl other (k : client (S := rams) X) : may tpl other k = true -> idle k \/ other < tpl.
Proof. unfold may, idle. destruct (current k); [intros ?%Z.ltb_lt; by right|by left]. Qed.

Fixpoint moves1 (n : nat) (c : conf) : option conf :=
  match n with
  | O => Some c
  | S n => if may tpl1 tpl2 (second c) then '(m, k) ← move ans (memory c) (first c); moves1 n (mkMachine m k (second c)) else None
  end.
Fixpoint moves2 (n : nat) (c : conf) : option conf :=
  match n with
  | O => Some c
  | S n => if may tpl2 tpl1 (first c) then '(m, k) ← move ans (memory c) (second c); moves2 n (mkMachine m (first c) k) else None
  end.
Fixpoint play (l : list turn) (c : conf) : option conf :=
  match l with
  | [] => Some c
  | Producer n :: l => c ← moves1 n c; play l c
  | Reader n :: l => c ← moves2 n c; play l c
  end.

Lemma moves1_steps n c c' : moves1 n c = Some c' -> rtc (step access tpl1 tpl2) c c'.
Proof.
  revert c. induction n as [|n IH]; intros [m k1 k2]; cbn [moves1 second first memory]; [by intros [= <-]|].
  destruct (may tpl1 tpl2 k2) eqn:Hm; [|done]. destruct (move ans m k1) as [[m' k']|] eqn:Hv; [|done]. cbn [mbind option_bind]. intros Hn.
  eapply rtc_l; [|by apply IH]. apply step_first; [by apply may_spec|by eapply move_moves].
Qed.
Lemma moves2_steps n c c' : moves2 n c = Some c' -> rtc (step access tpl1 tpl2) c c'.
Proof.
  revert c. induction n as [|n IH]; intros [m k1 k2]; cbn [moves2 second first memory]; [by intros [= <-]|].
  destruct (may tpl2 tpl1 k1) eqn:Hm; [|done]. destruct (move ans m k2) as [[m' k']|] eqn:Hv; [|done]. cbn [mbind option_bind]. intros Hn.
  eapply rtc_l; [|by apply IH]. apply step_second; [by apply may_spec|by eapply move_moves].
Qed.
Lemma play_steps l c c' : play l c = Some c' -> rtc (step access tpl1 tpl2) c c'.
Proof.
  revert c. induction l as [|[n|n] l IH]; intros c; cbn [play]; [by intros [= <-]|..].
  - destruct (moves1 n c) as [c1|] eqn:E; [|done]. intros Hc. etransitivity; [by apply (moves1_steps n)|by apply IH].
  - destruct (moves2 n c) as [c1|] eqn:E; [|done]. intros Hc. etransitivity; [by apply (moves2_steps n)|by apply IH].
Qed.
End schedule.

(** A ring with 19 free bytes, whose unread bytes pass its end. *)
Definition nearly_full : ram := mkRam (mkRing (map (fun i => i mod 251) (seqZ 0 4096)) 4050 4070) (repeat 0 64).
Definition full_packet : EFI_STATUS * (Z * list Z) := (EFI_SUCCESS, (64, seqZ 100 64)).
(** The callback has compared head and tail; the reader then takes 26 bytes. *)
Definition inside_RxCount : list turn := [Producer 3; Reader 210; Producer 233].

Abbreviation serial_machine := (machine (S := rams) (M := ram) (option (list Z)) (option (EFI_STATUS * list Z))).
Definition idle_b {A} (k : client (S := rams) A) : bool := match current k with None => true | Some _ => false end.
Lemma idle_b_spec {A} (k : client (S := rams) A) : idle_b k = true -> idle k.
Proof. unfold idle_b, idle. by destruct (current k). Qed.

(** Both sides are between calls, 64 bytes were received, 26 read, and the
    ring is full. *)
Definition cut (c : serial_machine) : bool :=
  idle_b (first c) && idle_b (second c) && bool_decide (finished (first c) = [Some (seqZ 100 64)])
  && match finished (second c) with [Some (st, out)] => (st =? EFI_SUCCESS) && (len out =? 26) | _ => false end
  && (RxCount (r_ring (memory c)) =? 4095).
Lemma cut_reached left_first :
  cut <$> play TPL_CALLBACK TPL_NOTIFY full_packet inside_RxCount (start left_first 64 nearly_full 1 [26]) = Some true.
Proof. destruct left_first; vm_compute; reflexivity. Qed.

(** C9: The priority rule does not cover a reader above the callback.  A ring
    with less than a packet of room, on which the callback alone would not
    have polled: a Read at TPL_NOTIFY that interrupts RxCount between its
    comparison and its subtraction, and carries the tail past the end of the
    ring, makes RxFree wrap around; the callback then takes a 64-byte packet
    off the wire and stores 45 bytes of it. *)
Theorem preempted_poll_drops (left_first : bool) :
  exists c packet out,
    ring_wf (r_ring nearly_full) /\ RxFree (r_ring nearly_full) < 64
    /\ rtc (step access TPL_CALLBACK TPL_NOTIFY) (start left_first 64 nearly_full 1 [26]) c
    /\ idle (first c) /\ idle (second c)
    /\ finished (first c) = [Some packet] /\ finished (second c) = [Some (EFI_SUCCESS, out)] /\ len packet = 64
    /\ out ++ ring_contents (r_ring (memory c)) = ring_contents (r_ring nearly_full) ++ take 45 packet.
Proof.
  pose proof (cut_reached left_first) as Hc. destruct (play _ _ _ _ _) as [c|] eqn:E; [|done]. injection Hc as Hc. unfold cut in Hc.
  rewrite !andb_true_iff, bool_decide_eq_true in Hc. destruct Hc as ((((H1%idle_b_spec & H2%idle_b_spec) & H3) & H4) & H5%Z.eqb_eq).
  assert (Hw : ring_wf (r_ring nearly_full)) by (repeat split; vm_compute; (reflexivity || discriminate)).
  apply play_steps in E. destruct (interleaving_fifo _ _ _ _ _ _ _ Hw eq_refl E H1 H2) as (packets & kept & outs & Hf1 & Hf2 & Hw' & Hc & Hk & _).
  destruct (finished (second c)) as [|[[st out]|] [|]] eqn:Ho; try done. apply andb_true_iff in H4 as [->%Z.eqb_eq Hlen%Z.eqb_eq].
  destruct outs as [|[] []]; try done. injection Hf2 as <- <-. rewrite H3 in Hf1. destruct packets as [|pk []]; try done. injection Hf1 as <-.
  apply Forall2_cons_inv_r in Hk as (k & ks & Hk & Hks & ->). apply Forall2_nil_inv_r in Hks as ->. cbn [map snd concat] in Hc. rewrite !app_nil_r in Hc.
  assert (Hk45 : length k = 45%nat).
  { apply (f_equal len) in Hc. rewrite !len_app, !len_contents, Hlen, H5 in Hc by done.
    change (RxCount (r_ring nearly_full)) with 4076 in Hc. unfold len in Hc. lia. }
  exists c, (seqZ 100 64), out. split_and!; try done. rewrite Hc. f_equal. destruct Hk as [rest ->]. by rewrite take_app_length'.
Qed.

(** The callback interrupts a Read at TPL_APPLICATION that already holds the
    head it compares; the Read then returns both old bytes and the packet. *)
Definition two_bytes : ram := mkRam (mkRing (<[4094%nat := 7]> (<[4095%nat := 8]> (repeat 0 4096))) 0 4094) (repeat 0 64).
Definition small_packet : EFI_STATUS * (Z * list Z) := (EFI_SUCCESS, (3, [1; 2; 3])).
Definition inside_Read : list turn := [Reader 4; Producer 26; Reader 38].

Definition whole (c : serial_machine) : bool :=
  idle_b (first c) && idle_b (second c) && bool_decide (finished (first c) = [Some [1; 2; 3]])
  && bool_decide (finished (second c) = [Some (EFI_SUCCESS, [7; 8; 1; 2; 3])]).
Lemma whole_reached : whole <$> play TPL_CALLBACK TPL_APPLICATION small_packet inside_Read (start true 64 two_bytes 1 [5]) = Some true.
Proof. vm_compute. reflexivity. Qed.

Lemma preempted_ring_fifo_witness :
  exists c, rtc (step access TPL_CALLBACK TPL_APPLICATION) (start true 64 two_bytes 1 [5]) c
    /\ finished (second c) = [Some (EFI_SUCCESS, [7; 8; 1; 2; 3])]
    /\ exists kept, Forall2 (fun k p => k `prefix_of` p) kept [[1; 2; 3]] /\ kept = [[1; 2; 3]].
Proof.
  pose proof whole_reached as Hc. destruct (play _ _ _ _ _) as [c|] eqn:E; [|discriminate Hc]. injection Hc as Hc. unfold whole in Hc.
  rewrite !andb_true_iff, !bool_decide_eq_true in Hc. destruct Hc as (((H1%idle_b_spec & H2%idle_b_spec) & H3) & H4). apply play_steps in E.
  assert (Hw : ring_wf (r_ring two_bytes)) by (repeat split; vm_compute; (reflexivity || discriminate)).
  destruct (preempted_ring_fifo _ _ _ _ _ _ _ Hw eq_refl E H1 H2) as (packets & kept & outs & Hf1 & _ & _ & _ & Hk & Hall).
  rewrite H3 in Hf1. destruct packets as [|pk []]; [discriminate Hf1| |discriminate Hf1]. injection Hf1 as <-.
  exists c. split; [exact E|]. split; [exact H4|]. exists kept. split; [exact Hk|]. apply Hall. vm_compute. discriminate.
Defined.

(** ** Uninterrupted, the accesses are the functions *)

Definition answered (ans : EFI_STATUS * (Z * list Z)) (e : event acm) : Prop :=
  match e with
  | Ev c r => match c as c return acm_res c -> Prop with UsbBulkTransfer _ _ _ _ _ => fun r => r = ans | _ => fun _ => True end r
  end.

(** The access-level code is the code.  Run without interruption, on any
    well-formed port and whatever the transfer answers, the access-by-access
    Read and timer callback end with the memory, the bytes and the status of
    UsbCdcAcmRead and UsbCdcAcmPoll, in either order of evaluation. *)
Theorem steps_agree (left_first : bool) (d : USB_CDC_ACM_DEV) (p : Z) (b : list Z) (ans : EFI_STATUS * (Z * list Z))
    (Hw : ring_wf (Ring d)) (Hb : RxScratch d = Some (p, b)) :
  let m := mkRam (Ring d) b in
  (forall Wanted, 0 <= Wanted -> exists st out d',
     UsbCdcAcmRead d (Some Wanted) true = Some (st, Some (len out), out, d')
     /\ run_val (ram_do ans) (UsbCdcAcmRead_steps left_first Wanted) m = Some (st, out)
     /\ run_state (ram_do ans) (UsbCdcAcmRead_steps left_first Wanted) m = mkRam (Ring d') b)
  /\ (forall t d', exec (UsbCdcAcmPoll d) t (Some d') -> Forall (answered ans) t -> exists b',
        RxScratch d' = Some (p, b')
        /\ is_Some (run_val (ram_do ans) (UsbCdcAcmPoll_steps left_first (BulkInMaxPacket d)) m)
        /\ run_state (ram_do ans) (UsbCdcAcmPoll_steps left_first (BulkInMaxPacket d)) m = mkRam (Ring d') b').
Proof.
  intros m. split.
  - intros Wanted Hn. unfold UsbCdcAcmRead. cbn [negb]. destruct (ring_read (Ring d) Wanted Hw Hn) as (r' & Hr & _). rewrite Hr.
    cbn [mbind option_bind]. eexists _, _, _. split; [done|]. apply (proj1 (rwp_run _ _ m (fun v w => v = _ /\ w = _))).
    unfold UsbCdcAcmRead_steps. apply rwp_bind. pose proof (read_alone left_first ans _ m Wanted [] _ _ Hw Hr) as Ha. rewrite len_nil, Z.sub_0_r in Ha.
    eapply rwp_mono; [|exact Ha]. cbn beta. intros x m' [-> ->]. by apply rwp_ret.
  - intros t d' Hex Hans.
    cut (rwp (ram_do ans) (UsbCdcAcmPoll_steps left_first (BulkInMaxPacket d)) m
           (fun v w => exists b', RxScratch d' = Some (p, b') /\ is_Some v /\ w = mkRam (Ring d') b')).
    { rewrite rwp_run. intros (b' & H1 & H2 & H3). by exists b'. }
    unfold UsbCdcAcmPoll_steps. unfold UsbCdcAcmPoll in Hex. apply rwp_bind, RxFree_alone; [done|]. cbn [r_ring m] in *.
    destruct (RxFree (Ring d) <? BulkInMaxPacket d). { destruct Hex as [_ [= ->]]. apply rwp_ret. exists b. by rewrite Hb. }
    rewrite Hb in Hex. destruct Hex as ([st [L data]] & t' & -> & Hex). apply Forall_cons in Hans as [<- _].
    apply rwp_bind, (rwp_call (S := rams) _ (BulkTransferIn (BulkInMaxPacket d))). cbn [ram_do fst snd r_ring r_scratch m].
    cbn [mbind fw_bind] in Hex. destruct (EFI_ERROR st || (L =? 0)). { destruct Hex as [_ [= ->]]. apply rwp_ret. by exists (overwrite b (map (wrap 8) data)). }
    destruct Hex as [_ Hput]. cbn [Ring with_RxScratch] in Hput. destruct (RxPut (Ring d) _ L) as [r'|] eqn:Hr; [|done]. injection Hput as ->.
    apply rwp_bind. unfold RxPut_steps. apply rwp_bind, RxFree_alone; [done|]. cbv zeta. unfold RxPut in Hr. cbv zeta in Hr. cbn [r_ring].
    eapply rwp_mono; [|apply (put_alone _ _ (mkRam (Ring d) (overwrite b (map (wrap 8) data)))); exact Hr]. cbn beta. intros o m' [-> ->].
    apply rwp_ret. by exists (overwrite b (map (wrap 8) data)).
Qed.

(** The sample port receives a packet, then its first two bytes are read. *)
Lemma steps_agree_witness :
  run_val (ram_do small_packet) (UsbCdcAcmRead_steps false 2) (mkRam (Ring sample_port) (repeat 0 64)) = Some (EFI_TIMEOUT, [])
  /\ exists d', exec (UsbCdcAcmPoll sample_port) [Ev (S := acm) (UsbBulkTransfer 6 0x81 [] 64 1) small_packet] (Some d')
       /\ run_state (ram_do small_packet) (UsbCdcAcmPoll_steps false 64) (mkRam (Ring sample_port) (repeat 0 64))
          = mkRam (Ring d') ([1; 2; 3] ++ repeat 0 61).
Proof.
  destruct (steps_agree false sample_port 9 (repeat 0 64) small_packet) as [Hread Hpoll]; [apply sample_port_wf|reflexivity|].
  split.
  - destruct (Hread 2 ltac:(lia)) as (st & out & d' & Hr & -> & _). vm_compute in Hr. injection Hr as <- _ <- _. reflexivity.
  - assert (Hex : exists d', exec (UsbCdcAcmPoll sample_port) [Ev (S := acm) (UsbBulkTransfer 6 0x81 [] 64 1) small_packet] (Some d')
              /\ RxScratch d' = Some (9, [1; 2; 3] ++ repeat 0 61)).
    { eexists. split; [exists small_packet, []; split; [reflexivity|]; split; reflexivity|reflexivity]. }
    destruct Hex as (d' & Hex & Hsc). exists d'. split; [exact Hex|].
    destruct (Hpoll _ d' Hex) as (b' & Hb & _ & Hst); [by repeat constructor|]. rewrite Hsc in Hb. injection Hb as <-. exact Hst.
Defined.
