(* ===== verification/SerialReset.v ===== *)
(** * Reset under preemption

    UsbCdcAcmReset empties the ring with two stores, which the timer callback
    can separate: head and tail then disagree about what is buffered.  Reads
    and resets at a level up to the callback's, interrupted by it between any
    two accesses, still behave as one queue: the theorem orders their effects,
    byte by byte, into a run of the queue. *)

From S2P Require Import Prelude Services Uefi Interleave SerialIo SerialSpec SerialRace SerialRaceSpec.
From stdpp Require Import relations.
#[local] Open Scope Z_scope.

(** ** The calls of a reader *)

(** The two stores of UsbCdcAcmReset; the SetControl that follows them does
    not touch the ring. *)
Definition reset_steps : fw rams unit :=
  _ ← call (S := rams) (StoreHead 0);
  call (S := rams) (StoreTail 0).

Inductive request := Read (Wanted : Z) | Reset.
Inductive answer := Bytes (Status : EFI_STATUS) (Out : list Z) | Emptied.

Definition serve (left_first : bool) (r : request) : fw rams (option answer) :=
  match r with
  | Read Wanted => '(Status, Out) ←? UsbCdcAcmRead_steps left_first Wanted; mret (Some (Bytes Status Out))
  | Reset => _ ← reset_steps; mret (Some Emptied)
  end.

(** The timer fires [polls] times while one caller makes [requests]. *)
Definition session (left_first : bool) (mps : Z) (m : ram) (polls : nat) (requests : list request)
    : machine (S := rams) (M := ram) (option (list Z)) (option answer) :=
  mkMachine m (mkClient (replicate polls (UsbCdcAcmPoll_steps left_first mps)) None [])
              (mkClient (map (serve left_first) requests) None []).

(** ** The queue

    What a byte stored, a byte loaded and a reset do to it. *)
Inductive effect := Stored (x : Z) | Loaded (x : Z) | Cleared.

Definition queue_do (e : effect) (q : list Z) : option (list Z) :=
  match e, q with
  | Stored x, _ => Some (q ++ [x])
  | Loaded x, y :: q => if x =? y then Some q else None
  | Loaded _, [] => None
  | Cleared, _ => Some []
  end.
Fixpoint queue_run (es : list effect) (q : list Z) : option (list Z) :=
  match es with [] => Some q | e :: es => q ← queue_do e q; queue_run es q end.

(** The two sides of a run. *)
Fixpoint received (es : list effect) : list Z :=
  match es with [] => [] | Stored x :: es => x :: received es | _ :: es => received es end.
Fixpoint reader_side (es : list effect) : list effect :=
  match es with [] => [] | Stored _ :: es => reader_side es | e :: es => e :: reader_side es end.
Definition effects_of (a : answer) : list effect := match a with Bytes _ Out => map Loaded Out | Emptied => [Cleared] end.

Lemma queue_run_app es es' q : queue_run (es ++ es') q = q' ← queue_run es q; queue_run es' q'.
Proof. revert q. induction es as [|e es IH]; intros q; cbn; [done|]. destruct (queue_do e q); cbn; [apply IH|done]. Qed.
Lemma queue_run_stored d q : queue_run (map Stored d) q = Some (q ++ d).
Proof. revert q. induction d as [|x d IH]; intros q; cbn; [by rewrite app_nil_r|]. by rewrite IH, <- (assoc_L (++)). Qed.
Lemma queue_run_loaded d q : queue_run (map Loaded d) (d ++ q) = Some q.
Proof. induction d as [|x d IH]; cbn; [done|]. by rewrite Z.eqb_refl. Qed.
Lemma received_app es es' : received (es ++ es') = received es ++ received es'.
Proof. induction es as [|[] es IH]; cbn; congruence. Qed.
Lemma reader_side_app es es' : reader_side (es ++ es') = reader_side es ++ reader_side es'.
Proof. induction es as [|[] es IH]; cbn; congruence. Qed.
Lemma received_stored d : received (map Stored d) = d.
Proof. induction d; cbn; congruence. Qed.
Lemma reader_side_stored d : reader_side (map Stored d) = [].
Proof. by induction d. Qed.
Lemma received_loaded d : received (map Loaded d) = [].
Proof. by induction d. Qed.
Lemma reader_side_loaded d : reader_side (map Loaded d) = map Loaded d.
Proof. induction d; cbn; congruence. Qed.

(** ** States

    The state of the ring, the run so far, and how many bytes a half-done
    reset leaves between tail and head that are no longer in the queue. *)
Record run_state := mkRun { ring_of : ghost; effects : list effect; stale : Z }.
Abbreviation run_ram x := (g_ram (ring_of x)).
Abbreviation hist x := (g_hist (ring_of x)).
Abbreviation nread x := (g_read (ring_of x)).

Section reset.
(** A run is counted from a state with the queue [q0], where the two clients
    have finished the calls [before1] and [before2]. *)
Context (left_first : bool) (mps : Z) (q0 : list Z) (before1 : list (option (list Z))) (before2 : list (option answer)).

Definition follows (x : run_state) : Prop :=
  ring_inv mps (ring_of x) /\ 0 <= stale x <= len (hist x) - nread x
  /\ queue_run (effects x) q0 = Some (drop (Z.to_nat (nread x + stale x)) (hist x)).

(** What a poll does to the state, and what a reader's call does. *)
Definition stores_more (x x' : run_state) : Prop :=
  writes mps (ring_of x) (ring_of x') /\ stale x' = stale x
  /\ exists d, hist x' = hist x ++ d /\ effects x' = effects x ++ map Stored d.
Definition takes (x x' : run_state) : Prop := (follows x -> follows x') /\ received (effects x') = received (effects x).

#[export] Instance stores_more_preorder : PreOrder stores_more.
Proof.
  split.
  - intros x. split; [reflexivity|]. split; [done|]. exists []. by rewrite !app_nil_r.
  - intros x y z (H1 & H2 & d & H3 & H4) (K1 & K2 & d' & K3 & K4). split; [by transitivity (ring_of y)|]. split; [congruence|].
    exists (d ++ d'). by rewrite K3, K4, H3, H4, map_app, !(assoc_L (++)).
Qed.

Lemma stores_more_follows x x' : stores_more x x' -> follows x -> follows x'.
Proof.
  intros (Hw & Hs & d & Hh & He) (Hi & Hst & Hq). destruct (writes_stored _ _ _ Hw) as [_ Hn]. pose proof (inv_range _ _ Hi) as G.
  split; [by apply (writes_inv _ _ _ Hw)|]. rewrite Hs, Hn, Hh, He. split; [rewrite len_app; pose proof (len_nonneg d); lia|].
  rewrite queue_run_app, Hq. cbn [mbind option_bind]. rewrite queue_run_stored, drop_app_le by (unfold len in *; lia). done.
Qed.

(** ** The callback *)

Definition got (l : list (option (list Z))) (x : run_state) : Prop :=
  follows x /\ exists packets, l = before1 ++ map Some packets /\ received (effects x) = concat packets.
Definition gave (l : list (option answer)) (x : run_state) : Prop :=
  follows x /\ stale x = 0 /\ exists answers, l = before2 ++ map Some answers /\ reader_side (effects x) = concat (map effects_of answers).

Lemma got_stable l x x' : takes x x' -> got l x -> got l x'.
Proof. intros [Hf Hr] (Hx & pk & Hl & Hp). split; [by apply Hf|]. exists pk. by rewrite Hr. Qed.
Lemma gave_stable l x x' : stores_more x x' -> gave l x -> gave l x'.
Proof.
  intros Hs (Hx & H0 & an & Hl & Ha). split; [by apply (stores_more_follows x)|]. destruct Hs as (_ & Hs & d & _ & He).
  split; [congruence|]. exists an. by rewrite He, reader_side_app, reader_side_stored, app_nil_r.
Qed.

(** Not interrupted, a poll adds its packet. *)
Lemma poll_run : fine access (fun x => run_ram x) eq stores_more got (UsbCdcAcmPoll_steps left_first mps).
Proof.
  intros l x (Hx & pk & -> & Hp). eapply rg_mono; cycle 1.
  - apply (rg_lift access g_ram ring_of (reads mps true) (writes mps) eq stores_more (stores_more x) _ x
             (fun r s => exists pkt, r = Some pkt /\ g_hist s = hist x ++ pkt)); [| |reflexivity|].
    + intros y y' HT <-. split; [reflexivity|done].
    + intros y s HT Hw. pose proof Hw as (_ & _ & d & Hd). exists (mkRun s (effects y ++ map Stored d) (stale y)). split; [done|].
      assert (Hy : stores_more y (mkRun s (effects y ++ map Stored d) (stale y))) by (split; [done|]; split; [done|]; by exists d).
      split; [done|]. by transitivity y.
    + apply poll_prod; [apply Hx|]. intros s' pkt st _ Hh _ Hst. exists pkt. split; [done|]. by rewrite Hh, Hst.
  - intros r x' [(pkt & -> & Hh) HT]. split; [by apply (stores_more_follows x)|]. exists (pk ++ [pkt]). split; [by rewrite map_app, (assoc_L (++))|].
    destruct HT as (_ & _ & d & Hh' & He). rewrite Hh in Hh'. apply app_inv_head in Hh' as <-.
    rewrite He, received_app, received_stored, Hp, concat_app. cbn [concat]. by rewrite app_nil_r.
Qed.

(** ** Reading *)

(** What a Read has done since [x]. *)
Definition reading (x y : run_state) : Prop :=
  follows y /\ stale y = 0 /\ nread x <= nread y /\ hist x `prefix_of` hist y
  /\ reader_side (effects y) = reader_side (effects x) ++ map Loaded (take (Z.to_nat (nread y - nread x)) (drop (Z.to_nat (nread x)) (hist y))).

Lemma reading_refl x : follows x -> stale x = 0 -> reading x x.
Proof. intros Hx H0. split_and!; [done|done|lia|done|]. by rewrite Z.sub_diag, app_nil_r. Qed.

Lemma reading_stores x y y' : follows x -> reading x y -> stores_more y y' -> reading x y'.
Proof.
  intros Hx (Hy & H0 & Hn & Hp & Hr) Hs. pose proof (stores_more_follows _ _ Hs Hy) as Hy'.
  pose proof (inv_range _ _ (proj1 Hx)) as G. pose proof (inv_range _ _ (proj1 Hy)) as Gy.
  destruct Hs as (Hw & Hs & d & Hh & He). destruct (writes_stored _ _ _ Hw) as [_ Hn'].
  split_and!; [done|congruence|lia|rewrite Hh; by apply prefix_app_r|].
  rewrite He, reader_side_app, reader_side_stored, app_nil_r, Hr, Hn', Hh. do 2 f_equal.
  destruct Hp as [e He']. rewrite He' in *. unfold len in *. rewrite length_app in *.
  rewrite (drop_app_le _ d) by (rewrite length_app; lia). rewrite take_app_le by (rewrite length_drop, length_app; lia). done.
Qed.

(** A step of the reader is bytes loaded. *)
Lemma reading_takes x y s :
  follows x -> reading x y -> reads mps false (ring_of y) s -> exists y', ring_of y' = s /\ takes y y' /\ reading x y'.
Proof.
  intros Hx (Hy & H0 & Hn & Hp & Hr) Hs. pose proof (inv_range _ _ (proj1 Hx)) as Gx. pose proof (reads_inv _ _ _ _ Hs (proj1 Hy)) as Hi. pose proof (inv_range _ _ Hi) as G.
  pose proof Hs as (_ & Hh & _ & _ & Hle & _). pose proof (inv_range _ _ (proj1 Hy)) as Gy. rewrite Hh in G.
  set (d := take (Z.to_nat (g_read s - nread y)) (drop (Z.to_nat (nread y)) (hist y))).
  assert (Hd : drop (Z.to_nat (nread y)) (hist y) = d ++ drop (Z.to_nat (g_read s)) (hist y)).
  { subst d. rewrite <- (take_drop (Z.to_nat (g_read s - nread y)) (drop (Z.to_nat (nread y)) (hist y))) at 1. rewrite drop_drop. do 2 f_equal. lia. }
  set (y' := mkRun s (effects y ++ map Loaded d) 0).
  assert (Hf : follows y').
  { split; [done|]. split; [cbn; rewrite Hh; lia|]. cbn [y' effects ring_of stale]. destruct Hy as (_ & _ & Hq). rewrite H0, !Z.add_0_r in *.
    rewrite queue_run_app, Hq. cbn [mbind option_bind]. by rewrite Hd, queue_run_loaded, Hh. }
  exists y'. split; [done|]. split; [split; [done|]; cbn; by rewrite received_app, received_loaded, app_nil_r|].
  split_and!; [done|done|cbn; lia|cbn; by rewrite Hh|]. cbn [y' effects ring_of].
  rewrite reader_side_app, reader_side_loaded, Hr, <- (assoc_L (++)), <- map_app, Hh. do 2 f_equal. subst d.
  replace (Z.to_nat (g_read s - nread x)) with (Z.to_nat (nread y - nread x) + Z.to_nat (g_read s - nread y))%nat by lia.
  rewrite <- take_take_drop, drop_drop. do 3 f_equal. lia.
Qed.

Lemma read_run Wanted : fine access (fun x => run_ram x) stores_more takes gave (serve left_first (Read Wanted)).
Proof.
  intros l x (Hx & H0 & an & -> & Ha). cbn [serve]. unfold UsbCdcAcmRead_steps. apply rg_bind; [apply _|]. apply rg_bind; [apply _|]. eapply rg_mono; cycle 1.
  - apply (rg_lift access g_ram ring_of (writes mps) (reads mps false) stores_more takes (reading x) _ x
             (fun r s => exists k, r = Some (take k (drop (Z.to_nat (nread x)) (g_hist s))) /\ g_read s = nread x + Z.of_nat k)).
    + intros y y' HT Hs. split; [apply Hs|by apply (reading_stores x y)].
    + intros y s HT Hs. by apply reading_takes.
    + by apply reading_refl.
    + apply read_cons; [apply Hx|]. intros k s' _ _ Hn _. by exists k.
  - intros r x1 [(k & -> & Hk) HT]. cbn [obind]. apply rg_ret. intros x2 Hs. apply (reading_stores x) in Hs as HT2; [|done..].
    assert (Ho : reader_side (effects x2) = concat (map effects_of an) ++ map Loaded (take k (drop (Z.to_nat (nread x)) (hist x1)))).
    { destruct HT as (_ & _ & _ & _ & HT). rewrite Hk in HT. replace (Z.to_nat (nread x + Z.of_nat k - nread x)) with k in HT by lia.
      destruct Hs as (_ & _ & d & _ & He). by rewrite He, reader_side_app, reader_side_stored, app_nil_r, HT, Ha. }
    cbv beta iota. apply rg_ret. intros x3 Hs3. apply (gave_stable _ x2); [done|]. destruct HT2 as (Hf & H2 & _).
    split; [done|]. split; [done|]. eexists (an ++ [_]). split; [by rewrite map_app, (assoc_L (++))|].
    rewrite map_app, concat_app. cbn [map concat effects_of]. by rewrite app_nil_r.
Qed.

(** ** Resetting *)

(** The first store: everything is dropped, and what lies between tail and
    the new head is stale. *)
Definition half_reset (x : run_state) : run_state :=
  let m := with_head (run_ram x) 0 in
  mkRun (mkGhost m (past (r_ring m)) (RxTail (r_ring m))) (effects x ++ [Cleared]) (RxCount (r_ring m)).
(** The second store: the stale bytes count as read. *)
Definition whole_reset (x : run_state) : run_state :=
  mkRun (mkGhost (with_tail (run_ram x) 0) (hist x) (nread x + stale x)) (effects x) 0.
Definition at_lap (x : run_state) : Prop := (nread x + stale x) mod 4096 = 0.

Lemma half_reset_follows x : follows x -> follows (half_reset x) /\ at_lap (half_reset x).
Proof.
  intros (Hi & _ & Hq). destruct (inv_contents _ _ Hi) as [Hw _]. set (m := with_head (run_ram x) 0).
  assert (Hw' : ring_wf (r_ring m)) by (destruct Hw as (? & ? & ?); split_and!; (done || cbn; lia)).
  pose proof (past_inv m Hw') as Hp. pose proof (past_length _ Hw') as Hl. pose proof (RxCount_range _ Hw') as Hc. pose proof (RxCount_mod _ Hw') as Hm.
  rewrite (inv_scratch _ _ Hi : len (r_scratch m) = mps) in Hp. split; [split; [done|]|].
  - unfold half_reset. cbv zeta. fold m. cbn [stale effects ring_of g_hist g_read]. split; [lia|]. rewrite queue_run_app, Hq. cbn [mbind option_bind queue_run queue_do]. f_equal. symmetry. apply drop_ge. unfold len in *. lia.
  - unfold at_lap, half_reset. cbv zeta. fold m. cbn [stale ring_of g_read]. rewrite Hm. cbn [m with_head r_ring RxHead RxTail]. Z.to_euclidean_division_equations; lia.
Qed.
Lemma whole_reset_follows x : follows x -> at_lap x -> follows (whole_reset x).
Proof.
  intros (Hi & Hs & Hq) Hl. pose proof (inv_range _ _ Hi) as G. split; [|split; cbn; [lia|by rewrite Z.add_0_r]].
  constructor; cbn; try apply Hi; [by rewrite Hl|lia|]. intros i Hr. apply (inv_slot _ _ Hi). lia.
Qed.

(** What is left of a reset after its first store. *)
Lemma reset_rest l an x :
  follows x -> at_lap x -> l ++ [Some Emptied] = before2 ++ map Some an -> reader_side (effects x) = concat (map effects_of an) ->
  rg access (fun x => run_ram x) stores_more takes (_ ← call (S := rams) (StoreTail 0); mret (Some Emptied)) x (fun a s => gave (l ++ [a]) s).
Proof.
  intros Hx Hl Han Ha. apply rg_bind; [apply _|]. apply rg_call.
  intros x3 r m3 H3 (a' & _ & [= <- <-]). pose proof (stores_more_follows _ _ H3 Hx) as Hx3. pose proof H3 as (Hw & Hs & d & _ & He).
  assert (Hl3 : at_lap x3) by (unfold at_lap; rewrite Hs, (proj2 (writes_stored _ _ _ Hw)); exact Hl).
  pose proof (whole_reset_follows _ Hx3 Hl3) as Hf. exists (whole_reset x3). split; [done|]. split; [by split|].
  intros x4 H4. apply rg_ret. intros x5 H5. assert (R : stores_more (whole_reset x3) x5) by by transitivity x4. apply (gave_stable _ _ _ R).
  split; [done|]. split; [done|]. exists an. split; [done|]. cbn [whole_reset effects].
  by rewrite He, reader_side_app, reader_side_stored, app_nil_r.
Qed.

Lemma reset_run : fine access (fun x => run_ram x) stores_more takes gave (serve left_first Reset).
Proof.
  intros l x (Hx & H0 & an & -> & Ha). change (serve left_first Reset) with (_ ← call (S := rams) (StoreHead 0); _ ← call (S := rams) (StoreTail 0); mret (Some Emptied)).
  apply rg_bind; [apply _|]. apply rg_call.
  intros x1 r m1 H1 (a & _ & [= <- <-]). pose proof (stores_more_follows _ _ H1 Hx) as Hx1. destruct (half_reset_follows _ Hx1) as [Hh Hl].
  exists (half_reset x1). split; [done|]. split; [split; [done|]; cbn; by rewrite received_app, app_nil_r|].
  intros x2 H2. apply (rg_stable access (fun x => run_ram x) _ _ _ _ _ _ H2). apply (reset_rest _ (an ++ [Emptied])); [done|done|by rewrite map_app, (assoc_L (++))|].
  destruct H1 as (_ & _ & d1 & _ & He1). cbn [half_reset effects].
  rewrite He1, !reader_side_app, !reader_side_stored, !app_nil_r, Ha, map_app, concat_app. done.
Qed.
End reset.

(** ** Every interleaving *)

Abbreviation serial_machine := (machine (S := rams) (M := ram) (option (list Z)) (option answer)).

Section runs.
Context (left_first : bool) (mps tpl : Z) (Htpl : tpl <= TPL_CALLBACK).
Abbreviation steps := (rtc (step access TPL_CALLBACK tpl)).

(** The calls still to be made are the driver's. *)
Definition serving (c : serial_machine) : Prop :=
  Forall (eq (UsbCdcAcmPoll_steps left_first mps)) (todo (first c)) /\ Forall (fun p => exists r, p = serve left_first r) (todo (second c)).

Lemma moves_todo {A} m (k : client (S := rams) A) m' k' (P : fw rams A -> Prop) :
  moves access m k m' k' -> Forall P (todo k) -> Forall P (todo k').
Proof. intros [] Ht; [by apply Forall_cons in Ht as [_ Ht]|done|done]. Qed.
Lemma steps_serving c c' : steps c c' -> serving c -> serving c'.
Proof.
  induction 1 as [|c c1 c' Hst _ IH]; [done|]. intros [H1 H2]. apply IH.
  destruct Hst as [m k1 k2 m' k1' _ Hm|m k1 k2 m' k2' _ Hm]; (split; [|]); cbn [first second] in *; by eauto using moves_todo.
Qed.

(** From any state of the ring and the run so far, the rest of the run is a
    run of the queue. *)
Lemma runs_queue q0 b1 b2 x c c' :
  serving c -> run_ram x = memory c ->
  holds access (fun x => run_ram x) eq (stores_more mps) (got mps q0 b1) (first c) x ->
  holds access (fun x => run_ram x) (stores_more mps) (takes mps q0) (gave mps q0 b2) (second c) x ->
  steps c c' -> idle (first c') ->
  exists x', run_ram x' = memory c' /\ got mps q0 b1 (finished (first c')) x'
    /\ (idle (second c') -> gave mps q0 b2 (finished (second c')) x').
Proof.
  intros [Ht1 Ht2] Hm H1 H2 Hreach Hp.
  assert (Hinv : invariant access (fun x => run_ram x) eq (stores_more mps) (stores_more mps) (takes mps q0) (got mps q0 b1) (gave mps q0 b2) c').
  { eapply (reach_invariant access (fun x => run_ram x) TPL_CALLBACK tpl eq (takes mps q0) (stores_more mps) (stores_more mps) (stores_more mps) (takes mps q0));
      [apply _|apply _|intros *; apply got_stable|intros *; apply gave_stable|done|intros s s' Hss; split; [done|lia]|exact Hreach|].
    exists x. split_and!; [done| | |done|done].
    - eapply Forall_impl; [exact Ht1|]. intros p <-. apply poll_run.
    - eapply Forall_impl; [exact Ht2|]. intros p [[w|] ->]; [apply read_run|apply reset_run]. }
  destruct Hinv as (x' & Hx' & _ & _ & K1 & K2). exists x'. split; [done|]. unfold holds in K1, K2. unfold idle in *. rewrite Hp in K1.
  split; [exact K1|]. intros Hr. by rewrite Hr in K2.
Qed.

Lemma idle_queue q0 b1 b2 x (c : serial_machine) :
  run_ram x = memory c -> got mps q0 b1 (finished (first c)) x -> gave mps q0 b2 (finished (second c)) x ->
  exists packets answers es, finished (first c) = b1 ++ map Some packets /\ finished (second c) = b2 ++ map Some answers
    /\ ring_wf (r_ring (memory c)) /\ queue_run es q0 = Some (ring_contents (r_ring (memory c)))
    /\ received es = concat packets /\ reader_side es = concat (map effects_of answers).
Proof.
  intros Hm ((Hi & _ & Hq) & packets & Hf1 & Hp1) (_ & H0 & answers & Hf2 & Ha). destruct (inv_contents _ _ Hi) as [Hwf Hc].
  rewrite Hm in Hwf, Hc. rewrite H0, Z.add_0_r in Hq. exists packets, answers, (effects x). split_and!; try done. by rewrite Hc.
Qed.

(** The states a session starts from. *)
Lemma start_follows m : ring_wf (r_ring m) -> len (r_scratch m) = mps ->
  follows mps (ring_contents (r_ring m)) (mkRun (mkGhost m (past (r_ring m)) (RxTail (r_ring m))) [] 0).
Proof.
  intros Hw Hs. pose proof (past_inv m Hw) as Hi. rewrite Hs in Hi. split; [done|]. pose proof (inv_range _ _ Hi) as G. cbn in G |- *.
  split; [lia|]. rewrite Z.add_0_r. f_equal. unfold past. by rewrite drop_app_length' by by rewrite repeat_length.
Qed.

(** The first store of a reset starts a run from the empty queue. *)
Lemma first_store m : ring_wf (r_ring m) -> len (r_scratch m) = mps ->
  exists y, run_ram y = with_head m 0 /\ follows mps [] y /\ at_lap y /\ effects y = [].
Proof.
  intros Hw Hs. destruct (half_reset_follows mps _ _ (start_follows m Hw Hs)) as [(Hi & Hst & Hq) Hl].
  set (x := half_reset _) in *. exists (mkRun (ring_of x) [] (stale x)). split; [done|]. split; [|done]. split; [done|]. split; [done|].
  exact Hq.
Qed.
End runs.

(** C8: Reads and resets interrupted by the callback act on one queue.  One
    caller at a level up to TPL_CALLBACK reads and resets, and the callback
    interrupts it between any two accesses, also between the two stores of a
    reset.  Whenever both are between calls, the bytes the callback received
    and the calls' answers are the two sides of one run of a queue, in order,
    from the bytes buffered at the start to those buffered now: every byte
    stored is appended, and every byte read is the oldest.  A reset drops what
    was stored before its first store and nothing after it: whatever run led
    to that store, the packets received and the calls made since are a run of
    the queue that starts empty at that very access. *)
Theorem preempted_reset (left_first : bool) (mps tpl : Z) (m : ram) (polls : nat) (requests : list request)
    (c : machine (S := rams) (M := ram) (option (list Z)) (option answer))
    (Hw : ring_wf (r_ring m)) (Hs : len (r_scratch m) = mps) (Htpl : tpl <= TPL_CALLBACK)
    (Hreach : rtc (step access TPL_CALLBACK tpl) (session left_first mps m polls requests) c)
    (Hp : idle (first c)) (Hr : idle (second c)) :
  (exists packets answers es, finished (first c) = map Some packets /\ finished (second c) = map Some answers
    /\ ring_wf (r_ring (memory c))
    /\ queue_run es (ring_contents (r_ring m)) = Some (ring_contents (r_ring (memory c)))
    /\ received es = concat packets /\ reader_side es = concat (map effects_of answers))
  /\ (forall c1 m2 k2,
        rtc (step access TPL_CALLBACK tpl) (session left_first mps m polls requests) c1 ->
        current (second c1) = Some (serve left_first Reset) -> idle (first c1) -> moves access (memory c1) (second c1) m2 k2 ->
        rtc (step access TPL_CALLBACK tpl) (mkMachine m2 (first c1) k2) c ->
        exists packets answers es, finished (first c) = finished (first c1) ++ map Some packets
          /\ finished (second c) = (finished (second c1) ++ [Some Emptied]) ++ map Some answers
          /\ queue_run es [] = Some (ring_contents (r_ring (memory c)))
          /\ received es = concat packets /\ reader_side es = concat (map effects_of answers)).
Proof.
  set (s0 := session left_first mps m polls requests) in *. set (x0 := mkRun (mkGhost m (past (r_ring m)) (RxTail (r_ring m))) [] 0).
  assert (Hserv : serving left_first mps s0).
  { split; [by apply Forall_replicate|]. apply Forall_map, Forall_true. intros r. by exists r. }
  assert (Hf : follows mps (ring_contents (r_ring m)) x0) by by apply start_follows.
  assert (Hrun : forall c', rtc (step access TPL_CALLBACK tpl) s0 c' -> idle (first c') -> exists x', run_ram x' = memory c'
    /\ got mps (ring_contents (r_ring m)) [] (finished (first c')) x'
    /\ (idle (second c') -> gave mps (ring_contents (r_ring m)) [] (finished (second c')) x')).
  { intros c' Hc' Hi. apply (runs_queue left_first mps tpl Htpl _ [] [] x0 s0); try done; [split; [done|by exists []]|split; [done|split; [done|by exists []]]]. }
  split.
  - destruct (Hrun c Hreach Hp) as (x & Hm & Hg & Hv). apply (idle_queue mps _ [] [] x c Hm Hg (Hv Hr)).
  - intros c1 m2 k2 H1 Hcur Hi1 Hmv H2. destruct (Hrun c1 H1 Hi1) as (x1 & Hm1 & [Hx1 _] & _).
    pose proof (steps_serving _ _ _ _ _ H1 Hserv) as Hserv1. destruct c1 as [m1 k1 [todo1 cur1 fin1]]. cbn [memory first second current finished todo] in *. subst cur1.
    destruct (first_store mps m1) as (y & Hym & Hyf & Hyl & Hye);
      [rewrite <- Hm1; apply (inv_contents _ _ (proj1 Hx1))|rewrite <- Hm1; apply (inv_scratch _ _ (proj1 Hx1))|].
    clear Hm1 Hx1. inversion Hmv as [|ps p e p' m' dn Ha He|]; subst. destruct Ha as (r & -> & ->). destruct He as (ans & _ & [= <- <-]).
    destruct (runs_queue left_first (len (r_scratch m)) tpl Htpl [] (finished k1) (fin1 ++ [Some Emptied]) y
      (mkMachine (with_head m1 0) k1 (mkClient todo1 (Some (_ ← call (S := rams) (StoreTail 0); mret (Some Emptied))) fin1)) c) as (x' & Hx' & Hg & Hv); try done.
    + unfold holds. unfold idle in Hi1. cbn [first]. rewrite Hi1. split; [done|]. exists []. by rewrite app_nil_r, Hye.
    + apply (reset_rest _ _ _ _ []); [done|done|by rewrite app_nil_r|by rewrite Hye].
    + destruct (idle_queue _ _ _ _ x' c Hx' Hg (Hv Hr)) as (packets & answers & es & E1 & E2 & _ & E3 & E4 & E5). by exists packets, answers, es.
Qed.

(** The callback fires between the two stores of a reset; the packet survives,
    the two bytes buffered before do not. *)
Definition begun : serial_machine :=
  mkMachine two_bytes (mkClient [UsbCdcAcmPoll_steps true 64] None []) (mkClient [serve true (Read 5)] (Some (serve true Reset)) []).
Definition half_done : client (S := rams) (option answer) :=
  mkClient [serve true (Read 5)] (Some (_ ← call (S := rams) (StoreTail 0); mret (Some Emptied))) [].
Definition inside_Reset : list turn := [Producer 26; Reader 32].
Definition emptied (c : serial_machine) : bool :=
  idle_b (first c) && idle_b (second c) && bool_decide (finished (first c) = [Some [1; 2; 3]])
  && match finished (second c) with [Some Emptied; Some (Bytes st out)] => (st =? EFI_TIMEOUT) && bool_decide (out = [1; 2; 3]) | _ => false end.
Lemma emptied_reached :
  emptied <$> play TPL_CALLBACK TPL_APPLICATION small_packet inside_Reset (mkMachine (with_head two_bytes 0) (first begun) half_done) = Some true.
Proof. vm_compute. reflexivity. Qed.
Lemma begun_reached : rtc (step access TPL_CALLBACK TPL_APPLICATION) (session true 64 two_bytes 1 [Reset; Read 5]) begun.
Proof. apply rtc_once. apply step_second; [by left|]. apply begins. Qed.
Lemma begun_stores : moves access two_bytes (second begun) (with_head two_bytes 0) half_done.
Proof. eapply accesses; [by exists tt|]. by exists (0, (0, [])). Qed.

Lemma preempted_reset_witness :
  exists c packets answers es, rtc (step access TPL_CALLBACK TPL_APPLICATION) (session true 64 two_bytes 1 [Reset; Read 5]) c
    /\ ring_contents (r_ring two_bytes) = [7; 8] /\ finished (first c) = map Some packets /\ concat packets = [1; 2; 3]
    /\ finished (second c) = Some Emptied :: map Some answers
    /\ queue_run es [] = Some (ring_contents (r_ring (memory c))) /\ received es = concat packets /\ reader_side es = [Loaded 1; Loaded 2; Loaded 3].
Proof.
  pose proof emptied_reached as Hc. destruct (play _ _ _ _ _) as [c|] eqn:E; [|discriminate Hc]. injection Hc as Hc. unfold emptied in Hc.
  rewrite !andb_true_iff in Hc. destruct Hc as (((H1%idle_b_spec & H2%idle_b_spec) & H3%bool_decide_eq_true) & H4). apply play_steps in E.
  assert (Hw : ring_wf (r_ring two_bytes)) by (repeat split; vm_compute; (reflexivity || discriminate)).
  assert (Hr : rtc (step access TPL_CALLBACK TPL_APPLICATION) (session true 64 two_bytes 1 [Reset; Read 5]) c).
  { etransitivity; [apply begun_reached|]. eapply rtc_l; [|exact E]. apply step_second; [by left|]. exact begun_stores. }
  destruct (preempted_reset true 64 TPL_APPLICATION two_bytes 1 [Reset; Read 5] c Hw eq_refl ltac:(vm_compute; discriminate) Hr H1 H2) as [_ Hreset].
  destruct (Hreset begun _ _ begun_reached eq_refl eq_refl begun_stores E) as (packets & answers & es & Hf1 & Hf2 & Hq & Hrec & Hrd).
  exists c, packets, answers, es. cbn [begun first second finished app] in Hf1, Hf2. split; [exact Hr|]. split; [reflexivity|]. split; [exact Hf1|].
  rewrite Hf1 in H3. rewrite Hf2 in H4. destruct packets as [|pk [|]]; try discriminate H3. injection H3 as ->.
  destruct answers as [|[st out|] [|]]; try discriminate H4. cbn [map] in H4. apply andb_true_iff in H4 as [_ ->%bool_decide_eq_true].
  split; [reflexivity|]. split; [exact Hf2|]. split; [exact Hq|]. split; [exact Hrec|exact Hrd].
Defined.
