(* ===== verification/SerialDriver.v ===== *)
(** * Binding the CDC-ACM driver (UsbCdcAcmDxe.c, and the installation part
    of SerialIo.c)

    Finding the data interface and endpoints of the ACM function, publishing
    the serial port on a child handle, and taking both down again. *)

From S2P Require Import Prelude Services Uefi SerialIo.

(** ** Constants *)

Definition USB_CDC_CLASS : Z := 0x02.
Definition USB_CDC_ACM_SUBCLASS : Z := 0x02.
Definition USB_CDC_DATA_CLASS : Z := 0x0A.
Definition USB_ENDPOINT_TYPE_MASK : Z := 0x03.
Definition USB_ENDPOINT_BULK : Z := 0x02.
Definition USB_ENDPOINT_DIR_IN : Z := 0x80.

(** ** Publishing the port (SerialIo.c) *)

(** BaudRate, DataBits, Parity and StopBits of UART_DEVICE_PATH, after its
    reserved field. *)
Definition uart_node : dp_node :=
  mkNode MESSAGING_DEVICE_PATH MSG_UART_DP
    (le_split 4 0 ++ le_split 8 ACM_DEFAULT_BAUD_RATE ++ [ACM_DEFAULT_DATA_BITS; 1; 1]).

Definition default_mode (m : EFI_SERIAL_IO_MODE) : EFI_SERIAL_IO_MODE :=
  mkMode (Z.lor (Z.lor (Z.lor EFI_SERIAL_INPUT_BUFFER_EMPTY EFI_SERIAL_OUTPUT_BUFFER_EMPTY)
                       EFI_SERIAL_DATA_TERMINAL_READY) EFI_SERIAL_REQUEST_TO_SEND)
         ACM_DEFAULT_TIMEOUT ACM_DEFAULT_BAUD_RATE USB_CDC_ACM_RX_FIFO_SIZE ACM_DEFAULT_DATA_BITS
         NoParity OneStopBit.

(** The two error exits: ErrorUninstall, and ErrorCloseChild that falls
    through into it. *)
Definition install_error_uninstall (d : USB_CDC_ACM_DEV) (Status : EFI_STATUS)
    : fw acm (EFI_STATUS * USB_CDC_ACM_DEV) :=
  _ ← call_ (S := acm) (UninstallMultipleProtocolInterfaces (ChildHandle d) (DevicePath d));
  _ ← match DevicePath d with Some p => call_ (S := acm) (FreePool p) | None => mret tt end;
  mret (Status, with_child d (ChildHandle d) None (PollEvent d)).

Definition install_error_close_child (d : USB_CDC_ACM_DEV) (Status : EFI_STATUS)
    : fw acm (EFI_STATUS * USB_CDC_ACM_DEV) :=
  _ ← call_ (S := acm) (CloseProtocol (ControllerHandle d) (DriverBindingHandle d) (ChildHandle d));
  install_error_uninstall d Status.

Definition UsbCdcAcmInstallSerialIo (d : USB_CDC_ACM_DEV) : fw acm (EFI_STATUS * USB_CDC_ACM_DEV) :=
  let d := with_SerialMode d (default_mode (SerialMode d)) in
  '(Status, ParentPath) ← call (S := acm) (GetDevicePath (ControllerHandle d));
  if EFI_ERROR Status then mret (Status, d)
  else
    Path ← call (S := acm) (AppendDevicePathNode ParentPath uart_node);
    match Path with
    | None => mret (EFI_OUT_OF_RESOURCES, with_child d (ChildHandle d) None (PollEvent d))
    | Some Path =>
        let d := with_child d (ChildHandle d) (Some Path) (PollEvent d) in
        '(Status, Child) ← call (S := acm) (InstallMultipleProtocolInterfaces (ChildHandle d) (DevicePath d));
        if EFI_ERROR Status then
          _ ← call_ (S := acm) (FreePool Path);
          mret (Status, with_child d (ChildHandle d) None (PollEvent d))
        else
          let d := with_child d (Some Child) (DevicePath d) (PollEvent d) in
          '(Status, UsbIo) ← call (S := acm)
              (OpenProtocol (ControllerHandle d) UsbIoProtocol (DriverBindingHandle d) (ChildHandle d) BY_CHILD_CONTROLLER);
          if EFI_ERROR Status then install_error_uninstall d Status
          else
            let d := with_CtrlUsbIo d UsbIo in
            '(Status, Event) ← call (S := acm) CreateEvent;
            if EFI_ERROR Status then install_error_close_child d Status
            else
              let d := with_child d (ChildHandle d) (DevicePath d) (Some Event) in
              Status ← call (S := acm) (SetTimer Event TimerPeriodic USB_CDC_ACM_POLL_INTERVAL);
              if EFI_ERROR Status then
                _ ← call_ (S := acm) (CloseEvent Event);
                install_error_close_child (with_child d (ChildHandle d) (DevicePath d) None) Status
              else
                '(_, d) ← UsbCdcAcmSetControl d (Z.lor EFI_SERIAL_DATA_TERMINAL_READY EFI_SERIAL_REQUEST_TO_SEND);
                mret (EFI_SUCCESS, d)
    end.

Definition UsbCdcAcmUninstallSerialIo (d : USB_CDC_ACM_DEV) : fw acm (EFI_STATUS * USB_CDC_ACM_DEV) :=
  d ← match PollEvent d with
      | Some Event =>
          _ ← call_ (S := acm) (SetTimer Event TimerCancel 0);
          _ ← call_ (S := acm) (CloseEvent Event);
          mret (with_child d (ChildHandle d) (DevicePath d) None)
      | None => mret d
      end;
  _ ← call_ (S := acm) (CloseProtocol (ControllerHandle d) (DriverBindingHandle d) (ChildHandle d));
  Status ← call (S := acm) (UninstallMultipleProtocolInterfaces (ChildHandle d) (DevicePath d));
  if EFI_ERROR Status then
    '(St, UsbIo) ← call (S := acm)
        (OpenProtocol (ControllerHandle d) UsbIoProtocol (DriverBindingHandle d) (ChildHandle d) BY_CHILD_CONTROLLER);
    let d := if EFI_ERROR St then d else with_CtrlUsbIo d UsbIo in
    '(St, Event) ← call (S := acm) CreateEvent;
    if EFI_ERROR St then mret (Status, d)
    else
      _ ← call_ (S := acm) (SetTimer Event TimerPeriodic USB_CDC_ACM_POLL_INTERVAL);
      mret (Status, with_child d (ChildHandle d) (DevicePath d) (Some Event))
  else mret (EFI_SUCCESS, d).

(** ** Finding the function's interfaces and endpoints *)

Definition IsAcmControlInterface (UsbIo : Z) : fw acm bool :=
  '(Status, Desc) ← call (S := acm) (UsbGetInterfaceDescriptor UsbIo);
  mret (if EFI_ERROR Status then false
        else (InterfaceClass Desc =? USB_CDC_CLASS) && (InterfaceSubClass Desc =? USB_CDC_ACM_SUBCLASS)).

(** A path in memory: its nodes and the end node. *)
Definition path_bytes (p : list dp_node) : list Z := concat (map node_bytes p) ++ [0x7f; 0xff; 4; 0].

Definition DevicePathPrefixSize (p : list dp_node) : Z * option dp_node :=
  match last p with
  | None => (0, None)
  | Some l => (len (concat (map node_bytes (removelast p))), Some l)
  end.

(** CompareMem over the first [n] bytes; [true] is equal. *)
Definition same_prefix (n : Z) (a b : list dp_node) : bool :=
  bool_decide (take (Z.to_nat n) (path_bytes a) = take (Z.to_nat n) (path_bytes b)).

(** The search loop; the answer is the data interface's handle and UsbIo. *)
Fixpoint find_data_loop (d : USB_CDC_ACM_DEV) (CtrlPath : list dp_node) (CtrlPrefix : Z) (Handles : list Z)
    : fw acm (option (Z * Z)) :=
  match Handles with
  | [] => mret None
  | h :: Handles =>
      if h =? ControllerHandle d then find_data_loop d CtrlPath CtrlPrefix Handles
      else
        '(Status, CandPath) ← call (S := acm) (GetDevicePath h);
        if EFI_ERROR Status then find_data_loop d CtrlPath CtrlPrefix Handles
        else
          let '(CandPrefix, CandLast) := DevicePathPrefixSize CandPath in
          if negb (CandPrefix =? CtrlPrefix) then find_data_loop d CtrlPath CtrlPrefix Handles
          else
            match CandLast with
            | None => find_data_loop d CtrlPath CtrlPrefix Handles
            | Some CandLast =>
                if negb (same_prefix CtrlPrefix CandPath CtrlPath)
                then find_data_loop d CtrlPath CtrlPrefix Handles
                else if negb (dp_type CandLast =? MESSAGING_DEVICE_PATH)
                        || negb (dp_subtype CandLast =? MSG_USB_DP)
                then find_data_loop d CtrlPath CtrlPrefix Handles
                else
                  '(Status, UsbIo) ← call (S := acm)
                      (OpenProtocol h UsbIoProtocol (DriverBindingHandle d) (Some h) BY_DRIVER);
                  if EFI_ERROR Status then find_data_loop d CtrlPath CtrlPrefix Handles
                  else
                    '(Status, Desc) ← call (S := acm) (UsbGetInterfaceDescriptor UsbIo);
                    if negb (EFI_ERROR Status) && (InterfaceClass Desc =? USB_CDC_DATA_CLASS)
                    then mret (Some (h, UsbIo))
                    else
                      _ ← call_ (S := acm) (CloseProtocol h (DriverBindingHandle d) (Some h));
                      find_data_loop d CtrlPath CtrlPrefix Handles
            end
  end.

Definition FindDataInterface (d : USB_CDC_ACM_DEV) : fw acm (EFI_STATUS * USB_CDC_ACM_DEV) :=
  '(Status, CtrlPath) ← call (S := acm) (GetDevicePath (ControllerHandle d));
  if EFI_ERROR Status then mret (Status, d)
  else
    let '(CtrlPrefix, CtrlLast) := DevicePathPrefixSize CtrlPath in
    match CtrlLast with
    | None => mret (EFI_NOT_FOUND, d)
    | Some _ =>
        '(Status, (Buffer, Handles)) ← call (S := acm) LocateUsbIoHandles;
        if EFI_ERROR Status then mret (Status, d)
        else
          Found ← find_data_loop d CtrlPath CtrlPrefix Handles;
          _ ← call_ (S := acm) (FreePool Buffer);
          mret (match Found with
                | Some (h, UsbIo) => (EFI_SUCCESS, with_data d h UsbIo)
                | None => (EFI_NOT_FOUND, d)
                end)
    end.

(** The endpoint loop: [n] endpoints are left, the next one is [Index]. *)
Fixpoint endpoint_loop (n : nat) (Index : Z) (d : USB_CDC_ACM_DEV) : fw acm USB_CDC_ACM_DEV :=
  match n with
  | O => mret d
  | S n =>
      '(Status, Endpoint) ← call (S := acm) (UsbGetEndpointDescriptor (DataUsbIo d) Index);
      if EFI_ERROR Status then endpoint_loop n (Index + 1) d
      else if negb (Z.land (Attributes Endpoint) USB_ENDPOINT_TYPE_MASK =? USB_ENDPOINT_BULK)
      then endpoint_loop n (Index + 1) d
      else if negb (Z.land (EndpointAddress Endpoint) USB_ENDPOINT_DIR_IN =? 0)
      then endpoint_loop n (Index + 1)
             (with_bulk d (EndpointAddress Endpoint) (BulkOut d) (MaxPacketSize Endpoint) (BulkOutMaxPacket d))
      else endpoint_loop n (Index + 1)
             (with_bulk d (BulkIn d) (EndpointAddress Endpoint) (BulkInMaxPacket d) (MaxPacketSize Endpoint))
  end.

Definition ResolveBulkEndpoints (d : USB_CDC_ACM_DEV) : fw acm (EFI_STATUS * USB_CDC_ACM_DEV) :=
  '(Status, Interface) ← call (S := acm) (UsbGetInterfaceDescriptor (DataUsbIo d));
  if EFI_ERROR Status then mret (Status, d)
  else
    d ← endpoint_loop (Z.to_nat (NumEndpoints Interface)) 0 d;
    mret (if (BulkIn d =? 0) || (BulkOut d =? 0) then EFI_NOT_FOUND else EFI_SUCCESS, d).

(** ** Driver binding *)

Definition UsbCdcAcmDriverSupported (DriverBinding Controller : Z) : fw acm EFI_STATUS :=
  '(Status, UsbIo) ← call (S := acm)
      (OpenProtocol Controller UsbIoProtocol DriverBinding (Some Controller) BY_DRIVER);
  if EFI_ERROR Status then mret Status
  else
    Supported ← IsAcmControlInterface UsbIo;
    _ ← call_ (S := acm) (CloseProtocol Controller DriverBinding (Some Controller));
    mret (if Supported : bool then EFI_SUCCESS else EFI_UNSUPPORTED).

(** A zeroed device context with the fields DriverStart sets first. *)
Definition new_dev (Controller DriverBinding : Z) : USB_CDC_ACM_DEV :=
  mkDev Controller 0 None DriverBinding 0 0 (mkMode 0 0 0 0 0 DefaultParity DefaultStopBits) None
        0 0 0 0 0 None None (mkRing (repeat 0 4096) 0 0) 0.

(** sizeof (USB_CDC_ACM_DEV) with X64 alignment. *)
Definition sizeof_dev : Z := 4328.

(** The error exits of DriverStart, innermost last. *)
Definition start_error_free_dev (p : Z) (Status : EFI_STATUS) : fw acm (EFI_STATUS * option (Z * USB_CDC_ACM_DEV)) :=
  _ ← call_ (S := acm) (FreePool p); mret (Status, None).
Definition start_error_close_ctrl (p : Z) (d : USB_CDC_ACM_DEV) (Status : EFI_STATUS) :=
  _ ← call_ (S := acm) (CloseProtocol (ControllerHandle d) (DriverBindingHandle d) (Some (ControllerHandle d)));
  start_error_free_dev p Status.
Definition start_error_close_data (p : Z) (d : USB_CDC_ACM_DEV) (Status : EFI_STATUS) :=
  _ ← call_ (S := acm) (CloseProtocol (DataHandle d) (DriverBindingHandle d) (Some (DataHandle d)));
  start_error_close_ctrl p d Status.

(** The answer is the status and, on success, the device context. *)
Definition UsbCdcAcmDriverStart (DriverBinding Controller : Z)
    : fw acm (EFI_STATUS * option (Z * USB_CDC_ACM_DEV)) :=
  Dev ← call (S := acm) (AllocateZeroPool sizeof_dev);
  match Dev with
  | None => mret (EFI_OUT_OF_RESOURCES, None)
  | Some p =>
      let d := new_dev Controller DriverBinding in
      '(Status, UsbIo) ← call (S := acm)
          (OpenProtocol Controller UsbIoProtocol DriverBinding (Some Controller) BY_DRIVER);
      if EFI_ERROR Status then start_error_free_dev p Status
      else
        let d := with_CtrlUsbIo d UsbIo in
        '(Status, Interface) ← call (S := acm) (UsbGetInterfaceDescriptor (CtrlUsbIo d));
        if EFI_ERROR Status then start_error_close_ctrl p d Status
        else
          let d := with_control_interface d (InterfaceNumber Interface) in
          '(Status, d) ← FindDataInterface d;
          if EFI_ERROR Status then start_error_close_ctrl p d Status
          else
            '(Status, d) ← ResolveBulkEndpoints d;
            if EFI_ERROR Status then start_error_close_data p d Status
            else
              Scratch ← call (S := acm) (AllocateZeroPool (BulkInMaxPacket d));
              match Scratch with
              | None => start_error_close_data p d EFI_OUT_OF_RESOURCES
              | Some s =>
                  let d := with_RxScratch d (Some (s, repeat 0 (Z.to_nat (BulkInMaxPacket d)))) in
                  '(Status, d) ← UsbCdcAcmInstallSerialIo d;
                  if EFI_ERROR Status then
                    _ ← call_ (S := acm) (FreePool s);
                    start_error_close_data p d Status
                  else mret (EFI_SUCCESS, Some (p, d))
              end
  end.

(** [p] and [d]: the device context behind the child's SerialIo pointer.
    The answer is the status and what is left of the context. *)
Definition UsbCdcAcmDriverStop (DriverBinding Controller : Z) (Children : list Z) (p : Z) (d : USB_CDC_ACM_DEV)
    : fw acm (EFI_STATUS * option USB_CDC_ACM_DEV) :=
  match Children with
  | [] =>
      Status ← call (S := acm) (CloseProtocol Controller DriverBinding (Some Controller));
      mret (Status, Some d)
  | Child :: _ =>
      '(Status, _) ← call (S := acm)
          (OpenProtocol Child SerialIoProtocol DriverBinding (Some Controller) GET_PROTOCOL);
      if EFI_ERROR Status then mret (Status, Some d)
      else
        '(Status, d) ← UsbCdcAcmUninstallSerialIo d;
        if EFI_ERROR Status then mret (Status, Some d)
        else
          _ ← call_ (S := acm) (CloseProtocol (DataHandle d) DriverBinding (Some (DataHandle d)));
          _ ← match RxScratch d with Some (s, _) => call_ (S := acm) (FreePool s) | None => mret tt end;
          _ ← match DevicePath d with Some q => call_ (S := acm) (FreePool q) | None => mret tt end;
          _ ← call_ (S := acm) (FreePool p);
          mret (EFI_SUCCESS, None)
  end.

(** ** The image's protocols *)

Record EFI_DRIVER_BINDING_PROTOCOL := mkBinding {
  Supported : Z -> Z -> fw acm EFI_STATUS;
  Start : Z -> Z -> fw acm (EFI_STATUS * option (Z * USB_CDC_ACM_DEV));
  Stop : Z -> Z -> list Z -> Z -> USB_CDC_ACM_DEV -> fw acm (EFI_STATUS * option USB_CDC_ACM_DEV);
  Version : Z; BindingImageHandle : option Z; BindingHandle : option Z }.

Definition gUsbCdcAcmDriverBinding : EFI_DRIVER_BINDING_PROTOCOL :=
  mkBinding UsbCdcAcmDriverSupported UsbCdcAcmDriverStart UsbCdcAcmDriverStop 0x10 None None.

(** A table entry; the terminating NULL pair is the end of the list. *)
Definition mUsbCdcAcmDriverNameTable : list (list Z * list Z) :=
  [(lit "eng;en", lit "USB CDC-ACM Serial Console Driver")].

Record EFI_COMPONENT_NAME2_PROTOCOL := mkName2 {
  GetDriverName : list Z -> option (list Z) -> EFI_STATUS * option (list Z);
  GetControllerName : Z -> option Z -> option (list Z) -> EFI_STATUS;
  SupportedLanguages : list Z }.

Section image.

(** UefiLib's table lookup, which answers with the name found, and the
    service that installs both protocols. *)
Variable LookupUnicodeString2 :
  option (list Z) -> list Z -> list (list Z * list Z) -> bool -> EFI_STATUS * option (list Z).
Variable EfiLibInstallDriverBindingComponentName2 :
  Z -> EFI_DRIVER_BINDING_PROTOCOL -> Z -> option unit -> EFI_COMPONENT_NAME2_PROTOCOL -> EFI_STATUS.

Definition UsbCdcAcmComponentNameGetDriverName (Languages : list Z) (Language : option (list Z)) : EFI_STATUS * option (list Z) :=
  LookupUnicodeString2 Language Languages mUsbCdcAcmDriverNameTable false.

Definition UsbCdcAcmComponentNameGetControllerName (Controller : Z) (Child : option Z) (Language : option (list Z)) : EFI_STATUS :=
  EFI_UNSUPPORTED.

Definition gUsbCdcAcmComponentName2 : EFI_COMPONENT_NAME2_PROTOCOL :=
  mkName2 UsbCdcAcmComponentNameGetDriverName UsbCdcAcmComponentNameGetControllerName (lit "en").

Definition UsbCdcAcmDxeEntry (ImageHandle : Z) : EFI_STATUS :=
  EfiLibInstallDriverBindingComponentName2 ImageHandle gUsbCdcAcmDriverBinding ImageHandle None gUsbCdcAcmComponentName2.

End image.
