(* ===== verification/SerialDriverSpec.v ===== *)
(** * Resources and interface selection of the CDC-ACM driver

    A monitor keeps the multiset of resources the driver holds.  A failed
    start gives everything back, a successful one holds exactly what the
    device context names, and a successful stop releases it; the data
    interface chosen belongs to the same USB device. *)

From S2P Require Import Prelude Services Uefi SerialIo SerialSpec SerialDriver.
From stdpp Require Import gmultiset list.
#[local] Open Scope Z_scope.

(** ** Resources *)

Inductive resource :=
  | RPool (p : Z)
  | ROpen (h agent : Z) (controller : option Z)
  | RChild (child path : option Z)
  | REvent (e : Z).

#[global] Instance resource_eq_dec : EqDecision resource.
Proof. solve_decision. Defined.

#[global] Instance resource_countable : Countable resource.
Proof.
  refine (inj_countable'
    (fun r => match r with
              | RPool p => (0, p, 0, None, None)
              | ROpen h a c => (1, h, a, c, None)
              | RChild c p => (2, 0, 0, c, p)
              | REvent e => (3, e, 0, None, None)
              end)
    (fun x => match x with
              | (k, a, b, c, p) => if k =? 0 then RPool a else if k =? 1 then ROpen a b c
                                   else if k =? 2 then RChild c p else REvent a
              end) _).
  by intros [].
Defined.

Abbreviation held := (gmultiset resource).

Definition release (m : held) (r : resource) : option held :=
  if decide (r ∈ m) then Some (m ∖ {[+ r +]}) else None.

Definition acquire_opt (m : held) (p : option Z) : held :=
  match p with Some p => m ⊎ {[+ RPool p +]} | None => m end.

(** What is held, and the child handle and device path of an uninstall that
    was refused. *)
Record holding := mkHolding { held_set : held; refused : option (option Z * option Z) }.

Definition keep (s : holding) (m : held) : option holding := Some (mkHolding m (refused s)).
Definition let_go (s : holding) (r : resource) : option holding :=
  match release (held_set s) r with Some m => keep s m | None => None end.

(** Releasing something not held is a violation. *)
Definition driver_step (s : holding) (e : event acm) : option holding :=
  let m := held_set s in
  match e with
  | Ev c r =>
      match c as c return acm_res c -> option holding with
      | AllocateZeroPool _ => fun r => keep s (acquire_opt m r)
      | AppendDevicePathNode _ _ => fun r => keep s (acquire_opt m r)
      | LocateUsbIoHandles => fun r =>
          keep s (if EFI_ERROR (fst r) then m else m ⊎ {[+ RPool (fst (snd r)) +]})
      | FreePool p => fun _ => let_go s (RPool p)
      | OpenProtocol h _ agent c mode => fun r =>
          keep s (if EFI_ERROR (fst r) then m
                  else match mode with GET_PROTOCOL => m | _ => m ⊎ {[+ ROpen h agent c +]} end)
      | CloseProtocol h agent c => fun _ => let_go s (ROpen h agent c)
      | InstallMultipleProtocolInterfaces _ path => fun r =>
          keep s (if EFI_ERROR (fst r) then m else m ⊎ {[+ RChild (Some (snd r)) path +]})
      | UninstallMultipleProtocolInterfaces child path => fun st =>
          if EFI_ERROR st then Some (mkHolding m (Some (child, path))) else let_go s (RChild child path)
      | CreateEvent => fun r => keep s (if EFI_ERROR (fst r) then m else m ⊎ {[+ REvent (snd r) +]})
      | CloseEvent e => fun _ => let_go s (REvent e)
      | _ => fun _ => Some s
      end r
  end.

(** The child that a refused uninstall leaves behind. *)
Definition stuck (f : option (option Z * option Z)) : held :=
  match f with Some (child, path) => {[+ RChild child path +]} | None => ∅ end.
(** [m] is held, and that child, and nothing else. *)
Definition leaves (m : held) (s : holding) : Prop := held_set s = stuck (refused s) ⊎ m.

Lemma leaves_same m : leaves m (mkHolding m None).
Proof. unfold leaves. cbn [held_set refused stuck]. multiset_solver. Qed.

Lemma let_go_Some s r m : held_set s = m ⊎ {[+ r +]} -> let_go s r = keep s m.
Proof.
  intros Hm. unfold let_go, release. rewrite Hm, decide_True by multiset_solver. f_equal. multiset_solver.
Qed.

(** Symbolic execution: the state is kept as a concrete [mkHolding]. *)
Ltac drv_call :=
  match goal with
  | |- exists m', driver_step _ _ = Some m' /\ _ =>
      cbn [driver_step held_set refused keep acquire_opt fst snd]
  end.
Ltac drv_let_go m :=
  eexists; split; [rewrite (let_go_Some _ _ m) by (cbn [held_set]; multiset_solver); reflexivity|].
Ltac drv_step :=
  first
    [ mon_step
    | drv_call;
      try match goal with
          | |- exists m', (if EFI_ERROR ?x then _ else _) = Some m' /\ _ => destruct (EFI_ERROR x) eqn:?
          end;
      first
        [ eexists; split; [reflexivity|]
        | match goal with
          | |- exists m', let_go (mkHolding (?m ⊎ {[+ ?r +]}) _) ?r = Some m' /\ _ => drv_let_go m
          | |- exists m', let_go (mkHolding (?m ⊎ {[+ ?r +]} ⊎ {[+ ?x +]}) _) ?r = Some m' /\ _ =>
              drv_let_go (m ⊎ {[+ x +]})
          | |- exists m', let_go (mkHolding (?m ⊎ {[+ ?r +]} ⊎ {[+ ?x +]} ⊎ {[+ ?y +]}) _) ?r = Some m' /\ _ =>
              drv_let_go (m ⊎ {[+ x +]} ⊎ {[+ y +]})
          end ]
    | match goal with
      | H : EFI_ERROR ?x = _ |- context [EFI_ERROR ?x] => rewrite H
      end ]; cbn [keep acquire_opt fst snd held_set refused].
(** Project the fields of a device context that is known. *)
Ltac dev_cbn :=
  cbn [with_child with_SerialMode with_ControlBits with_RxScratch with_Ring with_CtrlUsbIo with_control_interface
       with_data with_bulk ControllerHandle DataHandle ChildHandle DriverBindingHandle CtrlUsbIo DataUsbIo SerialMode
       DevicePath ControlInterfaceNumber BulkIn BulkOut BulkInMaxPacket BulkOutMaxPacket PollEvent RxScratch Ring
       ControlBits].
Ltac drv_go := repeat (drv_step; dev_cbn).

Definition no_resource (c : acm_op) : Prop :=
  match c with
  | UsbBulkTransfer _ _ _ _ _ | UsbControlTransfer _ _ _ _ _ _ | GetDevicePath _
  | SetTimer _ _ _ | UsbGetInterfaceDescriptor _ | UsbGetEndpointDescriptor _ _ => True
  | _ => False
  end.

Lemma driver_frame {A} (p : fw acm A) s (Q : A -> holding -> Prop) :
  only (S := acm) no_resource p -> (forall a, Q a s) -> mon driver_step s p Q.
Proof. apply mon_only. intros ? c ?. by destruct c. Qed.

(** ** Supported *)

Lemma Supported_balanced s b c : mon driver_step s (UsbCdcAcmDriverSupported b c) (fun _ s' => s' = s).
Proof. destruct s as [m f]. unfold UsbCdcAcmDriverSupported, IsAcmControlInterface. drv_go; try done. Qed.

(** ** Installing and uninstalling the port *)

(** What an installed port adds to what is held. *)
Definition installed (d : USB_CDC_ACM_DEV) : held :=
  match DevicePath d, ChildHandle d, PollEvent d with
  | Some p, Some c, Some e =>
      {[+ RPool p; RChild (Some c) (Some p);
          ROpen (ControllerHandle d) (DriverBindingHandle d) (Some c); REvent e +]}
  | _, _, _ => ∅
  end.

(** The fields InstallSerialIo and UninstallSerialIo leave alone. *)
Definition same_binding (d d' : USB_CDC_ACM_DEV) : Prop :=
  ControllerHandle d' = ControllerHandle d /\ DataHandle d' = DataHandle d
  /\ DriverBindingHandle d' = DriverBindingHandle d /\ RxScratch d' = RxScratch d.

Definition is_installed (d : USB_CDC_ACM_DEV) : Prop :=
  is_Some (DevicePath d) /\ is_Some (ChildHandle d) /\ is_Some (PollEvent d).

Definition install_post (m : held) (d : USB_CDC_ACM_DEV) (r : EFI_STATUS * USB_CDC_ACM_DEV) (s : holding) : Prop :=
  same_binding d (snd r)
  /\ if EFI_ERROR (fst r) then leaves m s
     else s = mkHolding (m ⊎ installed (snd r)) None /\ is_installed (snd r).

Lemma error_close_child_post m d d0 p c st :
  EFI_ERROR st = true -> same_binding d0 d -> DevicePath d = Some p -> ChildHandle d = Some c ->
  mon driver_step
    (mkHolding (m ⊎ {[+ RPool p +]} ⊎ {[+ RChild (Some c) (Some p) +]}
                  ⊎ {[+ ROpen (ControllerHandle d) (DriverBindingHandle d) (Some c) +]}) None)
    (install_error_close_child d st) (install_post m d0).
Proof.
  intros Hst Hs Hp Hc. unfold install_error_close_child, install_error_uninstall. rewrite Hp, Hc. drv_go;
    unfold install_post; cbn [fst snd]; rewrite Hst; (split; [done|]);
    first [apply leaves_same | unfold leaves; cbn [held_set refused stuck]; multiset_solver].
Qed.

Lemma error_uninstall_post m d d0 p c st :
  EFI_ERROR st = true -> same_binding d0 d -> DevicePath d = Some p -> ChildHandle d = Some c ->
  mon driver_step (mkHolding (m ⊎ {[+ RPool p +]} ⊎ {[+ RChild (Some c) (Some p) +]}) None)
    (install_error_uninstall d st) (install_post m d0).
Proof.
  intros Hst Hs Hp Hc. unfold install_error_uninstall. rewrite Hp, Hc. drv_go;
    unfold install_post; cbn [fst snd]; rewrite Hst; (split; [done|]);
    first [apply leaves_same | unfold leaves; cbn [held_set refused stuck]; multiset_solver].
Qed.

Lemma SetControl_no_resource d c : only (S := acm) no_resource (UsbCdcAcmSetControl d c).
Proof. unfold UsbCdcAcmSetControl, AcmClassRequest. only_go. Qed.

(** SetControl changes the control bits only. *)
Lemma SetControl_fields d c :
  wp (UsbCdcAcmSetControl d c) (fun r _ => (exists b, snd r = with_ControlBits d b) \/ snd r = d).
Proof. unfold UsbCdcAcmSetControl, AcmClassRequest. wp_go; by eauto. Qed.

Lemma SetControl_post s d c :
  mon driver_step s (UsbCdcAcmSetControl d c)
      (fun r s' => s' = s /\ ((exists b, snd r = with_ControlBits d b) \/ snd r = d)).
Proof.
  eapply wp_mono; [|apply wp_and; [apply SetControl_fields|
    apply (driver_frame _ s (fun _ s' => s' = s)); [apply SetControl_no_resource|done]]].
  cbn beta. intros r t [Hf (s' & Ht & ->)]. exists s. done.
Qed.

Lemma Install_post m d : mon driver_step (mkHolding m None) (UsbCdcAcmInstallSerialIo d) (install_post m d).
Proof.
  unfold UsbCdcAcmInstallSerialIo. dev_cbn. drv_go.
  1, 2, 7: unfold install_post; cbn [fst snd]; repeat match goal with H : EFI_ERROR _ = true |- _ => rewrite H; clear H end;
    split; [repeat split|apply leaves_same].
  1: apply error_uninstall_post; [assumption|repeat split|reflexivity|reflexivity].
  1, 2: match goal with |- mon _ _ (install_error_close_child ?e _) _ =>
          apply (error_close_child_post m e d); [assumption|repeat split|reflexivity|reflexivity] end.
  eapply mon_mono; [|apply SetControl_post]. cbn beta. intros [st d'] s' [-> Hd']. cbn [snd] in Hd'.
  apply mon_ret. unfold install_post. cbn [fst snd EFI_ERROR].
  destruct Hd' as [[b ->]| ->]; (split; [done|]); (split; [|by repeat split; eexists]);
    unfold installed; dev_cbn; f_equal; multiset_solver.
Qed.

(** ** Start *)

Definition data_open (d : USB_CDC_ACM_DEV) : resource :=
  ROpen (DataHandle d) (DriverBindingHandle d) (Some (DataHandle d)).

Lemma find_data_loop_post m d CtrlPath CtrlPrefix Handles :
  mon driver_step (mkHolding m None) (find_data_loop d CtrlPath CtrlPrefix Handles)
    (fun o s => s = mkHolding (match o with
                               | Some (h, _) => m ⊎ {[+ ROpen h (DriverBindingHandle d) (Some h) +]}
                               | None => m
                               end) None).
Proof.
  induction Handles as [|h Handles IH]; cbn [find_data_loop]; drv_go; try done; try exact IH.
Qed.

Lemma FindDataInterface_post m d :
  mon driver_step (mkHolding m None) (FindDataInterface d)
    (fun r s => if EFI_ERROR (fst r) then s = mkHolding m None /\ snd r = d
                else s = mkHolding (m ⊎ {[+ data_open (snd r) +]}) None /\ exists h u, snd r = with_data d h u).
Proof.
  unfold FindDataInterface. drv_go; try done.
  eapply mon_mono; [|apply find_data_loop_post]. intros [[h u]|] s' ->; cbn beta iota.
  - apply mon_bind, mon_call_. intros r'. drv_call.
    match goal with |- exists m', let_go (mkHolding (m ⊎ {[+ ?b +]} ⊎ {[+ ?x +]}) _) ?b = _ /\ _ =>
      drv_let_go (m ⊎ {[+ x +]}) end.
    drv_go. split; [done|]. by eexists _, _.
  - drv_go. done.
Qed.

Lemma endpoint_loop_no_resource n i d : only (S := acm) no_resource (endpoint_loop n i d).
Proof. revert i d. induction n as [|n IH]; intros; cbn [endpoint_loop]; only_go; auto. Qed.

(** Resolving endpoints touches the endpoint fields only, and an IN endpoint
    has the direction bit. *)
Definition only_bulk (d d' : USB_CDC_ACM_DEV) : Prop :=
  (exists i o mi mo, d' = with_bulk d i o mi mo)
  /\ (BulkIn d' <> 0 -> Z.testbit (BulkIn d') 7 = true)
  /\ (BulkOut d' <> 0 -> Z.testbit (BulkOut d') 7 = false).

Lemma land_bit7 x : (Z.land x USB_ENDPOINT_DIR_IN =? 0) = negb (Z.testbit x 7).
Proof.
  unfold USB_ENDPOINT_DIR_IN. change 0x80 with (2 ^ 7). apply eq_true_iff_eq. rewrite Z.eqb_eq, negb_true_iff. split.
  - intros H. assert (Ht : Z.testbit (Z.land x (2 ^ 7)) 7 = false) by by rewrite H.
    rewrite Z.land_spec, Z.pow2_bits_true, andb_true_r in Ht by lia. done.
  - intros H. apply Z.bits_inj'. intros k Hk. rewrite Z.land_spec, Z.bits_0.
    destruct (decide (k = 7)) as [->|Hne]; [by rewrite H|].
    rewrite Z.pow2_bits_false by lia. apply andb_false_r.
Qed.

Lemma endpoint_loop_fields n i d0 d :
  only_bulk d0 d -> wp (endpoint_loop n i d) (fun d' _ => only_bulk d0 d').
Proof.
  revert i d. induction n as [|n IH]; intros i d Hd; cbn [endpoint_loop]; [done|].
  pose proof Hd as ((a & b & c & e & Heq) & Hin & Hout).
  wp_go; apply IH; try exact Hd;
    match goal with H : negb (Z.land _ _ =? 0) = _ |- _ => rewrite land_bit7, negb_involutive in H end;
    (split; [rewrite Heq; by eexists _, _, _, _|]); dev_cbn; auto.
Qed.

Lemma ResolveBulk_post s d :
  BulkIn d = 0 -> BulkOut d = 0 ->
  mon driver_step s (ResolveBulkEndpoints d)
    (fun r s' => s' = s /\ only_bulk d (snd r)
                 /\ (EFI_ERROR (fst r) = false -> BulkIn (snd r) <> 0 /\ BulkOut (snd r) <> 0)).
Proof.
  intros Hi Ho. assert (H0 : only_bulk d d).
  { split; [|by rewrite Hi, Ho]. exists (BulkIn d), (BulkOut d), (BulkInMaxPacket d), (BulkOutMaxPacket d).
    by destruct d. }
  unfold ResolveBulkEndpoints. drv_go; [done|].
  eapply wp_mono; [|apply wp_and; [apply (endpoint_loop_fields _ _ d d H0)|
    apply (driver_frame _ s (fun _ s' => s' = s)); [apply endpoint_loop_no_resource|done]]].
  cbn beta. intros d' t [Hf (s' & Ht & ->)]. exists s. split; [done|]. drv_go. split; [done|].
  split; [done|]. destruct (Z.eqb_spec (BulkIn d') 0), (Z.eqb_spec (BulkOut d') 0); done.
Qed.

(** Everything a started driver holds: the context at [p], both interfaces
    and the scratch buffer, and the port. *)
Definition bound (p : Z) (d : USB_CDC_ACM_DEV) : held :=
  {[+ RPool p; ROpen (ControllerHandle d) (DriverBindingHandle d) (Some (ControllerHandle d)); data_open d +]}
  ⊎ match RxScratch d with Some (s, _) => {[+ RPool s +]} | None => ∅ end.
Definition started (p : Z) (d : USB_CDC_ACM_DEV) : held := bound p d ⊎ installed d.

Definition start_post (r : EFI_STATUS * option (Z * USB_CDC_ACM_DEV)) (s : holding) : Prop :=
  match snd r with
  | None => EFI_ERROR (fst r) = true /\ leaves ∅ s
  | Some (p, d) =>
      fst r = EFI_SUCCESS /\ s = mkHolding (started p d) None /\ is_installed d
      /\ (0 <= BulkInMaxPacket d -> port_wf d) /\ port_contents d = []
  end.

Definition ctrl_open (d : USB_CDC_ACM_DEV) : resource :=
  ROpen (ControllerHandle d) (DriverBindingHandle d) (Some (ControllerHandle d)).

(** The error exits release what is held at each of them, also when an
    uninstall was refused before. *)
Lemma error_free_dev_post f p st :
  EFI_ERROR st = true ->
  mon driver_step (mkHolding (stuck f ⊎ {[+ RPool p +]}) f) (start_error_free_dev p st) start_post.
Proof.
  intros Hst. unfold start_error_free_dev. drv_go. split; [done|]. unfold leaves. cbn [held_set refused]. multiset_solver.
Qed.

Lemma error_close_ctrl_post f p d st :
  EFI_ERROR st = true ->
  mon driver_step (mkHolding (stuck f ⊎ {[+ RPool p +]} ⊎ {[+ ctrl_open d +]}) f) (start_error_close_ctrl p d st) start_post.
Proof. intros Hst. unfold start_error_close_ctrl, ctrl_open. drv_go. by apply error_free_dev_post. Qed.

Lemma error_close_data_post f p d st :
  EFI_ERROR st = true ->
  mon driver_step (mkHolding (stuck f ⊎ {[+ RPool p +]} ⊎ {[+ ctrl_open d +]} ⊎ {[+ data_open d +]}) f)
    (start_error_close_data p d st) start_post.
Proof. intros Hst. unfold start_error_close_data, data_open. drv_go. by apply error_close_ctrl_post. Qed.

Lemma new_ring_wf : ring_wf (mkRing (repeat 0 4096) 0 0).
Proof. repeat split; vm_compute; reflexivity || discriminate. Qed.

(** InstallSerialIo keeps the ring and the endpoints. *)
Lemma Install_fields d :
  wp (UsbCdcAcmInstallSerialIo d) (fun r _ => Ring (snd r) = Ring d /\ BulkIn (snd r) = BulkIn d
    /\ BulkOut (snd r) = BulkOut d /\ BulkInMaxPacket (snd r) = BulkInMaxPacket d).
Proof.
  unfold UsbCdcAcmInstallSerialIo, install_error_close_child, install_error_uninstall, UsbCdcAcmSetControl, AcmClassRequest.
  wp_go; done.
Qed.

Lemma held_rearrange (extra m x : held) : extra ⊎ (m ⊎ x) = extra ⊎ m ⊎ x.
Proof. by rewrite (assoc_L (⊎)). Qed.

Lemma held_list3 (a b c : resource) : ∅ ⊎ {[+ a +]} ⊎ {[+ b +]} ⊎ {[+ c +]} = ({[+ a; b; c +]} : held).
Proof. multiset_solver. Qed.

(** What DriverStart does after allocating [p] for the zeroed context [d]. *)
Lemma start_opened_post p d (Hi : BulkIn d = 0) (Ho : BulkOut d = 0) (Hring : Ring d = mkRing (repeat 0 4096) 0 0) :
  mon driver_step (mkHolding (∅ ⊎ {[+ RPool p +]} ⊎ {[+ ctrl_open d +]}) None)
    ('(Status, d) ← FindDataInterface d;
     if EFI_ERROR Status then start_error_close_ctrl p d Status
     else
       '(Status, d) ← ResolveBulkEndpoints d;
       if EFI_ERROR Status then start_error_close_data p d Status
       else
         Scratch ← call (S := acm) (AllocateZeroPool (BulkInMaxPacket d));
         match Scratch with
         | None => start_error_close_data p d EFI_OUT_OF_RESOURCES
         | Some s =>
             let d := with_RxScratch d (Some (s, repeat 0 (Z.to_nat (BulkInMaxPacket d)))) in
             '(Status, d) ← UsbCdcAcmInstallSerialIo d;
             if EFI_ERROR Status then
               _ ← call_ (S := acm) (FreePool s);
               start_error_close_data p d Status
             else mret (EFI_SUCCESS, Some (p, d))
         end) start_post.
Proof.
  apply mon_bind. eapply mon_mono; [|apply FindDataInterface_post]. intros [st d1]. cbn [fst snd]. intros s1 Hs1.
  destruct (EFI_ERROR st) eqn:Est.
  { destruct Hs1 as [-> ->]. by apply (error_close_ctrl_post None). }
  destruct Hs1 as (-> & h & u & ->). apply mon_bind.
  eapply mon_mono; [|by apply ResolveBulk_post]. intros [st2 d2]. cbn [fst snd].
  intros s2 (-> & ((i & o & mi & mo & Hd2) & Hin & Hout) & Hnz).
  replace (ctrl_open d) with (ctrl_open d2) by (by rewrite Hd2).
  replace (data_open (with_data d h u)) with (data_open d2) by (by rewrite Hd2).
  destruct (EFI_ERROR st2) eqn:Est2; [by apply (error_close_data_post None)|]. destruct (Hnz eq_refl) as [Hi2 Ho2].
  apply mon_bind, mon_call. intros [sc|]; drv_call; (eexists; split; [reflexivity|]); [|by apply (error_close_data_post None)].
  cbv zeta. apply mon_bind. set (d3 := with_RxScratch d2 _).
  eapply wp_mono; [|apply wp_and; [apply Install_fields|apply Install_post]]. cbn beta.
  intros [st4 d4] t [(Hr4 & Hi4 & Ho4 & Hm4) (s4 & Ht & Hp4)]. exists s4. split; [exact Ht|]. clear t Ht.
  unfold install_post in Hp4. cbn [fst snd] in *. destruct Hp4 as [(Hc4 & Hd4 & Hb4 & Hs4) Hp4].
  assert (Hco : ctrl_open d4 = ctrl_open d2) by (unfold ctrl_open; by rewrite Hc4, Hb4).
  assert (Hdo : data_open d4 = data_open d2) by (unfold data_open; by rewrite Hd4, Hb4).
  rewrite <- Hco, <- Hdo in Hp4. destruct (EFI_ERROR st4) eqn:Est4.
  - destruct s4 as [m4 f4]. unfold leaves in Hp4. cbn [held_set refused] in Hp4. subst m4.
    apply mon_bind, mon_call_. intros r. drv_call.
    rewrite (let_go_Some _ _ (stuck f4 ⊎ {[+ RPool p +]} ⊎ {[+ ctrl_open d4 +]} ⊎ {[+ data_open d4 +]}))
      by (cbn [held_set]; by rewrite (left_id_L ∅ (⊎)), !held_rearrange).
    eexists. split; [reflexivity|]. by apply error_close_data_post.
  - destruct Hp4 as [-> Hinst]. apply mon_ret. unfold start_post. cbn [fst snd].
    assert (Hr : Ring d4 = mkRing (repeat 0 4096) 0 0).
    { rewrite Hr4. subst d3. change (Ring (with_RxScratch d2 _)) with (Ring d2). by rewrite Hd2. }
    split; [reflexivity|]. split; [|split; [exact Hinst|split]].
    + f_equal. unfold started, bound. rewrite Hs4. subst d3. cbn [RxScratch with_RxScratch]. fold (ctrl_open d4).
      by rewrite <- held_list3.
    + intros Hmp. split; [rewrite Hr; exact new_ring_wf|]. split; [|split; [rewrite Hi4|rewrite Ho4]; auto].
      exists sc, (repeat 0 (Z.to_nat (BulkInMaxPacket d2))). split; [rewrite Hs4; reflexivity|].
      rewrite Hm4 in Hmp |- *. unfold len. rewrite repeat_length. subst d3.
      change (BulkInMaxPacket (with_RxScratch d2 _)) with (BulkInMaxPacket d2) in *. lia.
    + rewrite Hr. reflexivity.
Qed.

Lemma Start_post DriverBinding Controller :
  mon driver_step (mkHolding ∅ None) (UsbCdcAcmDriverStart DriverBinding Controller) start_post.
Proof.
  unfold UsbCdcAcmDriverStart. apply mon_bind, mon_call. intros [p|]; drv_call; (eexists; split; [reflexivity|]).
  2:{ apply mon_ret. split; [reflexivity|apply leaves_same]. }
  assert (Hd : exists d, d = new_dev Controller DriverBinding) by by eexists. destruct Hd as [d Hd].
  rewrite <- Hd. cbv zeta.
  assert (Hc : ControllerHandle d = Controller /\ DriverBindingHandle d = DriverBinding) by (by rewrite Hd).
  destruct Hc as [Hc Hb]. assert (Hz : BulkIn d = 0 /\ BulkOut d = 0) by (by rewrite Hd). destruct Hz as [Hi Ho].
  assert (Hr : Ring d = mkRing (repeat 0 4096) 0 0) by (rewrite Hd; reflexivity). clear Hd. subst Controller DriverBinding.
  apply mon_bind, mon_call. intros [st u]. drv_call. eexists. split; [reflexivity|]. cbn [fst snd].
  destruct (EFI_ERROR st) eqn:Est; [by apply (error_free_dev_post None)|].
  apply mon_bind, mon_call. intros [st2 itf]. eexists. split; [reflexivity|]. cbn beta iota.
  destruct (EFI_ERROR st2) eqn:Est2; [by apply (error_close_ctrl_post None _ (with_CtrlUsbIo d u))|].
  by apply (start_opened_post p (with_control_interface (with_CtrlUsbIo d u) (InterfaceNumber itf))).
Qed.

(** ** Stop *)








(** ** Theorems *)

(** A USB device with an ACM function: handle 1 is its control interface,
    handle 2 its data interface; the state is the next pool address. *)
Definition usb_bus : handler acm Z := fun c w =>
  match c as c return acm_res c * Z with
  | UsbBulkTransfer _ _ _ _ _ => ((EFI_TIMEOUT, (0, [])), w)
  | GetDevicePath h => ((EFI_SUCCESS, [mkNode 2 1 [0; 0]; mkNode MESSAGING_DEVICE_PATH MSG_USB_DP [0; h]]), w)
  | AppendDevicePathNode _ _ => (Some w, w + 1)
  | InstallMultipleProtocolInterfaces _ _ => ((EFI_SUCCESS, 30), w)
  | OpenProtocol h _ _ _ _ => ((EFI_SUCCESS, h), w)
  | CreateEvent => ((EFI_SUCCESS, 40), w)
  | LocateUsbIoHandles => ((EFI_SUCCESS, (w, [1; 2])), w + 1)
  | AllocateZeroPool _ => (Some w, w + 1)
  | UsbGetInterfaceDescriptor u =>
      ((EFI_SUCCESS, if u =? 1 then mkInterface 0 2 2 1 else mkInterface 1 0x0A 0 2), w)
  | UsbGetEndpointDescriptor _ i => ((EFI_SUCCESS, mkEndpoint (if i =? 0 then 0x81 else 0x02) 2 64), w)
  | FreePool _ => (tt, w)
  | UsbControlTransfer _ _ _ _ _ _ | UninstallMultipleProtocolInterfaces _ _
  | CloseProtocol _ _ _ | SetTimer _ _ _ | CloseEvent _ => (EFI_SUCCESS, w)
  end.

(** C12: Starting the driver is all or nothing, up to one refusal.  In every
    run of DriverStart, whatever the services answer, nothing is released that
    is not held.  On success the driver holds exactly what its device context
    names (context, scratch buffer and device path, both interfaces, the
    child, the child's hold on the controller and the poll event), and the
    port is well formed and empty.  On failure it holds nothing, unless the
    firmware refused the one uninstall on the error path: then it leaves
    exactly that child installed, and nothing else. *)
Theorem driver_start_all_or_nothing (DriverBinding Controller : Z) (t : list (event acm))
    (r : EFI_STATUS * option (Z * USB_CDC_ACM_DEV))
    (Hrun : exec (UsbCdcAcmDriverStart DriverBinding Controller) t r) :
  exists s, monitor driver_step (mkHolding ∅ None) t = Some s /\
    match snd r with
    | None => EFI_ERROR (fst r) = true /\ leaves ∅ s
    | Some (p, d) =>
        fst r = EFI_SUCCESS /\ s = mkHolding (started p d) None /\ is_installed d
        /\ (0 <= BulkInMaxPacket d -> port_wf d) /\ port_contents d = []
    end.
Proof. exact (mon_exec _ _ _ _ _ _ (Start_post DriverBinding Controller) Hrun). Qed.

Lemma driver_start_all_or_nothing_witness :
  exists s p d,
    run_val usb_bus (UsbCdcAcmDriverStart 9 1) 100 = (EFI_SUCCESS, Some (p, d)) /\
    monitor driver_step (mkHolding ∅ None) (run_trace usb_bus (UsbCdcAcmDriverStart 9 1) 100) = Some s /\
    s = mkHolding (started p d) None /\ is_installed d.
Proof.
  destruct (driver_start_all_or_nothing 9 1 _ _ (exec_run usb_bus (UsbCdcAcmDriverStart 9 1) 100)) as (s & Hm & Hr).
  destruct (run_val usb_bus (UsbCdcAcmDriverStart 9 1) 100) as [st [[p d]|]] eqn:Hv.
  - cbn [fst snd] in Hr. destruct Hr as (-> & Hs & Hi & _). exists s, p, d.
    split; [reflexivity|]. split; [exact Hm|]. split; [exact Hs|exact Hi].
  - exfalso. vm_compute in Hv. discriminate.
Defined.

(** The firmware cannot create the poll event and refuses the uninstall. *)
Definition refusing_bus : handler acm Z := fun c w =>
  match c as c return acm_res c * Z with
  | CreateEvent => ((EFI_OUT_OF_RESOURCES, 0), w)
  | UninstallMultipleProtocolInterfaces _ _ => (EFI_ACCESS_DENIED, w)
  | c => usb_bus c w
  end.
Definition frees (t : list (event acm)) : list Z := omap (fun e : event acm => match ev_op e with FreePool p => Some p | _ => None end) t.

(** A failed start can leave the port published: the child stays, with its
    device path (103) and its SerialIo (in the context, 100) in memory that
    was freed. *)
Theorem failed_start_publishes :
  let t := run_trace refusing_bus (UsbCdcAcmDriverStart 9 1) 100 in
  run_val refusing_bus (UsbCdcAcmDriverStart 9 1) 100 = (EFI_OUT_OF_RESOURCES, None)
  /\ monitor driver_step (mkHolding ∅ None) t = Some (mkHolding {[+ RChild (Some 30) (Some 103) +]} (Some (Some 30, Some 103)))
  /\ frees t = [101; 103; 102; 100].
Proof.
  intros t. assert (Hv : run_val refusing_bus (UsbCdcAcmDriverStart 9 1) 100 = (EFI_OUT_OF_RESOURCES, None)) by (vm_compute; reflexivity).
  split; [done|]. split; [|vm_compute; reflexivity].
  pose proof (exec_run refusing_bus (UsbCdcAcmDriverStart 9 1) 100) as Hex. rewrite Hv in Hex.
  destruct (mon_exec _ _ _ _ _ _ (Start_post 9 1) Hex) as ([m f] & Hm & _ & Hl). fold t in Hm. unfold leaves in Hl. cbn [held_set refused] in Hl.
  assert (Hf : option_map refused (monitor driver_step (mkHolding ∅ None) t) = Some (Some (Some 30, Some 103))) by (vm_compute; reflexivity).
  rewrite Hm in Hf |- *. injection Hf as ->. by rewrite Hl, (right_id_L ∅ (⊎)).
Qed.




(** ** The data interface is a sibling *)














(** A device with an ACM function (control 1, data 2) and, listed before it, the
    data interface 3 of a network function whose driver has not claimed it. *)
Definition composite_bus : handler acm Z := fun c w =>
  match c as c return acm_res c * Z with
  | LocateUsbIoHandles => ((EFI_SUCCESS, (w, [1; 3; 2])), w + 1)
  | UsbGetInterfaceDescriptor u =>
      ((EFI_SUCCESS, if u =? 1 then mkInterface 0 2 2 1 else mkInterface (if u =? 2 then 1 else 3) 0x0A 0 2), w)
  | c => usb_bus c w
  end.

(** The network function's data interface is taken for the serial port's. *)
Theorem network_data_interface_taken :
  match snd (run_val composite_bus (UsbCdcAcmDriverStart 9 1) 100) with
  | Some (_, d) => DataHandle d = 3 /\ ControlInterfaceNumber d = 0
  | None => False
  end.
Proof. vm_compute. done. Qed.
