(* ===== verification/EdkStrings.v ===== *)
(** * EDK2 string services

    BaseLib and PrintLib as the components use them: bounded concatenation
    and bounded formatting.  They are libraries outside the repository, so
    the components are written against this interface; [base_strings] is a
    concrete instance. *)

From S2P Require Import Prelude.

(** A CHAR8 buffer that holds a string is the string without its NUL. *)
Class EdkStrings := {
  (** [AsciiStrCatS dest max src] is what [dest], a buffer of [max] bytes,
      holds afterwards: with too little room it is left alone. *)
  AsciiStrCatS : list Z -> Z -> list Z -> list Z;
  AsciiStrCatS_fits d max s : len d + len s < max -> AsciiStrCatS d max s = d ++ s;
  AsciiStrCatS_full d max s : max <= len d + len s -> AsciiStrCatS d max s = d;
  (** The same for CHAR16 buffers, [max] in characters. *)
  StrCatS : list Z -> Z -> list Z -> list Z;
  StrCatS_fits d max s : len d + len s < max -> StrCatS d max s = d ++ s;
  StrCatS_full d max s : max <= len d + len s -> StrCatS d max s = d;
  (** [AsciiSPrint size text]: the formatted text, cut to the buffer. *)
  AsciiSPrint : Z -> list Z -> list Z;
  AsciiSPrint_spec size s : 0 < size -> AsciiSPrint size s = take (Z.to_nat (size - 1)) s;
  (** The same for CHAR16 buffers, [size] in characters. *)
  UnicodeSPrint : Z -> list Z -> list Z;
  UnicodeSPrint_spec size s : 0 < size -> UnicodeSPrint size s = take (Z.to_nat (size - 1)) s;
  (** The digit [%x] and [%X] print: "the characters used are 0..9 and
      A..F" (PrintLib.h). *)
  hex_digit : Z -> Z;
  hex_digit_upper n : 0 <= n < 16 -> hex_digit n = if n <? 10 then 0x30 + n else 0x41 + (n - 10)
}.

#[global] Program Instance base_strings : EdkStrings := {|
  AsciiStrCatS d max s := if len d + len s <? max then d ++ s else d;
  StrCatS d max s := if len d + len s <? max then d ++ s else d;
  AsciiSPrint size s := take (Z.to_nat (size - 1)) s;
  UnicodeSPrint size s := take (Z.to_nat (size - 1)) s;
  hex_digit n := if n <? 10 then 0x30 + n else 0x41 + (n - 10)
|}.
Next Obligation. intros d max s H. cbn. apply Z.ltb_lt in H. by rewrite H. Qed.
Next Obligation. intros d max s H. cbn. apply Z.ltb_ge in H. by rewrite H. Qed.
Next Obligation. intros d max s H. cbn. apply Z.ltb_lt in H. by rewrite H. Qed.
Next Obligation. intros d max s H. cbn. apply Z.ltb_ge in H. by rewrite H. Qed.
Next Obligation. done. Qed.
Next Obligation. done. Qed.
Next Obligation. done. Qed.

(** ** Numbers as PrintLib prints them *)

(** Decimal digits of a number, most significant first; 20 rounds are enough
    for 64 bits. *)
Fixpoint udec_aux (fuel : nat) (n : Z) : list Z :=
  match fuel with
  | O => []
  | S fuel => if n <? 10 then [0x30 + n] else udec_aux fuel (n / 10) ++ [0x30 + n mod 10]
  end.
Definition udec (n : Z) : list Z := udec_aux 20 n.

(** [%d] of a [w]-bit argument. *)
Definition sdec (w n : Z) : list Z :=
  let v := to_signed w n in if v <? 0 then 0x2D :: udec (- v) else udec v.

Section print.
Context `{EdkStrings}.

(** [%0<k>x]: the low [k] hexadecimal digits; arguments have no more. *)
Fixpoint hex (k : nat) (n : Z) : list Z :=
  match k with
  | O => []
  | S k => hex k (n / 16) ++ [hex_digit (n mod 16)]
  end.

(** The same, written out. *)
Fixpoint upper_hex (k : nat) (n : Z) : list Z :=
  match k with
  | O => []
  | S k => upper_hex k (n / 16) ++ [let d := n mod 16 in if d <? 10 then 0x30 + d else 0x41 + (d - 10)]
  end.
Lemma hex_upper k n : hex k n = upper_hex k n.
Proof.
  revert n. induction k as [|k IH]; intros n; [done|]. cbn [hex upper_hex]. by rewrite IH, hex_digit_upper by (apply Z.mod_pos_bound; lia).
Qed.

Lemma hex_length k n : length (hex k n) = k.
Proof. revert n. induction k as [|k IH]; intros n; simpl; [done|]. rewrite length_app, IH. simpl. lia. Qed.

(** ** Concatenating a list of pieces *)

Definition cat_all (max : Z) (d : list Z) (pieces : list (list Z)) : list Z :=
  fold_left (fun d s => AsciiStrCatS d max s) pieces d.

Lemma len_concat_cons (s : list Z) ss : len (concat (s :: ss)) = len s + len (concat ss).
Proof. cbn [concat]. apply len_app. Qed.

(** When everything fits, the pieces are simply appended. *)
Lemma cat_all_fits max d pieces :
  len d + len (concat pieces) < max -> cat_all max d pieces = d ++ concat pieces.
Proof.
  unfold cat_all. revert d. induction pieces as [|s ss IH]; intros d Hl; [by rewrite app_nil_r|].
  rewrite len_concat_cons in Hl. pose proof (len_nonneg (concat ss)). cbn [fold_left].
  rewrite AsciiStrCatS_fits by lia. rewrite IH by (rewrite len_app; lia).
  cbn [concat]. by rewrite (assoc_L (++)).
Qed.

Lemma cat_all_app max d p q : cat_all max d (p ++ q) = cat_all max (cat_all max d p) q.
Proof. apply fold_left_app. Qed.

(** No concatenation overruns the buffer. *)
Lemma cat_all_bounded max d pieces : len d < max -> len (cat_all max d pieces) < max.
Proof.
  unfold cat_all. revert d. induction pieces as [|s ss IH]; intros d Hl; [done|]. cbn [fold_left]. apply IH.
  destruct (Z.lt_ge_cases (len d + len s) max); [rewrite AsciiStrCatS_fits, len_app by done; lia|].
  by rewrite AsciiStrCatS_full by lia.
Qed.
End print.

(** ** Facts about decimal text *)

Definition is_digit (c : Z) : bool := (0x30 <=? c) && (c <=? 0x39).

(** The number a digit string denotes. *)
Definition dec_value (s : list Z) : Z := fold_left (fun a c => 10 * a + (c - 0x30)) s 0.

Lemma dec_value_snoc s c : dec_value (s ++ [c]) = 10 * dec_value s + (c - 0x30).
Proof. unfold dec_value. by rewrite fold_left_app. Qed.

Lemma udec_aux_spec fuel n :
  0 <= n < 10 ^ Z.of_nat fuel -> (0 < fuel)%nat ->
  Forall (fun c => is_digit c = true) (udec_aux fuel n) /\ dec_value (udec_aux fuel n) = n
  /\ udec_aux fuel n <> [] /\ (head (udec_aux fuel n) = Some 0x30 -> n = 0).
Proof.
  revert n. induction fuel as [|fuel IH]; intros n Hn Hf; [lia|]. cbn [udec_aux].
  destruct (Z.ltb_spec n 10) as [Hs|Hs].
  { split; [constructor; [|constructor]; unfold is_digit; apply andb_true_intro; split; lia|].
    split; [unfold dec_value; cbn [fold_left]; lia|]. split; [done|]. cbn. intros [= ?]. lia. }
  rewrite Nat2Z.inj_succ, Z.pow_succ_r in Hn by lia.
  assert (Hd : 0 <= n / 10 < 10 ^ Z.of_nat fuel).
  { split; [apply Z.div_pos; lia|]. apply Z.div_lt_upper_bound; lia. }
  assert (Hpos : 1 <= n / 10) by (apply Z.div_le_lower_bound; lia).
  assert (Hf' : (0 < fuel)%nat) by (destruct fuel; [cbn in Hd; lia|lia]).
  destruct (IH (n / 10) Hd Hf') as (Hdig & Hval & Hne & Hz).
  pose proof (Z.mod_pos_bound n 10 ltac:(lia)). pose proof (Z.div_mod n 10 ltac:(lia)).
  split; [|split; [|split]].
  - apply Forall_app. split; [done|]. constructor; [|constructor]. unfold is_digit. apply andb_true_intro. split; lia.
  - rewrite dec_value_snoc, Hval. lia.
  - destruct (udec_aux fuel (n / 10)); done.
  - destruct (udec_aux fuel (n / 10)) as [|c s]; [done|]. cbn in *. intros Hh. specialize (Hz Hh). lia.
Qed.

Lemma udec_spec n :
  is_uint 64 n ->
  Forall (fun c => is_digit c = true) (udec n) /\ dec_value (udec n) = n
  /\ udec n <> [] /\ (head (udec n) = Some 0x30 -> n = 0).
Proof. intros Hn. unfold is_uint in Hn. apply udec_aux_spec; [|lia]. cbn. lia. Qed.

Lemma udec_aux_length fuel k n : n < 10 ^ Z.of_nat k -> (0 < k)%nat -> (length (udec_aux fuel n) <= k)%nat.
Proof.
  revert k n. induction fuel as [|fuel IH]; intros k n Hn Hk; cbn [udec_aux]; [cbn; lia|].
  destruct (Z.ltb_spec n 10); [cbn; lia|]. rewrite length_app. cbn [length].
  destruct k as [|k]; [lia|]. rewrite Nat2Z.inj_succ, Z.pow_succ_r in Hn by lia.
  destruct k as [|k]; [cbn in Hn; lia|].
  assert (n / 10 < 10 ^ Z.of_nat (S k)) by (apply Z.div_lt_upper_bound; lia).
  specialize (IH (S k) (n / 10) ltac:(done) ltac:(lia)). lia.
Qed.

Lemma udec_len n k : n < 10 ^ Z.of_nat k -> (0 < k)%nat -> len (udec n) <= Z.of_nat k.
Proof. intros Hn Hk. unfold len, udec. pose proof (udec_aux_length 20 k n Hn Hk). lia. Qed.
