(* ===== verification/Json.v ===== *)
(** * JSON, as the bodies must be read back

    The receiving side of the reports: JSON values, their text, and a parser
    that rejects what the grammar does (raw control characters, leading
    zeros, unterminated objects).  [parse_render] shows that text and parser
    agree; the component theorems state what a body parses to. *)

From S2P Require Import Prelude EdkStrings.
#[local] Set Warnings "-register-all".

Inductive json :=
  | JStr (s : list Z)
  | JNum (n : Z)
  | JBool (b : bool)
  | JNull
  | JArr (l : list json)
  | JObj (l : list (list Z * json)).

(** ** Text *)

Definition escape1 (c : Z) : list Z := if (c =? 0x22) || (c =? 0x5C) then [0x5C; c] else [c].
Definition escape (s : list Z) : list Z := flat_map escape1 s.
Definition quoted (s : list Z) : list Z := 0x22 :: escape s ++ [0x22].

(** A C string literal that contains double quotes, written here with single
    quotes in their place. *)
Definition jlit (s : string) : list Z := map (fun c => if c =? 0x27 then 0x22 else c) (lit s).

(** Join with commas. *)
Fixpoint commas (l : list (list Z)) : list Z :=
  match l with
  | [] => []
  | [x] => x
  | x :: l => x ++ 0x2C :: commas l
  end.

Fixpoint render (v : json) : list Z :=
  match v with
  | JStr s => quoted s
  | JNum n => udec n
  | JBool true => lit "true"
  | JBool false => lit "false"
  | JNull => lit "null"
  | JArr l => 0x5B :: commas (map render l) ++ [0x5D]
  | JObj l => 0x7B :: commas (map (fun m => quoted (fst m) ++ 0x3A :: render (snd m)) l) ++ [0x7D]
  end.

Definition render_member (m : list Z * json) : list Z := quoted (fst m) ++ 0x3A :: render (snd m).

(** ** Parser *)

(** The rest of a string after its opening quote. *)
Fixpoint parse_str (s : list Z) : option (list Z * list Z) :=
  match s with
  | [] => None
  | c :: s =>
      if c =? 0x22 then Some ([], s)
      else if c =? 0x5C then
        match s with
        | e :: s => if (e =? 0x22) || (e =? 0x5C)
                    then match parse_str s with Some (v, r) => Some (e :: v, r) | None => None end
                    else None
        | [] => None
        end
      else if c <? 0x20 then None
      else match parse_str s with Some (v, r) => Some (c :: v, r) | None => None end
  end.

Fixpoint span_digits (s : list Z) : list Z * list Z :=
  match s with
  | c :: s' => if is_digit c then let '(d, r) := span_digits s' in (c :: d, r) else ([], s)
  | [] => ([], [])
  end.

Definition parse_num (s : list Z) : option (Z * list Z) :=
  let '(d, r) := span_digits s in
  match d with
  | [] => None
  | c :: _ :: _ => if c =? 0x30 then None else Some (dec_value d, r)
  | _ => Some (dec_value d, r)
  end.

Definition skip (c : Z) (s : list Z) : option (list Z) :=
  match s with x :: s => if x =? c then Some s else None | [] => None end.

Definition skip_all (p s : list Z) : option (list Z) :=
  if bool_decide (take (length p) s = p) then Some (drop (length p) s) else None.

(** [more] is whether a comma may follow; fuel bounds the nesting and the
    number of members together. *)
Fixpoint parse_value (fuel : nat) (s : list Z) : option (json * list Z) :=
  match fuel with
  | O => None
  | S fuel =>
      match s with
      | [] => None
      | c :: r =>
          if c =? 0x22 then '(v, r) ← parse_str r; Some (JStr v, r)
          else if c =? 0x74 then r ← skip_all (lit "true") s; Some (JBool true, r)
          else if c =? 0x66 then r ← skip_all (lit "false") s; Some (JBool false, r)
          else if c =? 0x6E then r ← skip_all (lit "null") s; Some (JNull, r)
          else if c =? 0x5B then
            match skip 0x5D r with
            | Some r => Some (JArr [], r)
            | None => '(l, r) ← parse_elements fuel r; Some (JArr l, r)
            end
          else if c =? 0x7B then
            match skip 0x7D r with
            | Some r => Some (JObj [], r)
            | None => '(l, r) ← parse_members fuel r; Some (JObj l, r)
            end
          else '(n, r) ← parse_num s; Some (JNum n, r)
      end
  end
with parse_elements (fuel : nat) (s : list Z) : option (list json * list Z) :=
  match fuel with
  | O => None
  | S fuel =>
      '(v, r) ← parse_value fuel s;
      match skip 0x5D r with
      | Some r => Some ([v], r)
      | None => r ← skip 0x2C r; '(l, r) ← parse_elements fuel r; Some (v :: l, r)
      end
  end
with parse_members (fuel : nat) (s : list Z) : option (list (list Z * json) * list Z) :=
  match fuel with
  | O => None
  | S fuel =>
      r ← skip 0x22 s;
      '(k, r) ← parse_str r;
      r ← skip 0x3A r;
      '(v, r) ← parse_value fuel r;
      match skip 0x7D r with
      | Some r => Some ([(k, v)], r)
      | None => r ← skip 0x2C r; '(l, r) ← parse_members fuel r; Some ((k, v) :: l, r)
      end
  end.

(** A whole document; one round of fuel per byte is enough. *)
Definition parse_json (s : list Z) : option json :=
  match parse_value (length s) s with Some (v, []) => Some v | _ => None end.

(** ** Text and parser agree *)

Abbreviation plain s := (Forall (fun c => 0x20 <= c) s).

Fixpoint json_ok (v : json) : Prop :=
  match v with
  | JStr s => plain s
  | JNum n => is_uint 64 n
  | JBool _ | JNull => True
  | JArr l => foldr (fun v P => json_ok v /\ P) True l
  | JObj l => foldr (fun m P => (plain (fst m) /\ json_ok (snd m)) /\ P) True l
  end.

(** What follows a value may not extend a number. *)
Definition stops (r : list Z) : Prop := forall c s, r = c :: s -> is_digit c = false.

Lemma parse_str_quoted s r : plain s -> parse_str (escape s ++ 0x22 :: r) = Some (s, r).
Proof.
  induction 1 as [|c s Hc _ IH]; [done|]. change (escape (c :: s)) with (escape1 c ++ escape s).
  rewrite <- (assoc_L (++)). unfold escape1.
  destruct (c =? 0x22) eqn:E1; [apply Z.eqb_eq in E1; subst c; cbn in *; by rewrite IH|].
  destruct (c =? 0x5C) eqn:E2; [apply Z.eqb_eq in E2; subst c; cbn in *; by rewrite IH|].
  cbn [orb app parse_str]. rewrite E1, E2. destruct (Z.ltb_spec c 0x20); [lia|]. by rewrite IH.
Qed.

Lemma span_digits_app d r :
  Forall (fun c => is_digit c = true) d -> stops r -> span_digits (d ++ r) = (d, r).
Proof.
  intros Hd Hr. induction Hd as [|c d Hc _ IH]; cbn [app span_digits]; [|by rewrite Hc, IH].
  destruct r as [|c r]; [done|]. cbn. by rewrite (Hr c r).
Qed.

Lemma parse_num_udec n r : is_uint 64 n -> stops r -> parse_num (udec n ++ r) = Some (n, r).
Proof.
  intros Hn Hr. destruct (udec_spec n Hn) as (Hd & Hv & Hne & Hz). unfold parse_num.
  rewrite span_digits_app by done. destruct (udec n) as [|c [|c' d]] eqn:E; [done|by rewrite Hv|].
  destruct (Z.eqb_spec c 0x30) as [->|]; [|by rewrite Hv].
  exfalso. specialize (Hz eq_refl). subst n. vm_compute in E. done.
Qed.

(** The first character decides the kind of value. *)
Lemma render_head v : json_ok v ->
  exists c r, render v = c :: r /\
    match v with
    | JStr _ => c = 0x22 | JNum _ => is_digit c = true | JBool b => c = (if b then 0x74 else 0x66)
    | JNull => c = 0x6E | JArr _ => c = 0x5B | JObj _ => c = 0x7B
    end.
Proof.
  destruct v as [s|n|[]| |l|l]; cbn [render]; intros Hok; try (by eexists _, _).
  destruct (udec_spec n Hok) as (Hd & _ & Hne & _). destruct (udec n) as [|c d]; [done|].
  apply Forall_cons in Hd as [Hc _]. by eexists _, _.
Qed.

Lemma render_not c v r : json_ok v -> (c = 0x5D \/ c = 0x7D) -> skip c (render v ++ r) = None.
Proof.
  intros Hok Hc. destruct (render_head v Hok) as (x & s & -> & Hx). cbn.
  destruct (Z.eqb_spec x c) as [->|]; [|done]. exfalso. unfold is_digit in Hx.
  destruct v as [ | |[]| | | ], Hc; subst c; try done; cbn in Hx; done.
Qed.

Lemma digit_ge c : is_digit c = true -> 0x30 <= c <= 0x39.
Proof. unfold is_digit. intros H. b2p. lia. Qed.

Abbreviation sep_ok r := (exists s, r = 0x2C :: s \/ r = 0x5D :: s \/ r = 0x7D :: s).
Lemma sep_stops r : sep_ok r -> stops r.
Proof. intros (s & [->|[->| ->]]) c' s' [= <- _]; done. Qed.

Lemma skip_eq c s : skip c (c :: s) = Some s.
Proof. cbn. by rewrite Z.eqb_refl. Qed.

(** The three parsers, by induction on the fuel. *)
Definition parses (fuel : nat) : Prop :=
  (forall v r, json_ok v -> stops r -> (length (render v) <= fuel)%nat ->
     parse_value fuel (render v ++ r) = Some (v, r))
  /\ (forall v l r, json_ok (JArr (v :: l)) -> (length (commas (map render (v :: l))) < fuel)%nat ->
     parse_elements fuel (commas (map render (v :: l)) ++ 0x5D :: r) = Some (v :: l, r))
  /\ (forall m l r, json_ok (JObj (m :: l)) -> (length (commas (map render_member (m :: l))) < fuel)%nat ->
     parse_members fuel (commas (map render_member (m :: l)) ++ 0x7D :: r) = Some (m :: l, r)).

Lemma commas_cons x y l : commas (x :: y :: l) = x ++ 0x2C :: commas (y :: l).
Proof. done. Qed.

Lemma parses_value fuel : parses fuel ->
  forall v r, json_ok v -> stops r -> (length (render v) <= S fuel)%nat ->
     parse_value (S fuel) (render v ++ r) = Some (v, r).
Proof.
  intros (_ & He & Hm) v r Hok Hr Hl. destruct v as [s|n|[]| |l|l].
  - cbn [render]. unfold quoted. rewrite <- app_comm_cons, <- (assoc_L (++)). cbn [parse_value app].
    change (0x22 =? 0x22) with true. cbv iota. rewrite parse_str_quoted by exact Hok. done.
  - destruct (render_head (JNum n) Hok) as (c & d & Hc & Hdig). apply digit_ge in Hdig.
    cbn [render] in *. pose proof (parse_num_udec n r Hok Hr) as Hp. rewrite Hc in *. cbn [app parse_value] in *.
    repeat match goal with |- context [c =? ?k] => destruct (Z.eqb_spec c k); [lia|] end. by rewrite Hp.
  - done.
  - done.
  - done.
  - cbn [render]. rewrite <- app_comm_cons, <- (assoc_L (++)). cbn [parse_value app].
    change (0x5B =? 0x22) with false. change (0x5B =? 0x74) with false. change (0x5B =? 0x66) with false. change (0x5B =? 0x6E) with false.
    change (0x5B =? 0x5B) with true. cbv iota. destruct l as [|v l]; [done|].
    cbn [render length] in Hl. rewrite length_app in Hl. cbn [length] in Hl.
    assert (Hs : skip 0x5D (commas (map render (v :: l)) ++ 0x5D :: r) = None).
    { destruct l as [|v' l]; cbn [map]; [cbn [commas]|rewrite commas_cons, <- (assoc_L (++))];
        (apply render_not; [exact (proj1 Hok)|by left]). }
    rewrite Hs, He by (done || lia). done.
  - cbn [render]. change (map (fun m => quoted (fst m) ++ 0x3A :: render (snd m)) l) with (map render_member l).
    rewrite <- app_comm_cons, <- (assoc_L (++)). cbn [parse_value app].
    change (0x7B =? 0x22) with false. change (0x7B =? 0x74) with false. change (0x7B =? 0x66) with false. change (0x7B =? 0x6E) with false.
    change (0x7B =? 0x5B) with false. change (0x7B =? 0x7B) with true. cbv iota. destruct l as [|m l]; [done|].
    cbn [render length] in Hl. rewrite length_app in Hl. cbn [length] in Hl.
    assert (Hs : skip 0x7D (commas (map render_member (m :: l)) ++ 0x7D :: r) = None).
    { destruct l as [|m' l]; done. }
    rewrite Hs, Hm by (done || (change (map render_member) with
       (map (fun m => quoted (fst m) ++ 0x3A :: render (snd m))); lia)). done.
Qed.

Lemma parses_elements fuel : parses fuel ->
  forall v l r, json_ok (JArr (v :: l)) -> (length (commas (map render (v :: l))) < S fuel)%nat ->
    parse_elements (S fuel) (commas (map render (v :: l)) ++ 0x5D :: r) = Some (v :: l, r).
Proof.
  intros (Hv & He & _) v l r [Hok Hoks] Hl. cbn [parse_elements]. destruct l as [|v' l].
  - cbn [map commas] in *. rewrite Hv; [|done|apply sep_stops; eauto|lia]. cbn [mbind option_bind]. by rewrite skip_eq.
  - cbn [map] in *. rewrite commas_cons in *. rewrite length_app in Hl. cbn [length] in Hl.
    rewrite <- (assoc_L (++)), <- app_comm_cons. rewrite Hv; [|done|apply sep_stops; eauto|lia].
    cbn [mbind option_bind]. change (skip 0x5D (0x2C :: ?s)) with (@None (list Z)). cbv iota.
    rewrite skip_eq. cbn [mbind option_bind].
    rewrite He; [done|exact Hoks|lia].
Qed.

Lemma parses_members fuel : parses fuel ->
  forall m l r, json_ok (JObj (m :: l)) -> (length (commas (map render_member (m :: l))) < S fuel)%nat ->
    parse_members (S fuel) (commas (map render_member (m :: l)) ++ 0x7D :: r) = Some (m :: l, r).
Proof.
  intros (Hv & _ & Hm) [k v] l r [[Hk Hok] Hoks] Hl. cbn [fst snd] in *. cbn [parse_members].
  assert (Hone : forall tail, sep_ok tail -> (length (render_member (k, v)) <= fuel)%nat ->
    (r ← skip 0x22 (render_member (k, v) ++ tail);
     '(k, r) ← parse_str r; r ← skip 0x3A r; '(v, r) ← parse_value fuel r; Some (k, v, r)) = Some (k, v, tail)).
  { intros tail Ht Hlen. unfold render_member, quoted in *. cbn [fst snd] in *.
    rewrite length_app in Hlen. cbn [length] in Hlen. rewrite length_app in Hlen. cbn [length] in Hlen.
    rewrite <- (assoc_L (++)), <- !app_comm_cons, <- (assoc_L (++)), <- app_comm_cons. cbn [app].
    rewrite skip_eq. cbn [mbind option_bind]. rewrite parse_str_quoted by done. cbn [mbind option_bind].
    rewrite skip_eq. cbn [mbind option_bind]. rewrite Hv; [done|done|by apply sep_stops|lia]. }
  destruct l as [|m' l].
  - cbn [map commas] in *. specialize (Hone (0x7D :: r) ltac:(eauto) ltac:(lia)).
    destruct (skip 0x22 _) as [s1|]; [|done]. cbn [mbind option_bind] in *.
    destruct (parse_str s1) as [[k1 s2]|]; [|done]. cbn [mbind option_bind] in *.
    destruct (skip 0x3A s2) as [s3|]; [|done]. cbn [mbind option_bind] in *.
    destruct (parse_value fuel s3) as [[v1 s4]|]; [|done]. cbn [mbind option_bind] in *.
    injection Hone as -> -> ->. by rewrite skip_eq.
  - cbn [map] in *. rewrite commas_cons in *. rewrite length_app in Hl. cbn [length] in Hl.
    rewrite <- (assoc_L (++)), <- app_comm_cons.
    remember (commas (render_member m' :: map render_member l)) as cs eqn:Hcs.
    specialize (Hone (0x2C :: cs ++ 0x7D :: r) ltac:(eauto) ltac:(lia)).
    destruct (skip 0x22 _) as [s1|]; [|done]. cbn [mbind option_bind] in *.
    destruct (parse_str s1) as [[k1 s2]|]; [|done]. cbn [mbind option_bind] in *.
    destruct (skip 0x3A s2) as [s3|]; [|done]. cbn [mbind option_bind] in *.
    destruct (parse_value fuel s3) as [[v1 s4]|]; [|done]. cbn [mbind option_bind] in *.
    injection Hone as -> -> ->. change (skip 0x7D (0x2C :: ?s)) with (@None (list Z)). cbv iota.
    rewrite skip_eq. cbn [mbind option_bind]. subst cs. rewrite Hm; [done|exact Hoks|lia].
Qed.

Lemma parses_all fuel : parses fuel.
Proof.
  induction fuel as [|fuel IH].
  - split; [|split]; intros; try lia. destruct (render_head v) as (c & s & Hc & _); [done|].
    match goal with H : (length (render v) <= 0)%nat |- _ => rewrite Hc in H; cbn in H; lia end.
  - split; [by apply parses_value|]. split; [by apply parses_elements|by apply parses_members].
Qed.

(** For every value whose strings hold no control characters and whose
    numbers fit in 64 bits, parsing its text gives the value again. *)
Lemma parse_render (v : json) (Hok : json_ok v) : parse_json (render v) = Some v.
Proof.
  unfold parse_json. pose proof (proj1 (parses_all (length (render v))) v [] Hok ltac:(by intros ? ?) ltac:(lia)) as Hp.
  rewrite app_nil_r in Hp. by rewrite Hp.
Qed.
