(* ===== verification/Inventory.v ===== *)
(** * Host inventory (NucRedfishSyncDxe/NucRedfishInventory.c)

    What the host reports about itself: SMBIOS strings and records, identify
    data of drives, the firmware-management descriptor, and the JSON bodies
    built from them in bounded buffers.  A read outside an SMBIOS string area
    is [None]. *)

From S2P Require Import Prelude Services Uefi EdkStrings Json.

(** ** Constants *)

Definition NUC_REDFISH_JSON_MAX : Z := 1024.
Definition NUC_REDFISH_STR_MAX : Z := 64.
Definition NUC_REDFISH_MEMORY_MAX : nat := 8.
Definition NUC_REDFISH_PROCESSOR_MAX : nat := 4.
Definition NUC_REDFISH_DRIVE_MAX : nat := 8.
Definition NUC_REDFISH_BOOT_PROGRESS : list Z := lit "SystemHardwareInitializationComplete".
Definition NUC_REDFISH_FIRMWARE_INVENTORY_ID : list Z := lit "BiosFirmware".

(** ** SMBIOS records *)

(** String-number fields and values of the structure types the code reads,
    with OFFSET_OF + sizeof of the fields whose presence it checks. *)
Record SMBIOS_TABLE_TYPE1 := mkType1 {
  t1_Manufacturer : Z; t1_ProductName : Z; t1_SerialNumber : Z; t1_Uuid : list Z }.

Record SMBIOS_TABLE_TYPE4 := mkType4 {
  t4_Status : Z; t4_Socket : Z; t4_ProcessorManufacturer : Z; t4_ProcessorVersion : Z;
  t4_ProcessorType : Z; t4_MaxSpeed : Z; t4_CurrentSpeed : Z; t4_ProcessorId : Z;
  t4_SerialNumber : Z; t4_PartNumber : Z;
  t4_CoreCount : Z; t4_EnabledCoreCount : Z; t4_ThreadCount : Z;
  t4_CoreCount2 : Z; t4_EnabledCoreCount2 : Z; t4_ThreadCount2 : Z }.

Record SMBIOS_TABLE_TYPE17 := mkType17 {
  t17_TotalWidth : Z; t17_DataWidth : Z; t17_Size : Z; t17_FormFactor : Z;
  t17_DeviceLocator : Z; t17_BankLocator : Z; t17_MemoryType : Z; t17_Speed : Z;
  t17_Manufacturer : Z; t17_SerialNumber : Z; t17_PartNumber : Z;
  t17_ExtendedSize : Z; t17_ConfiguredMemoryClockSpeed : Z }.

Inductive smbios_body :=
  | Type0 (BiosVersion : Z)
  | Type1 (t : SMBIOS_TABLE_TYPE1)
  | Type4 (t : SMBIOS_TABLE_TYPE4)
  | Type17 (t : SMBIOS_TABLE_TYPE17)
  | OtherType.

(** [r_strings] is the memory from the end of the formatted area on. *)
Record smbios_record := mkRecord { r_length : Z; r_body : smbios_body; r_strings : list Z }.

Definition TYPE17_END_ExtendedSize : Z := 0x1C + 4.
Definition TYPE17_END_ConfiguredSpeed : Z := 0x20 + 2.
Definition TYPE4_END_PartNumber : Z := 0x22 + 1.
Definition TYPE4_END_ThreadCount : Z := 0x25 + 1.
Definition TYPE4_END_ThreadCount2 : Z := 0x2E + 2.

(** ** Drives and firmware descriptors *)

Inductive disk_interface := NvmeInterface | AhciInterface | IdeInterface | OtherInterface.
Record nvme_identify := mkNvme { nv_Mn : list Z; nv_Sn : list Z; nv_Fr : list Z }.
Record ata_identify := mkAta {
  ata_ModelName : list Z; ata_SerialNo : list Z; ata_FirmwareVer : list Z; ata_rotation_rate : Z }.
Record block_media := mkMedia { MediaPresent : bool; LastBlock : Z; BlockSize : Z }.

Record fmp_descriptor := mkDesc {
  fd_DescriptorVersion : Z; fd_DescriptorCount : Z; fd_PackageVersionName : option Z;
  fd_ImageTypeId : EFI_GUID; fd_ImageIdName : option (list Z); fd_VersionName : option (list Z);
  fd_Version : Z; fd_LowestSupportedImageVersion : Z; fd_AttributesSetting : Z;
  fd_LastAttemptVersion : Z; fd_LastAttemptStatus : Z }.

(** ** What is reported *)

(** A CHAR8 array holds the string up to its NUL; a CONST CHAR8 pointer that
    may be NULL is an option. *)
Record NUC_REDFISH_HOST_INVENTORY := mkHost {
  hi_BiosVersion : list Z; hi_Manufacturer : list Z; hi_Model : list Z; hi_SerialNumber : list Z;
  hi_Uuid : list Z; hi_UuidValid : bool }.

Record NUC_REDFISH_MEMORY_MODULE := mkModule {
  mm_DeviceLocator : list Z; mm_BankLocator : list Z; mm_Manufacturer : list Z;
  mm_SerialNumber : list Z; mm_PartNumber : list Z;
  mm_MemoryDeviceType : option (list Z); mm_BaseModuleType : option (list Z);
  mm_CapacityMiB : Z; mm_OperatingSpeedMhz : Z; mm_RatedSpeedMhz : Z;
  mm_DataWidthBits : Z; mm_BusWidthBits : Z }.

Record NUC_REDFISH_PROCESSOR := mkProcessor {
  pr_Socket : list Z; pr_Manufacturer : list Z; pr_Model : list Z; pr_SerialNumber : list Z;
  pr_PartNumber : list Z; pr_IdRegisters : list Z; pr_ProcessorType : option (list Z);
  pr_MaxSpeedMhz : Z; pr_OperatingSpeedMhz : Z; pr_TotalCores : Z; pr_TotalEnabledCores : Z;
  pr_TotalThreads : Z; pr_Enabled : bool }.

Record NUC_REDFISH_DRIVE := mkDrive {
  dr_Model : list Z; dr_SerialNumber : list Z; dr_Revision : list Z;
  dr_Protocol : option (list Z); dr_MediaType : option (list Z); dr_CapacityBytes : Z }.

Record NUC_REDFISH_FIRMWARE_STATUS := mkFirmware {
  fs_Name : list Z; fs_Version : list Z; fs_ImageTypeId : list Z; fs_VersionNumber : Z;
  fs_LowestSupportedVersion : Z; fs_LastAttemptVersion : Z; fs_LastAttemptStatus : Z;
  fs_HasLastAttempt : bool; fs_Updateable : bool }.

(** ** The services of the driver *)

Record load_option := mkOption {
  OptionNumber : Z; Attributes : Z; FilePath : option (list dp_node) }.

Inductive rf_op :=
  | AllocateZeroPool (size : Z)
  | FreePool (p : Z)
  | LocateSmbios
  | LocateDiskInfoHandles
  | HandleDiskInfo (h : Z)
  | HandleDevicePath (h : Z)
  | LocateNvmePassThru (h : Z)
  | HandlePassThru (h : Z)
  | NvmeIdentify (passthru : Z)
  | AtaIdentify (diskinfo : Z)
  | HandleBlockIo (h : Z)
  | LocateFmpHandles
  | HandleFmp (h : Z)
  | GetImageInfoSize (fmp : Z)
  | GetImageInfo (fmp size : Z)
  | RedfishCreateService
  | RedfishHttpGet (service : Z) (uri : list Z)
  | RedfishHttpPatch (service : Z) (uri body : list Z)
  | RedfishHttpPost (service : Z) (uri body : list Z)
  | RedfishHttpFreeResponse
  | GetLoadOptions
  | FreeLoadOptions
  | SetBootNext (n : Z)
  | ResetSystemCold
  | Stall (us : Z)
  | InstallConfigHandler.

(** LocateSmbios answers with the records GetNext will return; a GET answers
    with the payload it carries, if any. *)
Definition rf_res (c : rf_op) : Type :=
  match c with
  | AllocateZeroPool _ => option Z
  | LocateSmbios => EFI_STATUS * list smbios_record
  | LocateDiskInfoHandles => EFI_STATUS * (Z * list Z)
  | HandleDiskInfo _ => EFI_STATUS * (Z * disk_interface)
  | LocateNvmePassThru _ => EFI_STATUS * Z
  | HandlePassThru _ => EFI_STATUS * Z
  | NvmeIdentify _ => EFI_STATUS * nvme_identify
  | AtaIdentify _ => EFI_STATUS * ata_identify
  | HandleBlockIo _ => EFI_STATUS * option block_media
  | LocateFmpHandles => EFI_STATUS * (Z * list Z)
  | HandleFmp _ => EFI_STATUS * Z
  | GetImageInfoSize _ => EFI_STATUS * Z
  | GetImageInfo _ _ => EFI_STATUS * fmp_descriptor
  | RedfishCreateService => option Z
  | RedfishHttpGet _ _ => EFI_STATUS * option json
  | GetLoadOptions => option (list load_option)
  | HandleDevicePath _ | RedfishHttpPatch _ _ _ | RedfishHttpPost _ _ _ | SetBootNext _
  | InstallConfigHandler => EFI_STATUS
  | FreePool _ | RedfishHttpFreeResponse | FreeLoadOptions | ResetSystemCold | Stall _ => unit
  end.

Definition rf : sig := Sig rf_op rf_res.

(** ** Strings *)

(** The walk over the string list; fuel exhaustion is [None], like a stray
    read. *)
Fixpoint smbios_walk (fuel : nat) (Walker : list Z) (Current Index : Z) : option (option (list Z)) :=
  match fuel with
  | O => None
  | S fuel =>
      c ← mem_get Walker 0;
      if c =? 0 then Some None
      else if Current =? Index then Some (Some (cstr Walker))
      else smbios_walk fuel (drop (length (cstr Walker) + 1) Walker) (wrap 8 (Current + 1)) Index
  end.

Definition SmbiosGetString (r : smbios_record) (Index : Z) : option (option (list Z)) :=
  if Index =? 0 then Some None
  else smbios_walk (S (length (r_strings r))) (r_strings r) 1 Index.

Definition CopyInventoryString (DestSize : Z) (Source : option (list Z)) : list Z :=
  match Source with
  | None => []
  | Some Source =>
      let Length := len Source in
      let Length := if DestSize <=? Length then DestSize - 1 else Length in
      take (Z.to_nat Length) Source
  end.

(** The field a record's string number selects, cut to a 64-byte array. *)
Definition inventory_string (r : smbios_record) (Index : Z) : option (list Z) :=
  CopyInventoryString NUC_REDFISH_STR_MAX <$> SmbiosGetString r Index.

(** Dest[Index] = Source[SwapPairs ? Index ^ 1 : Index] *)
Definition identify_char (Source : list Z) (SwapPairs : bool) (Index : Z) : option Z :=
  mem_get Source (if SwapPairs then Z.lxor Index 1 else Index).

(** Drop trailing characters up to the space. *)
Fixpoint trim_trailing (rev : list Z) : list Z :=
  match rev with
  | c :: rev' => if c <=? 0x20 then trim_trailing rev' else rev
  | [] => []
  end.
Fixpoint trim_leading (s : list Z) : list Z :=
  match s with
  | c :: s' => if c =? 0x20 then trim_leading s' else s
  | [] => []
  end.

(** The C string left in [Dest]. *)
Definition CopyIdentifyString (DestSize : Z) (Source : list Z) (SwapPairs : bool) : option (list Z) :=
  if DestSize =? 0 then Some []
  else
    let Length := len Source in
    let Length := if DestSize <=? Length then DestSize - 1 else Length in
    Dest ← mapM (identify_char Source SwapPairs) (seqZ 0 Length);
    Some (cstr (trim_leading (rev (trim_trailing (rev Dest))))).

(** CHAR16 to 7-bit ASCII; the loop stops at the NUL or at the end of
    [Dest]. *)
Definition CopyFmpString (Source : option (list Z)) (DestSize : Z) : list Z :=
  if DestSize =? 0 then []
  else match Source with
       | None => []
       | Some Source => map (fun c => if c <? 0x80 then c else 0x3F) (take (Z.to_nat (DestSize - 1)) (cstr Source))
       end.

(** ** SMBIOS decoding *)

Definition RedfishMemoryDeviceType (SmbiosMemoryType : Z) : option (list Z) :=
  if SmbiosMemoryType =? 0x0F then Some (lit "SDRAM")
  else if SmbiosMemoryType =? 0x12 then Some (lit "DDR")
  else if SmbiosMemoryType =? 0x13 then Some (lit "DDR2")
  else if SmbiosMemoryType =? 0x18 then Some (lit "DDR3")
  else if SmbiosMemoryType =? 0x1A then Some (lit "DDR4")
  else if SmbiosMemoryType =? 0x1B then Some (lit "LPDDR_SDRAM")
  else if SmbiosMemoryType =? 0x1C then Some (lit "LPDDR2_SDRAM")
  else if SmbiosMemoryType =? 0x1D then Some (lit "LPDDR3_SDRAM")
  else if SmbiosMemoryType =? 0x1E then Some (lit "LPDDR4_SDRAM")
  else None.

Definition RedfishBaseModuleType (FormFactor : Z) : option (list Z) :=
  if FormFactor =? 0x0D then Some (lit "SO_DIMM")
  else if FormFactor =? 0x09 then Some (lit "UDIMM")
  else if FormFactor =? 0x0C then Some (lit "RDIMM")
  else if FormFactor =? 0x0F then Some (lit "LRDIMM")
  else None.

Definition RedfishMemoryCapacityMiB (Length : Z) (t : SMBIOS_TABLE_TYPE17) : Z :=
  if (t17_Size t =? 0) || (t17_Size t =? 0xFFFF) then 0
  else if t17_Size t =? 0x7FFF then
    if Length <? TYPE17_END_ExtendedSize then 0 else Z.land (t17_ExtendedSize t) 0x7FFFFFFF
  else if negb (Z.land (t17_Size t) 0x8000 =? 0) then Z.land (t17_Size t) 0x7FFF / 1024
  else t17_Size t.

Definition RedfishProcessorType (SmbiosProcessorType : Z) : option (list Z) :=
  if SmbiosProcessorType =? 3 then Some (lit "CPU")
  else if SmbiosProcessorType =? 5 then Some (lit "DSP")
  else if SmbiosProcessorType =? 6 then Some (lit "GPU")
  else None.

Definition ProcessorCount (Narrow Wide : Z) (WideValid : bool) : Z :=
  if (Narrow =? 0xFF) && WideValid then Wide else Narrow.

(** One populated type 17 record as a module. *)
Definition memory_module (r : smbios_record) (t : SMBIOS_TABLE_TYPE17) (Capacity : Z)
    : option NUC_REDFISH_MEMORY_MODULE :=
  DeviceLocator ← inventory_string r (t17_DeviceLocator t);
  BankLocator ← inventory_string r (t17_BankLocator t);
  Manufacturer ← inventory_string r (t17_Manufacturer t);
  SerialNumber ← inventory_string r (t17_SerialNumber t);
  PartNumber ← inventory_string r (t17_PartNumber t);
  let Operating := if TYPE17_END_ConfiguredSpeed <=? r_length r then t17_ConfiguredMemoryClockSpeed t else 0 in
  let Operating := if Operating =? 0 then t17_Speed t else Operating in
  Some (mkModule DeviceLocator BankLocator Manufacturer SerialNumber PartNumber
          (RedfishMemoryDeviceType (t17_MemoryType t)) (RedfishBaseModuleType (t17_FormFactor t))
          Capacity Operating (t17_Speed t) (t17_DataWidth t) (t17_TotalWidth t)).

(** The GetNext loop of CollectMemory. *)
Fixpoint collect_memory_loop (records : list smbios_record) (Max : nat) (Modules : list NUC_REDFISH_MEMORY_MODULE)
    : option (list NUC_REDFISH_MEMORY_MODULE) :=
  match records with
  | [] => Some Modules
  | r :: records =>
      match r_body r with
      | Type17 t =>
          if (Max <=? length Modules)%nat then Some Modules
          else
            let Capacity := RedfishMemoryCapacityMiB (r_length r) t in
            if Capacity =? 0 then collect_memory_loop records Max Modules
            else
              m ← memory_module r t Capacity;
              collect_memory_loop records Max (Modules ++ [m])
      | _ => collect_memory_loop records Max Modules
      end
  end.

(** [None] for the whole program is a stray read; the answer is the status
    and the modules written. *)
Definition NucRedfishCollectMemory (Max : nat) : fw rf (option (EFI_STATUS * list NUC_REDFISH_MEMORY_MODULE)) :=
  if (Max =? 0)%nat then mret (Some (EFI_INVALID_PARAMETER, []))
  else
    '(Status, records) ← call (S := rf) LocateSmbios;
    if EFI_ERROR Status then mret (Some (EFI_NOT_FOUND, []))
    else mret (pair EFI_SUCCESS <$> collect_memory_loop records Max []).

Section inventory.
Context `{EdkStrings}.

(** ** UUID and GUID text *)

Definition hexbytes (b : list Z) : list Z := flat_map (hex 2) b.

(** Byte [i] of the UUID field. *)
Definition ub (Uuid : list Z) (i : nat) : Z := nth i Uuid 0.

Definition uuid_text (u : list Z) : list Z :=
  hexbytes [ub u 3; ub u 2; ub u 1; ub u 0] ++ lit "-" ++ hexbytes [ub u 5; ub u 4] ++ lit "-"
  ++ hexbytes [ub u 7; ub u 6] ++ lit "-" ++ hexbytes [ub u 8; ub u 9] ++ lit "-"
  ++ hexbytes [ub u 10; ub u 11; ub u 12; ub u 13; ub u 14; ub u 15].

(** [None] is FALSE. *)
Definition RenderSmbiosUuid (Uuid : list Z) : option (list Z) :=
  let Or := fold_left Z.lor (take 16 Uuid) 0x00 in
  let And := fold_left Z.land (take 16 Uuid) 0xFF in
  if (Or =? 0x00) || (And =? 0xFF) then None else Some (AsciiSPrint 37 (uuid_text Uuid)).

Definition RenderFmpGuid (Guid : EFI_GUID) (TextSize : Z) : list Z :=
  let d4 i := nth i (Data4 Guid) 0 in
  AsciiSPrint TextSize
    (hex 8 (Data1 Guid) ++ lit "-" ++ hex 4 (Data2 Guid) ++ lit "-" ++ hex 4 (Data3 Guid) ++ lit "-"
     ++ hexbytes [d4 0%nat; d4 1%nat] ++ lit "-"
     ++ hexbytes [d4 2%nat; d4 3%nat; d4 4%nat; d4 5%nat; d4 6%nat; d4 7%nat]).

(** ** Type 0 and type 1 *)

Definition empty_host : NUC_REDFISH_HOST_INVENTORY := mkHost [] [] [] [] [] false.

Fixpoint collect_inventory_loop (records : list smbios_record) (i : NUC_REDFISH_HOST_INVENTORY)
    : option NUC_REDFISH_HOST_INVENTORY :=
  match records with
  | [] => Some i
  | r :: records =>
      match r_body r with
      | Type0 v =>
          BiosVersion ← inventory_string r v;
          collect_inventory_loop records
            (mkHost BiosVersion (hi_Manufacturer i) (hi_Model i) (hi_SerialNumber i) (hi_Uuid i) (hi_UuidValid i))
      | Type1 t =>
          Manufacturer ← inventory_string r (t1_Manufacturer t);
          Model ← inventory_string r (t1_ProductName t);
          SerialNumber ← inventory_string r (t1_SerialNumber t);
          let '(Uuid, UuidValid) := match RenderSmbiosUuid (t1_Uuid t) with
                                    | Some text => (text, true)
                                    | None => (hi_Uuid i, false)
                                    end in
          collect_inventory_loop records
            (mkHost (hi_BiosVersion i) Manufacturer Model SerialNumber Uuid UuidValid)
      | _ => collect_inventory_loop records i
      end
  end.

Definition NucRedfishCollectInventory : fw rf (option (EFI_STATUS * NUC_REDFISH_HOST_INVENTORY)) :=
  '(Status, records) ← call (S := rf) LocateSmbios;
  if EFI_ERROR Status then mret (Some (EFI_NOT_FOUND, empty_host))
  else mret (pair EFI_SUCCESS <$> collect_inventory_loop records empty_host).

(** ** Type 4 *)

Definition processor (r : smbios_record) (t : SMBIOS_TABLE_TYPE4) : option NUC_REDFISH_PROCESSOR :=
  Socket ← inventory_string r (t4_Socket t);
  Manufacturer ← inventory_string r (t4_ProcessorManufacturer t);
  Model ← inventory_string r (t4_ProcessorVersion t);
  let IdRegisters := if t4_ProcessorId t =? 0 then []
                     else AsciiSPrint 19 (lit "0x" ++ hex 16 (t4_ProcessorId t)) in
  '(SerialNumber, PartNumber) ←
    (if TYPE4_END_PartNumber <=? r_length r then
       s ← inventory_string r (t4_SerialNumber t);
       p ← inventory_string r (t4_PartNumber t);
       Some (s, p)
     else Some ([], []));
  let HasCounts := TYPE4_END_ThreadCount <=? r_length r in
  let HasWideCounts := TYPE4_END_ThreadCount2 <=? r_length r in
  let count n w := if HasCounts then ProcessorCount n w HasWideCounts else 0 in
  Some (mkProcessor Socket Manufacturer Model SerialNumber PartNumber IdRegisters
          (RedfishProcessorType (t4_ProcessorType t)) (t4_MaxSpeed t) (t4_CurrentSpeed t)
          (count (t4_CoreCount t) (t4_CoreCount2 t))
          (count (t4_EnabledCoreCount t) (t4_EnabledCoreCount2 t))
          (count (t4_ThreadCount t) (t4_ThreadCount2 t))
          (Z.land (t4_Status t) 0x07 =? 1)).

Fixpoint collect_processors_loop (records : list smbios_record) (Max : nat) (Processors : list NUC_REDFISH_PROCESSOR)
    : option (list NUC_REDFISH_PROCESSOR) :=
  match records with
  | [] => Some Processors
  | r :: records =>
      match r_body r with
      | Type4 t =>
          if (Max <=? length Processors)%nat then Some Processors
          else if Z.land (t4_Status t) 0x40 =? 0 then collect_processors_loop records Max Processors
          else
            p ← processor r t;
            collect_processors_loop records Max (Processors ++ [p])
      | _ => collect_processors_loop records Max Processors
      end
  end.

Definition NucRedfishCollectProcessors (Max : nat) : fw rf (option (EFI_STATUS * list NUC_REDFISH_PROCESSOR)) :=
  if (Max =? 0)%nat then mret (Some (EFI_INVALID_PARAMETER, []))
  else
    '(Status, records) ← call (S := rf) LocateSmbios;
    if EFI_ERROR Status then mret (Some (EFI_NOT_FOUND, []))
    else mret (pair EFI_SUCCESS <$> collect_processors_loop records Max []).

(** ** JSON members *)

(** The escaping loop over [Escaped[STR_MAX * 2]]. *)
Fixpoint escape_loop (Value Escaped : list Z) : list Z :=
  match Value with
  | [] => Escaped
  | c :: Value =>
      if len Escaped <? NUC_REDFISH_STR_MAX * 2 - 2 then
        escape_loop Value (Escaped ++ (if (c =? 0x22) || (c =? 0x5C) then [0x5C; c]
                                       else if c <? 0x20 then [0x20] else [c]))
      else Escaped
  end.

Definition AppendJsonString (Json : list Z) (JsonSize : Z) (Name : list Z) (Value : option (list Z)) : list Z :=
  match Value with
  | None | Some [] => Json
  | Some Value =>
      cat_all JsonSize Json [jlit ",'"; Name; jlit "':'"; escape_loop Value []; jlit "'"]
  end.

Definition AppendJsonNumber (Json : list Z) (JsonSize : Z) (Name : list Z) (Value : Z) : list Z :=
  if Value =? 0 then Json
  else AsciiStrCatS Json JsonSize (AsciiSPrint 32 (jlit ",'" ++ Name ++ jlit "':" ++ sdec 32 Value)).

(** ** Bodies *)

(** Each builder allocates, fills and hands out a buffer; the answer is the
    status, the pool pointer and the text. *)
Definition build (body : list Z) : fw rf (EFI_STATUS * option (Z * list Z)) :=
  Body ← call (S := rf) (AllocateZeroPool NUC_REDFISH_JSON_MAX);
  mret (match Body with
        | None => (EFI_OUT_OF_RESOURCES, None)
        | Some p => (EFI_SUCCESS, Some (p, body))
        end).

Definition system_patch (i : NUC_REDFISH_HOST_INVENTORY) : list Z :=
  let M := NUC_REDFISH_JSON_MAX in
  let b := AsciiSPrint M (jlit "{'BootProgress':{'LastState':'" ++ NUC_REDFISH_BOOT_PROGRESS ++ jlit "'}") in
  let b := AppendJsonString b M (lit "BiosVersion") (Some (hi_BiosVersion i)) in
  let b := AppendJsonString b M (lit "Manufacturer") (Some (hi_Manufacturer i)) in
  let b := AppendJsonString b M (lit "Model") (Some (hi_Model i)) in
  let b := AppendJsonString b M (lit "SerialNumber") (Some (hi_SerialNumber i)) in
  let b := if hi_UuidValid i then AppendJsonString b M (lit "UUID") (Some (hi_Uuid i)) else b in
  AsciiStrCatS b M (lit "}").
Definition NucRedfishBuildSystemPatch (i : NUC_REDFISH_HOST_INVENTORY) := build (system_patch i).

Definition memory_post (m : NUC_REDFISH_MEMORY_MODULE) : list Z :=
  let M := NUC_REDFISH_JSON_MAX in
  let b := AsciiSPrint M (jlit "{'@odata.type':'#Memory.v1_7_1.Memory'"
                          ++ jlit ",'Status':{'State':'Enabled','Health':'OK'}"
                          ++ jlit ",'MemoryType':'DRAM'") in
  let b := AppendJsonString b M (lit "DeviceLocator") (Some (mm_DeviceLocator m)) in
  let b := AppendJsonString b M (lit "Name") (Some (mm_DeviceLocator m)) in
  let b := AppendJsonString b M (lit "Manufacturer") (Some (mm_Manufacturer m)) in
  let b := AppendJsonString b M (lit "SerialNumber") (Some (mm_SerialNumber m)) in
  let b := AppendJsonString b M (lit "PartNumber") (Some (mm_PartNumber m)) in
  let b := AppendJsonString b M (lit "MemoryDeviceType") (mm_MemoryDeviceType m) in
  let b := AppendJsonString b M (lit "BaseModuleType") (mm_BaseModuleType m) in
  let b := AppendJsonNumber b M (lit "CapacityMiB") (mm_CapacityMiB m) in
  let b := AppendJsonNumber b M (lit "OperatingSpeedMhz") (mm_OperatingSpeedMhz m) in
  let b := AppendJsonNumber b M (lit "DataWidthBits") (mm_DataWidthBits m) in
  let b := AppendJsonNumber b M (lit "BusWidthBits") (mm_BusWidthBits m) in
  let b := if mm_RatedSpeedMhz m =? 0 then b
           else AsciiStrCatS b M (AsciiSPrint 48 (jlit ",'AllowedSpeedsMHz':[" ++ sdec 32 (mm_RatedSpeedMhz m) ++ lit "]")) in
  AsciiStrCatS b M (lit "}").
Definition NucRedfishBuildMemoryPost (m : NUC_REDFISH_MEMORY_MODULE) := build (memory_post m).

Definition processor_post (p : NUC_REDFISH_PROCESSOR) : list Z :=
  let M := NUC_REDFISH_JSON_MAX in
  let b := AsciiSPrint M (jlit "{'@odata.type':'#Processor.v1_14_0.Processor'"
                          ++ jlit ",'Status':{'State':'" ++ (if pr_Enabled p then lit "Enabled" else lit "Disabled")
                          ++ jlit "','Health':'OK'}"
                          ++ jlit ",'ProcessorArchitecture':'x86'"
                          ++ jlit ",'InstructionSet':'x86-64'") in
  let b := AppendJsonString b M (lit "ProcessorType") (pr_ProcessorType p) in
  let b := AppendJsonString b M (lit "Socket") (Some (pr_Socket p)) in
  let b := AppendJsonString b M (lit "Name") (Some (pr_Socket p)) in
  let b := AppendJsonString b M (lit "Manufacturer") (Some (pr_Manufacturer p)) in
  let b := AppendJsonString b M (lit "Model") (Some (pr_Model p)) in
  let b := AppendJsonString b M (lit "SerialNumber") (Some (pr_SerialNumber p)) in
  let b := AppendJsonString b M (lit "PartNumber") (Some (pr_PartNumber p)) in
  let b := AppendJsonNumber b M (lit "MaxSpeedMHz") (pr_MaxSpeedMhz p) in
  let b := AppendJsonNumber b M (lit "OperatingSpeedMHz") (pr_OperatingSpeedMhz p) in
  let b := AppendJsonNumber b M (lit "TotalCores") (pr_TotalCores p) in
  let b := AppendJsonNumber b M (lit "TotalEnabledCores") (pr_TotalEnabledCores p) in
  let b := AppendJsonNumber b M (lit "TotalThreads") (pr_TotalThreads p) in
  let b := match pr_IdRegisters p with
           | [] => b
           | id => AsciiStrCatS b M (AsciiSPrint 80
                     (jlit ",'ProcessorId':{'IdentificationRegisters':'" ++ id ++ jlit "'}"))
           end in
  AsciiStrCatS b M (lit "}").
Definition NucRedfishBuildProcessorPost (p : NUC_REDFISH_PROCESSOR) := build (processor_post p).

Definition drive_post (d : NUC_REDFISH_DRIVE) : list Z :=
  let M := NUC_REDFISH_JSON_MAX in
  let b := AsciiSPrint M (jlit "{'@odata.type':'#Drive.v1_4_0.Drive'"
                          ++ jlit ",'Status':{'State':'Enabled','Health':'OK'}") in
  let b := AppendJsonString b M (lit "Name") (Some (dr_Model d)) in
  let b := AppendJsonString b M (lit "Model") (Some (dr_Model d)) in
  let b := AppendJsonString b M (lit "SerialNumber") (Some (dr_SerialNumber d)) in
  let b := AppendJsonString b M (lit "Revision") (Some (dr_Revision d)) in
  let b := AppendJsonString b M (lit "Protocol") (dr_Protocol d) in
  let b := AppendJsonString b M (lit "MediaType") (dr_MediaType d) in
  let b := if dr_CapacityBytes d =? 0 then b
           else AsciiStrCatS b M (AsciiSPrint 48 (jlit ",'CapacityBytes':" ++ sdec 64 (dr_CapacityBytes d))) in
  AsciiStrCatS b M (lit "}").
Definition NucRedfishBuildDrivePost (d : NUC_REDFISH_DRIVE) := build (drive_post d).

Definition firmware_patch (f : NUC_REDFISH_FIRMWARE_STATUS) : list Z :=
  let M := NUC_REDFISH_JSON_MAX in
  let b := AsciiSPrint M (jlit "{'@odata.type':'#SoftwareInventory.v1_2_3.SoftwareInventory'"
                          ++ jlit ",'Id':'" ++ NUC_REDFISH_FIRMWARE_INVENTORY_ID ++ jlit "'"
                          ++ jlit ",'Version':'" ++ (match fs_Version f with [] => lit "unknown" | v => v end) ++ jlit "'"
                          ++ jlit ",'Updateable':" ++ (if fs_Updateable f then lit "true" else lit "false")
                          ++ jlit ",'Status':{'State':'Enabled','Health':'OK'}") in
  let b := AppendJsonString b M (lit "Name") (Some (fs_Name f)) in
  let b := AppendJsonString b M (lit "SoftwareId") (Some (fs_ImageTypeId f)) in
  let b := AsciiStrCatS b M (AsciiSPrint 160
             (jlit ",'Oem':{'PiBmc':{'FirmwareVersion':" ++ udec (fs_VersionNumber f)
              ++ jlit ",'LowestSupportedVersion':" ++ udec (fs_LowestSupportedVersion f))) in
  let b := if fs_HasLastAttempt f then
             AsciiStrCatS b M (AsciiSPrint 160
               (jlit ",'LastAttemptVersion':" ++ udec (fs_LastAttemptVersion f)
                ++ jlit ",'LastAttemptStatus':" ++ udec (fs_LastAttemptStatus f)))
           else b in
  AsciiStrCatS b M (lit "}}}").
Definition NucRedfishBuildFirmwareInventoryPatch (f : NUC_REDFISH_FIRMWARE_STATUS) := build (firmware_patch f).
End inventory.

(** ** Drives *)

Definition empty_drive : NUC_REDFISH_DRIVE := mkDrive [] [] [] None None 0.

(** The drive as filled in, or [None] for a stray read; the identity is kept
    only with EFI_SUCCESS. *)
Definition CollectNvmeDrive (Handle : Z) : fw rf (option (EFI_STATUS * NUC_REDFISH_DRIVE)) :=
  Status ← call (S := rf) (HandleDevicePath Handle);
  if EFI_ERROR Status then mret (Some (Status, empty_drive))
  else
    '(Status, Handle) ← call (S := rf) (LocateNvmePassThru Handle);
    if EFI_ERROR Status then mret (Some (Status, empty_drive))
    else
      '(Status, Passthru) ← call (S := rf) (HandlePassThru Handle);
      if EFI_ERROR Status then mret (Some (Status, empty_drive))
      else
        '(Status, Data) ← call (S := rf) (NvmeIdentify Passthru);
        if EFI_ERROR Status then mret (Some (Status, empty_drive))
        else
          mret (Model ← CopyIdentifyString NUC_REDFISH_STR_MAX (nv_Mn Data) false;
                SerialNumber ← CopyIdentifyString NUC_REDFISH_STR_MAX (nv_Sn Data) false;
                Revision ← CopyIdentifyString NUC_REDFISH_STR_MAX (nv_Fr Data) false;
                Some (EFI_SUCCESS, mkDrive Model SerialNumber Revision (Some (lit "NVMe")) (Some (lit "SSD")) 0)).

Definition ata_media_type (rate : Z) : option (list Z) :=
  if rate =? 1 then Some (lit "SSD")
  else if (0x0401 <=? rate) && (rate <=? 0xFFFE) then Some (lit "HDD")
  else None.

Definition CollectAtaDrive (DiskInfo : Z) : fw rf (option (EFI_STATUS * NUC_REDFISH_DRIVE)) :=
  '(Status, Data) ← call (S := rf) (AtaIdentify DiskInfo);
  if EFI_ERROR Status then mret (Some (Status, empty_drive))
  else
    mret (Model ← CopyIdentifyString NUC_REDFISH_STR_MAX (ata_ModelName Data) true;
          SerialNumber ← CopyIdentifyString NUC_REDFISH_STR_MAX (ata_SerialNo Data) true;
          Revision ← CopyIdentifyString NUC_REDFISH_STR_MAX (ata_FirmwareVer Data) true;
          Some (EFI_SUCCESS, mkDrive Model SerialNumber Revision (Some (lit "SATA"))
                               (ata_media_type (ata_rotation_rate Data)) 0)).

(** The drive was reported before: same serial number and model. *)
Definition same_drive (a b : NUC_REDFISH_DRIVE) : bool :=
  bool_decide (dr_SerialNumber a = dr_SerialNumber b) && bool_decide (dr_Model a = dr_Model b).

Definition with_capacity (d : NUC_REDFISH_DRIVE) (Status : EFI_STATUS) (Media : option block_media) : NUC_REDFISH_DRIVE :=
  match Media with
  | Some m =>
      if negb (EFI_ERROR Status) && MediaPresent m
      then mkDrive (dr_Model d) (dr_SerialNumber d) (dr_Revision d) (dr_Protocol d) (dr_MediaType d)
             (wrap 64 (wrap 64 (LastBlock m + 1) * BlockSize m))
      else d
  | None => d
  end.

Fixpoint collect_drives_loop (Handles : list Z) (Max : nat) (Drives : list NUC_REDFISH_DRIVE)
    : fw rf (option (list NUC_REDFISH_DRIVE)) :=
  match Handles with
  | [] => mret (Some Drives)
  | h :: Handles =>
      if (Max <=? length Drives)%nat then mret (Some Drives)
      else
        '(Status, (DiskInfo, Interface)) ← call (S := rf) (HandleDiskInfo h);
        if EFI_ERROR Status then collect_drives_loop Handles Max Drives
        else
          match Interface with
          | OtherInterface => collect_drives_loop Handles Max Drives
          | _ =>
              r ←? match Interface with NvmeInterface => CollectNvmeDrive h | _ => CollectAtaDrive DiskInfo end;
              let '(Status, Drive) := r in
              if EFI_ERROR Status
                 || (bool_decide (dr_Model Drive = []) && bool_decide (dr_SerialNumber Drive = []))
              then collect_drives_loop Handles Max Drives
              else if existsb (fun d => same_drive d Drive) Drives
              then collect_drives_loop Handles Max Drives
              else
                '(Status, Media) ← call (S := rf) (HandleBlockIo h);
                collect_drives_loop Handles Max (Drives ++ [with_capacity Drive Status Media])
          end
  end.

Definition NucRedfishCollectDrives (Max : nat) : fw rf (option (EFI_STATUS * list NUC_REDFISH_DRIVE)) :=
  if (Max =? 0)%nat then mret (Some (EFI_INVALID_PARAMETER, []))
  else
    '(Status, (Buffer, Handles)) ← call (S := rf) LocateDiskInfoHandles;
    if EFI_ERROR Status then mret (Some (EFI_SUCCESS, []))
    else
      Drives ←? collect_drives_loop Handles Max [];
      _ ← call_ (S := rf) (FreePool Buffer);
      mret (Some (EFI_SUCCESS, Drives)).

(** ** Firmware status *)

Definition mNucRedfishFirmwareImageTypeId : EFI_GUID :=
  mkGuid 0xd25f89e1 0x94ec 0x4533 [0x80; 0xb9; 0x7f; 0x88; 0x55; 0xce; 0x0a; 0x94].
Definition IMAGE_ATTRIBUTE_IMAGE_UPDATABLE : Z := 1.
Definition LAST_ATTEMPT_STATUS_SUCCESS : Z := 0.

Definition empty_firmware : NUC_REDFISH_FIRMWARE_STATUS := mkFirmware [] [] [] 0 0 0 0 false false.

Section firmware.
Context `{EdkStrings}.

Definition firmware_status (Info : fmp_descriptor) : NUC_REDFISH_FIRMWARE_STATUS :=
  let Has := (3 <=? fd_DescriptorVersion Info)
             && (negb (fd_LastAttemptStatus Info =? LAST_ATTEMPT_STATUS_SUCCESS)
                 || negb (fd_LastAttemptVersion Info =? 0)) in
  mkFirmware (CopyFmpString (fd_ImageIdName Info) NUC_REDFISH_STR_MAX)
    (CopyFmpString (fd_VersionName Info) NUC_REDFISH_STR_MAX)
    (RenderFmpGuid (fd_ImageTypeId Info) 37)
    (fd_Version Info) (fd_LowestSupportedImageVersion Info)
    (if Has then fd_LastAttemptVersion Info else 0) (if Has then fd_LastAttemptStatus Info else 0) Has
    (negb (Z.land (fd_AttributesSetting Info) IMAGE_ATTRIBUTE_IMAGE_UPDATABLE =? 0)).

Fixpoint firmware_loop (Handles : list Z) : fw rf (option NUC_REDFISH_FIRMWARE_STATUS) :=
  match Handles with
  | [] => mret None
  | h :: Handles =>
      '(Status, Fmp) ← call (S := rf) (HandleFmp h);
      if EFI_ERROR Status then firmware_loop Handles
      else
        '(Status, InfoSize) ← call (S := rf) (GetImageInfoSize Fmp);
        if negb (Status =? EFI_BUFFER_TOO_SMALL) then firmware_loop Handles
        else
          Info ← call (S := rf) (AllocateZeroPool InfoSize);
          match Info with
          | None => firmware_loop Handles
          | Some Buffer =>
              '(Status, Info) ← call (S := rf) (GetImageInfo Fmp InfoSize);
              let Found := negb (EFI_ERROR Status) && (0 <? fd_DescriptorCount Info)
                           && CompareGuid (fd_ImageTypeId Info) mNucRedfishFirmwareImageTypeId in
              _ ← match fd_PackageVersionName Info with
                  | Some p => call_ (S := rf) (FreePool p)
                  | None => mret tt
                  end;
              _ ← call_ (S := rf) (FreePool Buffer);
              if Found then mret (Some (firmware_status Info)) else firmware_loop Handles
          end
  end.

Definition NucRedfishCollectFirmwareStatus : fw rf (EFI_STATUS * NUC_REDFISH_FIRMWARE_STATUS) :=
  '(Status, (Buffer, Handles)) ← call (S := rf) LocateFmpHandles;
  if EFI_ERROR Status then mret (EFI_NOT_FOUND, empty_firmware)
  else
    Found ← firmware_loop Handles;
    _ ← call_ (S := rf) (FreePool Buffer);
    mret (match Found with Some f => (EFI_SUCCESS, f) | None => (EFI_NOT_FOUND, empty_firmware) end).
End firmware.
