(* ===== verification/InventorySpec.v ===== *)
(** * Strings of the inventory, and building JSON from them

    SMBIOS string lookup is exact and stays in its area; identify strings
    survive their encoding; the escaping loop and the bounded appends build
    the text of JSON objects member by member. *)

From S2P Require Import Prelude Services Uefi EdkStrings Json Inventory.

(** ** SMBIOS strings *)

(** A string list as SMBIOS lays it out: NUL-terminated strings, then a NUL;
    other structures follow. *)
Definition string_area (ss : list (list Z)) (rest : list Z) : list Z :=
  concat (map (fun s => s ++ [0]) ss) ++ 0 :: rest.
Definition smbios_string_ok (s : list Z) : Prop := s <> [] /\ Forall (fun c => c <> 0) s.

Lemma cstr_app s rest : Forall (fun c => c <> 0) s -> cstr (s ++ 0 :: rest) = s.
Proof.
  induction 1 as [|c s Hc _ IH]; [done|]. cbn. apply Z.eqb_neq in Hc. rewrite Hc. by f_equal.
Qed.

Lemma smbios_walk_spec fuel ss rest k i :
  Forall smbios_string_ok ss -> 1 <= k <= i -> i <= 255 -> (length ss < fuel)%nat ->
  smbios_walk fuel (string_area ss rest) k i = Some (ss !! Z.to_nat (i - k)).
Proof.
  intros Hss. revert fuel k. induction Hss as [|s ss [Hne Hnz] _ IH]; intros fuel k Hk Hi Hf;
    (destruct fuel as [|fuel]; [cbn in Hf; lia|]); [done|].
  unfold string_area. cbn [map concat]. rewrite <- !(assoc_L (++)). cbn [app smbios_walk].
  assert (Hget : exists c, mem_get (s ++ 0 :: concat (map (fun s => s ++ [0]) ss) ++ 0 :: rest) 0 = Some c /\ c <> 0).
  { destruct s as [|c s]; [done|]. apply Forall_cons in Hnz as [Hc _]. exists c. done. }
  destruct Hget as (c & Hget & Hc). rewrite Hget. cbn [mbind option_bind]. apply Z.eqb_neq in Hc. rewrite Hc.
  rewrite cstr_app by done. destruct (Z.eqb_spec k i) as [->|Hki].
  - rewrite Z.sub_diag. done.
  - assert (Hdrop : drop (length s + 1) (s ++ 0 :: concat (map (fun s => s ++ [0]) ss) ++ 0 :: rest)
                    = string_area ss rest).
    { change (0 :: concat (map (fun s => s ++ [0]) ss) ++ 0 :: rest) with ([0] ++ string_area ss rest).
      rewrite (assoc_L (++)). apply drop_app_length'. rewrite length_app. done. }
    rewrite Hdrop, wrap_id by (unfold is_uint; lia).
    rewrite IH by (cbn in Hf; lia). f_equal.
    replace (Z.to_nat (i - k)) with (S (Z.to_nat (i - (k + 1)))) by lia. done.
Qed.

Lemma string_area_length ss rest : (length ss < length (string_area ss rest))%nat.
Proof.
  unfold string_area. induction ss as [|s ss IH]; cbn [map concat]; rewrite ?length_app in *; cbn in *; lia.
Qed.

Lemma SmbiosGetString_spec r ss rest i :
  r_strings r = string_area ss rest -> Forall smbios_string_ok ss -> 0 <= i <= 255 ->
  SmbiosGetString r i = Some (if i =? 0 then None else ss !! Z.to_nat (i - 1)).
Proof.
  intros Hr Hss Hi. unfold SmbiosGetString. destruct (Z.eqb_spec i 0); [done|]. rewrite Hr.
  apply smbios_walk_spec; [done|lia|lia|]. pose proof (string_area_length ss rest). lia.
Qed.

(** String lookup in an SMBIOS structure is exact and safe.  For every
    well-formed string list, whatever follows it in memory, and every string
    number a field can hold, SmbiosGetString ends, reads only the list, and
    answers with the string of that number, or NULL for 0 and for numbers
    past the end. *)
Theorem SmbiosGetString_nth (r : smbios_record) (ss : list (list Z)) (rest : list Z) (i : Z)
    (Harea : r_strings r = string_area ss rest) (Hss : Forall smbios_string_ok ss) (Hi : 0 <= i <= 255) :
  SmbiosGetString r i = Some (if i =? 0 then None else ss !! Z.to_nat (i - 1)).
Proof. by eapply SmbiosGetString_spec. Qed.

Definition sample_strings : list (list Z) := [lit "Intel"; lit "NUC5i7RYH"].
Definition sample_record : smbios_record := mkRecord 8 (Type0 2) (string_area sample_strings [1; 2; 3]).

Lemma sample_strings_ok : Forall smbios_string_ok sample_strings.
Proof. repeat constructor; done. Qed.

Lemma SmbiosGetString_nth_witness : SmbiosGetString sample_record 2 = Some (Some (lit "NUC5i7RYH")).
Proof.
  exact (SmbiosGetString_nth sample_record sample_strings [1; 2; 3] 2 eq_refl sample_strings_ok
           ltac:(split; discriminate)).
Defined.

(** ** Identify strings *)

(** ATA's encoding: the bytes of each 16-bit word swapped. *)
Fixpoint swap_pairs (s : list Z) : list Z :=
  match s with
  | a :: b :: s => b :: a :: swap_pairs s
  | s => s
  end.

(** Neither end of the string is padding. *)
Definition trimmed (s : list Z) : Prop :=
  (forall c, head s = Some c -> 0x20 < c) /\ (forall c, last s = Some c -> 0x20 < c).

Lemma trim_trailing_pad k s : trim_trailing (repeat 0x20 k ++ s) = trim_trailing s.
Proof. induction k as [|k IH]; [done|]. cbn. exact IH. Qed.

Lemma trim_trailing_id s : (forall c, head s = Some c -> 0x20 < c) -> trim_trailing s = s.
Proof. destruct s as [|c s]; [done|]. intros Hc. cbn. destruct (Z.leb_spec c 0x20); [specialize (Hc c eq_refl); lia|done]. Qed.

Lemma trim_leading_id s : (forall c, head s = Some c -> 0x20 < c) -> trim_leading s = s.
Proof. destruct s as [|c s]; [done|]. intros Hc. cbn. destruct (Z.eqb_spec c 0x20); [specialize (Hc c eq_refl); lia|done]. Qed.

Lemma trim_padded s k :
  trimmed s -> trim_leading (rev (trim_trailing (rev (s ++ repeat 0x20 k)))) = s.
Proof.
  intros [Hh Hl]. rewrite rev_app_distr.
  replace (rev (repeat 0x20 k)) with (repeat 0x20 k)
    by (induction k as [|k IH]; [done|]; cbn [repeat rev]; rewrite <- IH; clear; induction k; cbn; [done|by f_equal]).
  rewrite trim_trailing_pad, trim_trailing_id.
  - rewrite rev_involutive. by apply trim_leading_id.
  - intros c Hc. apply Hl. rewrite <- Hc. rewrite <- (rev_involutive s) at 1.
    destruct (rev s) as [|x t]; [done|]. cbn. apply last_snoc.
Qed.

Lemma lxor_1 i : 0 <= i -> Z.lxor i 1 = if Z.even i then i + 1 else i - 1.
Proof. destruct i as [|[p|p|]|p]; intros Hi; cbn; try done; lia. Qed.

Lemma swap_pairs_length s : length (swap_pairs s) = length s.
Proof.
  cut (length (swap_pairs s) = length s /\ forall a, length (swap_pairs (a :: s)) = S (length s)); [tauto|].
  induction s as [|b s [IH1 IH2]]; [done|]. split; [apply IH2|]. intros a. cbn. by rewrite IH1.
Qed.

(** Reading with the index flipped undoes the swap. *)
Lemma swap_pairs_get s k i :
  length s = (2 * k)%nat -> 0 <= i < len s -> mem_get (swap_pairs s) (Z.lxor i 1) = mem_get s i.
Proof.
  revert s i. induction k as [|k IH]; intros s i Hl Hi.
  { unfold len in Hi. lia. }
  destruct s as [|a [|b s]]; [cbn in Hl; lia..|]. cbn [swap_pairs]. unfold len in Hi. cbn [length] in *.
  assert (Hcase : i = 0 \/ i = 1 \/ 2 <= i) by lia. destruct Hcase as [->|[->|H2]]; [done..|].
  specialize (IH s (i - 2) ltac:(lia) ltac:(unfold len; lia)).
  assert (Hx : Z.lxor i 1 = 2 + Z.lxor (i - 2) 1 /\ 0 <= Z.lxor (i - 2) 1).
  { rewrite !lxor_1 by lia. rewrite Z.even_sub. change (Z.even 2) with true. destruct (Z.even i) eqn:E; cbn; [lia|].
    assert (i <> 2) by (intros ->; done). lia. }
  destruct Hx as [-> Hx0]. revert IH. unfold mem_get.
  destruct (Z.ltb_spec (2 + Z.lxor (i - 2) 1) 0); [lia|]. destruct (Z.ltb_spec i 0); [lia|].
  destruct (Z.ltb_spec (Z.lxor (i - 2) 1) 0); [lia|]. destruct (Z.ltb_spec (i - 2) 0); [lia|].
  replace (Z.to_nat (2 + Z.lxor (i - 2) 1)) with (S (S (Z.to_nat (Z.lxor (i - 2) 1)))) by lia.
  replace (Z.to_nat i) with (S (S (Z.to_nat (i - 2)))) by lia. done.
Qed.

Lemma mapM_get (f : Z -> option Z) s :
  (forall i, 0 <= i < len s -> f i = mem_get s i) -> mapM f (seqZ 0 (len s)) = Some s.
Proof.
  intros Hf. apply mapM_Some_2, Forall2_same_length_lookup_2.
  { rewrite length_seqZ. unfold len. lia. }
  intros i x y Hx Hy. apply lookup_seqZ in Hx as [-> Hlt]. rewrite Hf by lia.
  unfold mem_get. destruct (Z.ltb_spec (0 + Z.of_nat i) 0); [lia|]. by replace (Z.to_nat (0 + Z.of_nat i)) with i by lia.
Qed.

Lemma identify_field s k swap :
  trimmed s -> Forall (fun c => c <> 0) s -> len s + Z.of_nat k < NUC_REDFISH_STR_MAX ->
  (swap = true -> exists n, length (s ++ repeat 0x20 k) = (2 * n)%nat) ->
  CopyIdentifyString NUC_REDFISH_STR_MAX
    (if swap : bool then swap_pairs (s ++ repeat 0x20 k) else s ++ repeat 0x20 k) swap = Some s.
Proof.
  intros Ht Hz Hl Heven. unfold CopyIdentifyString. change (NUC_REDFISH_STR_MAX =? 0) with false. cbv iota.
  set (f := s ++ repeat 0x20 k). set (src := if swap then swap_pairs f else f).
  assert (Hlen : len src = len f) by (subst src; destruct swap; [unfold len; by rewrite swap_pairs_length|done]).
  assert (Hf : len f = len s + Z.of_nat k) by (subst f; unfold len; rewrite length_app, repeat_length; lia).
  destruct (Z.leb_spec NUC_REDFISH_STR_MAX (len src)); [lia|]. rewrite Hlen.
  assert (Hm : mapM (identify_char src swap) (seqZ 0 (len f)) = Some f).
  { apply mapM_get. intros i Hi. unfold identify_char. subst src. destruct swap; [|done].
    destruct (Heven eq_refl) as [n Hn]. by apply (swap_pairs_get f n). }
  rewrite Hm. cbn [mbind option_bind]. subst f. rewrite trim_padded by done. by rewrite cstr_id.
Qed.

(** Identify strings survive their encoding.  For every drive string of
    up to 63 characters without NULs or padding at its ends, the fixed-width
    field that holds it, space-padded and, for ATA, with the bytes of each
    word swapped, is read back by CopyIdentifyString as that string, without
    a read outside the field. *)
Theorem identify_roundtrip (s : list Z) (k : nat) (ata : bool)
    (Htrim : trimmed s) (Hnul : Forall (fun c => c <> 0) s) (Hlen : len s + Z.of_nat k < NUC_REDFISH_STR_MAX)
    (Heven : ata = true -> exists n, length (s ++ repeat 0x20 k) = (2 * n)%nat) :
  CopyIdentifyString NUC_REDFISH_STR_MAX
    (if ata then swap_pairs (s ++ repeat 0x20 k) else s ++ repeat 0x20 k) ata = Some s.
Proof. by apply identify_field. Qed.

Lemma identify_roundtrip_witness :
  CopyIdentifyString NUC_REDFISH_STR_MAX (swap_pairs (lit "Model M" ++ repeat 0x20 33)) true = Some (lit "Model M").
Proof.
  apply (identify_roundtrip (lit "Model M") 33 true).
  - split; intros c [= <-]; reflexivity.
  - repeat constructor; discriminate.
  - reflexivity.
  - intros _. exists 20%nat. reflexivity.
Defined.

(** ** Building objects member by member *)

(** Control characters become spaces. *)
Definition sanitize (s : list Z) : list Z := map (fun c => if c <? 0x20 then 0x20 else c) s.

Definition str_member (n v : list Z) : list (list Z * json) :=
  match v with [] => [] | _ => [(n, JStr (sanitize v))] end.
Definition opt_member (n : list Z) (v : option (list Z)) : list (list Z * json) :=
  match v with Some v => str_member n v | None => [] end.
Definition num_member (n : list Z) (v : Z) : list (list Z * json) :=
  if v =? 0 then [] else [(n, JNum v)].

(** The text of further members of an object, each with its comma. *)
Definition tail_text (ms : list (list Z * json)) : list Z := flat_map (fun m => 0x2C :: render_member m) ms.

Lemma tail_text_app a b : tail_text (a ++ b) = tail_text a ++ tail_text b.
Proof. apply flat_map_app. Qed.

Lemma commas_tail m ms : commas (map render_member (m :: ms)) = render_member m ++ tail_text ms.
Proof.
  revert m. induction ms as [|m' ms IH]; intros m; [cbn; by rewrite app_nil_r|].
  change (map render_member (m :: m' :: ms)) with (render_member m :: render_member m' :: map render_member ms).
  rewrite commas_cons. change (render_member m' :: map render_member ms) with (map render_member (m' :: ms)).
  rewrite IH. done.
Qed.

Lemma render_obj m ms : render (JObj (m :: ms)) = 0x7B :: render_member m ++ tail_text ms ++ [0x7D].
Proof.
  cbn [render]. change (map (fun m => quoted (fst m) ++ 0x3A :: render (snd m)) (m :: ms)) with (map render_member (m :: ms)).
  rewrite commas_tail. by rewrite <- (assoc_L (++)).
Qed.

Lemma sanitize_plain v : plain (sanitize v).
Proof. apply Forall_map, Forall_true. intros c. simpl. destruct (Z.ltb_spec c 0x20); lia. Qed.

Lemma escape_length s : len s <= len (escape s) <= 2 * len s.
Proof.
  induction s as [|c s IH]; [done|]. change (escape (c :: s)) with (escape1 c ++ escape s).
  rewrite len_app, len_cons. unfold escape1. destruct (_ || _); unfold len in *; cbn; lia.
Qed.

Lemma len_sanitize v : len (sanitize v) = len v.
Proof. unfold len, sanitize. by rewrite length_map. Qed.

(** The escaping loop reaches its end for strings that fit a field. *)
Lemma escape_loop_spec v acc :
  len acc + 2 * len v <= 126 -> escape_loop v acc = acc ++ escape (sanitize v).
Proof.
  revert acc. induction v as [|c v IH]; intros acc Hl; [by rewrite app_nil_r|].
  rewrite len_cons in Hl. pose proof (len_nonneg v). pose proof (len_nonneg acc). cbn [escape_loop].
  unfold NUC_REDFISH_STR_MAX. destruct (Z.ltb_spec (len acc) (64 * 2 - 2)); [|lia].
  change (escape (sanitize (c :: v))) with (escape1 (if c <? 0x20 then 0x20 else c) ++ escape (sanitize v)).
  rewrite IH.
  - rewrite <- (assoc_L (++)). f_equal. f_equal. unfold escape1. destruct (Z.eqb_spec c 0x22) as [->|]; [done|].
    destruct (Z.eqb_spec c 0x5C) as [->|]; [done|]. cbn [orb]. destruct (Z.ltb_spec c 0x20); [done|].
    destruct (Z.eqb_spec c 0x22); [done|]. destruct (Z.eqb_spec c 0x5C); [done|]. done.
  - rewrite len_app. destruct ((c =? 0x22) || (c =? 0x5C)), (c <? 0x20); unfold len; cbn [length];
      unfold len in *; lia.
Qed.

(** Member names are plain words. *)
Definition name_ok (n : list Z) : Prop := escape n = n.

Section building.
Context `{EdkStrings}.
Abbreviation M := NUC_REDFISH_JSON_MAX.

(** A building step appends [t] whenever there is room for it. *)
Definition appends (step : list Z -> list Z) (t : list Z) : Prop :=
  forall b, len b + len t < M -> step b = b ++ t.

Lemma append_string n v :
  name_ok n -> len v <= 63 ->
  appends (fun b => AppendJsonString b M n (Some v)) (tail_text (str_member n v)).
Proof.
  intros Hn Hv b Hb. unfold AppendJsonString. destruct v as [|c v]; [by rewrite app_nil_r|].
  assert (Htext : tail_text (str_member n (c :: v))
                  = concat [jlit ",'"; n; jlit "':'"; escape (sanitize (c :: v)); jlit "'"]).
  { cbn [str_member tail_text flat_map concat]. unfold render_member, quoted. cbn [fst snd render]. unfold quoted.
    rewrite Hn, !app_nil_r. change (jlit ",'") with [0x2C; 0x22]. change (jlit "':'") with [0x22; 0x3A; 0x22].
    change (jlit "'") with [0x22]. cbn [app]. by rewrite <- (assoc_L (++)). }
  rewrite escape_loop_spec by (unfold len at 1; cbn [length]; lia). cbn [app].
  rewrite Htext in *. by apply cat_all_fits.
Qed.

Lemma append_opt_string n v :
  name_ok n -> (forall s, v = Some s -> len s <= 63) ->
  appends (fun b => AppendJsonString b M n v) (tail_text (opt_member n v)).
Proof.
  intros Hn Hv. destruct v as [v|]; [apply append_string; auto|]. intros b _. by rewrite app_nil_r.
Qed.

Lemma print_fits size s : 0 < size -> len s < size -> AsciiSPrint size s = s.
Proof. intros Hs Hl. rewrite AsciiSPrint_spec by done. apply take_ge. unfold len in Hl. lia. Qed.

Lemma sdec_nonneg w v : 0 <= v < 2 ^ (w - 1) -> sdec w v = udec v.
Proof.
  intros Hv. unfold sdec. rewrite to_signed_small by done. destruct (Z.ltb_spec v 0); [lia|done].
Qed.

Lemma append_number n v k :
  name_ok n -> 0 <= v < 2 ^ 31 -> v < 10 ^ Z.of_nat k -> (0 < k)%nat -> len n + Z.of_nat k + 4 < 32 ->
  appends (fun b => AppendJsonNumber b M n v) (tail_text (num_member n v)).
Proof.
  intros Hn Hv Hk Hk0 Hl b Hb. unfold AppendJsonNumber, num_member in *.
  destruct (Z.eqb_spec v 0); [by rewrite app_nil_r|].
  rewrite (sdec_nonneg 32) by (cbn; lia).
  assert (Htext : tail_text [(n, JNum v)] = jlit ",'" ++ n ++ jlit "':" ++ udec v).
  { cbn [tail_text flat_map]. unfold render_member, quoted. cbn [fst snd render]. rewrite Hn, app_nil_r.
    change (jlit ",'") with [0x2C; 0x22]. change (jlit "':") with [0x22; 0x3A]. cbn [app]. by rewrite <- (assoc_L (++)). }
  pose proof (udec_len v k Hk Hk0). rewrite <- Htext, print_fits; [by apply AsciiStrCatS_fits|lia|].
  rewrite Htext, !len_app. change (len (jlit ",'")) with 2. change (len (jlit "':")) with 2. lia.
Qed.

(** A literal piece appended under a condition. *)
Lemma append_piece (cond : bool) t :
  appends (fun b => if cond then b else AsciiStrCatS b M t) (if cond then [] else t).
Proof. intros b Hb. destruct cond; [by rewrite app_nil_r|by apply AsciiStrCatS_fits]. Qed.

(** Running the steps one after the other appends all the texts. *)
Lemma steps_append steps ts b :
  Forall2 appends steps ts -> len b + len (concat ts) < M ->
  fold_left (fun b step => step b) steps b = b ++ concat ts.
Proof.
  intros Hs. revert b. induction Hs as [|step t steps ts Hst _ IH]; intros b Hb; [by rewrite app_nil_r|].
  rewrite len_concat_cons in Hb. pose proof (len_nonneg (concat ts)). cbn [fold_left concat].
  rewrite Hst by lia. rewrite IH by (rewrite len_app; lia). by rewrite (assoc_L (++)).
Qed.

(** A body whose opening text and steps are those of an object parses to that
    object, provided all of it fits the buffer. *)
Lemma body_decodes head steps ts m hs ms :
  Forall2 appends steps ts ->
  head = 0x7B :: render_member m ++ tail_text hs -> concat ts = tail_text ms ++ [0x7D] ->
  json_ok (JObj (m :: hs ++ ms)) -> len head + len (concat ts) < M ->
  parse_json (fold_left (fun b step => step b) steps (AsciiSPrint M head)) = Some (JObj (m :: hs ++ ms)).
Proof.
  intros Hs Hhead Hts Hok Hl. pose proof (len_nonneg (concat ts)).
  rewrite print_fits by (unfold NUC_REDFISH_JSON_MAX in *; lia). rewrite (steps_append _ _ _ Hs Hl).
  replace (head ++ concat ts) with (render (JObj (m :: hs ++ ms))); [by apply parse_render|].
  rewrite render_obj, Hhead, Hts, tail_text_app. cbn [app]. by rewrite <- !(assoc_L (++)).
Qed.

(** A piece printed into a scratch buffer before it is appended. *)
Lemma append_printed (cond : bool) size t :
  0 < size -> (cond = false -> len t < size) ->
  appends (fun b => if cond then b else AsciiStrCatS b M (AsciiSPrint size t)) (if cond then [] else t).
Proof.
  intros Hs Ht. destruct cond; [intros b _; by rewrite app_nil_r|]. rewrite print_fits by auto.
  apply (append_piece false).
Qed.
End building.
