(* ===== verification/InventoryReports.v ===== *)
(** * What the inventory reports

    The bodies built in bounded buffers are read back as exactly the members
    they should have, from SMBIOS records, identify data and the firmware
    descriptor up to the text that is sent. *)

From S2P Require Import Prelude Services Uefi EdkStrings Json Inventory InventorySpec.

(** ** What a body must say *)

Definition field_ok (s : list Z) : Prop := len s <= 63.
Definition word_ok (k : Z) (v : option (list Z)) : Prop := forall s, v = Some s -> len s <= k.

Definition str_json (n v : string) : list Z * json := (lit n, JStr (lit v)).
Definition status_json (state : string) : list Z * json :=
  (lit "Status", JObj [str_json "State" state; str_json "Health" "OK"]).

Lemma members_ok_app a b : json_ok (JObj (a ++ b)) <-> json_ok (JObj a) /\ json_ok (JObj b).
Proof. induction a as [|m a IH]; cbn in *; tauto. Qed.

Lemma str_member_ok n v : plain n -> json_ok (JObj (str_member n v)).
Proof. intros Hn. destruct v as [|c v]; [done|]. exact (conj (conj Hn (sanitize_plain (c :: v))) I). Qed.
Lemma opt_member_ok n v : plain n -> json_ok (JObj (opt_member n v)).
Proof. intros Hn. destruct v; [by apply str_member_ok|done]. Qed.
Lemma num_member_ok n v : plain n -> is_uint 64 v -> json_ok (JObj (num_member n v)).
Proof. intros Hn Hv. unfold num_member. destruct (v =? 0); [done|]. exact (conj (conj Hn Hv) I). Qed.

(** Lengths of member texts. *)
Lemma str_text_len n v k : name_ok n -> len v <= k -> len (tail_text (str_member n v)) <= len n + 6 + 2 * k.
Proof.
  intros Hn Hv. destruct v as [|c v]; [pose proof (len_nonneg n); unfold len in *; cbn in *; lia|].
  unfold str_member, tail_text. cbn [flat_map]. unfold render_member, quoted. cbn [fst snd render]. unfold quoted.
  rewrite Hn. pose proof (escape_length (sanitize (c :: v))) as He. rewrite len_sanitize in He.
  autorewrite with nuc in *. lia.
Qed.
Lemma opt_text_len n v k :
  0 <= k -> name_ok n -> word_ok k v -> len (tail_text (opt_member n v)) <= len n + 6 + 2 * k.
Proof.
  intros Hk Hn Hv. destruct v as [v|]; [apply str_text_len; auto|]. pose proof (len_nonneg n). unfold len in *; cbn; lia.
Qed.
Lemma num_text_len n v k :
  name_ok n -> v < 10 ^ Z.of_nat k -> (0 < k)%nat -> len (tail_text (num_member n v)) <= len n + 4 + Z.of_nat k.
Proof.
  intros Hn Hv Hk. unfold num_member. destruct (v =? 0); [pose proof (len_nonneg n); unfold len in *; cbn; lia|].
  unfold tail_text. cbn [flat_map]. unfold render_member, quoted. cbn [fst snd render]. rewrite Hn.
  pose proof (udec_len v k Hv Hk). autorewrite with nuc in *. lia.
Qed.

(** Evaluate the lengths of literals, in the hypotheses and the goal. *)
Ltac lit_lens :=
  repeat match goal with
         | H : context [len (lit ?s)] |- _ =>
             let n := eval vm_compute in (len (lit s)) in change (len (lit s)) with n in H
         | |- context [len (lit ?s)] =>
             let n := eval vm_compute in (len (lit s)) in change (len (lit s)) with n
         | |- context [len (jlit ?s)] =>
             let n := eval vm_compute in (len (jlit s)) in change (len (jlit s)) with n
         end.
Lemma plain_dec s : forallb (Z.leb 0x20) s = true -> plain s.
Proof. intros Hs. apply Forall_forall. intros c Hc. rewrite forallb_forall in Hs. apply Z.leb_le, Hs. by apply list_elem_of_In. Qed.
Lemma members_ok_cons n v l : plain n -> json_ok v -> json_ok (JObj l) -> json_ok (JObj ((n, v) :: l)).
Proof. intros Hn Hv Hl. exact (conj (conj Hn Hv) Hl). Qed.

(** The well-formedness of an object, member by member. *)
Ltac members_ok :=
  repeat match goal with
         | |- plain _ => apply plain_dec; reflexivity
         | |- json_ok (JStr _) => apply plain_dec; reflexivity
         | |- json_ok (JNum _) => unfold json_ok, is_uint; lia
         | |- json_ok (JBool _) => exact I
         | |- json_ok JNull => exact I
         | |- json_ok (JObj []) => exact I
         | |- json_ok (JArr [_]) => split; [|exact I]
         | |- json_ok (JObj (str_member _ _)) => apply str_member_ok
         | |- json_ok (JObj (opt_member _ _)) => apply opt_member_ok
         | |- json_ok (JObj (num_member _ _)) => apply num_member_ok; [|unfold is_uint; lia]
         | |- json_ok (JObj (if ?c then _ else _)) => destruct c
         | |- json_ok (JObj (_ :: _)) => apply members_ok_cons
         | |- json_ok (JObj (_ ++ _)) => apply members_ok_app; split
         end.
(** The building steps of the bodies. *)
Abbreviation add_string n v := (fun b => AppendJsonString b NUC_REDFISH_JSON_MAX n v).
Abbreviation add_number n v := (fun b => AppendJsonNumber b NUC_REDFISH_JSON_MAX n v).
Abbreviation add_text t := (fun b => AsciiStrCatS b NUC_REDFISH_JSON_MAX t).

(** One building step after the other. *)
Ltac append_go :=
  repeat (constructor;
    [first [apply append_string; [reflexivity|assumption]
           | apply append_opt_string; [reflexivity|intros ? Hw; match goal with H : word_ok _ _ |- _ => apply H in Hw; lia end]
           | idtac]|]).

(** ** Memory *)

(** A module within its types: strings that fit their arrays, counts within
    their widths. *)
Definition module_ok (m : NUC_REDFISH_MEMORY_MODULE) : Prop :=
  field_ok (mm_DeviceLocator m) /\ field_ok (mm_Manufacturer m) /\ field_ok (mm_SerialNumber m)
  /\ field_ok (mm_PartNumber m) /\ word_ok 12 (mm_MemoryDeviceType m) /\ word_ok 7 (mm_BaseModuleType m)
  /\ 0 <= mm_CapacityMiB m < 2 ^ 31 /\ is_uint 16 (mm_OperatingSpeedMhz m) /\ is_uint 16 (mm_RatedSpeedMhz m)
  /\ is_uint 16 (mm_DataWidthBits m) /\ is_uint 16 (mm_BusWidthBits m).

(** The members a module's report should have. *)
Definition memory_members (m : NUC_REDFISH_MEMORY_MODULE) : list (list Z * json) :=
  str_member (lit "DeviceLocator") (mm_DeviceLocator m) ++ str_member (lit "Name") (mm_DeviceLocator m)
  ++ str_member (lit "Manufacturer") (mm_Manufacturer m) ++ str_member (lit "SerialNumber") (mm_SerialNumber m)
  ++ str_member (lit "PartNumber") (mm_PartNumber m)
  ++ opt_member (lit "MemoryDeviceType") (mm_MemoryDeviceType m)
  ++ opt_member (lit "BaseModuleType") (mm_BaseModuleType m)
  ++ num_member (lit "CapacityMiB") (mm_CapacityMiB m)
  ++ num_member (lit "OperatingSpeedMhz") (mm_OperatingSpeedMhz m)
  ++ num_member (lit "DataWidthBits") (mm_DataWidthBits m) ++ num_member (lit "BusWidthBits") (mm_BusWidthBits m)
  ++ (if mm_RatedSpeedMhz m =? 0 then [] else [(lit "AllowedSpeedsMHz", JArr [JNum (mm_RatedSpeedMhz m)])]).
Definition memory_json (m : NUC_REDFISH_MEMORY_MODULE) : json :=
  JObj (str_json "@odata.type" "#Memory.v1_7_1.Memory"
        :: [status_json "Enabled"; str_json "MemoryType" "DRAM"] ++ memory_members m).

Section memory.
Context `{EdkStrings}.
Abbreviation M := NUC_REDFISH_JSON_MAX.

Definition allowed_text (v : Z) : list Z := jlit ",'AllowedSpeedsMHz':[" ++ udec v ++ lit "]".

Definition memory_texts (m : NUC_REDFISH_MEMORY_MODULE) : list (list Z) :=
  [tail_text (str_member (lit "DeviceLocator") (mm_DeviceLocator m));
   tail_text (str_member (lit "Name") (mm_DeviceLocator m));
   tail_text (str_member (lit "Manufacturer") (mm_Manufacturer m));
   tail_text (str_member (lit "SerialNumber") (mm_SerialNumber m));
   tail_text (str_member (lit "PartNumber") (mm_PartNumber m));
   tail_text (opt_member (lit "MemoryDeviceType") (mm_MemoryDeviceType m));
   tail_text (opt_member (lit "BaseModuleType") (mm_BaseModuleType m));
   tail_text (num_member (lit "CapacityMiB") (mm_CapacityMiB m));
   tail_text (num_member (lit "OperatingSpeedMhz") (mm_OperatingSpeedMhz m));
   tail_text (num_member (lit "DataWidthBits") (mm_DataWidthBits m));
   tail_text (num_member (lit "BusWidthBits") (mm_BusWidthBits m));
   (if mm_RatedSpeedMhz m =? 0 then [] else allowed_text (mm_RatedSpeedMhz m)); lit "}"].

Lemma allowed_len v : is_uint 16 v -> len (allowed_text v) <= 27.
Proof.
  unfold is_uint. intros Hv. pose proof (udec_len v 5 ltac:(lia) ltac:(lia)). unfold allowed_text.
  rewrite !len_app. lit_lens. lia.
Qed.

Definition memory_head : list Z :=
  jlit "{'@odata.type':'#Memory.v1_7_1.Memory'" ++ jlit ",'Status':{'State':'Enabled','Health':'OK'}"
  ++ jlit ",'MemoryType':'DRAM'".
Definition memory_steps (m : NUC_REDFISH_MEMORY_MODULE) : list (list Z -> list Z) :=
  [add_string (lit "DeviceLocator") (Some (mm_DeviceLocator m)); add_string (lit "Name") (Some (mm_DeviceLocator m));
   add_string (lit "Manufacturer") (Some (mm_Manufacturer m)); add_string (lit "SerialNumber") (Some (mm_SerialNumber m));
   add_string (lit "PartNumber") (Some (mm_PartNumber m)); add_string (lit "MemoryDeviceType") (mm_MemoryDeviceType m);
   add_string (lit "BaseModuleType") (mm_BaseModuleType m); add_number (lit "CapacityMiB") (mm_CapacityMiB m);
   add_number (lit "OperatingSpeedMhz") (mm_OperatingSpeedMhz m); add_number (lit "DataWidthBits") (mm_DataWidthBits m);
   add_number (lit "BusWidthBits") (mm_BusWidthBits m);
   (fun b => if mm_RatedSpeedMhz m =? 0 then b
             else AsciiStrCatS b M (AsciiSPrint 48 (jlit ",'AllowedSpeedsMHz':[" ++ sdec 32 (mm_RatedSpeedMhz m) ++ lit "]")));
   add_text (lit "}")].

Lemma memory_texts_len m : module_ok m -> len (concat (memory_texts m)) < 914.
Proof.
  intros (H1 & H2 & H3 & H4 & H5 & H6 & H7 & H8 & H9 & H10 & H11). pose proof (allowed_len _ H9).
  unfold memory_texts, is_uint in *. rewrite !len_concat_cons.
  pose proof (str_text_len (lit "DeviceLocator") _ 63 eq_refl H1).
  pose proof (str_text_len (lit "Name") _ 63 eq_refl H1).
  pose proof (str_text_len (lit "Manufacturer") _ 63 eq_refl H2).
  pose proof (str_text_len (lit "SerialNumber") _ 63 eq_refl H3).
  pose proof (str_text_len (lit "PartNumber") _ 63 eq_refl H4).
  pose proof (opt_text_len (lit "MemoryDeviceType") _ 12 ltac:(lia) eq_refl H5).
  pose proof (opt_text_len (lit "BaseModuleType") _ 7 ltac:(lia) eq_refl H6).
  pose proof (num_text_len (lit "CapacityMiB") (mm_CapacityMiB m) 10 eq_refl ltac:(lia) ltac:(lia)).
  pose proof (num_text_len (lit "OperatingSpeedMhz") (mm_OperatingSpeedMhz m) 5 eq_refl ltac:(lia) ltac:(lia)).
  pose proof (num_text_len (lit "DataWidthBits") (mm_DataWidthBits m) 5 eq_refl ltac:(lia) ltac:(lia)).
  pose proof (num_text_len (lit "BusWidthBits") (mm_BusWidthBits m) 5 eq_refl ltac:(lia) ltac:(lia)).
  assert (len (if mm_RatedSpeedMhz m =? 0 then [] else allowed_text (mm_RatedSpeedMhz m)) <= 27)
    by (destruct (mm_RatedSpeedMhz m =? 0); [done|assumption]).
  lit_lens. change (len (concat [])) with 0. lia.
Qed.

Lemma memory_concat m : concat (memory_texts m) = tail_text (memory_members m) ++ [0x7D].
Proof.
  unfold memory_texts, memory_members. cbn [concat]. rewrite !tail_text_app, <- !(assoc_L (++)), app_nil_r.
  repeat f_equal. destruct (mm_RatedSpeedMhz m =? 0); [done|].
  unfold tail_text, allowed_text, render_member. cbn [flat_map fst snd render map commas].
  by rewrite !app_nil_r.
Qed.

Lemma memory_post_parses m : module_ok m -> parse_json (memory_post m) = Some (memory_json m).
Proof.
  intros Hm. pose proof (memory_texts_len m Hm) as Hl.
  destruct Hm as (H1 & H2 & H3 & H4 & H5 & H6 & H7 & H8 & H9 & H10 & H11). pose proof (allowed_len _ H9). unfold is_uint in *.
  change (memory_post m) with (fold_left (fun b step => step b) (memory_steps m) (AsciiSPrint M memory_head)).
  apply (body_decodes memory_head (memory_steps m) (memory_texts m) (str_json "@odata.type" "#Memory.v1_7_1.Memory")
           [status_json "Enabled"; str_json "MemoryType" "DRAM"] (memory_members m)).
  - append_go.
    + apply (append_number _ _ 10); [reflexivity|lia..|vm_compute; reflexivity].
    + apply (append_number _ _ 5); [reflexivity|lia..|vm_compute; reflexivity].
    + apply (append_number _ _ 5); [reflexivity|lia..|vm_compute; reflexivity].
    + apply (append_number _ _ 5); [reflexivity|lia..|vm_compute; reflexivity].
    + rewrite (sdec_nonneg 32) by (cbn; lia). apply append_printed; [lia|]. intros _. unfold allowed_text in *. lia.
    + apply (append_piece false).
    + constructor.
  - reflexivity.
  - apply memory_concat.
  - unfold memory_members. members_ok.
  - unfold memory_head. rewrite !len_app. lit_lens. unfold NUC_REDFISH_JSON_MAX. lia.
Qed.
End memory.

(** A record together with the strings behind it. *)
Definition strings_ok (p : smbios_record * list (list Z)) : Prop :=
  Forall smbios_string_ok (snd p) /\ exists rest, r_strings (fst p) = string_area (snd p) rest.

(** What a string number stands for in a 64-byte field. *)
Definition string_field (ss : list (list Z)) (i : Z) : list Z :=
  if i =? 0 then [] else default [] (take 63 <$> ss !! Z.to_nat (i - 1)).

Lemma string_field_ok ss i : field_ok (string_field ss i).
Proof.
  unfold string_field, field_ok. destruct (i =? 0); [done|]. destruct (ss !! _) as [s|]; [|done].
  change (len (take 63 s) <= 63). unfold len. rewrite length_take. lia.
Qed.

Lemma inventory_string_field r ss i :
  strings_ok (r, ss) -> is_uint 8 i -> inventory_string r i = Some (string_field ss i).
Proof.
  intros [Hss [rest Hr]] Hi. unfold inventory_string, string_field, is_uint in *.
  rewrite (SmbiosGetString_spec r ss rest i Hr Hss) by lia. cbn [fmap option_fmap option_map]. f_equal.
  destruct (i =? 0); [done|]. destruct (ss !! _) as [s|]; [|done]. unfold CopyInventoryString, NUC_REDFISH_STR_MAX.
  change (default [] (take 63 <$> Some s)) with (take 63 s). destruct (Z.leb_spec 64 (len s)) as [Hl|Hl]; [done|]. unfold len in *.
  rewrite !take_ge by lia. done.
Qed.

Definition type17_ok (t : SMBIOS_TABLE_TYPE17) : Prop :=
  is_uint 8 (t17_DeviceLocator t) /\ is_uint 8 (t17_BankLocator t) /\ is_uint 8 (t17_Manufacturer t)
  /\ is_uint 8 (t17_SerialNumber t) /\ is_uint 8 (t17_PartNumber t) /\ is_uint 16 (t17_Size t)
  /\ is_uint 16 (t17_Speed t) /\ is_uint 16 (t17_ConfiguredMemoryClockSpeed t)
  /\ is_uint 16 (t17_DataWidth t) /\ is_uint 16 (t17_TotalWidth t).
Definition memory_record_ok (p : smbios_record * list (list Z)) : Prop :=
  strings_ok p /\ match r_body (fst p) with Type17 t => type17_ok t | _ => True end.

(** The module behind a record: [None] for other structures and for empty
    sockets; the speed it runs at is the configured one where the record has
    it, else the rated one. *)
Definition installed_module (p : smbios_record * list (list Z)) : option NUC_REDFISH_MEMORY_MODULE :=
  match r_body (fst p) with
  | Type17 t =>
      let field := string_field (snd p) in
      let size := RedfishMemoryCapacityMiB (r_length (fst p)) t in
      let configured := if r_length (fst p) <? 0x22 then 0 else t17_ConfiguredMemoryClockSpeed t in
      if size =? 0 then None
      else Some (mkModule (field (t17_DeviceLocator t)) (field (t17_BankLocator t)) (field (t17_Manufacturer t))
                   (field (t17_SerialNumber t)) (field (t17_PartNumber t))
                   (RedfishMemoryDeviceType (t17_MemoryType t)) (RedfishBaseModuleType (t17_FormFactor t))
                   size (if configured =? 0 then t17_Speed t else configured) (t17_Speed t)
                   (t17_DataWidth t) (t17_TotalWidth t))
  | _ => None
  end.

Lemma capacity_range l t : is_uint 16 (t17_Size t) -> 0 <= RedfishMemoryCapacityMiB l t < 2 ^ 31.
Proof.
  unfold RedfishMemoryCapacityMiB, is_uint. intros Hs. change 0x7FFFFFFF with (Z.ones 31). change 0x7FFF with (Z.ones 15).
  rewrite !Z.land_ones by lia. pose proof (Z.mod_pos_bound (t17_ExtendedSize t) (2 ^ 31) ltac:(lia)).
  pose proof (Z.mod_pos_bound (t17_Size t) (2 ^ 15) ltac:(lia)).
  repeat case_match; try lia. pose proof (Z.div_pos (t17_Size t mod 2 ^ 15) 1024 ltac:(lia) ltac:(lia)).
  pose proof (Z.div_le_upper_bound (t17_Size t mod 2 ^ 15) 1024 32 ltac:(lia) ltac:(lia)). lia.
Qed.

Lemma device_type_word t : word_ok 12 (RedfishMemoryDeviceType t).
Proof. intros s. unfold RedfishMemoryDeviceType. repeat case_match; intros [= <-]; vm_compute; discriminate. Qed.
Lemma module_type_word t : word_ok 7 (RedfishBaseModuleType t).
Proof. intros s. unfold RedfishBaseModuleType. repeat case_match; intros [= <-]; vm_compute; discriminate. Qed.

Lemma installed_module_ok p m : memory_record_ok p -> installed_module p = Some m -> module_ok m.
Proof.
  destruct p as [r ss]. intros [_ Ht]. unfold installed_module. cbn [fst snd] in *.
  destruct (r_body r) as [| | |t|]; try done. destruct Ht as (?&?&?&?&?&Hs&?&?&?&?).
  pose proof (capacity_range (r_length r) t Hs). case_match; [done|]. intros [= <-].
  unfold module_ok. cbn [mm_DeviceLocator mm_Manufacturer mm_SerialNumber mm_PartNumber mm_MemoryDeviceType mm_BaseModuleType
    mm_CapacityMiB mm_OperatingSpeedMhz mm_RatedSpeedMhz mm_DataWidthBits mm_BusWidthBits].
  repeat split; try apply string_field_ok; try apply device_type_word; try apply module_type_word; try lia; try apply Ht;
    repeat case_match; unfold is_uint in *; lia.
Qed.

Lemma memory_module_installed r ss t m :
  memory_record_ok (r, ss) -> r_body r = Type17 t -> installed_module (r, ss) = Some m ->
  memory_module r t (RedfishMemoryCapacityMiB (r_length r) t) = Some m.
Proof.
  intros [Hss Ht] Hb. unfold installed_module, memory_module, TYPE17_END_ConfiguredSpeed. cbn [fst snd] in *.
  rewrite Hb in *. destruct Ht as (?&?&?&?&?&_). rewrite !(inventory_string_field r ss) by done.
  cbn [mbind option_bind]. case_match; [done|]. intros [= <-]. do 2 f_equal.
  destruct (Z.leb_spec (0x20 + 2) (r_length r)), (Z.ltb_spec (r_length r) 0x22); try lia; reflexivity.
Qed.

(** The loop collects the installed modules, in order, up to its capacity. *)
Lemma collect_memory_loop_spec records Max acc :
  Forall memory_record_ok records -> (length acc <= Max)%nat ->
  collect_memory_loop (map fst records) Max acc = Some (take Max (acc ++ omap installed_module records)).
Proof.
  intros Hok. revert acc. induction Hok as [|[r ss] records Hr _ IH]; intros acc Ha.
  { cbn. by rewrite app_nil_r, take_ge. }
  cbn [map fst collect_memory_loop omap list_omap]. destruct (r_body r) as [| | |t|] eqn:Hb;
    try (change (installed_module (r, ss)) with (installed_module (r, ss)); unfold installed_module at 1; cbn [fst];
         rewrite Hb; by apply IH).
  destruct (Nat.leb_spec Max (length acc)).
  { rewrite take_app_le by lia. rewrite take_ge by lia. done. }
  destruct (installed_module (r, ss)) as [m|] eqn:Hm.
  - rewrite (memory_module_installed r ss t m Hr Hb Hm). cbn [mbind option_bind].
    assert ((RedfishMemoryCapacityMiB (r_length r) t =? 0) = false) as ->.
    { revert Hm. unfold installed_module. cbn [fst snd]. rewrite Hb. by case_match. }
    rewrite IH by (rewrite length_app; cbn; lia). by rewrite <- (assoc_L (++)).
  - assert ((RedfishMemoryCapacityMiB (r_length r) t =? 0) = true) as ->.
    { revert Hm. unfold installed_module. cbn [fst snd]. rewrite Hb. by case_match. }
    by apply IH.
Qed.

(** C27: Memory is reported completely and readably.  For every SMBIOS table
    whose records carry well-formed string lists, in whatever order and
    however many, the collecting loop reads only those lists and returns
    exactly the installed modules in table order, up to its capacity, with
    the strings their numbers stand for; and the body built for each of them
    in the 1 KiB buffer parses as JSON to exactly that module's members. *)
Theorem memory_reports_decode `{EdkStrings} (records : list (smbios_record * list (list Z))) (Max : nat)
    (Hok : Forall memory_record_ok records) :
  collect_memory_loop (map fst records) Max [] = Some (take Max (omap installed_module records))
  /\ Forall (fun m => parse_json (memory_post m) = Some (memory_json m)) (take Max (omap installed_module records)).
Proof.
  split; [apply collect_memory_loop_spec; [done|cbn; lia]|]. apply Forall_take, Forall_forall.
  intros m Hm. apply list_elem_of_omap in Hm as (p & Hp & Hm). apply memory_post_parses.
  apply (installed_module_ok p); [|done]. rewrite Forall_forall in Hok. by apply Hok.
Qed.

Definition sample_dimm : smbios_record * list (list Z) :=
  (mkRecord 0x22 (Type17 (mkType17 72 64 0x2000 0x0D 1 2 0x18 1600 3 0 4 0 1333))
     (string_area [lit "DIMM A"; lit "BANK 0"; lit "Kingston"; lit "KVR16"] [7]),
   [lit "DIMM A"; lit "BANK 0"; lit "Kingston"; lit "KVR16"]).
Definition empty_dimm : smbios_record * list (list Z) :=
  (mkRecord 0x22 (Type17 (mkType17 0 0 0 2 1 0 2 0 0 0 0 0 0)) (string_area [lit "DIMM B"] []), [lit "DIMM B"]).

Lemma sample_ok r ss :
  (exists rest, r_strings r = string_area ss rest) ->
  forallb (fun s => match s with [] => false | _ => forallb (fun c => negb (c =? 0)) s end) ss = true ->
  strings_ok (r, ss).
Proof.
  intros Hr Hss. split; [|exact Hr]. apply Forall_forall. intros s Hs. rewrite forallb_forall in Hss.
  apply list_elem_of_In, Hss in Hs. destruct s as [|c s]; [done|]. split; [done|]. apply Forall_forall. intros x Hx.
  rewrite forallb_forall in Hs. apply list_elem_of_In, Hs, negb_true_iff, Z.eqb_neq in Hx. exact Hx.
Qed.

Lemma memory_reports_decode_witness :
  exists m, collect_memory_loop (map fst [empty_dimm; sample_dimm]) 8 [] = Some [m]
            /\ parse_json (memory_post m) = Some (memory_json m) /\ mm_CapacityMiB m = 8192
            /\ mm_OperatingSpeedMhz m = 1333.
Proof.
  destruct (memory_reports_decode [empty_dimm; sample_dimm] 8) as [Hc Hp].
  - repeat apply Forall_cons_2; [split; [apply sample_ok; [eexists; reflexivity|reflexivity]|]..|constructor];
      repeat split; vm_compute; discriminate || reflexivity.
  - eexists. split; [exact Hc|]. apply Forall_cons in Hp as [Hp _]. split; [exact Hp|]. split; reflexivity.
Defined.

(** ** Processors *)

(** Text that needs no escaping. *)
Definition clean (s : list Z) : Prop := plain s /\ escape s = s.

Definition processor_ok (p : NUC_REDFISH_PROCESSOR) : Prop :=
  field_ok (pr_Socket p) /\ field_ok (pr_Manufacturer p) /\ field_ok (pr_Model p) /\ field_ok (pr_SerialNumber p)
  /\ field_ok (pr_PartNumber p) /\ word_ok 3 (pr_ProcessorType p) /\ is_uint 16 (pr_MaxSpeedMhz p)
  /\ is_uint 16 (pr_OperatingSpeedMhz p) /\ is_uint 16 (pr_TotalCores p) /\ is_uint 16 (pr_TotalEnabledCores p)
  /\ is_uint 16 (pr_TotalThreads p) /\ len (pr_IdRegisters p) <= 18 /\ clean (pr_IdRegisters p).

Definition id_member (id : list Z) : list (list Z * json) :=
  match id with
  | [] => []
  | _ => [(lit "ProcessorId", JObj [(lit "IdentificationRegisters", JStr id)])]
  end.
Definition processor_members (p : NUC_REDFISH_PROCESSOR) : list (list Z * json) :=
  opt_member (lit "ProcessorType") (pr_ProcessorType p)
  ++ str_member (lit "Socket") (pr_Socket p) ++ str_member (lit "Name") (pr_Socket p)
  ++ str_member (lit "Manufacturer") (pr_Manufacturer p) ++ str_member (lit "Model") (pr_Model p)
  ++ str_member (lit "SerialNumber") (pr_SerialNumber p) ++ str_member (lit "PartNumber") (pr_PartNumber p)
  ++ num_member (lit "MaxSpeedMHz") (pr_MaxSpeedMhz p) ++ num_member (lit "OperatingSpeedMHz") (pr_OperatingSpeedMhz p)
  ++ num_member (lit "TotalCores") (pr_TotalCores p) ++ num_member (lit "TotalEnabledCores") (pr_TotalEnabledCores p)
  ++ num_member (lit "TotalThreads") (pr_TotalThreads p) ++ id_member (pr_IdRegisters p).
Definition processor_fixed (p : NUC_REDFISH_PROCESSOR) : list (list Z * json) :=
  [status_json (if pr_Enabled p then "Enabled" else "Disabled"); str_json "ProcessorArchitecture" "x86";
   str_json "InstructionSet" "x86-64"].
Definition processor_json (p : NUC_REDFISH_PROCESSOR) : json :=
  JObj (str_json "@odata.type" "#Processor.v1_14_0.Processor" :: processor_fixed p ++ processor_members p).

Section processors.
Context `{EdkStrings}.
Abbreviation M := NUC_REDFISH_JSON_MAX.

Definition processor_head (p : NUC_REDFISH_PROCESSOR) : list Z :=
  jlit "{'@odata.type':'#Processor.v1_14_0.Processor'"
  ++ jlit ",'Status':{'State':'" ++ (if pr_Enabled p then lit "Enabled" else lit "Disabled") ++ jlit "','Health':'OK'}"
  ++ jlit ",'ProcessorArchitecture':'x86'" ++ jlit ",'InstructionSet':'x86-64'".
Definition processor_steps (p : NUC_REDFISH_PROCESSOR) : list (list Z -> list Z) :=
  [add_string (lit "ProcessorType") (pr_ProcessorType p); add_string (lit "Socket") (Some (pr_Socket p));
   add_string (lit "Name") (Some (pr_Socket p)); add_string (lit "Manufacturer") (Some (pr_Manufacturer p));
   add_string (lit "Model") (Some (pr_Model p)); add_string (lit "SerialNumber") (Some (pr_SerialNumber p));
   add_string (lit "PartNumber") (Some (pr_PartNumber p)); add_number (lit "MaxSpeedMHz") (pr_MaxSpeedMhz p);
   add_number (lit "OperatingSpeedMHz") (pr_OperatingSpeedMhz p); add_number (lit "TotalCores") (pr_TotalCores p);
   add_number (lit "TotalEnabledCores") (pr_TotalEnabledCores p); add_number (lit "TotalThreads") (pr_TotalThreads p);
   (fun b => match pr_IdRegisters p with
             | [] => b
             | c :: s => AsciiStrCatS b M (AsciiSPrint 80 (jlit ",'ProcessorId':{'IdentificationRegisters':'" ++ (c :: s) ++ jlit "'}"))
             end);
   add_text (lit "}")].
Definition processor_texts (p : NUC_REDFISH_PROCESSOR) : list (list Z) :=
  map tail_text
    [opt_member (lit "ProcessorType") (pr_ProcessorType p); str_member (lit "Socket") (pr_Socket p);
     str_member (lit "Name") (pr_Socket p); str_member (lit "Manufacturer") (pr_Manufacturer p);
     str_member (lit "Model") (pr_Model p); str_member (lit "SerialNumber") (pr_SerialNumber p);
     str_member (lit "PartNumber") (pr_PartNumber p); num_member (lit "MaxSpeedMHz") (pr_MaxSpeedMhz p);
     num_member (lit "OperatingSpeedMHz") (pr_OperatingSpeedMhz p); num_member (lit "TotalCores") (pr_TotalCores p);
     num_member (lit "TotalEnabledCores") (pr_TotalEnabledCores p); num_member (lit "TotalThreads") (pr_TotalThreads p);
     id_member (pr_IdRegisters p)] ++ [lit "}"].

Lemma processor_concat p : concat (processor_texts p) = tail_text (processor_members p) ++ [0x7D].
Proof.
  unfold processor_texts, processor_members. cbn [map concat app].
  rewrite !tail_text_app, <- !(assoc_L (++)), app_nil_r. reflexivity.
Qed.

Lemma append_id id :
  len id <= 18 -> clean id ->
  appends (fun b => match id with
                    | [] => b
                    | c :: s => AsciiStrCatS b M (AsciiSPrint 80 (jlit ",'ProcessorId':{'IdentificationRegisters':'" ++ (c :: s) ++ jlit "'}"))
                    end) (tail_text (id_member id)).
Proof.
  intros Hl [_ He] b Hb. destruct id as [|c id]; [by rewrite app_nil_r|].
  assert (Ht : tail_text (id_member (c :: id))
               = jlit ",'ProcessorId':{'IdentificationRegisters':'" ++ (c :: id) ++ jlit "'}").
  { unfold tail_text, id_member, render_member, quoted. cbn [flat_map fst snd render map commas].
    unfold quoted. rewrite He, !app_nil_r. cbn [app].
    rewrite <- !(assoc_L (++)). cbn [app]. rewrite <- !(assoc_L (++)). reflexivity. }
  rewrite <- Ht, print_fits; [by apply AsciiStrCatS_fits|lia|]. rewrite Ht, !len_app. lit_lens. lia.
Qed.

Lemma processor_head_text p :
  processor_head p
  = 0x7B :: render_member (str_json "@odata.type" "#Processor.v1_14_0.Processor") ++ tail_text (processor_fixed p).
Proof. unfold processor_head, processor_fixed. destruct (pr_Enabled p); reflexivity. Qed.
End processors.

(** A processor report that fits the buffer is readable.  Whenever the
    JSON text of a processor's members is shorter than the 1 KiB buffer, the
    body built for it, through the 80-byte and 32-byte scratch buffers on the
    way, parses to exactly those members. *)
Theorem processor_post_decodes `{EdkStrings} (p : NUC_REDFISH_PROCESSOR)
    (Hok : processor_ok p) (Hfit : len (render (processor_json p)) < NUC_REDFISH_JSON_MAX) :
  parse_json (processor_post p) = Some (processor_json p).
Proof.
  destruct Hok as (H1 & H2 & H3 & H4 & H5 & H6 & H7 & H8 & H9 & H10 & H11 & H12 & H13). unfold is_uint in *.
  change (processor_post p)
    with (fold_left (fun b step => step b) (processor_steps p) (AsciiSPrint NUC_REDFISH_JSON_MAX (processor_head p))).
  apply (body_decodes (processor_head p) (processor_steps p) (processor_texts p)
           (str_json "@odata.type" "#Processor.v1_14_0.Processor") (processor_fixed p) (processor_members p)).
  - append_go; try (apply (append_number _ _ 5); [reflexivity|lia..|vm_compute; reflexivity]).
    + exact (append_id (pr_IdRegisters p) H12 H13).
    + apply (append_piece false).
    + constructor.
  - apply processor_head_text.
  - apply processor_concat.
  - unfold processor_members, processor_fixed, id_member. destruct H13 as [H13 _].
    destruct (pr_Enabled p); members_ok; (destruct (pr_IdRegisters p); members_ok; exact H13).
  - revert Hfit. unfold processor_json. rewrite render_obj, processor_head_text, processor_concat, tail_text_app.
    rewrite <- !(assoc_L (++)), !len_cons, !len_app. lia.
Qed.

Definition sample_processor : NUC_REDFISH_PROCESSOR :=
  mkProcessor (lit "U3E1") (lit "Intel(R) Corporation") (lit "Intel(R) Core(TM) i7-5557U") [] []
    (lit "0xBFEBFBFF000306D4") (Some (lit "CPU")) 3400 3100 2 2 4 true.

Lemma processor_post_decodes_witness : parse_json (processor_post sample_processor) = Some (processor_json sample_processor).
Proof.
  apply processor_post_decodes; [|reflexivity].
  repeat split; try (vm_compute; discriminate); try reflexivity; [intros s [= <-]; vm_compute; discriminate|].
  apply plain_dec. reflexivity.
Defined.

(** Without the bound the closing brace can be dropped: a ten-core processor
    whose SMBIOS strings are full of quotes gets a body that is not JSON. *)
Definition quoted_processor : NUC_REDFISH_PROCESSOR :=
  let q := repeat 0x22 63 in mkProcessor q q q q q [] (Some (lit "CPU")) 3400 3100 10 10 20 true.
Example processor_post_overflow : parse_json (processor_post quoted_processor) = None.
Proof. vm_compute. reflexivity. Qed.

(** ** Drives *)

Definition drive_ok (d : NUC_REDFISH_DRIVE) : Prop :=
  field_ok (dr_Model d) /\ field_ok (dr_SerialNumber d) /\ field_ok (dr_Revision d)
  /\ word_ok 4 (dr_Protocol d) /\ word_ok 3 (dr_MediaType d) /\ is_uint 64 (dr_CapacityBytes d).

Definition drive_members (d : NUC_REDFISH_DRIVE) : list (list Z * json) :=
  str_member (lit "Name") (dr_Model d) ++ str_member (lit "Model") (dr_Model d)
  ++ str_member (lit "SerialNumber") (dr_SerialNumber d) ++ str_member (lit "Revision") (dr_Revision d)
  ++ opt_member (lit "Protocol") (dr_Protocol d) ++ opt_member (lit "MediaType") (dr_MediaType d)
  ++ num_member (lit "CapacityBytes") (dr_CapacityBytes d).
Definition drive_json (d : NUC_REDFISH_DRIVE) : json :=
  JObj (str_json "@odata.type" "#Drive.v1_4_0.Drive" :: [status_json "Enabled"] ++ drive_members d).

Section drives.
Context `{EdkStrings}.
Abbreviation M := NUC_REDFISH_JSON_MAX.

Definition drive_head : list Z :=
  jlit "{'@odata.type':'#Drive.v1_4_0.Drive'" ++ jlit ",'Status':{'State':'Enabled','Health':'OK'}".
Definition drive_steps (d : NUC_REDFISH_DRIVE) : list (list Z -> list Z) :=
  [add_string (lit "Name") (Some (dr_Model d)); add_string (lit "Model") (Some (dr_Model d));
   add_string (lit "SerialNumber") (Some (dr_SerialNumber d)); add_string (lit "Revision") (Some (dr_Revision d));
   add_string (lit "Protocol") (dr_Protocol d); add_string (lit "MediaType") (dr_MediaType d);
   (fun b => if dr_CapacityBytes d =? 0 then b
             else AsciiStrCatS b M (AsciiSPrint 48 (jlit ",'CapacityBytes':" ++ sdec 64 (dr_CapacityBytes d))));
   add_text (lit "}")].
Definition drive_texts (d : NUC_REDFISH_DRIVE) : list (list Z) :=
  [tail_text (str_member (lit "Name") (dr_Model d)); tail_text (str_member (lit "Model") (dr_Model d));
   tail_text (str_member (lit "SerialNumber") (dr_SerialNumber d));
   tail_text (str_member (lit "Revision") (dr_Revision d));
   tail_text (opt_member (lit "Protocol") (dr_Protocol d)); tail_text (opt_member (lit "MediaType") (dr_MediaType d));
   (if dr_CapacityBytes d =? 0 then [] else jlit ",'CapacityBytes':" ++ udec (dr_CapacityBytes d)); lit "}"].

Lemma drive_concat d : concat (drive_texts d) = tail_text (drive_members d) ++ [0x7D].
Proof.
  unfold drive_texts, drive_members, num_member. cbn [concat].
  rewrite !tail_text_app, <- !(assoc_L (++)), app_nil_r. repeat f_equal. destruct (dr_CapacityBytes d =? 0); [done|].
  unfold tail_text, render_member. cbn [flat_map fst snd render]. by rewrite !app_nil_r.
Qed.

Lemma drive_texts_len d : drive_ok d -> len (concat (drive_texts d)) < 700.
Proof.
  intros (H1 & H2 & H3 & H4 & H5 & H6). unfold drive_texts, is_uint in *. rewrite !len_concat_cons.
  pose proof (str_text_len (lit "Name") _ 63 eq_refl H1).
  pose proof (str_text_len (lit "Model") _ 63 eq_refl H1).
  pose proof (str_text_len (lit "SerialNumber") _ 63 eq_refl H2).
  pose proof (str_text_len (lit "Revision") _ 63 eq_refl H3).
  pose proof (opt_text_len (lit "Protocol") _ 4 ltac:(lia) eq_refl H4).
  pose proof (opt_text_len (lit "MediaType") _ 3 ltac:(lia) eq_refl H5).
  pose proof (udec_len (dr_CapacityBytes d) 20 ltac:(lia) ltac:(lia)).
  assert (len (if dr_CapacityBytes d =? 0 then [] else jlit ",'CapacityBytes':" ++ udec (dr_CapacityBytes d)) <= 40)
    by (destruct (dr_CapacityBytes d =? 0); [done|rewrite len_app; lit_lens; lia]).
  lit_lens. change (len (concat [])) with 0. lia.
Qed.

Lemma drive_post_parses d :
  drive_ok d -> dr_CapacityBytes d < 2 ^ 63 -> parse_json (drive_post d) = Some (drive_json d).
Proof.
  intros Hd Hc. pose proof (drive_texts_len d Hd) as Hl. destruct Hd as (H1 & H2 & H3 & H4 & H5 & H6). unfold is_uint in *.
  change (drive_post d) with (fold_left (fun b step => step b) (drive_steps d) (AsciiSPrint M drive_head)).
  apply (body_decodes drive_head (drive_steps d) (drive_texts d) (str_json "@odata.type" "#Drive.v1_4_0.Drive")
           [status_json "Enabled"] (drive_members d)).
  - append_go.
    + rewrite (sdec_nonneg 64) by (cbn; lia). apply append_printed; [lia|]. intros _. rewrite len_app.
      pose proof (udec_len (dr_CapacityBytes d) 20 ltac:(lia) ltac:(lia)). lit_lens. lia.
    + apply (append_piece false).
    + constructor.
  - reflexivity.
  - apply drive_concat.
  - unfold drive_members. members_ok.
  - unfold drive_head. rewrite !len_app. lit_lens. unfold NUC_REDFISH_JSON_MAX. lia.
Qed.
End drives.

(** Identify data of the sizes ATA gives it: 40, 20 and 8 bytes. *)
Definition identify_sized (e : event rf) : Prop :=
  match e with
  | Ev (AtaIdentify d) r =>
      length (ata_ModelName (snd r)) = 40%nat /\ length (ata_SerialNo (snd r)) = 20%nat
      /\ length (ata_FirmwareVer (snd r)) = 8%nat
  | _ => True
  end.

Lemma cstr_len b : len (cstr b) <= len b.
Proof. unfold len. pose proof (cstr_length b). lia. Qed.
Lemma trim_trailing_len s : len (trim_trailing s) <= len s.
Proof. induction s as [|c s IH]; [done|]. cbn [trim_trailing]. destruct (c <=? 0x20); rewrite ?len_cons; lia. Qed.
Lemma trim_leading_len s : len (trim_leading s) <= len s.
Proof. induction s as [|c s IH]; [done|]. cbn [trim_leading]. destruct (c =? 0x20); rewrite ?len_cons; lia. Qed.
Lemma len_rev (s : list Z) : len (rev s) = len s.
Proof. unfold len. by rewrite length_rev. Qed.

(** Identify strings are always read within their field. *)
Lemma identify_total src swap :
  (swap = true -> exists k, length src = (2 * k)%nat) ->
  exists s, CopyIdentifyString NUC_REDFISH_STR_MAX src swap = Some s /\ field_ok s.
Proof.
  intros Heven. unfold CopyIdentifyString, field_ok. change (NUC_REDFISH_STR_MAX =? 0) with false. cbv iota zeta.
  set (L := if NUC_REDFISH_STR_MAX <=? len src then NUC_REDFISH_STR_MAX - 1 else len src).
  assert (HL : 0 <= L <= 63 /\ L <= len src).
  { subst L. pose proof (len_nonneg src). unfold NUC_REDFISH_STR_MAX. destruct (Z.leb_spec 64 (len src)); lia. }
  assert (Hm : is_Some (mapM (identify_char src swap) (seqZ 0 L))).
  { apply mapM_is_Some_2, Forall_forall. intros i Hi. apply elem_of_seqZ in Hi. unfold identify_char.
    assert (Hr : 0 <= (if swap then Z.lxor i 1 else i) < len src).
    { destruct swap; [|lia]. destruct (Heven eq_refl) as [k Hk]. rewrite lxor_1 by lia. unfold len in *.
      destruct (Z.even i) eqn:E; [|assert (i <> 0) by (intros ->; done); lia]. apply Z.even_spec in E as [q ->]. lia. }
    change (is_Some (mem_get src (if swap then Z.lxor i 1 else i))). unfold mem_get. destruct (Z.ltb_spec (if swap then Z.lxor i 1 else i) 0); [lia|].
    apply lookup_lt_is_Some_2. unfold len in Hr. lia. }
  destruct Hm as [d Hd]. rewrite Hd. cbn [mbind option_bind]. eexists. split; [reflexivity|].
  assert (len d = L) by (apply length_mapM in Hd; unfold len; rewrite <- Hd, length_seqZ; lia).
  etransitivity; [apply cstr_len|]. etransitivity; [apply trim_leading_len|]. rewrite len_rev.
  etransitivity; [apply trim_trailing_len|]. rewrite len_rev. lia.
Qed.

(** One drive: whatever the services answer, either the drive is skipped or
    its identity is within bounds. *)
Definition drive_result (r : option (EFI_STATUS * NUC_REDFISH_DRIVE)) (t : list (event rf)) : Prop :=
  Forall identify_sized t -> exists Status d, r = Some (Status, d) /\ drive_ok d /\ dr_CapacityBytes d = 0.

Lemma empty_drive_ok : drive_ok empty_drive.
Proof. repeat split; cbn; unfold field_ok, len; cbn; try lia; intros s Hs; done. Qed.

Lemma identified (md sn rv : list Z) (pr mt : option (list Z)) (swap : bool) :
  word_ok 4 pr -> word_ok 3 mt ->
  (swap = true -> length md = 40%nat /\ length sn = 20%nat /\ length rv = 8%nat) ->
  exists d, (Model ← CopyIdentifyString NUC_REDFISH_STR_MAX md swap;
             SerialNumber ← CopyIdentifyString NUC_REDFISH_STR_MAX sn swap;
             Revision ← CopyIdentifyString NUC_REDFISH_STR_MAX rv swap;
             Some (EFI_SUCCESS, mkDrive Model SerialNumber Revision pr mt 0)) = Some (EFI_SUCCESS, d)
            /\ drive_ok d /\ dr_CapacityBytes d = 0.
Proof.
  intros Hp Hm Hs.
  destruct (identify_total md swap) as (m & -> & ?); [intros E; apply Hs in E; exists 20%nat; lia|].
  destruct (identify_total sn swap) as (n & -> & ?); [intros E; apply Hs in E; exists 10%nat; lia|].
  destruct (identify_total rv swap) as (v & -> & ?); [intros E; apply Hs in E; exists 4%nat; lia|].
  eexists. split; [reflexivity|]. split; [|done]. repeat split; cbn; done || lia.
Qed.

Lemma CollectNvmeDrive_result h : wp (CollectNvmeDrive h) drive_result.
Proof.
  assert (He : forall st t, drive_result (Some (st, empty_drive)) t)
    by (intros st t _; exists st, empty_drive; auto using empty_drive_ok).
  unfold CollectNvmeDrive. wp_go; try apply He. intros _.
  destruct (identified (nv_Mn n) (nv_Sn n) (nv_Fr n) (Some (lit "NVMe")) (Some (lit "SSD")) false) as (d & -> & Hd);
    [intros s [= <-]; vm_compute; discriminate..|done|]. eauto.
Qed.

Lemma CollectAtaDrive_result i : wp (CollectAtaDrive i) drive_result.
Proof.
  unfold CollectAtaDrive. apply wp_call_bind. intros [st a]. cbn beta iota. wp_go; intros Ht.
  { exists st, empty_drive. auto using empty_drive_ok. }
  apply Forall_cons in Ht as [Ht _]. cbn in Ht.
  destruct (identified (ata_ModelName a) (ata_SerialNo a) (ata_FirmwareVer a) (Some (lit "SATA"))
              (ata_media_type (ata_rotation_rate a)) true) as (d & -> & Hd).
  - intros s [= <-]. vm_compute. discriminate.
  - intros s. unfold ata_media_type. repeat case_match; intros [= <-]; vm_compute; discriminate.
  - intros _. exact Ht.
  - eauto.
Qed.

(** What a drive list must satisfy. *)
Definition drives_ok (Max : nat) (ds : list NUC_REDFISH_DRIVE) : Prop :=
  (length ds <= Max)%nat /\ ForallOrdPairs (fun a b => same_drive a b = false) ds
  /\ Forall (fun d => drive_ok d /\ (dr_Model d <> [] \/ dr_SerialNumber d <> [])) ds.

Lemma drives_ok_snoc Max ds d st m :
  drives_ok Max ds -> (length ds < Max)%nat -> drive_ok d -> (dr_Model d <> [] \/ dr_SerialNumber d <> []) ->
  existsb (fun x => same_drive x d) ds = false -> drives_ok Max (ds ++ [with_capacity d st m]).
Proof.
  intros (_ & Hp & Hf) Hl Hd Hid Hnew.
  assert (Hc : forall x, same_drive x (with_capacity d st m) = same_drive x d)
    by (intros x; unfold with_capacity; repeat case_match; done).
  assert (Hd' : drive_ok (with_capacity d st m)).
  { destruct Hd as (?&?&?&?&?&?). unfold with_capacity. repeat case_match; repeat split; cbn [dr_CapacityBytes]; try done;
      try apply wrap_range; try lia; try (unfold is_uint in *; lia). }
  assert (Hi' : dr_Model (with_capacity d st m) <> [] \/ dr_SerialNumber (with_capacity d st m) <> [])
    by (unfold with_capacity; repeat case_match; done).
  split; [rewrite length_app; cbn; lia|]. split; [|apply Forall_app; split; [done|by constructor]].
  clear Hl Hf. revert Hp Hnew. induction ds as [|x ds IH]; cbn [app existsb]; intros Hp Hnew; [repeat constructor|].
  apply orb_false_iff in Hnew as [Hx Hnew]. inversion Hp as [|? ? Hall Hp']. subst. constructor; [|by apply IH].
  apply Forall_app. split; [done|]. constructor; [by rewrite Hc|constructor].
Qed.

Lemma collect_drives_loop_result hs Max ds :
  drives_ok Max ds ->
  wp (collect_drives_loop hs Max ds)
    (fun r t => Forall identify_sized t -> exists ds', r = Some ds' /\ drives_ok Max ds').
Proof.
  revert ds. induction hs as [|h hs IH]; intros ds Hds; cbn [collect_drives_loop].
  { wp_go. eauto. }
  assert (Hskip : forall t0, wp (collect_drives_loop hs Max ds)
    (fun r t => Forall identify_sized (t0 ++ t) -> exists ds', r = Some ds' /\ drives_ok Max ds')).
  { intros t0. eapply wp_mono; [|by apply IH]. cbn beta. intros r t Hr Ht. apply Forall_app in Ht as [_ Ht]. auto. }
  destruct (Nat.leb_spec Max (length ds)) as [Hmax|Hmax]; [wp_go; eauto|].
  apply wp_call_bind. intros [Status [DiskInfo Interface]]. cbn beta iota. destruct (EFI_ERROR Status); [apply (Hskip [_])|].
  assert (Hone : wp (match Interface with NvmeInterface => CollectNvmeDrive h | _ => CollectAtaDrive DiskInfo end) drive_result)
    by (destruct Interface; [apply CollectNvmeDrive_result|apply CollectAtaDrive_result..]).
  assert (Hgo : forall t0, wp
     (r ←? match Interface with NvmeInterface => CollectNvmeDrive h | _ => CollectAtaDrive DiskInfo end;
      let '(Status, Drive) := r in
      if EFI_ERROR Status || (bool_decide (dr_Model Drive = []) && bool_decide (dr_SerialNumber Drive = []))
      then collect_drives_loop hs Max ds
      else if existsb (fun d => same_drive d Drive) ds then collect_drives_loop hs Max ds
      else
        '(Status, Media) ← call (S := rf) (HandleBlockIo h);
        collect_drives_loop hs Max (ds ++ [with_capacity Drive Status Media]))
     (fun r t => Forall identify_sized (t0 ++ t) -> exists ds', r = Some ds' /\ drives_ok Max ds')).
  { intros t0. eapply wp_seq; [exact Hone|]. cbn beta. intros r t1 Hr.
    destruct r as [[st d]|].
    - destruct (EFI_ERROR st || _) eqn:Hid; [eapply wp_mono; [|apply (Hskip (t0 ++ t1))]; cbn beta; intros a t Ha; by rewrite <- (assoc_L (++)) in Ha|].
      destruct (existsb _ ds) eqn:Hnew; [eapply wp_mono; [|apply (Hskip (t0 ++ t1))]; cbn beta; intros a t Ha; by rewrite <- (assoc_L (++)) in Ha|].
      apply wp_call_bind. intros [st' media]. cbn beta iota. apply wp_exec. intros t a Hex Ht.
      apply Forall_app in Ht as [_ Ht]. apply Forall_app in Ht as [Ht1 Ht]. apply Forall_cons in Ht as [_ Ht].
      destruct (Hr Ht1) as (? & ? & [= <- <-] & Hd & _). 
      refine (proj1 (wp_exec _ _) (IH _ _) t a Hex Ht). apply drives_ok_snoc; try done. apply orb_false_iff in Hid as [_ Hid]. apply andb_false_iff in Hid as [Hid|Hid];
        apply bool_decide_eq_false in Hid; auto.
    - wp_go. intros Ht. apply Forall_app in Ht as [_ Ht]. rewrite app_nil_r in Ht. destruct (Hr Ht) as (? & ? & [=] & _). }
  destruct Interface; [apply (Hgo [_])..|apply (Hskip [_])].
Qed.

(** C28: Drives are reported once each, bounded and readably.  Whatever the
    disk services answer, as long as identify data has its standard size, the
    collection ends with EFI_SUCCESS after reading only inside the identify
    fields; it returns at most as many drives as there is room for, no two
    with the same serial number and model, each with a model or a serial
    number, and the body built for each drive of less than 2^63 bytes parses
    to exactly that drive's members. *)
Theorem drives_reported `{EdkStrings} (Max : nat) (tr : list (event rf)) (r : option (EFI_STATUS * list NUC_REDFISH_DRIVE))
    (Hmax : (0 < Max)%nat) (Hex : exec (NucRedfishCollectDrives Max) tr r) (Hsized : Forall identify_sized tr) :
  exists ds, r = Some (EFI_SUCCESS, ds) /\ (length ds <= Max)%nat
    /\ ForallOrdPairs (fun a b => same_drive a b = false) ds
    /\ Forall (fun d => (dr_Model d <> [] \/ dr_SerialNumber d <> [])
                        /\ (dr_CapacityBytes d < 2 ^ 63 -> parse_json (drive_post d) = Some (drive_json d))) ds.
Proof.
  assert (Hwp : wp (NucRedfishCollectDrives Max)
    (fun r t => Forall identify_sized t -> exists ds, r = Some (EFI_SUCCESS, ds) /\ drives_ok Max ds)).
  { assert (Hnil : drives_ok Max []) by (split; [cbn; lia|split; constructor]).
    unfold NucRedfishCollectDrives. destruct (Nat.eqb_spec Max 0); [lia|]. apply wp_call_bind. intros [st [buf hs]].
    cbn beta iota. destruct (EFI_ERROR st); [wp_go; eauto|].
    eapply wp_seq; [by apply collect_drives_loop_result|]. cbn beta. intros [ds|] t Ht.
    - wp_go. intros Hs. apply Forall_cons in Hs as [_ Hs]. apply Forall_app in Hs as [Hs _].
      destruct (Ht Hs) as (ds' & [= <-] & Hok). eauto.
    - wp_go. rewrite app_nil_r. intros Hs. apply Forall_cons in Hs as [_ Hs]. destruct (Ht Hs) as (? & [=] & _). }
  destruct (proj1 (wp_exec _ _) Hwp _ _ Hex Hsized) as (ds & -> & Hl & Hp & Hf). exists ds. repeat split; try done.
  eapply Forall_impl; [exact Hf|]. cbn beta. intros d [Hd Hid]. split; [done|]. by apply drive_post_parses.
Qed.

(** Two namespaces of one drive, and a disk on another controller. *)
Definition sample_disks : handler rf unit := fun c w =>
  (match c return rf_res c with
   | AllocateZeroPool _ => Some 0x5000
   | LocateSmbios => (EFI_NOT_FOUND, [])
   | LocateDiskInfoHandles => (EFI_SUCCESS, (0x4000, [1; 2; 3]))
   | HandleDiskInfo h => (EFI_SUCCESS, (h, if h =? 3 then AhciInterface else NvmeInterface))
   | LocateNvmePassThru _ => (EFI_SUCCESS, 10)
   | HandlePassThru _ => (EFI_SUCCESS, 11)
   | NvmeIdentify _ => (EFI_SUCCESS, mkNvme (lit "Samsung SSD 950 PRO  ") (lit "S2GMNX0H") (lit "2B0QBXX7"))
   | AtaIdentify _ => (EFI_SUCCESS, mkAta (swap_pairs (lit "WDC WD10JPVX" ++ repeat 0x20 28))
                                      (swap_pairs (lit "WX71A" ++ repeat 0x20 15)) (swap_pairs (lit "01.01A01")) 5400)
   | HandleBlockIo _ => (EFI_SUCCESS, Some (mkMedia true 999 512))
   | LocateFmpHandles => (EFI_NOT_FOUND, (0, []))
   | HandleFmp _ => (EFI_NOT_FOUND, 0)
   | GetImageInfoSize _ => (EFI_NOT_FOUND, 0)
   | GetImageInfo _ _ => (EFI_NOT_FOUND, mkDesc 0 0 None mNucRedfishFirmwareImageTypeId None None 0 0 0 0 0)
   | RedfishCreateService => None
   | RedfishHttpGet _ _ => (EFI_NOT_FOUND, None)
   | GetLoadOptions => None
   | HandleDevicePath _ | RedfishHttpPatch _ _ _ | RedfishHttpPost _ _ _ | SetBootNext _
   | InstallConfigHandler => EFI_SUCCESS
   | FreePool _ | RedfishHttpFreeResponse | FreeLoadOptions | ResetSystemCold | Stall _ => tt
   end, w).

Lemma drives_reported_witness :
  exists ds, run_val sample_disks (NucRedfishCollectDrives 8) tt = Some (EFI_SUCCESS, ds)
             /\ map dr_Model ds = [lit "Samsung SSD 950 PRO"; lit "WDC WD10JPVX"]
             /\ map dr_CapacityBytes ds = [512000; 512000].
Proof.
  destruct (drives_reported 8 _ _ (Nat.lt_0_succ 7) (exec_run sample_disks (NucRedfishCollectDrives 8) tt)) as (ds & Hr & _).
  { repeat first [apply Forall_nil_2|apply Forall_cons_2; [first [exact I|repeat split; reflexivity]|]]. }
  exists ds. split; [exact Hr|]. revert Hr. vm_compute. intros [= <-]. split; reflexivity.
Defined.

(** ** Firmware *)

(** A CHAR16 string as the 63 ASCII characters a field keeps of it. *)
Definition ascii_field (s : option (list Z)) : list Z :=
  match s with
  | None => []
  | Some s => map (fun c => if c <? 0x80 then c else 0x3F) (take 63 (cstr s))
  end.

Definition descriptor_ok (d : fmp_descriptor) : Prop :=
  is_uint 32 (fd_Version d) /\ is_uint 32 (fd_LowestSupportedImageVersion d) /\ is_uint 32 (fd_LastAttemptVersion d)
  /\ is_uint 32 (fd_LastAttemptStatus d) /\ clean (ascii_field (fd_VersionName d)).

(** An attempt is on record. *)
Definition attempted (d : fmp_descriptor) : bool :=
  (3 <=? fd_DescriptorVersion d) && negb ((fd_LastAttemptStatus d =? 0) && (fd_LastAttemptVersion d =? 0)).

Section firmware.
Context `{EdkStrings}.
Abbreviation M := NUC_REDFISH_JSON_MAX.

(** The 8-4-4-4-12 spelling, in capitals. *)
Definition guid_text (g : EFI_GUID) : list Z :=
  upper_hex 8 (Data1 g) ++ lit "-" ++ upper_hex 4 (Data2 g) ++ lit "-" ++ upper_hex 4 (Data3 g) ++ lit "-"
  ++ flat_map (upper_hex 2) [nth 0 (Data4 g) 0; nth 1 (Data4 g) 0] ++ lit "-"
  ++ flat_map (upper_hex 2) [nth 2 (Data4 g) 0; nth 3 (Data4 g) 0; nth 4 (Data4 g) 0; nth 5 (Data4 g) 0; nth 6 (Data4 g) 0; nth 7 (Data4 g) 0].

Definition version_text (d : fmp_descriptor) : list Z :=
  match ascii_field (fd_VersionName d) with [] => lit "unknown" | v => v end.

(** What a descriptor's report should say. *)
Definition firmware_fixed (d : fmp_descriptor) : list (list Z * json) :=
  [str_json "Id" "BiosFirmware"; (lit "Version", JStr (version_text d));
   (lit "Updateable", JBool (negb (Z.land (fd_AttributesSetting d) 1 =? 0))); status_json "Enabled"].
Definition oem_json (d : fmp_descriptor) : list Z * json :=
  (lit "Oem", JObj [(lit "PiBmc", JObj
     ((lit "FirmwareVersion", JNum (fd_Version d))
      :: (lit "LowestSupportedVersion", JNum (fd_LowestSupportedImageVersion d))
      :: if attempted d then [(lit "LastAttemptVersion", JNum (fd_LastAttemptVersion d));
                              (lit "LastAttemptStatus", JNum (fd_LastAttemptStatus d))]
         else []))]).
Definition firmware_members (d : fmp_descriptor) : list (list Z * json) :=
  str_member (lit "Name") (ascii_field (fd_ImageIdName d))
  ++ str_member (lit "SoftwareId") (guid_text (fd_ImageTypeId d)) ++ [oem_json d].
Definition firmware_json (d : fmp_descriptor) : json :=
  JObj (str_json "@odata.type" "#SoftwareInventory.v1_2_3.SoftwareInventory" :: firmware_fixed d ++ firmware_members d).

Definition firmware_head (d : fmp_descriptor) : list Z :=
  jlit "{'@odata.type':'#SoftwareInventory.v1_2_3.SoftwareInventory'"
  ++ jlit ",'Id':'" ++ NUC_REDFISH_FIRMWARE_INVENTORY_ID ++ jlit "'"
  ++ jlit ",'Version':'" ++ version_text d ++ jlit "'"
  ++ jlit ",'Updateable':" ++ (if negb (Z.land (fd_AttributesSetting d) 1 =? 0) then lit "true" else lit "false")
  ++ jlit ",'Status':{'State':'Enabled','Health':'OK'}".
Definition oem_text (d : fmp_descriptor) : list Z :=
  jlit ",'Oem':{'PiBmc':{'FirmwareVersion':" ++ udec (fd_Version d)
  ++ jlit ",'LowestSupportedVersion':" ++ udec (fd_LowestSupportedImageVersion d).
Definition attempt_text (d : fmp_descriptor) : list Z :=
  jlit ",'LastAttemptVersion':" ++ udec (fd_LastAttemptVersion d)
  ++ jlit ",'LastAttemptStatus':" ++ udec (fd_LastAttemptStatus d).
Definition firmware_steps (d : fmp_descriptor) : list (list Z -> list Z) :=
  [add_string (lit "Name") (Some (ascii_field (fd_ImageIdName d)));
   add_string (lit "SoftwareId") (Some (guid_text (fd_ImageTypeId d)));
   (fun b => if false then b else AsciiStrCatS b M (AsciiSPrint 160 (oem_text d)));
   (fun b => if negb (attempted d) then b else AsciiStrCatS b M (AsciiSPrint 160 (attempt_text d)));
   add_text (lit "}}}")].
Definition firmware_texts (d : fmp_descriptor) : list (list Z) :=
  [tail_text (str_member (lit "Name") (ascii_field (fd_ImageIdName d)));
   tail_text (str_member (lit "SoftwareId") (guid_text (fd_ImageTypeId d)));
   oem_text d; (if negb (attempted d) then [] else attempt_text d); lit "}}}"].

Lemma guid_text_len g : len (guid_text g) = 36.
Proof.
  unfold guid_text. cbn [flat_map]. rewrite <- !hex_upper, app_nil_r. unfold len. rewrite !length_app, !hex_length. reflexivity.
Qed.
Lemma ascii_field_ok s : field_ok (ascii_field s).
Proof. destruct s as [s|]; [|done]. unfold ascii_field, field_ok, len. rewrite length_map, length_take. lia. Qed.

Lemma ascii_field_fmp s : CopyFmpString s NUC_REDFISH_STR_MAX = ascii_field s.
Proof. destruct s; reflexivity. Qed.
Lemma fmp_guid g : RenderFmpGuid g 37 = guid_text g.
Proof.
  unfold RenderFmpGuid, hexbytes. cbv zeta. cbn [flat_map]. rewrite !hex_upper. fold (guid_text g). apply print_fits; [lia|].
  pose proof (guid_text_len g). lia.
Qed.

(** The body built for a descriptor, as a sequence of steps. *)
Lemma firmware_patch_steps d :
  firmware_patch (firmware_status d)
  = fold_left (fun b step => step b) (firmware_steps d) (AsciiSPrint M (firmware_head d)).
Proof.
  unfold firmware_patch, firmware_status. rewrite !ascii_field_fmp, fmp_guid.
  cbn [fs_Version fs_Updateable fs_Name fs_ImageTypeId fs_VersionNumber fs_LowestSupportedVersion fs_HasLastAttempt
       fs_LastAttemptVersion fs_LastAttemptStatus firmware_steps fold_left].
  unfold attempted, oem_text, attempt_text, LAST_ATTEMPT_STATUS_SUCCESS, IMAGE_ATTRIBUTE_IMAGE_UPDATABLE.
  destruct (3 <=? fd_DescriptorVersion d), (fd_LastAttemptStatus d =? 0), (fd_LastAttemptVersion d =? 0); reflexivity.
Qed.

Lemma firmware_concat d : concat (firmware_texts d) = tail_text (firmware_members d) ++ [0x7D].
Proof.
  unfold firmware_texts, firmware_members. cbn [concat]. rewrite !tail_text_app, <- !(assoc_L (++)), app_nil_r.
  do 2 f_equal. unfold oem_text, attempt_text, oem_json.
  destruct (attempted d); unfold tail_text, render_member; cbn [negb flat_map fst snd render map commas];
    rewrite ?app_nil_r; repeat (rewrite <- !(assoc_L (++)); cbn [app]); reflexivity.
Qed.

Lemma firmware_head_text d :
  clean (ascii_field (fd_VersionName d)) ->
  firmware_head d = 0x7B :: render_member (str_json "@odata.type" "#SoftwareInventory.v1_2_3.SoftwareInventory")
                         ++ tail_text (firmware_fixed d).
Proof.
  intros [_ Hv]. assert (He : escape (version_text d) = version_text d)
    by (unfold version_text; destruct (ascii_field (fd_VersionName d)); [reflexivity|exact Hv]).
  unfold firmware_head, firmware_fixed, tail_text. cbn [flat_map]. unfold render_member at 3, quoted.
  cbn [fst snd render]. unfold quoted. rewrite He.
  destruct (negb _); cbn [app]; repeat (rewrite <- !(assoc_L (++)); cbn [app]); reflexivity.
Qed.

Lemma oem_texts_len d : descriptor_ok d -> len (oem_text d) < 100 /\ len (attempt_text d) < 100.
Proof.
  intros (H1 & H2 & H3 & H4 & _). unfold is_uint, oem_text, attempt_text in *. rewrite !len_app.
  pose proof (udec_len (fd_Version d) 10 ltac:(lia) ltac:(lia)).
  pose proof (udec_len (fd_LowestSupportedImageVersion d) 10 ltac:(lia) ltac:(lia)).
  pose proof (udec_len (fd_LastAttemptVersion d) 10 ltac:(lia) ltac:(lia)).
  pose proof (udec_len (fd_LastAttemptStatus d) 10 ltac:(lia) ltac:(lia)). lit_lens. lia.
Qed.

Lemma firmware_len d : descriptor_ok d -> len (firmware_head d) + len (concat (firmware_texts d)) < M.
Proof.
  intros Hd. destruct (oem_texts_len d Hd) as [Ho Ha]. unfold firmware_texts. rewrite !len_concat_cons.
  pose proof (str_text_len (lit "Name") _ 63 eq_refl (ascii_field_ok (fd_ImageIdName d))).
  pose proof (str_text_len (lit "SoftwareId") (guid_text (fd_ImageTypeId d)) 36 eq_refl
                ltac:(pose proof (guid_text_len (fd_ImageTypeId d)); lia)).
  pose proof (ascii_field_ok (fd_VersionName d)) as Hv. unfold field_ok in Hv.
  assert (len (version_text d) <= 63) by (unfold version_text; destruct (ascii_field (fd_VersionName d)); [vm_compute; discriminate|exact Hv]).
  assert (len (if negb (attempted d) then [] else attempt_text d) <= 100) by (destruct (attempted d); [cbn [negb]; lia|vm_compute; discriminate]).
  unfold firmware_head, NUC_REDFISH_FIRMWARE_INVENTORY_ID. rewrite !len_app.
  assert (len (if negb (Z.land (fd_AttributesSetting d) 1 =? 0) then lit "true" else lit "false") <= 5)
    by (destruct (negb (Z.land (fd_AttributesSetting d) 1 =? 0)); vm_compute; discriminate).
  lit_lens. change (len (concat [])) with 0. unfold NUC_REDFISH_JSON_MAX. lia.
Qed.

Lemma firmware_ok d :
  descriptor_ok d ->
  json_ok (JObj (str_json "@odata.type" "#SoftwareInventory.v1_2_3.SoftwareInventory"
                 :: firmware_fixed d ++ firmware_members d)).
Proof.
  intros (H1 & H2 & H3 & H4 & [H5 _]). unfold is_uint in *. unfold firmware_fixed, firmware_members, oem_json.
  assert (Hv : json_ok (JStr (version_text d)))
    by (unfold version_text; destruct (ascii_field (fd_VersionName d)); [apply plain_dec; reflexivity|exact H5]).
  repeat (members_ok; try exact Hv).
Qed.
End firmware.

(** C29: The firmware report says what the firmware-management descriptor says.
    For every descriptor whose version name needs no escaping, the PATCH body
    built from it fits its buffer and parses to the image name, the GUID in
    8-4-4-4-12 form with capital digits, the version (or "unknown"), whether it
    can be updated, its version numbers, and the last-attempt version and
    status exactly when the descriptor is new enough to carry them and they
    are not both zero (zero stands for no attempt on record; a successful
    attempt of version 0 looks the same and is not reported). *)
Theorem firmware_patch_decodes `{EdkStrings} (d : fmp_descriptor) (Hok : descriptor_ok d) :
  parse_json (firmware_patch (firmware_status d)) = Some (firmware_json d).
Proof.
  rewrite firmware_patch_steps. destruct (oem_texts_len d Hok).
  apply (body_decodes (firmware_head d) (firmware_steps d) (firmware_texts d)
           (str_json "@odata.type" "#SoftwareInventory.v1_2_3.SoftwareInventory") (firmware_fixed d) (firmware_members d)).
  - repeat apply Forall2_cons_2; [| |apply (append_printed false 160); lia|apply append_printed; lia|apply (append_piece false)|constructor].
    + apply append_string; [reflexivity|apply ascii_field_ok].
    + apply append_string; [reflexivity|]. pose proof (guid_text_len (fd_ImageTypeId d)). lia.
  - apply firmware_head_text, Hok.
  - apply firmware_concat.
  - by apply firmware_ok.
  - by apply firmware_len.
Qed.

Definition sample_descriptor (version : list Z) : fmp_descriptor :=
  mkDesc 3 1 None mNucRedfishFirmwareImageTypeId (Some (lit "NUC5i7RYH" ++ [0])) (Some (version ++ [0])) 7 5 3 6 1.

Lemma firmware_patch_decodes_witness :
  parse_json (firmware_patch (firmware_status (sample_descriptor (lit "2026.07"))))
  = Some (firmware_json (sample_descriptor (lit "2026.07"))).
Proof.
  apply firmware_patch_decodes. repeat split; try (vm_compute; discriminate); try reflexivity.
  apply plain_dec. reflexivity.
Defined.

(** The version name is printed without escaping: one with a quote in it
    makes a body that is not JSON. *)
Example firmware_version_unescaped :
  parse_json (firmware_patch (firmware_status (sample_descriptor [0x32; 0x22; 0x36]))) = None.
Proof. vm_compute. reflexivity. Qed.
