(* ===== verification/JsonLib.v ===== *)
(** * JsonLib

    The JSON library the Redfish drivers use is outside the repository: an
    interface with its documented behaviour, and [base_json], a concrete
    instance over the parser of Json. *)

From S2P Require Import Prelude EdkStrings Json.

(** [JsonObjectGetValue] looks a key up; [JsonValueGetAsciiString] is NULL for
    a value that is not a string (and may be for one that is not ASCII);
    [JsonLoadString] reads back what [JsonDumpString] writes. *)
Class JsonLib := {
  JsonObjectGetValue : list (list Z * json) -> list Z -> option json;
  JsonObjectGetValue_in l k v : JsonObjectGetValue l k = Some v -> (k, v) ∈ l;
  JsonObjectGetValue_unique l k v :
    NoDup (map fst l) -> (k, v) ∈ l -> JsonObjectGetValue l k = Some v;
  JsonValueGetAsciiString : json -> option (list Z);
  JsonValueGetAsciiString_str v s : JsonValueGetAsciiString v = Some s -> v = JStr s;
  JsonValueGetAsciiString_ascii s :
    Forall (fun c => 0 < c < 0x80) s -> JsonValueGetAsciiString (JStr s) = Some s;
  JsonLoadString : list Z -> option json;
  JsonDumpString : json -> list Z;
  JsonLoadDump v : json_ok v -> JsonLoadString (JsonDumpString v) = Some v
}.

(** A concrete JsonLib. *)
Definition first_value (l : list (list Z * json)) (k : list Z) : option json :=
  snd <$> List.find (fun m => bool_decide (fst m = k)) l.
Definition ascii_string (v : json) : option (list Z) :=
  match v with
  | JStr s => if forallb (fun c => (0 <? c) && (c <? 0x80)) s then Some s else None
  | _ => None
  end.

#[global] Program Instance base_json : JsonLib := {|
  JsonObjectGetValue := first_value;
  JsonValueGetAsciiString := ascii_string;
  JsonLoadString := parse_json;
  JsonDumpString := render
|}.
Next Obligation.
  intros l k v. unfold first_value. destruct (List.find _ l) as [[k' v']|] eqn:Hf; [|done]. cbn. intros [= ->].
  apply List.find_some in Hf as [Hin Hk]. apply bool_decide_eq_true in Hk. cbn in Hk. subst. by apply list_elem_of_In.
Qed.
Next Obligation.
  intros l k v. unfold first_value. induction l as [|[k' v'] l IH]; cbn; intros Hnd Hin; [by apply not_elem_of_nil in Hin|].
  apply NoDup_cons in Hnd as [Hk Hnd]. case_bool_decide as Hkk.
  - subst. apply elem_of_cons in Hin as [[= ->]|Hin]; [done|]. destruct Hk. apply list_elem_of_In, in_map_iff.
    exists (k, v). split; [done|]. by apply list_elem_of_In.
  - apply elem_of_cons in Hin as [[= -> ->]|Hin]; [done|]. by apply IH.
Qed.
Next Obligation. intros [s| | | | |] s'; cbn; try done. case_match; [|done]. by intros [= ->]. Qed.
Next Obligation.
  intros s Hs. cbn. replace (forallb _ s) with true; [done|]. symmetry. apply forallb_forall. intros c Hc.
  apply list_elem_of_In in Hc. rewrite Forall_forall in Hs. specialize (Hs c Hc). cbn in Hs. apply andb_true_intro. lia.
Qed.
Next Obligation. exact parse_render. Qed.
