(* ===== verification/Sync.v ===== *)
(** * The Redfish exchange (NucRedfishSyncDxe/NucRedfishSyncDxe.c)

    The host-side client of the Redfish host interface: it reports the host's
    inventory to the BMC, reads back a one-time boot override, acknowledges
    it and resets into it.  JSON payloads are read through JsonLib, a library
    outside the repository, given by an interface. *)

From S2P Require Import Prelude Services Uefi EdkStrings Json JsonLib Inventory.

(** ** Constants *)

Definition NUC_REDFISH_SERVICE_ROOT_URI : list Z := lit "/redfish/v1/".
Definition NUC_REDFISH_SYSTEM_URI : list Z := lit "/redfish/v1/Systems/1".
Definition NUC_REDFISH_MEMORY_URI : list Z := lit "/redfish/v1/Systems/1/Memory".
Definition NUC_REDFISH_PROCESSORS_URI : list Z := lit "/redfish/v1/Systems/1/Processors".
Definition NUC_REDFISH_DRIVES_URI : list Z := lit "/redfish/v1/Systems/1/Storage/1/Drives".
Definition NUC_REDFISH_FIRMWARE_INVENTORY_URI : list Z :=
  lit "/redfish/v1/UpdateService/FirmwareInventory/BiosFirmware".
Definition NUC_REDFISH_MEDIA_RETRIES : nat := 8.
Definition NUC_REDFISH_MEDIA_RETRY_STALL : Z := 2000000.
Definition LOAD_OPTION_CATEGORY : Z := 0x1F00.
Definition LOAD_OPTION_CATEGORY_APP : Z := 0x100.

(** The body that clears the override. *)
Definition clear_override : list Z := jlit "{'Boot':{'BootSourceOverrideEnabled':'Disabled'}}".

(** ** How a function ends

    Besides returning, the exchange can stop in the reset's CpuDeadLoop, and
    the model stops where the code would read outside an SMBIOS or identify
    string. *)
Inductive ending := Returned | Halted | StrayRead.

#[global] Instance ending_eq_dec : EqDecision ending.
Proof. solve_decision. Defined.

(** Go on after a function that returned. *)
Definition andthen (p q : fw rf ending) : fw rf ending :=
  e ← p; match e with Returned => q | e => mret e end.

(** ** Boot options *)

Definition is_node (Type_ SubType : Z) (n : dp_node) : bool := (dp_type n =? Type_) && (dp_subtype n =? SubType).

Definition OptionHasNode (o : load_option) (Type_ SubType : Z) : bool :=
  match FilePath o with
  | None => false
  | Some path => existsb (is_node Type_ SubType) path
  end.

(** The loop of OptionIsNetworkBoot. *)
Fixpoint network_loop (path : list dp_node) (HasMac : bool) : bool :=
  match path with
  | [] => HasMac
  | Node :: path =>
      if negb (dp_type Node =? MESSAGING_DEVICE_PATH) then network_loop path HasMac
      else if dp_subtype Node =? MSG_USB_DP then false
      else network_loop path (if dp_subtype Node =? MSG_MAC_ADDR_DP then true else HasMac)
  end.
Definition OptionIsNetworkBoot (o : load_option) : bool :=
  match FilePath o with None => false | Some path => network_loop path false end.

Definition storage_subtypes : list Z :=
  [MSG_NVME_NAMESPACE_DP; MSG_SATA_DP; MSG_ATAPI_DP; MSG_SCSI_DP; MSG_EMMC_DP; MSG_SD_DP; MSG_UFS_DP].
Fixpoint disk_loop (path : list dp_node) : bool :=
  match path with
  | [] => false
  | Node :: path =>
      if negb (dp_type Node =? MESSAGING_DEVICE_PATH) then disk_loop path
      else if existsb (Z.eqb (dp_subtype Node)) storage_subtypes then true
      else disk_loop path
  end.
Definition OptionIsDiskBoot (o : load_option) : bool :=
  match FilePath o with
  | None => false
  | Some path => if OptionHasNode o MEDIA_DEVICE_PATH MEDIA_HARDDRIVE_DP then true else disk_loop path
  end.

Definition str_eqb (a b : list Z) : bool := bool_decide (a = b).

(** Does the option match the Redfish target? *)
Definition option_matches (Target : list Z) (o : load_option) : bool :=
  if str_eqb Target (lit "BiosSetup") then Z.land (Attributes o) LOAD_OPTION_CATEGORY =? LOAD_OPTION_CATEGORY_APP
  else if str_eqb Target (lit "Pxe") then OptionIsNetworkBoot o
  else if str_eqb Target (lit "Hdd") then OptionIsDiskBoot o
  else false.

(** The option the index [Match] names, with EFI_SUCCESS; otherwise the
    options have been released. *)
Definition FindBootOverrideOption (Target : option (list Z)) : fw rf (EFI_STATUS * option load_option) :=
  match Target with
  | None => mret (EFI_NOT_FOUND, None)
  | Some Target =>
      if str_eqb Target (lit "None") then mret (EFI_NOT_FOUND, None)
      else
        Options ← call (S := rf) GetLoadOptions;
        match Options with
        | None | Some [] => mret (EFI_NOT_FOUND, None)
        | Some Options =>
            match List.find (option_matches Target) Options with
            | Some o => mret (EFI_SUCCESS, Some o)
            | None =>
                _ ← call_ (S := rf) FreeLoadOptions;
                mret (EFI_NOT_FOUND, None)
            end
        end
  end.

(** A UINT16 BootNext, then the reset. *)
Definition ApplyMatchedOption (Option_ : load_option) : fw rf (EFI_STATUS * ending) :=
  Status ← call (S := rf) (SetBootNext (wrap 16 (OptionNumber Option_)));
  if EFI_ERROR Status then mret (Status, Returned)
  else
    _ ← call_ (S := rf) ResetSystemCold;
    mret (EFI_SUCCESS, Halted).

Section sync.
Context `{EdkStrings, JsonLib}.

(** Target and Enabled of the payload's Boot object, when it has one. *)
Definition boot_override (Payload : option json) : option (option (list Z) * option (list Z)) :=
  match Payload with
  | Some (JObj Root) =>
      match JsonObjectGetValue Root (lit "Boot") with
      | Some (JObj Boot) =>
          Some (JsonObjectGetValue Boot (lit "BootSourceOverrideTarget") ≫= JsonValueGetAsciiString,
                JsonObjectGetValue Boot (lit "BootSourceOverrideEnabled") ≫= JsonValueGetAsciiString)
      | _ => None
      end
  | _ => None
  end.

Definition HandleBootOverride (Service : Z) (Payload : option json) : fw rf ending :=
  match boot_override Payload with
  | None => mret Returned
  | Some (Target, Enabled) =>
      if negb (bool_decide (Enabled = Some (lit "Once"))) then mret Returned
      else
        '(Status, Match) ← FindBootOverrideOption Target;
        if EFI_ERROR Status then mret Returned
        else
          match Match with
          | None => mret Returned
          | Some Option_ =>
              Status ← call (S := rf) (RedfishHttpPatch Service NUC_REDFISH_SYSTEM_URI clear_override);
              _ ← call_ (S := rf) RedfishHttpFreeResponse;
              if EFI_ERROR Status then
                _ ← call_ (S := rf) FreeLoadOptions;
                mret Returned
              else
                '(_, e) ← ApplyMatchedOption Option_;
                andthen (mret e) (_ ← call_ (S := rf) FreeLoadOptions; mret Returned)
          end
  end.

(** ** Reports *)

(** One POST per item: build the body, send it, release answer and body. *)
Definition report_one {A} (Service : Z) (Uri : list Z) (Build : A -> fw rf (EFI_STATUS * option (Z * list Z)))
    (item : A) : fw rf unit :=
  '(Status, Body) ← Build item;
  match Body with
  | Some (p, text) =>
      if EFI_ERROR Status then mret tt
      else
        _ ← call_ (S := rf) (RedfishHttpPost Service Uri text);
        _ ← call_ (S := rf) RedfishHttpFreeResponse;
        call_ (S := rf) (FreePool p)
  | None => mret tt
  end.

(** Collect, then one POST for each item. *)
Definition report {A} (Collect : fw rf (option (EFI_STATUS * list A))) (Service : Z) (Uri : list Z)
    (Build : A -> fw rf (EFI_STATUS * option (Z * list Z))) : fw rf ending :=
  r ← Collect;
  match r with
  | None => mret StrayRead
  | Some (Status, items) =>
      if EFI_ERROR Status || (length items =? 0)%nat then mret Returned
      else _ ← for_each items (report_one Service Uri Build); mret Returned
  end.

Definition ReportProcessors (Service : Z) : fw rf ending :=
  report (NucRedfishCollectProcessors NUC_REDFISH_PROCESSOR_MAX) Service NUC_REDFISH_PROCESSORS_URI
    NucRedfishBuildProcessorPost.
Definition ReportMemory (Service : Z) : fw rf ending :=
  report (NucRedfishCollectMemory NUC_REDFISH_MEMORY_MAX) Service NUC_REDFISH_MEMORY_URI NucRedfishBuildMemoryPost.
Definition ReportDrives (Service : Z) : fw rf ending :=
  report (NucRedfishCollectDrives NUC_REDFISH_DRIVE_MAX) Service NUC_REDFISH_DRIVES_URI NucRedfishBuildDrivePost.

Definition ReportFirmwareInventory (Service : Z) : fw rf ending :=
  '(Status, FirmwareStatus) ← NucRedfishCollectFirmwareStatus;
  if EFI_ERROR Status then mret Returned
  else
    '(Status, Body) ← NucRedfishBuildFirmwareInventoryPatch FirmwareStatus;
    match Body with
    | Some (p, text) =>
        if EFI_ERROR Status then mret Returned
        else
          _ ← call_ (S := rf) (RedfishHttpPatch Service NUC_REDFISH_FIRMWARE_INVENTORY_URI text);
          _ ← call_ (S := rf) RedfishHttpFreeResponse;
          _ ← call_ (S := rf) (FreePool p);
          mret Returned
    | None => mret Returned
    end.

(** ** The exchange *)

(** The GET of the service root, with [Left] more attempts allowed. *)
Fixpoint service_root (Left : nat) (Service : Z) : fw rf EFI_STATUS :=
  '(Status, _) ← call (S := rf) (RedfishHttpGet Service NUC_REDFISH_SERVICE_ROOT_URI);
  _ ← call_ (S := rf) RedfishHttpFreeResponse;
  match Left with
  | S Left =>
      if negb (Status =? EFI_NO_MEDIA) then mret Status
      else
        _ ← call_ (S := rf) (Stall NUC_REDFISH_MEDIA_RETRY_STALL);
        service_root Left Service
  | O => mret Status
  end.

(** Report identity and boot progress. *)
Definition report_system (Service : Z) : fw rf ending :=
  r ← NucRedfishCollectInventory;
  match r with
  | None => mret StrayRead
  | Some (_, Inventory) =>
      '(Status, Patch) ← NucRedfishBuildSystemPatch Inventory;
      match Patch with
      | Some (p, text) =>
          if EFI_ERROR Status then mret Returned
          else
            _ ← call_ (S := rf) (RedfishHttpPatch Service NUC_REDFISH_SYSTEM_URI text);
            _ ← call_ (S := rf) RedfishHttpFreeResponse;
            _ ← call_ (S := rf) (FreePool p);
            mret Returned
      | None => mret Returned
      end
  end.

(** Read the system back and act on its boot override. *)
Definition read_override (Service : Z) : fw rf ending :=
  '(Status, Payload) ← call (S := rf) (RedfishHttpGet Service NUC_REDFISH_SYSTEM_URI);
  andthen (if EFI_ERROR Status then mret Returned else HandleBootOverride Service Payload)
    (_ ← call_ (S := rf) RedfishHttpFreeResponse; mret Returned).

Definition NucRedfishSync : fw rf ending :=
  Service ← call (S := rf) RedfishCreateService;
  match Service with
  | None => mret Returned
  | Some Service =>
      Status ← service_root (NUC_REDFISH_MEDIA_RETRIES - 1) Service;
      if EFI_ERROR Status then mret Returned
      else
        andthen (report_system Service)
          (andthen (ReportMemory Service)
             (andthen (ReportProcessors Service)
                (andthen (ReportDrives Service)
                   (andthen (ReportFirmwareInventory Service) (read_override Service)))))
  end.

(** ** The protocol *)

(** [ServiceInfo] may be NULL, and so may its REST EX handle; [mSyncDone] is
    the latch.  The answer is the status, how the call ended, and the
    latch. *)
Definition NucRedfishConfigHandlerInit (mSyncDone : bool) (ServiceInfo : option (option Z))
    : fw rf (EFI_STATUS * ending * bool) :=
  match ServiceInfo with
  | None => mret (EFI_SUCCESS, Returned, mSyncDone)
  | Some None => mret (EFI_NOT_READY, Returned, mSyncDone)
  | Some (Some _) =>
      if mSyncDone then mret (EFI_SUCCESS, Returned, true)
      else
        e ← NucRedfishSync;
        mret (EFI_SUCCESS, e, true)
  end.

Definition NucRedfishConfigHandlerStop : EFI_STATUS := EFI_SUCCESS.

Definition NucRedfishSyncDxeEntryPoint : fw rf EFI_STATUS :=
  call (S := rf) InstallConfigHandler.
End sync.
