(* ===== verification/SyncSpec.v ===== *)
(** * What the Redfish exchange guarantees

    Which boot option an override selects; that the host resets only into an
    override the BMC has acknowledged, and does so when everything succeeds;
    that the delay of a boot is bounded; that the exchange runs once. *)

From S2P Require Import Prelude Services Uefi EdkStrings Json JsonLib Inventory InventoryReports Sync.

(** ** Which option an override selects *)

Definition on_path (o : load_option) (P : dp_node -> Prop) : Prop :=
  exists path n, FilePath o = Some path /\ n ∈ path /\ P n.
Definition messaging (sub : Z) (n : dp_node) : Prop := dp_type n = MESSAGING_DEVICE_PATH /\ dp_subtype n = sub.

(** The Redfish boot classes: the setup application; a network interface that
    is not behind USB; a partition or a storage device. *)
Definition selects (Target : list Z) (o : load_option) : Prop :=
  (Target = lit "BiosSetup" /\ (Attributes o / 256) mod 32 = 1)
  \/ (Target = lit "Pxe" /\ on_path o (messaging MSG_MAC_ADDR_DP) /\ ~ on_path o (messaging MSG_USB_DP))
  \/ (Target = lit "Hdd"
      /\ (on_path o (fun n => dp_type n = MEDIA_DEVICE_PATH /\ dp_subtype n = MEDIA_HARDDRIVE_DP)
          \/ exists sub, sub ∈ storage_subtypes /\ on_path o (messaging sub))).

Lemma category_app a : (Z.land a LOAD_OPTION_CATEGORY =? LOAD_OPTION_CATEGORY_APP) = true <-> (a / 256) mod 32 = 1.
Proof.
  unfold LOAD_OPTION_CATEGORY, LOAD_OPTION_CATEGORY_APP. rewrite Z.eqb_eq.
  assert (Hl : Z.land a 0x1F00 = ((a / 256) mod 32) * 256).
  { change 0x1F00 with (Z.shiftl (Z.ones 5) 8). change 32 with (2 ^ 5). change 256 with (2 ^ 8).
    rewrite <- Z.shiftr_div_pow2, <- Z.land_ones, <- Z.shiftl_mul_pow2, Z.shiftl_land by lia.
    apply Z.bits_inj'. intros k Hk. rewrite !Z.land_spec, !Z.shiftl_spec by lia.
    destruct (Z.lt_ge_cases k 8); [rewrite !(Z.testbit_neg_r _ (k - 8)) by lia; by rewrite !andb_false_r|].
    rewrite Z.shiftr_spec by lia. by replace (k - 8 + 8) with k by lia. }
  rewrite Hl. change 0x100 with 256. lia.
Qed.

Lemma network_loop_spec path b :
  network_loop path b = true <->
  ((exists n, n ∈ path /\ messaging MSG_MAC_ADDR_DP n) \/ b = true) /\ ~ exists n, n ∈ path /\ messaging MSG_USB_DP n.
Proof.
  revert b. induction path as [|n path IH]; intros b; cbn [network_loop].
  { split; [intros ->; split; [auto|]|intros [[Hn|Hb] _]; [|done]]; [intros (n & Hn & _)|destruct Hn as (n & Hn & _)];
      by apply not_elem_of_nil in Hn. }
  assert (Hx : forall sub, (exists x, x ∈ n :: path /\ messaging sub x)
                           <-> messaging sub n \/ exists x, x ∈ path /\ messaging sub x).
  { intros sub. split.
    - intros (x & Hin & Hm). apply elem_of_cons in Hin as [->|Hin]; eauto.
    - intros [Hm|(x & Hin & Hm)]; [exists n|exists x]; split; try done; [left|by right]. }
  assert (Hm : forall sub, messaging sub n <-> dp_type n = MESSAGING_DEVICE_PATH /\ dp_subtype n = sub) by done.
  rewrite !Hx, !Hm. clear Hx Hm. destruct (Z.eqb_spec (dp_type n) MESSAGING_DEVICE_PATH) as [Ht|Ht]; cbn [negb];
    [|rewrite IH; tauto].
  destruct (Z.eqb_spec (dp_subtype n) MSG_USB_DP) as [Hu|Hu]; [split; [done|tauto]|].
  rewrite IH. destruct (Z.eqb_spec (dp_subtype n) MSG_MAC_ADDR_DP); intuition congruence.
Qed.

Lemma disk_loop_spec path :
  disk_loop path = true <-> exists sub, sub ∈ storage_subtypes /\ exists n, n ∈ path /\ messaging sub n.
Proof.
  induction path as [|n path IH]; cbn [disk_loop].
  { split; [done|]. intros (sub & _ & n & Hn & _). by apply not_elem_of_nil in Hn. }
  destruct (Z.eqb_spec (dp_type n) MESSAGING_DEVICE_PATH) as [Ht|Ht]; cbn [negb].
  - destruct (existsb _ _) eqn:Hs.
    + split; [intros _|done]. apply List.existsb_exists in Hs as (sub & Hin & He). apply Z.eqb_eq in He.
      exists sub. split; [by apply list_elem_of_In|]. exists n. split; [left|done].
    + rewrite IH. split; intros (sub & Hsub & x & Hx & Hm).
      * exists sub. split; [done|]. exists x. split; [by right|done].
      * apply elem_of_cons in Hx as [->|Hx]; [|by eauto 6]. destruct Hm as [_ Hm].
        assert (existsb (Z.eqb (dp_subtype n)) storage_subtypes = true) as Hc; [|by rewrite Hc in Hs].
        apply List.existsb_exists. exists sub. split; [by apply list_elem_of_In|by apply Z.eqb_eq].
  - rewrite IH. split; intros (sub & Hsub & x & Hx & Hm); exists sub; (split; [done|]); exists x; (split; [|done]);
      [by right|]. apply elem_of_cons in Hx as [->|Hx]; [|done]. by destruct Hm.
Qed.

Lemma OptionHasNode_spec o t s :
  OptionHasNode o t s = true <-> on_path o (fun n => dp_type n = t /\ dp_subtype n = s).
Proof.
  unfold OptionHasNode, on_path. destruct (FilePath o) as [path|]; [|split; [done|by intros (? & ? & [=] & _)]].
  rewrite List.existsb_exists. unfold is_node. split.
  - intros (n & Hin & Hn). b2p. exists path, n. split; [done|]. split; [by apply list_elem_of_In|done].
  - intros (p & n & [= <-] & Hin & Ht & Hs). exists n. split; [by apply list_elem_of_In|].
    by rewrite (proj2 (Z.eqb_eq _ _) Ht), (proj2 (Z.eqb_eq _ _) Hs).
Qed.

Lemma on_some path o P : FilePath o = Some path -> on_path o P <-> exists n, n ∈ path /\ P n.
Proof.
  intros Hp. unfold on_path. rewrite Hp. split; [intros (p & n & [= <-] & Hn); eauto|intros (n & Hn); eauto].
Qed.

Lemma str_eqb_true a b : str_eqb a b = true <-> a = b.
Proof. apply bool_decide_eq_true. Qed.
Lemma network_boot_spec o :
  OptionIsNetworkBoot o = true <-> on_path o (messaging MSG_MAC_ADDR_DP) /\ ~ on_path o (messaging MSG_USB_DP).
Proof.
  unfold OptionIsNetworkBoot. destruct (FilePath o) as [path|] eqn:Hp.
  - rewrite network_loop_spec, !(on_some path o) by done. intuition congruence.
  - split; [done|]. unfold on_path. rewrite Hp. by intros [(? & ? & [=] & _) _].
Qed.
Lemma disk_boot_spec o :
  OptionIsDiskBoot o = true <->
  on_path o (fun n => dp_type n = MEDIA_DEVICE_PATH /\ dp_subtype n = MEDIA_HARDDRIVE_DP)
  \/ exists sub, sub ∈ storage_subtypes /\ on_path o (messaging sub).
Proof.
  unfold OptionIsDiskBoot. rewrite <- OptionHasNode_spec. destruct (FilePath o) as [path|] eqn:Hp.
  - destruct (OptionHasNode o _ _); [intuition congruence|]. rewrite disk_loop_spec.
    setoid_rewrite (on_some path o _ Hp). intuition congruence.
  - unfold OptionHasNode, on_path. rewrite Hp. split; [done|]. by intros [?|(? & _ & ? & ? & [=] & _)].
Qed.

Lemma option_matches_spec T o : option_matches T o = true <-> selects T o.
Proof.
  unfold option_matches, selects.
  destruct (str_eqb T (lit "BiosSetup")) eqn:Hb.
  { apply str_eqb_true in Hb as ->. rewrite category_app. intuition discriminate. }
  destruct (str_eqb T (lit "Pxe")) eqn:Hx.
  { apply str_eqb_true in Hx as ->. rewrite network_boot_spec. intuition discriminate. }
  destruct (str_eqb T (lit "Hdd")) eqn:Hh.
  { apply str_eqb_true in Hh as ->. rewrite disk_boot_spec. intuition discriminate. }
  apply bool_decide_eq_false in Hb, Hx, Hh. intuition discriminate.
Qed.

Lemma find_first {A} (f : A -> bool) l :
  match List.find f l with
  | Some x => exists pre post, l = pre ++ x :: post /\ f x = true /\ Forall (fun y => f y = false) pre
  | None => Forall (fun y => f y = false) l
  end.
Proof.
  induction l as [|a l IH]; cbn [List.find]; [constructor|]. destruct (f a) eqn:Ha.
  - exists [], l. by repeat split.
  - destruct (List.find f l) as [x|]; [|by constructor]. destruct IH as (pre & post & -> & Hx & Hp).
    exists (a :: pre), post. repeat split; [done|by constructor].
Qed.

(** An override selects the first boot option of its class, and nothing
    else.  For every answer of the boot manager, the option found for a
    target is the first of the list that is of the Redfish class the target
    names, the setup application for BiosSetup, a MAC node and no USB node
    on the path for Pxe, a partition or storage node for Hdd; without one the
    answer is EFI_NOT_FOUND and the list has been released. *)
Theorem FindBootOverrideOption_first (Target : option (list Z)) (tr : list (event rf))
    (Status : EFI_STATUS) (Match : option load_option)
    (Hex : exec (FindBootOverrideOption Target) tr (Status, Match)) :
  match Match with
  | Some o => Status = EFI_SUCCESS /\ exists T pre post,
      Target = Some T /\ tr = [Ev (S := rf) GetLoadOptions (Some (pre ++ o :: post))]
      /\ selects T o /\ Forall (fun o => ~ selects T o) pre
  | None => Status = EFI_NOT_FOUND
      /\ (tr = [] \/ tr = [Ev (S := rf) GetLoadOptions None] \/ tr = [Ev (S := rf) GetLoadOptions (Some [])]
          \/ exists T opts, Target = Some T /\ Forall (fun o => ~ selects T o) opts
               /\ tr = [Ev (S := rf) GetLoadOptions (Some opts); Ev (S := rf) FreeLoadOptions tt])
  end.
Proof.
  revert Hex. unfold FindBootOverrideOption. destruct Target as [T|]; [|intros [-> [= -> ->]]; auto].
  destruct (str_eqb T _); [intros [-> [= -> ->]]; auto|].
  intros (opts & tr' & -> & Hex). assert (Hno : forall o, option_matches T o = false -> ~ selects T o)
    by (intros o Ho Hs; apply option_matches_spec in Hs; congruence).
  destruct opts as [[|o opts]|]; [destruct Hex as [-> [= -> ->]]; auto| |destruct Hex as [-> [= -> ->]]; auto].
  cbn -[List.find] in Hex. revert Hex. pose proof (find_first (option_matches T) (o :: opts)) as Hf. destruct (List.find (option_matches T) (o :: opts)) as [x|].
  - intros [-> [= -> ->]]. destruct Hf as (pre & post & Hl & Hx & Hp). split; [done|]. exists T, pre, post.
    rewrite Hl. repeat split; [by apply option_matches_spec|]. eapply Forall_impl; [exact Hp|]. exact Hno.
  - intros ([] & tr & -> & [-> [= -> ->]]). split; [done|]. right. right. right. exists T, (o :: opts).
    repeat split. eapply Forall_impl; [exact Hf|]. exact Hno.
Qed.

Definition setup_option : load_option := mkOption 0 0x109 (Some [mkNode 4 6 []]).
Definition bmc_nic : load_option :=
  mkOption 5 1 (Some [mkNode 1 1 []; mkNode 3 MSG_USB_DP [0; 1]; mkNode 3 MSG_MAC_ADDR_DP []]).
Definition onboard_nic : load_option := mkOption 6 1 (Some [mkNode 1 1 []; mkNode 3 MSG_MAC_ADDR_DP []]).

Lemma FindBootOverrideOption_first_witness :
  exists pre post, [setup_option; bmc_nic; onboard_nic] = pre ++ onboard_nic :: post
    /\ ~ selects (lit "Pxe") bmc_nic.
Proof.
  destruct (FindBootOverrideOption_first (Some (lit "Pxe"))
              [Ev (S := rf) GetLoadOptions (Some [setup_option; bmc_nic; onboard_nic])] EFI_SUCCESS (Some onboard_nic))
    as (_ & T & pre & post & [= <-] & Htr & Hs & Hpre).
  - exists (Some [setup_option; bmc_nic; onboard_nic]), []. repeat split; reflexivity.
  - exists [setup_option; bmc_nic], []. split; [reflexivity|]. intros Hb. apply option_matches_spec in Hb. discriminate.
Defined.

(** ** Resets *)

(** The payload asks for a one-time override to [T]. *)
Definition requests (Payload : option json) (T : list Z) : Prop :=
  exists Root Boot, Payload = Some (JObj Root) /\ (lit "Boot", JObj Boot) ∈ Root
    /\ (lit "BootSourceOverrideTarget", JStr T) ∈ Boot /\ (lit "BootSourceOverrideEnabled", JStr (lit "Once")) ∈ Boot.

(** Calls that neither stage a boot nor reset. *)
Definition quiet (c : rf_op) : Prop :=
  match c with SetBootNext _ | ResetSystemCold => False | _ => True end.
Abbreviation quiet_trace tr := (Forall (fun e : event rf => quiet (ev_op e)) tr).

Section reset.
Context `{EdkStrings, JsonLib}.

Lemma get_string Boot k s :
  JsonObjectGetValue Boot k ≫= JsonValueGetAsciiString = Some s -> (k, JStr s) ∈ Boot.
Proof.
  destruct (JsonObjectGetValue Boot k) as [v|] eqn:Hv; [|done]. cbn. intros Hs.
  apply JsonValueGetAsciiString_str in Hs as ->. by apply JsonObjectGetValue_in.
Qed.

Lemma boot_override_requests p T : boot_override p = Some (Some T, Some (lit "Once")) -> requests p T.
Proof.
  unfold boot_override. destruct p as [[| | | | |Root]|]; try done.
  destruct (JsonObjectGetValue Root (lit "Boot")) as [[| | | | |Boot]|] eqn:Hb; try done. intros [= Ht He].
  exists Root, Boot. apply JsonObjectGetValue_in in Hb. repeat split; [done|by apply get_string..].
Qed.

Lemma boot_override_complete Root Boot T :
  NoDup (map fst Root) -> NoDup (map fst Boot) -> Forall (fun c => 0 < c < 0x80) T ->
  (lit "Boot", JObj Boot) ∈ Root -> (lit "BootSourceOverrideTarget", JStr T) ∈ Boot ->
  (lit "BootSourceOverrideEnabled", JStr (lit "Once")) ∈ Boot ->
  boot_override (Some (JObj Root)) = Some (Some T, Some (lit "Once")).
Proof.
  intros Hr Hb Ha Hboot Ht He. unfold boot_override. rewrite (JsonObjectGetValue_unique _ _ _ Hr Hboot).
  rewrite (JsonObjectGetValue_unique _ _ _ Hb Ht), (JsonObjectGetValue_unique _ _ _ Hb He). cbn [mbind option_bind].
  rewrite !JsonValueGetAsciiString_ascii; [done| |done]. repeat constructor.
Qed.

Lemma andthen_exec p q tr e :
  exec (andthen p q) tr e ->
  (exists t1 t2, tr = t1 ++ t2 /\ exec p t1 Returned /\ exec q t2 e) \/ (exec p tr e /\ e <> Returned).
Proof.
  intros Hex. apply exec_bind in Hex as (t1 & e1 & t2 & -> & H1 & H2).
  destruct e1; [left; eauto 6|right..]; destruct H2 as [-> ->]; by rewrite app_nil_r.
Qed.

(** The calls of the reports. *)
Definition reporting (c : rf_op) : Prop :=
  match c with
  | SetBootNext _ | ResetSystemCold | RedfishCreateService | InstallConfigHandler | GetLoadOptions | FreeLoadOptions => False
  | _ => True
  end.
Lemma reporting_quiet {A} (p : fw rf A) : only (S := rf) reporting p -> only (S := rf) quiet p.
Proof. apply only_mono. by intros []. Qed.

Lemma collect_drives_reporting hs Max ds : only (S := rf) reporting (collect_drives_loop hs Max ds).
Proof.
  revert ds. induction hs as [|h hs IH]; intros ds; cbn [collect_drives_loop];
    unfold CollectNvmeDrive, CollectAtaDrive; only_go; apply IH.
Qed.
Lemma firmware_loop_reporting hs : only (S := rf) reporting (firmware_loop hs).
Proof. induction hs as [|h hs IH]; cbn [firmware_loop]; only_go. Qed.
Lemma report_reporting {A} (C : fw rf (option (EFI_STATUS * list A))) svc uri B :
  only (S := rf) reporting C -> (forall a, only (S := rf) reporting (B a)) -> only (S := rf) reporting (report C svc uri B).
Proof. intros HC HB. unfold report, report_one. only_go; auto. Qed.

Lemma service_root_reporting n svc : only (S := rf) reporting (service_root n svc).
Proof. induction n as [|n IH]; cbn [service_root]; only_go. Qed.

Lemma report_system_reporting svc : only (S := rf) reporting (report_system svc).
Proof. unfold report_system, NucRedfishCollectInventory, NucRedfishBuildSystemPatch, build. only_go. Qed.
Lemma ReportMemory_reporting svc : only (S := rf) reporting (ReportMemory svc).
Proof.
  unfold ReportMemory. apply report_reporting; [unfold NucRedfishCollectMemory; only_go|]. intros m. unfold NucRedfishBuildMemoryPost, build. only_go.
Qed.
Lemma ReportProcessors_reporting svc : only (S := rf) reporting (ReportProcessors svc).
Proof.
  unfold ReportProcessors. apply report_reporting; [unfold NucRedfishCollectProcessors; only_go|]. intros m.
  unfold NucRedfishBuildProcessorPost, build. only_go.
Qed.
Lemma ReportDrives_reporting svc : only (S := rf) reporting (ReportDrives svc).
Proof.
  unfold ReportDrives. apply report_reporting; [unfold NucRedfishCollectDrives; only_go; apply collect_drives_reporting|]. intros m.
  unfold NucRedfishBuildDrivePost, build. only_go.
Qed.
Lemma ReportFirmware_reporting svc : only (S := rf) reporting (ReportFirmwareInventory svc).
Proof.
  unfold ReportFirmwareInventory, NucRedfishCollectFirmwareStatus, NucRedfishBuildFirmwareInventoryPatch, build.
  only_go; apply firmware_loop_reporting.
Qed.

(** [late p]: whatever [p] does before it reads the override is quiet. *)
Definition late (p : fw rf ending) : Prop :=
  forall tr e, exec p tr e ->
  quiet_trace tr \/ exists pre svc t, tr = pre ++ t /\ quiet_trace pre /\ exec (read_override svc) t e.

Lemma late_read svc : late (read_override svc).
Proof. intros tr e Hex. right. by exists [], svc, tr. Qed.
Lemma late_ret e : late (mret e).
Proof. intros tr e' [-> ->]. by left. Qed.
Lemma late_bind {A} (p : fw rf A) f : only (S := rf) quiet p -> (forall a, late (f a)) -> late (p ≫= f).
Proof.
  intros Hp Hf tr e (t1 & a & t2 & -> & H1 & H2)%exec_bind. apply (only_exec (S := rf) quiet) in H1; [|done].
  apply Hf in H2 as [H2|(pre & svc & t & -> & Hpre & H2)]; [left; by apply Forall_app|].
  right. exists (t1 ++ pre), svc, t. rewrite (assoc_L (++)). split; [done|]. split; [by apply Forall_app|done].
Qed.
Lemma late_andthen p q : only (S := rf) quiet p -> late q -> late (andthen p q).
Proof. intros Hp Hq. apply late_bind; [done|]. intros []; [done|apply late_ret..]. Qed.

Lemma NucRedfishSync_late : late NucRedfishSync.
Proof.
  apply late_bind; [by apply only_call|]. intros [svc|]; [|apply late_ret].
  apply late_bind; [apply reporting_quiet, service_root_reporting|]. intros st. destruct (EFI_ERROR st); [apply late_ret|].
  apply late_andthen; [apply reporting_quiet, report_system_reporting|]. apply late_andthen; [apply reporting_quiet, ReportMemory_reporting|].
  apply late_andthen; [apply reporting_quiet, ReportProcessors_reporting|]. apply late_andthen; [apply reporting_quiet, ReportDrives_reporting|].
  apply late_andthen; [apply reporting_quiet, ReportFirmware_reporting|]. apply late_read.
Qed.

(** The one way to a reset. *)
Definition reset_trace (svc : Z) (Payload : option json) (st0 ack st : EFI_STATUS) (opts : list load_option) (n : Z)
    : list (event rf) :=
  [Ev (S := rf) (RedfishHttpGet svc NUC_REDFISH_SYSTEM_URI) (st0, Payload); Ev (S := rf) GetLoadOptions (Some opts);
   Ev (S := rf) (RedfishHttpPatch svc NUC_REDFISH_SYSTEM_URI clear_override) ack;
   Ev (S := rf) RedfishHttpFreeResponse tt; Ev (S := rf) (SetBootNext n) st; Ev (S := rf) ResetSystemCold tt].
Definition resets (tr : list (event rf)) : bool :=
  existsb (fun e : event rf => match ev_op e with ResetSystemCold => true | _ => false end) tr.

Definition acknowledged_reset (svc : Z) (tr : list (event rf)) : Prop :=
  exists Payload st0 ack st T pre o post,
    tr = reset_trace svc Payload st0 ack st (pre ++ o :: post) (wrap 16 (OptionNumber o))
    /\ EFI_ERROR st0 = false /\ requests Payload T /\ option_matches T o = true
    /\ Forall (fun o => option_matches T o = false) pre
    /\ EFI_ERROR ack = false /\ EFI_ERROR st = false.

Lemma find_wp Target :
  wp (FindBootOverrideOption Target) (fun r tr =>
    match snd r with
    | Some o => exists T pre post, Target = Some T /\ tr = [Ev (S := rf) GetLoadOptions (Some (pre ++ o :: post))]
                  /\ option_matches T o = true /\ Forall (fun o => option_matches T o = false) pre
    | None => resets tr = false
    end).
Proof.
  unfold FindBootOverrideOption. destruct Target as [T|]; [|wp_go; by auto].
  destruct (str_eqb T _); [wp_go; by auto|]. apply wp_call_bind. intros [[|o opts]|]; cbn beta iota; [wp_go; by auto| |wp_go; by auto].
  pose proof (find_first (option_matches T) (o :: opts)) as Hf.
  destruct (List.find (option_matches T) (o :: opts)) as [x|]; wp_go; [|by auto].
  destruct Hf as (pre & post & -> & Hx & Hp). exists T, pre, post. done.
Qed.

Lemma HandleBootOverride_wp svc Payload st0 :
  EFI_ERROR st0 = false ->
  wp (HandleBootOverride svc Payload) (fun e tr =>
    (e = Halted /\ acknowledged_reset svc (Ev (S := rf) (RedfishHttpGet svc NUC_REDFISH_SYSTEM_URI) (st0, Payload) :: tr))
    \/ (e = Returned /\ resets tr = false)).
Proof.
  intros Hst0. unfold HandleBootOverride. destruct (boot_override Payload) as [[Target Enabled]|] eqn:Hb; [|wp_go; by auto].
  case_bool_decide as He; cbn [negb]; [|wp_go; by auto]. subst Enabled.
  eapply wp_seq; [apply find_wp|]. cbn beta. intros [st [o|]] t Ht; cbn [snd] in Ht; cycle 1.
  { destruct (EFI_ERROR st); wp_go; rewrite app_nil_r; by auto. }
  destruct Ht as (T & pre & post & -> & -> & Ho & Hpre). destruct (EFI_ERROR st); [wp_go; by auto|].
  apply wp_call_bind. intros ack. cbn beta iota. wp_step. wp_step.
  destruct (EFI_ERROR ack) eqn:Hack; [wp_go; by auto|].
  unfold ApplyMatchedOption. wp_step. apply wp_call_bind. intros stn. cbn beta iota.
  destruct (EFI_ERROR stn) eqn:Hstn; [wp_go; unfold andthen; wp_go; by auto|].
  wp_go. unfold andthen. wp_go. left. split; [done|]. apply boot_override_requests in Hb.
  exists Payload, st0, ack, stn, T, pre, o, post. destruct r, r0. by repeat split.
Qed.

Lemma read_override_wp svc :
  wp (read_override svc) (fun e tr => (e = Halted /\ acknowledged_reset svc tr) \/ (e = Returned /\ resets tr = false)).
Proof.
  unfold read_override. apply wp_call_bind. intros [st0 Payload]. cbn beta iota.
  destruct (EFI_ERROR st0) eqn:Hst0; [unfold andthen; wp_go; by auto|].
  eapply wp_seq; [by apply HandleBootOverride_wp|]. cbn beta. intros e t [[-> Ha]|[-> Hn]]; wp_go.
  - left. by rewrite app_nil_r.
  - right. split; [done|]. unfold resets in *. cbn. rewrite existsb_app, Hn. done.
Qed.
End reset.

(** C5: The host resets only into an acknowledged one-time override.  For
    every behaviour of the BMC and the firmware, an exchange that resets the
    machine ends with exactly these calls: the system was read without error
    and its payload holds a Boot object asking once for some target; the
    boot options were listed; the override was cleared on the BMC, and the
    BMC accepted that; BootNext was set, without error, to the first option
    that matches the target; the reset is the last call, and everything
    before them neither stages a boot nor resets. *)
Theorem reset_only_acknowledged `{EdkStrings, JsonLib} (tr : list (event rf)) (e : ending)
    (Hex : exec NucRedfishSync tr e) (Hreset : resets tr = true) :
  exists pre svc Payload st0 ack st T opts1 o opts2,
    tr = pre ++ reset_trace svc Payload st0 ack st (opts1 ++ o :: opts2) (wrap 16 (OptionNumber o))
    /\ Forall (fun ev : event rf => quiet (ev_op ev)) pre
    /\ requests Payload T /\ selects T o /\ Forall (fun o => ~ selects T o) opts1
    /\ EFI_ERROR st0 = false /\ EFI_ERROR ack = false /\ EFI_ERROR st = false /\ e = Halted.
Proof.
  assert (Hq : forall t, quiet_trace t -> resets t = false).
  { induction 1 as [|[c r] t Hc _ IH]; [done|]. unfold resets in *. cbn in *. by destruct c. }
  apply NucRedfishSync_late in Hex as [Hn|(pre & svc & t & -> & Hpre & Hex)]; [apply Hq in Hn; congruence|].
  pose proof (proj1 (wp_exec _ _) (read_override_wp svc) _ _ Hex) as [[-> Ha]|[_ Hn]].
  - destruct Ha as (P & st0 & ack & st & T & o1 & o & o2 & -> & ? & ? & Ho & Hno & ? & ?).
    exists pre, svc, P, st0, ack, st, T, o1, o, o2. repeat split; try done; [by apply option_matches_spec|].
    eapply Forall_impl; [exact Hno|]. cbn beta. intros x Hx Hs. apply option_matches_spec in Hs. congruence.
  - unfold resets in *. rewrite existsb_app, Hn, orb_false_r in Hreset. apply Hq in Hpre. unfold resets in Hpre. congruence.
Qed.

(** A BMC that asks for a one-time network boot, and a host with three boot
    options. *)
Definition pxe_payload : json :=
  JObj [str_json "Id" "1";
        (lit "Boot", JObj [str_json "BootSourceOverrideEnabled" "Once"; str_json "BootSourceOverrideTarget" "Pxe"])].
Definition pxe_bmc : handler rf unit := fun c w =>
  match c return rf_res c * unit with
  | RedfishCreateService => (Some 1, w)
  | RedfishHttpGet _ _ => ((EFI_SUCCESS, Some pxe_payload), w)
  | GetLoadOptions => (Some [setup_option; bmc_nic; onboard_nic], w)
  | c => sample_disks c w
  end.

Lemma reset_only_acknowledged_witness :
  exists tr, exec NucRedfishSync tr Halted /\ resets tr = true
    /\ exists pre svc Payload st0 ack st T opts1 o opts2,
         tr = pre ++ reset_trace svc Payload st0 ack st (opts1 ++ o :: opts2) (wrap 16 (OptionNumber o))
         /\ requests Payload T /\ selects T o.
Proof.
  assert (Hr : resets (run_trace pxe_bmc NucRedfishSync tt) = true) by (vm_compute; reflexivity).
  assert (Hv : run_val pxe_bmc NucRedfishSync tt = Halted) by (vm_compute; reflexivity).
  pose proof (exec_run pxe_bmc NucRedfishSync tt) as Hex. rewrite Hv in Hex.
  destruct (reset_only_acknowledged _ _ Hex Hr) as (pre & svc & P & st0 & ack & st & T & o1 & o & o2 & Htr & Hq & HP & Hs & _).
  exists (run_trace pxe_bmc NucRedfishSync tt). split; [exact Hex|]. split; [exact Hr|].
  exists pre, svc, P, st0, ack, st, T, o1, o, o2. auto.
Defined.

Lemma find_at {A} (f : A -> bool) l1 x l2 :
  Forall (fun y => f y = false) l1 -> f x = true -> List.find f (l1 ++ x :: l2) = Some x.
Proof. intros Hl Hx. induction Hl as [|y l Hy _ IH]; cbn; [by rewrite Hx|by rewrite Hy]. Qed.

Section honour.
Context `{EdkStrings, JsonLib} {W : Type} (env : handler rf W).

(** Boot manager, BMC and variable services that do what they are asked. *)
Definition willing (opts : list load_option) : Prop :=
  (forall w, fst (env GetLoadOptions w) = Some opts)
  /\ (forall s u b w, EFI_ERROR (fst (env (RedfishHttpPatch s u b) w)) = false)
  /\ (forall n w, EFI_ERROR (fst (env (SetBootNext n) w)) = false).

Lemma honour_run svc Payload opts1 o opts2 T w :
  willing (opts1 ++ o :: opts2) -> boot_override Payload = Some (Some T, Some (lit "Once")) ->
  option_matches T o = true -> Forall (fun o => option_matches T o = false) opts1 ->
  run_val env (HandleBootOverride svc Payload) w = Halted
  /\ map (ev_op (S := rf)) (run_trace env (HandleBootOverride svc Payload) w)
     = [GetLoadOptions; RedfishHttpPatch svc NUC_REDFISH_SYSTEM_URI clear_override; RedfishHttpFreeResponse;
        SetBootNext (wrap 16 (OptionNumber o)); ResetSystemCold].
Proof.
  intros (Hopts & Hack & Hset) Hb Ho Hno. unfold run_val, run_trace, HandleBootOverride. rewrite Hb.
  rewrite bool_decide_eq_true_2 by done. cbn [negb].
  assert (HT : str_eqb T (lit "None") = false)
    by (apply not_true_is_false; intros ->%str_eqb_true; discriminate Ho).
  assert (Hf : run env (FindBootOverrideOption (Some T)) w
               = (EFI_SUCCESS, Some o, snd (env GetLoadOptions w), [Ev (S := rf) GetLoadOptions (fst (env GetLoadOptions w))])).
  { unfold FindBootOverrideOption. rewrite HT. cbn [mbind fw_bind call run fst snd]. rewrite Hopts.
    pose proof (find_at _ opts1 o opts2 Hno Ho) as Hfind. destruct (opts1 ++ o :: opts2) as [|x l] eqn:Hl;
      [by destruct opts1|]. cbv zeta beta iota. rewrite Hfind. done. }
  rewrite run_bind, Hf. cbn [fst snd]. change (EFI_ERROR EFI_SUCCESS) with false. cbv iota beta zeta.
  cbn [mbind fw_bind mret fw_ret call call_ run fst snd]. rewrite Hack.
  unfold ApplyMatchedOption. cbn [mbind fw_bind mret fw_ret call call_ run fst snd]. rewrite Hset. done.
Qed.
End honour.

(** C23: A staged override is honoured.  When the payload's Boot object, with
    unique keys, asks once for a target, some boot option is of its class,
    and the boot manager, the BMC and the variable service do what they are
    asked, the host lists its options, clears the override on the BMC,
    stages the first matching option as BootNext and resets, in this order
    and with no other call. *)
Theorem override_honoured `{EdkStrings, JsonLib} {W : Type} (env : handler rf W) (w : W) (svc : Z)
    (Root Boot : list (list Z * json)) (T : list Z) (opts1 opts2 : list load_option) (o : load_option)
    (Hwilling : willing env (opts1 ++ o :: opts2))
    (Hroot : NoDup (map fst Root)) (Hkeys : NoDup (map fst Boot)) (Hboot : (lit "Boot", JObj Boot) ∈ Root)
    (Htarget : (lit "BootSourceOverrideTarget", JStr T) ∈ Boot)
    (Honce : (lit "BootSourceOverrideEnabled", JStr (lit "Once")) ∈ Boot)
    (Ho : selects T o) (Hfirst : Forall (fun o => ~ selects T o) opts1) :
  run_val env (HandleBootOverride svc (Some (JObj Root))) w = Halted
  /\ map (ev_op (S := rf)) (run_trace env (HandleBootOverride svc (Some (JObj Root))) w)
     = [GetLoadOptions; RedfishHttpPatch svc NUC_REDFISH_SYSTEM_URI clear_override; RedfishHttpFreeResponse;
        SetBootNext (wrap 16 (OptionNumber o)); ResetSystemCold].
Proof.
  apply (honour_run env svc _ opts1 o opts2 T w Hwilling).
  - apply (boot_override_complete Root Boot); try done.
    destruct Ho as [[-> _]|[[-> _]|[-> _]]]; repeat constructor.
  - by apply option_matches_spec.
  - eapply Forall_impl; [exact Hfirst|]. cbn beta. intros x Hx. apply not_true_is_false. by intros ?%option_matches_spec.
Qed.

Definition pxe_boot : list (list Z * json) :=
  [str_json "BootSourceOverrideEnabled" "Once"; str_json "BootSourceOverrideTarget" "Pxe"].

Lemma override_honoured_witness :
  map (ev_op (S := rf)) (run_trace pxe_bmc (HandleBootOverride 1 (Some pxe_payload)) tt)
  = [GetLoadOptions; RedfishHttpPatch 1 NUC_REDFISH_SYSTEM_URI clear_override; RedfishHttpFreeResponse;
     SetBootNext 6; ResetSystemCold].
Proof.
  refine (proj2 (override_honoured pxe_bmc tt 1 [str_json "Id" "1"; (lit "Boot", JObj pxe_boot)] pxe_boot (lit "Pxe")
                   [setup_option; bmc_nic] [] onboard_nic _ _ _ _ _ _ _ _)).
  - repeat split; intros; reflexivity.
  - apply (bool_decide_unpack _). vm_compute. exact I.
  - apply (bool_decide_unpack _). vm_compute. exact I.
  - right. left.
  - right. left.
  - left.
  - apply option_matches_spec. reflexivity.
  - repeat constructor; intros Hs; apply option_matches_spec in Hs; discriminate.
Defined.
