(* ===== verification/SyncBounds.v ===== *)
(** * Bounds of the Redfish exchange

    How much the exchange can cost a boot (requests and stalls), and that it
    runs once per boot however often the protocol is called. *)

From S2P Require Import Prelude Services Uefi EdkStrings Json JsonLib Inventory InventoryReports Sync SyncSpec.

(** ** Costs *)

Section cost.
Context {S : sig} (f : event S -> Z).

Definition cost (tr : list (event S)) : Z := foldr (fun e a => f e + a) 0 tr.

Lemma cost_app a b : cost (a ++ b) = cost a + cost b.
Proof. induction a as [|e a IH]; [done|]. unfold cost in *. cbn [app foldr]. rewrite IH. lia. Qed.

(** Every execution costs at most [n]. *)
Definition at_most {A} (n : Z) (p : fw S A) : Prop := wp p (fun _ t => cost t <= n).

Lemma at_most_ret {A} (a : A) n : 0 <= n -> at_most n (mret a).
Proof. done. Qed.

Lemma at_most_bind {A B} n m (p : fw S A) (g : A -> fw S B) :
  at_most n p -> (forall a, at_most m (g a)) -> at_most (n + m) (p ≫= g).
Proof.
  intros Hp Hg. eapply wp_seq; [exact Hp|]. cbn. intros a t Ht. eapply wp_mono; [|apply Hg]. cbn. intros b t' Ht'.
  rewrite cost_app. lia.
Qed.

Lemma at_most_mono {A} n m (p : fw S A) : n <= m -> at_most n p -> at_most m p.
Proof. intros Hnm. apply wp_mono. intros a t Ht. lia. Qed.

Lemma at_most_only {A} (P : op S -> Prop) (p : fw S A) :
  (forall c r, P c -> f (Ev c r) = 0) -> only P p -> at_most 0 p.
Proof.
  intros HP Ho. eapply wp_mono; [|apply (only_wp P p Ho)]. cbn. intros a t Ht.
  cut (cost t = 0); [lia|]. induction Ht as [|[c r] t Hc _ IH]; [done|]. cbn. rewrite (HP c r Hc). done.
Qed.
End cost.

Definition http_request (e : event rf) : Z :=
  match ev_op e with RedfishHttpGet _ _ | RedfishHttpPatch _ _ _ | RedfishHttpPost _ _ _ => 1 | _ => 0 end.
Definition stalled (e : event rf) : Z := match ev_op e with Stall us => us | _ => 0 end.

(** Calls without cost of either kind. *)
Definition costless (c : rf_op) : Prop :=
  match c with
  | RedfishHttpGet _ _ | RedfishHttpPatch _ _ _ | RedfishHttpPost _ _ _ | Stall _ => False
  | _ => True
  end.

(** What one function costs: [n] requests, [m] microseconds. *)
Definition costs {A} (n m : Z) (p : fw rf A) : Prop := at_most http_request n p /\ at_most stalled m p.

Lemma costs_ret {A} (a : A) : costs 0 0 (mret a).
Proof. by split. Qed.
Lemma costs_bind {A B} n m n' m' (p : fw rf A) (g : A -> fw rf B) :
  costs n m p -> (forall a, costs n' m' (g a)) -> costs (n + n') (m + m') (p ≫= g).
Proof. intros [? ?] Hg. split; apply at_most_bind; try done; intros a; apply Hg. Qed.
Lemma costs_mono {A} n m n' m' (p : fw rf A) : n <= n' -> m <= m' -> costs n m p -> costs n' m' p.
Proof. intros ?? [? ?]. split; eapply at_most_mono; eauto. Qed.
Lemma costs_only {A} (p : fw rf A) : only (S := rf) costless p -> costs 0 0 p.
Proof. intros Ho. split; (eapply at_most_only; [|exact Ho]); intros [] r Hc; done. Qed.
Lemma costs_andthen n m n' m' p q :
  0 <= n' -> 0 <= m' -> costs n m p -> costs n' m' q -> costs (n + n') (m + m') (andthen p q).
Proof.
  intros ?? Hp Hq. apply costs_bind; [done|]. intros []; [done|eapply costs_mono; [..|apply costs_ret]; done..].
Qed.

Lemma costs_for_each {A} (l : list A) (body : A -> fw rf unit) :
  (forall a, costs 1 0 (body a)) -> costs (Z.of_nat (length l)) 0 (for_each l body).
Proof.
  intros Hb. induction l as [|a l IH]; cbn [for_each length]; [by split|].
  eapply costs_mono; [..|apply (costs_bind 1 0 (Z.of_nat (length l)) 0); [apply Hb|by intros _]]; lia.
Qed.

Section bounds.
Context `{EdkStrings, JsonLib}.

(** Collectors make no requests and return at most what they have room for. *)
Definition collects {A} (k : nat) (C : fw rf (option (EFI_STATUS * list A))) : Prop :=
  only (S := rf) costless C
  /\ wp C (fun r _ => match r with Some (_, l) => (length l <= k)%nat | None => True end).

Lemma build_costless t : only (S := rf) costless (build t).
Proof. unfold build. only_go. Qed.

Lemma report_one_costs {A} svc uri (B : A -> fw rf (EFI_STATUS * option (Z * list Z))) a :
  (forall a, only (S := rf) costless (B a)) -> costs 1 0 (report_one svc uri B a).
Proof.
  intros HB. unfold report_one. change (costs (0 + 1) (0 + 0) (B a ≫= fun '(Status, Body) =>
    match Body with
    | Some (p, text) => if EFI_ERROR Status then mret tt else
        _ ← call_ (S := rf) (RedfishHttpPost svc uri text);
        _ ← call_ (S := rf) RedfishHttpFreeResponse; call_ (S := rf) (FreePool p)
    | None => mret tt
    end)).
  apply costs_bind; [by apply costs_only|]. intros [st [[p text]|]]; [|by split].
  destruct (EFI_ERROR st); [by split|]. split; unfold at_most; wp_go; done.
Qed.

Lemma report_costs {A} k (C : fw rf (option (EFI_STATUS * list A))) svc uri B :
  collects k C -> (forall a, only (S := rf) costless (B a)) -> costs (Z.of_nat k) 0 (report C svc uri B).
Proof.
  intros [HC Hlen] HB. apply costs_only in HC as [H1 H2].
  assert (Hrest : forall r : option (EFI_STATUS * list A),
    match r with Some (_, l) => (length l <= k)%nat | None => True end ->
    costs (Z.of_nat k) 0 (match r with
                | None => mret StrayRead
                | Some (Status, items) =>
                    if EFI_ERROR Status || (length items =? 0)%nat then mret Returned
                    else _ ← for_each items (report_one svc uri B); mret Returned
                end)).
  { intros [[st l]|] Hl; [|split; apply at_most_ret; lia]. destruct (_ || _); [split; apply at_most_ret; lia|].
    eapply costs_mono; [| |apply (costs_bind (Z.of_nat (length l)) 0 0 0); [|intros; apply costs_ret]]; [lia..|].
    apply costs_for_each. intros a. by apply report_one_costs. }
  split; [eapply wp_seq; [apply wp_and; [exact Hlen|exact H1]|]|eapply wp_seq; [apply wp_and; [exact Hlen|exact H2]|]].
  all: cbn beta; intros r t [Hr Ht]; apply Hrest in Hr as [Hr1 Hr2].
  - eapply wp_mono; [|exact Hr1]. cbn beta. intros e t' Ht'. rewrite cost_app. lia.
  - eapply wp_mono; [|exact Hr2]. cbn beta. intros e t' Ht'. rewrite cost_app. lia.
Qed.

Lemma collect_memory_collects : collects NUC_REDFISH_MEMORY_MAX (NucRedfishCollectMemory NUC_REDFISH_MEMORY_MAX).
Proof.
  assert (Hl : forall rs k ms ms', collect_memory_loop rs k ms = Some ms' -> (length ms <= k)%nat -> (length ms' <= k)%nat).
  { induction rs as [|r rs IH]; intros k ms ms'; cbn [collect_memory_loop]; [by intros [= <-]|].
    destruct (r_body r) as [| | |t|]; try apply IH. destruct (Nat.leb_spec k (length ms)); [by intros [= <-]|].
    destruct (_ =? 0); [apply IH|]. destruct (memory_module r t _) as [m|]; [cbn [mbind option_bind]|done].
    intros Hc _. eapply IH; [exact Hc|]. rewrite length_app. cbn. lia. }
  split; unfold NucRedfishCollectMemory; [only_go|]. wp_go; try (cbn; lia).
  destruct (collect_memory_loop l _ []) as [ms|] eqn:Hc; [|done]. cbn. apply Hl in Hc; cbn; lia.
Qed.
Lemma collect_processors_collects :
  collects NUC_REDFISH_PROCESSOR_MAX (NucRedfishCollectProcessors NUC_REDFISH_PROCESSOR_MAX).
Proof.
  assert (Hl : forall rs k ps ps', collect_processors_loop rs k ps = Some ps' -> (length ps <= k)%nat -> (length ps' <= k)%nat).
  { induction rs as [|r rs IH]; intros k ps ps'; cbn [collect_processors_loop]; [by intros [= <-]|].
    destruct (r_body r) as [| |t| |]; try apply IH. destruct (Nat.leb_spec k (length ps)); [by intros [= <-]|].
    destruct (_ =? 0); [apply IH|]. destruct (processor r t) as [m|]; [cbn [mbind option_bind]|done].
    intros Hc _. eapply IH; [exact Hc|]. rewrite length_app. cbn. lia. }
  split; unfold NucRedfishCollectProcessors; [only_go|]. wp_go; try (cbn; lia).
  destruct (collect_processors_loop l _ []) as [ms|] eqn:Hc; [|done]. cbn. apply Hl in Hc; cbn; lia.
Qed.

Lemma collect_drives_length hs k ds :
  (length ds <= k)%nat ->
  wp (collect_drives_loop hs k ds) (fun r _ => match r with Some l => (length l <= k)%nat | None => True end).
Proof.
  revert ds. induction hs as [|h hs IH]; intros ds Hd; cbn [collect_drives_loop]; [done|].
  destruct (Nat.leb_spec k (length ds)); [done|]. apply wp_call_bind. intros [st [di i]]. cbn beta iota.
  destruct (EFI_ERROR st); [by apply IH|]. destruct i; try (by apply IH);
    (eapply wp_seq; [apply wp_true|]; intros [[st' d]|] t _; [|done]; cbn beta iota;
     destruct (_ || _); [by apply IH|]; destruct (existsb _ _); [by apply IH|];
     apply wp_call_bind; intros [st'' m]; cbn beta iota; apply IH; rewrite length_app; cbn; lia).
Qed.

Lemma collect_drives_costless hs k ds : only (S := rf) costless (collect_drives_loop hs k ds).
Proof.
  revert ds. induction hs as [|h hs IH]; intros ds; cbn [collect_drives_loop];
    unfold CollectNvmeDrive, CollectAtaDrive; only_go; apply IH.
Qed.
Lemma collect_drives_collects : collects NUC_REDFISH_DRIVE_MAX (NucRedfishCollectDrives NUC_REDFISH_DRIVE_MAX).
Proof.
  split; unfold NucRedfishCollectDrives; [only_go; apply collect_drives_costless|].
  change ((NUC_REDFISH_DRIVE_MAX =? 0)%nat) with false. cbv iota. apply wp_call_bind. intros [st [b hs]]. cbn beta iota.
  destruct (EFI_ERROR st); [wp_go; cbn; lia|].
  eapply wp_seq; [apply collect_drives_length; cbn; lia|]. cbn beta. intros [l|] t Hl; wp_go; done.
Qed.
Lemma firmware_costless : only (S := rf) costless NucRedfishCollectFirmwareStatus.
Proof.
  assert (Hl : forall hs, only (S := rf) costless (firmware_loop hs))
    by (induction hs as [|h hs IH]; cbn [firmware_loop]; only_go).
  unfold NucRedfishCollectFirmwareStatus. only_go; apply Hl.
Qed.

Lemma service_root_costs n svc :
  costs (Z.of_nat n + 1) (Z.of_nat n * NUC_REDFISH_MEDIA_RETRY_STALL) (service_root n svc).
Proof.
  induction n as [|n [IH1 IH2]]; cbn [service_root]; [split; unfold at_most; wp_go; done|].
  split; unfold at_most; apply wp_call_bind; intros [st pl]; cbn beta iota; wp_step; wp_step;
    (destruct (negb _); [wp_go; cbn; unfold NUC_REDFISH_MEDIA_RETRY_STALL; lia|]); wp_step; wp_step.
  - eapply wp_mono; [|exact IH1]. cbn beta. intros a t Ht. cbn. unfold cost in Ht. lia.
  - eapply wp_mono; [|exact IH2]. cbn beta. intros a t Ht. cbn. unfold cost, NUC_REDFISH_MEDIA_RETRY_STALL in *. lia.
Qed.

Lemma report_system_costs svc : costs 1 0 (report_system svc).
Proof.
  unfold report_system. apply (costs_bind 0 0 1 0).
  { apply costs_only. unfold NucRedfishCollectInventory. only_go. }
  intros [[st i]|]; [|by split]. split; unfold at_most, NucRedfishBuildSystemPatch, build; wp_go; done.
Qed.

Lemma ReportFirmware_costs svc : costs 1 0 (ReportFirmwareInventory svc).
Proof.
  unfold ReportFirmwareInventory. apply (costs_bind 0 0 1 0).
  { apply costs_only, firmware_costless. }
  intros [st f]. destruct (EFI_ERROR st); [by split|].
  split; unfold at_most, NucRedfishBuildFirmwareInventoryPatch, build; wp_go; done.
Qed.

Lemma read_override_costs svc : costs 2 0 (read_override svc).
Proof.
  assert (Hfind : forall T, only (S := rf) costless (FindBootOverrideOption T))
    by (intros T; unfold FindBootOverrideOption; only_go).
  assert (Hh : forall pl, costs 1 0 (HandleBootOverride svc pl)).
  { intros pl. unfold HandleBootOverride. destruct (boot_override pl) as [[T E]|]; [|by split].
    destruct (negb _); [by split|]. apply (costs_bind 0 0 1 0).
    { by apply costs_only. }
    intros [st [o|]]; (destruct (EFI_ERROR st); [by split|]); [|by split].
    unfold ApplyMatchedOption, andthen. split; unfold at_most; wp_go; try done; destruct e; wp_go; done. }
  unfold read_override. apply (costs_bind 1 0 1 0); [split; unfold at_most; wp_go; done|].
  intros [st pl]. apply (costs_andthen 1 0 0 0); [done..| |apply costs_only; by split].
  destruct (EFI_ERROR st); [by split|apply Hh].
Qed.

Lemma NucRedfishSync_costs : costs 32 14000000 NucRedfishSync.
Proof.
  unfold NucRedfishSync. apply (costs_bind 0 0 32 14000000); [apply costs_only; by split|].
  intros [svc|]; [|by split]. apply (costs_bind 8 14000000 24 0); [apply (service_root_costs 7)|].
  intros st. destruct (EFI_ERROR st); [by split|].
  apply (costs_andthen 1 0 23 0); [done..|apply report_system_costs|].
  apply (costs_andthen 8 0 15 0); [done..|exact (report_costs 8 _ _ _ _ collect_memory_collects (fun m => build_costless _))|].
  apply (costs_andthen 4 0 11 0); [done..|exact (report_costs 4 _ _ _ _ collect_processors_collects (fun m => build_costless _))|].
  apply (costs_andthen 8 0 3 0); [done..|exact (report_costs 8 _ _ _ _ collect_drives_collects (fun m => build_costless _))|].
  apply (costs_andthen 1 0 2 0); [done..|apply ReportFirmware_costs|apply read_override_costs].
Qed.
End bounds.

(** The exchange costs a boot a bounded amount.  Whatever the BMC and the
    firmware services answer, an exchange makes at most 32 HTTP requests and
    stalls for at most 14 seconds. *)
Theorem exchange_bounded `{EdkStrings, JsonLib} (tr : list (event rf)) (e : ending) (Hex : exec NucRedfishSync tr e) :
  cost http_request tr <= 32 /\ cost stalled tr <= 14000000.
Proof.
  destruct NucRedfishSync_costs as [Hh Hs].
  split; [exact (proj1 (wp_exec _ _) Hh _ _ Hex)|exact (proj1 (wp_exec _ _) Hs _ _ Hex)].
Qed.

(** A link that stays down: the worst case for the stalls. *)
Definition no_media : handler rf unit := fun c w =>
  match c return rf_res c * unit with
  | RedfishCreateService => (Some 1, w)
  | RedfishHttpGet _ _ => ((EFI_NO_MEDIA, None), w)
  | c => sample_disks c w
  end.

Lemma exchange_bounded_witness :
  exec NucRedfishSync (run_trace no_media NucRedfishSync tt) Returned
  /\ cost stalled (run_trace no_media NucRedfishSync tt) = 14000000
  /\ cost http_request (run_trace no_media NucRedfishSync tt) <= 32.
Proof.
  pose proof (exec_run no_media NucRedfishSync tt) as Hex.
  split; [exact Hex|]. split; [vm_compute; reflexivity|]. exact (proj1 (exchange_bounded _ _ Hex)).
Defined.

(** ** Once per boot *)

(** The protocol is called any number of times, each time with what discovery
    knows by then; a call that does not return ends the sequence. *)
Fixpoint init_calls `{EdkStrings, JsonLib} (mSyncDone : bool) (infos : list (option (option Z)))
    : fw rf (list EFI_STATUS * bool) :=
  match infos with
  | [] => mret ([], mSyncDone)
  | info :: infos =>
      '(Status, e, mSyncDone) ← NucRedfishConfigHandlerInit mSyncDone info;
      match e with
      | Returned =>
          '(rest, mSyncDone) ← init_calls mSyncDone infos;
          mret (Status :: rest, mSyncDone)
      | _ => mret ([], mSyncDone)
      end
  end.

Definition discovered (info : option (option Z)) : bool :=
  match info with Some (Some _) => true | _ => false end.
Definition init_status (info : option (option Z)) : EFI_STATUS :=
  match info with Some None => EFI_NOT_READY | _ => EFI_SUCCESS end.

Section once.
Context `{EdkStrings, JsonLib}.
Abbreviation no_create tr := (Forall (fun ev : event rf => ev_op ev <> RedfishCreateService) tr).

Lemma only_no_create {A} (p : fw rf A) tr a : only (S := rf) reporting p -> exec p tr a -> no_create tr.
Proof. intros Ho Hex. apply (only_exec (S := rf) reporting) in Hex; [|done]. eapply List.Forall_impl; [|exact Hex].
  by intros [[] r]. Qed.

(** [calm p]: no execution of [p] creates a service. *)
Definition calm {A} (p : fw rf A) : Prop := forall tr a, exec p tr a -> no_create tr.
Lemma calm_bind {A B} (p : fw rf A) (f : A -> fw rf B) : calm p -> (forall a, calm (f a)) -> calm (p ≫= f).
Proof. intros Hp Hf tr b (t1 & a & t2 & -> & H1 & H2)%exec_bind. apply Forall_app. split; [by eapply Hp|by eapply Hf]. Qed.
Lemma calm_ret {A} (a : A) : calm (mret a).
Proof. by intros tr b [-> ->]. Qed.
Lemma calm_reporting {A} (p : fw rf A) : only (S := rf) reporting p -> calm p.
Proof. intros Ho tr a. by apply only_no_create. Qed.
Lemma calm_andthen p q : calm p -> calm q -> calm (andthen p q).
Proof. intros Hp Hq. apply calm_bind; [done|]. intros []; [done|apply calm_ret..]. Qed.

Lemma read_override_calm svc : calm (read_override svc).
Proof.
  intros tr e Hex. apply (only_exec (S := rf) (fun c => c <> RedfishCreateService)) in Hex; [done|].
  unfold read_override, andthen, HandleBootOverride, FindBootOverrideOption, ApplyMatchedOption, andthen. only_go.
Qed.

(** The exchange creates its service first, and only once. *)
Lemma NucRedfishSync_creates tr e :
  exec NucRedfishSync tr e -> exists r tr', tr = Ev (S := rf) RedfishCreateService r :: tr' /\ no_create tr'.
Proof.
  intros (r & tr' & -> & Hex). exists r, tr'. split; [done|]. revert tr' e Hex.
  change (calm (match r with None => mret Returned | Some Service =>
      Status ← service_root (NUC_REDFISH_MEDIA_RETRIES - 1) Service;
      if EFI_ERROR Status then mret Returned
      else andthen (report_system Service) (andthen (ReportMemory Service) (andthen (ReportProcessors Service)
             (andthen (ReportDrives Service) (andthen (ReportFirmwareInventory Service) (read_override Service))))) end)).
  destruct r as [svc|]; [|apply calm_ret]. apply calm_bind; [apply calm_reporting, service_root_reporting|].
  intros st. destruct (EFI_ERROR st); [apply calm_ret|].
  apply calm_andthen; [apply calm_reporting, report_system_reporting|].
  apply calm_andthen; [apply calm_reporting, ReportMemory_reporting|].
  apply calm_andthen; [apply calm_reporting, ReportProcessors_reporting|].
  apply calm_andthen; [apply calm_reporting, ReportDrives_reporting|].
  apply calm_andthen; [apply calm_reporting, ReportFirmware_reporting|apply read_override_calm].
Qed.

(** Once the latch is set nothing is called any more. *)
Lemma init_calls_latched infos tr r :
  exec (init_calls true infos) tr r -> tr = [] /\ r = (map init_status infos, true).
Proof.
  revert tr r. induction infos as [|info infos IH]; intros tr r; [by intros [-> ->]|].
  intros (t1 & a & t2 & -> & H1 & H2)%exec_bind.
  assert (t1 = [] /\ a = (init_status info, Returned, true)) as [-> ->] by (destruct info as [[z|]|]; by destruct H1 as [-> ->]).
  apply exec_bind in H2 as (t3 & b & t4 & -> & H2 & H3). apply IH in H2 as [-> ->]. by destruct H3 as [-> ->].
Qed.

Lemma init_calls_spec infos tr r :
  exec (init_calls false infos) tr r ->
  (exists n, r.1 = take n (map init_status infos))
  /\ r.2 = existsb discovered infos
  /\ if existsb discovered infos
     then exists s tr', tr = Ev (S := rf) RedfishCreateService s :: tr' /\ no_create tr'
     else tr = [] /\ r.1 = map init_status infos.
Proof.
  revert tr r. induction infos as [|info infos IH]; intros tr r; [intros [-> ->]; split; [by exists 0%nat|done]|].
  intros (t1 & a & t2 & -> & H1 & H2)%exec_bind. cbn [existsb]. destruct (discovered info) eqn:Hd.
  - destruct info as [[z|]|]; try done.
    apply exec_bind in H1 as (t3 & e & t4 & -> & H1 & [-> ->]). rewrite app_nil_r.
    apply NucRedfishSync_creates in H1 as (s & tr' & -> & Hn). destruct e.
    + apply exec_bind in H2 as (t5 & b & t6 & -> & H2 & H3). apply init_calls_latched in H2 as [-> ->]. destruct H3 as [-> ->].
      rewrite app_nil_r. split; [exists (S (length infos)); cbn; by rewrite take_ge by (by rewrite length_map)|]. cbn. eauto.
    + destruct H2 as [-> ->]. rewrite app_nil_r. split; [by exists 0%nat|]. cbn. eauto.
    + destruct H2 as [-> ->]. rewrite app_nil_r. split; [by exists 0%nat|]. cbn. eauto.
  - assert (t1 = [] /\ a = (init_status info, Returned, false)) as [-> ->]
      by (destruct info as [[z|]|]; try done; by destruct H1 as [-> ->]).
    apply exec_bind in H2 as (t3 & [sts l] & t4 & -> & H2 & H3). destruct H3 as [-> ->]. rewrite app_nil_r.
    apply IH in H2 as ((n & Hn) & Hl & Hc). cbn in Hn, Hl, Hc |- *. subst. split; [by exists (S n)|]. split; [done|].
    destruct (existsb discovered infos); [done|]. destruct Hc as [-> ->]. done.
Qed.
End once.

(** C24: The exchange runs once, when there is something to talk to.  For any
    sequence of Init calls in one boot, before and after discovery, and any
    behaviour of the services: without a REST EX handle nothing is called, a
    call with service information is then answered EFI_NOT_READY, so that it
    is tried again, and the latch stays open; from the first handle on
    exactly one exchange is made, later calls succeed without repeating it,
    and a call that returns never fails otherwise. *)
Theorem init_once `{EdkStrings, JsonLib} (infos : list (option (option Z))) (tr : list (event rf))
    (statuses : list EFI_STATUS) (latch : bool) (Hex : exec (init_calls false infos) tr (statuses, latch)) :
  (exists n, statuses = take n (map init_status infos)) /\ latch = existsb discovered infos
  /\ if existsb discovered infos
     then exists s tr', tr = Ev (S := rf) RedfishCreateService s :: tr'
            /\ Forall (fun ev : event rf => ev_op ev <> RedfishCreateService) tr'
     else tr = [] /\ statuses = map init_status infos.
Proof. by apply init_calls_spec in Hex. Qed.

Lemma init_once_witness :
  exists tr, exec (init_calls false [Some None; Some (Some 7); Some (Some 7)]) tr ([EFI_NOT_READY; EFI_SUCCESS; EFI_SUCCESS], true)
    /\ exists s tr', tr = Ev (S := rf) RedfishCreateService s :: tr'
         /\ Forall (fun ev : event rf => ev_op ev <> RedfishCreateService) tr'.
Proof.
  pose proof (exec_run no_media (init_calls false [Some None; Some (Some 7); Some (Some 7)]) tt) as Hex.
  assert (Hv : run_val no_media (init_calls false [Some None; Some (Some 7); Some (Some 7)]) tt
               = ([EFI_NOT_READY; EFI_SUCCESS; EFI_SUCCESS], true)) by (vm_compute; reflexivity).
  rewrite Hv in Hex. eexists. split; [exact Hex|]. exact (proj2 (proj2 (init_once _ _ _ _ Hex))).
Defined.
