(* ===== verification/SyncResources.v ===== *)
(** * Resources of the Redfish exchange

    Pool memory, HTTP answers and boot-option arrays: the exchange releases
    only what it holds, and when it returns it holds nothing but a boot-option
    array that came without entries. *)

From S2P Require Import Prelude Services Uefi Pool EdkStrings Json JsonLib Inventory InventoryReports Sync SyncSpec.
From stdpp Require Import gmultiset.
#[local] Open Scope Z_scope.

(** What is held: live allocations, answers not yet released, arrays of boot
    options not yet released; and how many arrays came without entries. *)
Record holdings := mkHeld { pool : gmultiset Z; answers : nat; lists : nat; empties : nat }.

Definition holds_pool (m : holdings) (p : option Z) : holdings := mkHeld (allocates (pool m) p) (answers m) (lists m) (empties m).
Definition frees_pool (m : holdings) (p : Z) : option holdings :=
  match frees (pool m) p with Some q => Some (mkHeld q (answers m) (lists m) (empties m)) | None => None end.
Definition answered (m : holdings) : option holdings := Some (mkHeld (pool m) (S (answers m)) (lists m) (empties m)).

(** A handle buffer is allocated with success; an image descriptor comes with
    its package version name; EfiBootManagerGetLoadOptions may hand out an
    array even when it found no valid option. *)
Definition rf_step (m : holdings) (e : event rf) : option holdings :=
  match e with
  | Ev c r =>
      match c as c return rf_res c -> option holdings with
      | AllocateZeroPool _ => fun r => Some (holds_pool m r)
      | LocateDiskInfoHandles => fun r => Some (if EFI_ERROR (fst r) then m else holds_pool m (Some (fst (snd r))))
      | LocateFmpHandles => fun r => Some (if EFI_ERROR (fst r) then m else holds_pool m (Some (fst (snd r))))
      | GetImageInfo _ _ => fun r => Some (holds_pool m (fd_PackageVersionName (snd r)))
      | FreePool p => fun _ => frees_pool m p
      | RedfishHttpGet _ _ => fun _ => answered m
      | RedfishHttpPatch _ _ _ => fun _ => answered m
      | RedfishHttpPost _ _ _ => fun _ => answered m
      | RedfishHttpFreeResponse => fun _ =>
          match answers m with O => None | S n => Some (mkHeld (pool m) n (lists m) (empties m)) end
      | GetLoadOptions => fun r =>
          Some (match r with
                | Some (_ :: _) => mkHeld (pool m) (answers m) (S (lists m)) (empties m)
                | Some [] => mkHeld (pool m) (answers m) (S (lists m)) (S (empties m))
                | None => m
                end)
      | FreeLoadOptions => fun _ =>
          match lists m with O => None | S n => Some (mkHeld (pool m) (answers m) n (empties m)) end
      | _ => fun _ => Some m
      end r
  end.

Lemma frees_held q p a l z : frees_pool (mkHeld (q ⊎ {[+ p +]}) a l z) p = Some (mkHeld q a l z).
Proof. unfold frees_pool. cbn [pool answers lists empties]. by rewrite frees_last. Qed.

(** One call at a time; the last allocation, answer or list resolves. *)
Ltac held_step :=
  first
    [ match goal with
      | |- exists m', rf_step _ _ = Some m' /\ _ =>
          cbn [rf_step]; unfold answered, holds_pool; cbn [allocates answers lists empties pool fst snd];
          rewrite ?frees_held; eexists; (split; [reflexivity|])
      | H : EFI_ERROR ?x = _ |- context [EFI_ERROR ?x] => rewrite H
      | |- context [EFI_ERROR EFI_SUCCESS] => change (EFI_ERROR EFI_SUCCESS) with false
      end
    | mon_step ]; cbv beta iota; cbn [fst snd].
Ltac held_go := repeat held_step.

(** Calls that hand nothing out and take nothing back. *)
Definition neutral (c : rf_op) : Prop :=
  match c with
  | AllocateZeroPool _ | LocateDiskInfoHandles | LocateFmpHandles | GetImageInfo _ _ | FreePool _ | RedfishHttpGet _ _
  | RedfishHttpPatch _ _ _ | RedfishHttpPost _ _ _ | RedfishHttpFreeResponse | GetLoadOptions | FreeLoadOptions => False
  | _ => True
  end.

Lemma neutral_frame {A} (p : fw rf A) m (Q : A -> holdings -> Prop) :
  only (S := rf) neutral p -> (forall a, Q a m) -> mon rf_step m p Q.
Proof. apply mon_only. intros m' c r Hc. by destruct c. Qed.

Lemma eta_held m : mkHeld (pool m) (answers m) (lists m) (empties m) = m.
Proof. by destruct m. Qed.

Section resources.
Context `{EdkStrings, JsonLib}.

(** A function that gives back what it takes whenever it returns. *)
Abbreviation tidy p := (forall m, mon rf_step m p (fun e m' => e = Returned -> m' = m)).

(** The same, up to one array without entries. *)
Definition loses (m m' : holdings) : Prop :=
  exists k, (k <= 1)%nat /\ m' = mkHeld (pool m) (answers m) (k + lists m) (k + empties m).
Abbreviation nearly_tidy p := (forall m, mon rf_step m p (fun e m' => e = Returned -> loses m m')).
Lemma loses_nothing m : loses m m.
Proof. exists 0%nat. split; [lia|]. by destruct m. Qed.

Lemma tidy_andthen p q : tidy p -> nearly_tidy q -> nearly_tidy (andthen p q).
Proof.
  intros Hp Hq m. apply mon_bind. eapply mon_mono; [|apply Hp]. cbn beta. intros e m' He. destruct e.
  - rewrite He by done. apply Hq.
  - by apply mon_ret.
  - by apply mon_ret.
Qed.

(** Building a body takes one allocation. *)
Lemma build_mon text m (Q : EFI_STATUS * option (Z * list Z) -> holdings -> Prop) :
  Q (EFI_OUT_OF_RESOURCES, None) m ->
  (forall p, Q (EFI_SUCCESS, Some (p, text)) (mkHeld (pool m ⊎ {[+ p +]}) (answers m) (lists m) (empties m))) ->
  mon rf_step m (build text) Q.
Proof.
  intros Hnone Hsome. unfold build. apply mon_bind, mon_call. intros [p|]; cbn [rf_step]; unfold holds_pool; cbn [allocates].
  - eexists. split; [reflexivity|]. by apply mon_ret.
  - rewrite eta_held. eexists. split; [reflexivity|]. by apply mon_ret.
Qed.

Lemma report_one_tidy {A} svc uri (body : A -> list Z) a m :
  mon rf_step m (report_one svc uri (fun a => build (body a)) a) (fun _ m' => m' = m).
Proof.
  unfold report_one. apply mon_bind, build_mon; [by held_go|]. intros p. held_go. apply eta_held.
Qed.

Lemma report_tidy {A} (C : fw rf (option (EFI_STATUS * list A))) svc uri (body : A -> list Z) :
  (forall m, mon rf_step m C (fun r m' => is_Some r -> m' = m)) -> tidy (report C svc uri (fun a => build (body a))).
Proof.
  intros HC m. unfold report. apply mon_bind. eapply mon_mono; [|apply HC]. cbn beta. intros [[st l]|] m' Hm.
  - rewrite Hm by eauto. destruct (_ || _); [by apply mon_ret|]. apply mon_bind.
    eapply mon_mono; [|apply mon_for_each; intros a; apply report_one_tidy]. cbn beta. intros _ ? ->. by apply mon_ret.
  - by apply mon_ret.
Qed.

Lemma drives_tidy k m : mon rf_step m (NucRedfishCollectDrives k) (fun r m' => is_Some r -> m' = m).
Proof.
  assert (Hl : forall hs k ds, only (S := rf) neutral (collect_drives_loop hs k ds)).
  { induction hs as [|h hs IH]; intros k' ds; cbn [collect_drives_loop];
      unfold CollectNvmeDrive, CollectAtaDrive; only_go; apply IH. }
  unfold NucRedfishCollectDrives. destruct (k =? 0)%nat; [by apply mon_ret|].
  apply mon_bind, mon_call. intros [st [b hs]]. cbn [rf_step]. eexists. split; [reflexivity|]. cbv beta iota. cbn [fst snd].
  destruct (EFI_ERROR st); [by apply mon_ret|]. unfold obind. apply mon_bind, neutral_frame; [apply Hl|].
  intros [ds|]; [|apply mon_ret; by intros [? [=]]]. unfold holds_pool. cbn [allocates]. held_go. intros _. apply eta_held.
Qed.

Lemma firmware_loop_tidy hs m : mon rf_step m (firmware_loop hs) (fun _ m' => m' = m).
Proof.
  revert m. induction hs as [|h hs IH]; intros m; cbn [firmware_loop]; [by apply mon_ret|].
  apply mon_bind, mon_call. intros [st fmp]. eexists. split; [reflexivity|]. cbv beta iota. destruct (EFI_ERROR st); [apply IH|].
  apply mon_bind, mon_call. intros [st' sz]. eexists. split; [reflexivity|]. cbv beta iota. destruct (negb _); [apply IH|].
  apply mon_bind, mon_call. intros [b|]; cbn [rf_step]; eexists; (split; [reflexivity|]); cbv beta iota;
    [|unfold holds_pool; cbn [allocates]; rewrite eta_held; apply IH].
  apply mon_bind, mon_call. intros [st'' info]. cbn [rf_step snd]. eexists. split; [reflexivity|]. cbv beta iota zeta.
  assert (Hend : forall found, mon rf_step (mkHeld (pool m ⊎ {[+ b +]}) (answers m) (lists m) (empties m))
    (_ ← call_ (S := rf) (FreePool b); if found : bool then mret (Some (firmware_status info)) else firmware_loop hs)
    (fun _ m' => m' = m)).
  { intros found. held_go; rewrite eta_held; [done|apply IH]. }
  destruct (fd_PackageVersionName info) as [p|]; unfold holds_pool; cbn [allocates pool answers lists empties].
  - apply mon_bind. held_step. held_step. apply Hend.
  - apply mon_bind, mon_ret. apply Hend.
Qed.

Lemma firmware_tidy m : mon rf_step m NucRedfishCollectFirmwareStatus (fun _ m' => m' = m).
Proof.
  unfold NucRedfishCollectFirmwareStatus. apply mon_bind, mon_call. intros [st [b hs]]. cbn [rf_step fst snd]. eexists.
  split; [reflexivity|]. cbv beta iota. destruct (EFI_ERROR st); [by apply mon_ret|]. apply mon_bind.
  eapply mon_mono; [|apply firmware_loop_tidy]. cbn beta. intros f ? ->. unfold holds_pool. cbn [allocates]. held_go. apply eta_held.
Qed.

Lemma neutral_collect {A} (C : fw rf (option (EFI_STATUS * list A))) :
  only (S := rf) neutral C -> forall m, mon rf_step m C (fun r m' => is_Some r -> m' = m).
Proof. intros HC m. by apply neutral_frame. Qed.

Lemma service_root_tidy n svc m : mon rf_step m (service_root n svc) (fun _ m' => m' = m).
Proof.
  revert m. induction n as [|n IH]; intros m; cbn [service_root].
  - held_go; apply eta_held.
  - held_go; [apply eta_held|]. rewrite eta_held. apply IH.
Qed.

Lemma report_system_tidy svc : tidy (report_system svc).
Proof.
  intros m. unfold report_system. apply mon_bind, neutral_frame; [unfold NucRedfishCollectInventory; only_go|].
  intros [[st i]|]; [|by apply mon_ret]. apply mon_bind, build_mon; [by held_go|]. intros p. held_go. intros _. apply eta_held.
Qed.

Lemma ReportFirmware_tidy svc : tidy (ReportFirmwareInventory svc).
Proof.
  intros m. unfold ReportFirmwareInventory. apply mon_bind. eapply mon_mono; [|apply firmware_tidy]. cbn beta.
  intros [st f] ? ->. destruct (EFI_ERROR st); [by apply mon_ret|]. apply mon_bind, build_mon; [by held_go|].
  intros p. held_go. intros _. apply eta_held.
Qed.

Lemma ApplyMatched_tidy o : forall m, mon rf_step m (ApplyMatchedOption o) (fun r m' => snd r = Returned -> m' = m).
Proof. intros m. unfold ApplyMatchedOption. by held_go. Qed.

(** Finding the option: the array is handed over with a match, released with
    none, and forgotten when it has no entries. *)
Lemma FindBootOverride_holds T m :
  mon rf_step m (FindBootOverrideOption T) (fun r m' =>
    match snd r with
    | Some _ => fst r = EFI_SUCCESS /\ m' = mkHeld (pool m) (answers m) (S (lists m)) (empties m)
    | None => EFI_ERROR (fst r) = true /\ loses m m'
    end).
Proof.
  pose proof (loses_nothing m) as Hn. unfold FindBootOverrideOption. destruct T as [T|]; [|by apply mon_ret]. destruct (str_eqb T _); [by apply mon_ret|].
  apply mon_bind, mon_call. intros [[|o opts]|]; cbn [rf_step]; eexists; (split; [reflexivity|]); cbv beta iota.
  - apply mon_ret. split; [done|]. by exists 1%nat; split; [lia|].
  - destruct (List.find _ _); held_go; [done|]. split; [done|]. by rewrite eta_held.
  - by apply mon_ret.
Qed.

Lemma HandleBootOverride_tidy svc pl : nearly_tidy (HandleBootOverride svc pl).
Proof.
  intros m. pose proof (loses_nothing m) as Hn. unfold HandleBootOverride. destruct (boot_override pl) as [[T E]|]; [|by apply mon_ret].
  destruct (negb _); [by apply mon_ret|]. apply mon_bind.
  eapply mon_mono; [|apply FindBootOverride_holds]. cbn beta. intros [st [o|]] m1 Hm1; cbn [fst snd] in Hm1.
  - destruct Hm1 as [-> ->]. change (EFI_ERROR EFI_SUCCESS) with false. cbv iota. held_step. held_step. held_step.
    held_step. held_step. held_step.
    destruct (EFI_ERROR _); [held_go; intros _; by rewrite eta_held|].
    apply mon_bind. eapply mon_mono; [|apply ApplyMatched_tidy]. cbn beta. intros [st' e] m1 Hm1. cbn [snd] in Hm1.
    unfold andthen. apply mon_bind, mon_ret. destruct e; [rewrite Hm1 by done; held_go; intros _; by rewrite eta_held|by apply mon_ret..].
  - destruct Hm1 as [-> Hl]. by apply mon_ret.
Qed.

Lemma read_override_tidy svc : nearly_tidy (read_override svc).
Proof.
  intros m. unfold read_override. apply mon_bind, mon_call. intros [st pl]. cbn [rf_step]. unfold answered. eexists.
  split; [reflexivity|]. cbv beta iota. apply mon_bind. set (m1 := mkHeld _ _ _ _).
  eapply (mon_mono _ _ _ (fun e m' => e = Returned -> loses m1 m'));
    [|destruct (EFI_ERROR st); [apply mon_ret; intros _; apply loses_nothing|apply HandleBootOverride_tidy]].
  intros [] m' Hm'; [|by apply mon_ret..]. destruct (Hm' eq_refl) as (k & Hk & ->). held_go. intros _. by exists k.
Qed.

Lemma NucRedfishSync_tidy : nearly_tidy NucRedfishSync.
Proof.
  intros m. pose proof (loses_nothing m) as Hn. unfold NucRedfishSync. apply mon_bind, mon_call. intros [svc|]; eexists; (split; [reflexivity|]); [|by apply mon_ret].
  cbv beta iota. apply mon_bind. eapply mon_mono; [|apply service_root_tidy]. cbn beta. intros st ? ->.
  destruct (EFI_ERROR st); [by apply mon_ret|]. clear Hn. revert m.
  apply tidy_andthen; [apply report_system_tidy|].
  apply tidy_andthen; [apply (report_tidy _ svc _ memory_post), neutral_collect; unfold NucRedfishCollectMemory; only_go|].
  apply tidy_andthen; [apply (report_tidy _ svc _ processor_post), neutral_collect; unfold NucRedfishCollectProcessors; only_go|].
  apply tidy_andthen; [apply (report_tidy _ svc _ drive_post), drives_tidy|].
  apply tidy_andthen; [apply ReportFirmware_tidy|apply read_override_tidy].
Qed.
End resources.

(** C34: The exchange releases what it takes.  Whatever the services answer,
    every FreePool names a live allocation of the exchange, every
    RedfishHttpFreeResponse an answer it got, every release of boot options an
    array it got; and an exchange that returns holds no pool memory (bodies,
    handle buffers, image descriptors and their names) and no answer.  Boot
    option arrays are released too, save one that came without entries: each
    array still held is such a one, and there is at most one. *)
Theorem exchange_releases `{EdkStrings, JsonLib} (tr : list (event rf)) (e : ending) (Hex : exec NucRedfishSync tr e) :
  exists m, monitor rf_step (mkHeld ∅ 0 0 0) tr = Some m
    /\ (e = Returned -> exists k, (k <= 1)%nat /\ m = mkHeld ∅ 0 k k).
Proof.
  destruct (mon_exec rf_step _ _ _ _ _ (NucRedfishSync_tidy (mkHeld ∅ 0 0 0)) Hex) as (m & Hm & He). exists m. split; [exact Hm|].
  intros Hr. destruct (He Hr) as (k & Hk & ->). exists k. by rewrite !Nat.add_0_r.
Qed.

(** Nothing to override: the exchange runs to its end. *)
Definition idle_bmc : handler rf unit := fun c w =>
  match c return rf_res c * unit with
  | RedfishCreateService => (Some 1, w)
  | RedfishHttpGet _ _ => ((EFI_SUCCESS, Some (JObj [])), w)
  | c => sample_disks c w
  end.

Lemma exchange_releases_witness :
  exists k, (k <= 1)%nat /\ monitor rf_step (mkHeld ∅ 0 0 0) (run_trace idle_bmc NucRedfishSync tt) = Some (mkHeld ∅ 0 k k)
  /\ (10 < length (run_trace idle_bmc NucRedfishSync tt))%nat.
Proof.
  pose proof (exec_run idle_bmc NucRedfishSync tt) as Hex.
  assert (Hv : run_val idle_bmc NucRedfishSync tt = Returned) by (vm_compute; reflexivity). rewrite Hv in Hex.
  destruct (exchange_releases _ _ Hex) as (m & Hm & He). destruct (He eq_refl) as (k & Hk & ->). exists k. split; [exact Hk|]. split; [exact Hm|].
  apply Nat.ltb_lt. vm_compute. reflexivity.
Defined.

(** A staged override, and a BootOrder whose entries are all gone: the array is
    lost. *)
Definition stale_order : handler rf unit := fun c w =>
  match c return rf_res c * unit with
  | GetLoadOptions => (Some [], w)
  | c => sample_disks c w
  end.
Theorem empty_options_leak :
  monitor rf_step (mkHeld ∅ 0 0 0) (run_trace stale_order (FindBootOverrideOption (Some (lit "Hdd"))) tt) = Some (mkHeld ∅ 0 1 1).
Proof. reflexivity. Qed.
