(* ===== verification/EthConfig.v ===== *)
(** * IPv4 policy of the onboard NIC (EthConfigDxe/EthConfigDxe.c)

    The EthCfg variable holds a policy; when Ip4Dxe installs its configuration
    protocol on a network interface, the first one that is not the BMC's USB
    link gets a setup page and the stored policy. *)

From S2P Require Import Prelude Services Uefi EdkStrings.

(** ** NetLib, outside the repository

    [NetLibStrToIp4] parses a dotted quad into four bytes; the other two work
    on addresses in host order. *)
Class NetLib := {
  NetLibStrToIp4 : list Z -> EFI_STATUS * list Z;
  NetGetMaskLength : Z -> Z;
  NetIp4IsUnicast : Z -> Z -> bool
}.

(** ** The variable *)

Definition NUC_ETH_IP4_STR_SIZE : nat := 16.
Definition NUC_ETH_MAC_STR_SIZE : nat := 18.
Definition IP4_MASK_NUM : Z := 33.

(** The packed structure; CHAR16 arrays with all their elements. *)
Record NUC_ETH_CONFIG := mkEth {
  DhcpEnabled : Z; MacAddress : list Z; Ip4Address : list Z; Ip4SubnetMask : list Z;
  Ip4Gateway : list Z; Ip4Dns1 : list Z; Ip4Dns2 : list Z }.

Definition sizeof_config : Z := 1 + 2 * Z.of_nat NUC_ETH_MAC_STR_SIZE + 5 * (2 * Z.of_nat NUC_ETH_IP4_STR_SIZE).

(** CHAR16 arrays in memory. *)
Fixpoint char16s (b : list Z) : list Z :=
  match b with
  | lo :: hi :: b => (lo + 256 * hi) :: char16s b
  | _ => []
  end.
Definition char16_bytes (s : list Z) : list Z := flat_map (le_split 2) s.

(** Field [n] of [k] characters, starting at byte [off]. *)
Definition field_at (b : list Z) (off k : nat) : list Z := char16s (take (2 * k) (drop off b)).

Definition decode_config (b : list Z) : NUC_ETH_CONFIG :=
  mkEth (nth 0 b 0) (field_at b 1 18) (field_at b 37 16) (field_at b 69 16) (field_at b 101 16)
    (field_at b 133 16) (field_at b 165 16).
Definition encode_config (c : NUC_ETH_CONFIG) : list Z :=
  DhcpEnabled c :: char16_bytes (MacAddress c) ++ char16_bytes (Ip4Address c) ++ char16_bytes (Ip4SubnetMask c)
  ++ char16_bytes (Ip4Gateway c) ++ char16_bytes (Ip4Dns1 c) ++ char16_bytes (Ip4Dns2 c).

(** All zeros, DHCP on. *)
Definition default_config : NUC_ETH_CONFIG :=
  let z := repeat 0 NUC_ETH_IP4_STR_SIZE in mkEth 1 (repeat 0 NUC_ETH_MAC_STR_SIZE) z z z z z.

(** Field[SIZE - 1] = L'\0' *)
Definition terminate (s : list Z) : list Z := <[pred (length s) := 0]> s.
Definition terminate_all (c : NUC_ETH_CONFIG) : NUC_ETH_CONFIG :=
  mkEth (DhcpEnabled c) (terminate (MacAddress c)) (terminate (Ip4Address c)) (terminate (Ip4SubnetMask c))
    (terminate (Ip4Gateway c)) (terminate (Ip4Dns1 c)) (terminate (Ip4Dns2 c)).
Definition with_mac (c : NUC_ETH_CONFIG) (m : list Z) : NUC_ETH_CONFIG :=
  mkEth (DhcpEnabled c) m (Ip4Address c) (Ip4SubnetMask c) (Ip4Gateway c) (Ip4Dns1 c) (Ip4Dns2 c).

(** ** The services *)

Inductive ip4_policy := Ip4Config2PolicyStatic | Ip4Config2PolicyDhcp.

(** [IsAddressOk] reads the flag that ManualAddressNotify raises from an
    event callback. *)
Inductive eth_op :=
  | GetEthCfg
  | SetEthCfg (data : list Z)
  | LocateNotifiedHandle
  | DevicePathFromHandle (h : Z)
  | HandleIp4Config2 (h : Z)
  | SetPolicy (ip4 : Z) (p : ip4_policy)
  | SetManualAddress (ip4 : Z) (address mask : list Z)
  | SetGateway (ip4 : Z) (gateway : list Z)
  | SetDnsServer (ip4 : Z) (dns : list (list Z))
  | CreateTimeoutEvent
  | CreateSetAddressEvent
  | RegisterDataNotify (ip4 event : Z)
  | UnregisterDataNotify (ip4 event : Z)
  | SetTimerRelative (event period : Z)
  | CheckEvent (event : Z)
  | IsAddressOk
  | CloseEvent (event : Z)
  | AppendVendorNode (path : list dp_node)
  | InstallChildPath (path : Z)
  | UninstallChildPath (child path : Z)
  | HiiAddPackages (child : Z)
  | FreePool (p : Z)
  | CreateInstallEvent
  | RegisterProtocolNotify (event : Z).

Definition eth_res (c : eth_op) : Type :=
  match c with
  | GetEthCfg => EFI_STATUS * list Z
  | LocateNotifiedHandle => EFI_STATUS * Z
  | DevicePathFromHandle _ => option (list dp_node)
  | HandleIp4Config2 _ => EFI_STATUS * Z
  | CreateTimeoutEvent | CreateSetAddressEvent | CreateInstallEvent => EFI_STATUS * Z
  | IsAddressOk => bool
  | AppendVendorNode _ => option Z
  | InstallChildPath _ => EFI_STATUS * Z
  | HiiAddPackages _ => option Z
  | SetEthCfg _ | SetPolicy _ _ | SetManualAddress _ _ _ | SetGateway _ _ | SetDnsServer _ _ | RegisterDataNotify _ _
  | UnregisterDataNotify _ _ | SetTimerRelative _ _ | CheckEvent _ | UninstallChildPath _ _
  | RegisterProtocolNotify _ => EFI_STATUS
  | CloseEvent _ | FreePool _ => unit
  end.

Definition eth : sig := Sig eth_op eth_res.

(** ** Variable access *)

Definition EnsureConfigVariable : fw eth unit :=
  '(Status, data) ← call (S := eth) GetEthCfg;
  if negb (EFI_ERROR Status) && (len data =? sizeof_config) then mret tt
  else call_ (S := eth) (SetEthCfg (encode_config default_config)).

(** [None] is EFI_NOT_FOUND. *)
Definition ReadConfigVariable : fw eth (option NUC_ETH_CONFIG) :=
  '(Status, data) ← call (S := eth) GetEthCfg;
  mret (if EFI_ERROR Status || negb (len data =? sizeof_config) then None
        else Some (terminate_all (decode_config data))).

(** ** Device paths *)

Definition is_mac_node (n : dp_node) : bool :=
  (dp_type n =? MESSAGING_DEVICE_PATH) && (dp_subtype n =? MSG_MAC_ADDR_DP).

Fixpoint ClassifyNicDevicePath (path : list dp_node) (HasMac OverUsb : bool) : bool * bool :=
  match path with
  | [] => (HasMac, OverUsb)
  | Node :: path =>
      if negb (dp_type Node =? MESSAGING_DEVICE_PATH) then ClassifyNicDevicePath path HasMac OverUsb
      else if dp_subtype Node =? MSG_USB_DP then ClassifyNicDevicePath path HasMac true
      else if dp_subtype Node =? MSG_MAC_ADDR_DP then ClassifyNicDevicePath path true OverUsb
      else ClassifyNicDevicePath path HasMac OverUsb
  end.

Section ethconfig.
Context `{EdkStrings, NetLib}.

Definition mac_text (addr : list Z) : list Z :=
  let h i := hex 2 (nth i addr 0) in
  h 0%nat ++ lit ":" ++ h 1%nat ++ lit ":" ++ h 2%nat ++ lit ":" ++ h 3%nat ++ lit ":" ++ h 4%nat ++ lit ":" ++ h 5%nat.

(** [None] where the node is too short for the six bytes read. *)
Definition SeedMacAddress (DevicePath : list dp_node) : fw eth (option unit) :=
  match List.find is_mac_node DevicePath with
  | None => mret (Some tt)
  | Some MacNode =>
      Config ← ReadConfigVariable;
      match Config with
      | None => mret (Some tt)
      | Some Config =>
          match mapM (mem_get (dp_data MacNode)) (seqZ 0 6) with
          | None => mret None
          | Some Addr =>
              let MacText := UnicodeSPrint (Z.of_nat NUC_ETH_MAC_STR_SIZE) (mac_text Addr) in
              if bool_decide (MacText = cstr (MacAddress Config)) then mret (Some tt)
              else
                _ ← call_ (S := eth)
                      (SetEthCfg (encode_config (with_mac Config (take NUC_ETH_MAC_STR_SIZE (MacText ++ [0])))));
                mret (Some tt)
          end
      end
  end.

(** ** Applying the policy *)

Definition ParseIp4Field (String_ : list Z) : EFI_STATUS * list Z :=
  match cstr String_ with
  | [] => (EFI_NOT_FOUND, [])
  | s =>
      let '(Status, Ip) := NetLibStrToIp4 s in
      if EFI_ERROR Status then (EFI_INVALID_PARAMETER, Ip) else (EFI_SUCCESS, Ip)
  end.

(** Host order of an address in network order. *)
Definition NTOHL (b : list Z) : Z := le_combine (rev b).

(** The asynchronous wait; [None] is fuel exhaustion. *)
Fixpoint wait_address (fuel : nat) (TimeoutEvent : Z) (Status : EFI_STATUS) : fw eth (option EFI_STATUS) :=
  match fuel with
  | O => mret None
  | S fuel =>
      Timeout ← call (S := eth) (CheckEvent TimeoutEvent);
      if EFI_ERROR Timeout then
        ok ← call (S := eth) IsAddressOk;
        if ok : bool then mret (Some EFI_SUCCESS) else wait_address fuel TimeoutEvent Status
      else mret (Some Status)
  end.

(** The Exit label. *)
Definition static_exit (SetAddressEvent : option Z) (TimeoutEvent : Z) (Status : EFI_STATUS)
    : fw eth (option EFI_STATUS) :=
  _ ← match SetAddressEvent with Some e => call_ (S := eth) (CloseEvent e) | None => mret tt end;
  _ ← call_ (S := eth) (CloseEvent TimeoutEvent);
  mret (Some Status).

(** Gateway and DNS servers, best effort. *)
Definition static_options (Ip4Cfg2 : Z) (Config : NUC_ETH_CONFIG) (Mask : Z) : fw eth unit :=
  let '(GwStatus, Gateway) := ParseIp4Field (Ip4Gateway Config) in
  _ ← (if (GwStatus =? EFI_SUCCESS) && NetIp4IsUnicast (NTOHL Gateway) Mask
       then call_ (S := eth) (SetGateway Ip4Cfg2 Gateway) else mret tt);
  let '(S1, D1) := ParseIp4Field (Ip4Dns1 Config) in
  let Dns := if S1 =? EFI_SUCCESS then [D1] else [] in
  let '(S2, D2) := ParseIp4Field (Ip4Dns2 Config) in
  let Dns := if S2 =? EFI_SUCCESS then Dns ++ [D2] else Dns in
  match Dns with
  | [] => mret tt
  | Dns => call_ (S := eth) (SetDnsServer Ip4Cfg2 Dns)
  end.

(** From the first event on. *)
Definition static_address (fuel : nat) (Ip4Cfg2 : Z) (Config : NUC_ETH_CONFIG) (Address SubnetMask : list Z)
    : fw eth (option EFI_STATUS) :=
  '(Status, TimeoutEvent) ← call (S := eth) CreateTimeoutEvent;
  if EFI_ERROR Status then mret (Some Status)
  else
    '(Status, SetAddressEvent) ← call (S := eth) CreateSetAddressEvent;
    if EFI_ERROR Status then static_exit None TimeoutEvent Status
    else
      Status ← call (S := eth) (RegisterDataNotify Ip4Cfg2 SetAddressEvent);
      if EFI_ERROR Status then static_exit (Some SetAddressEvent) TimeoutEvent Status
      else
        Status ← call (S := eth) (SetManualAddress Ip4Cfg2 Address SubnetMask);
        Status ←? (if Status =? EFI_NOT_READY then
                     _ ← call_ (S := eth) (SetTimerRelative TimeoutEvent 50000000);
                     wait_address fuel TimeoutEvent Status
                   else mret (Some Status));
        _ ← call_ (S := eth) (UnregisterDataNotify Ip4Cfg2 SetAddressEvent);
        if EFI_ERROR Status then static_exit (Some SetAddressEvent) TimeoutEvent Status
        else
          _ ← static_options Ip4Cfg2 Config (NTOHL SubnetMask);
          static_exit (Some SetAddressEvent) TimeoutEvent Status.

Definition ApplyStaticConfig (fuel : nat) (Ip4Cfg2 : Z) (Config : NUC_ETH_CONFIG) : fw eth (option EFI_STATUS) :=
  let '(S1, Address) := ParseIp4Field (Ip4Address Config) in
  let '(S2, SubnetMask) := ParseIp4Field (Ip4SubnetMask Config) in
  if EFI_ERROR S1 || EFI_ERROR S2 then mret (Some EFI_INVALID_PARAMETER)
  else
    let MaskLength := NetGetMaskLength (NTOHL SubnetMask) in
    if (MaskLength =? 0) || (IP4_MASK_NUM <=? MaskLength)
       || negb (NetIp4IsUnicast (NTOHL Address) (NTOHL SubnetMask))
    then mret (Some EFI_INVALID_PARAMETER)
    else
      Status ← call (S := eth) (SetPolicy Ip4Cfg2 Ip4Config2PolicyStatic);
      if EFI_ERROR Status then mret (Some Status)
      else static_address fuel Ip4Cfg2 Config Address SubnetMask.

Definition ApplyConfig (fuel : nat) (NicHandle : Z) : fw eth (option unit) :=
  Config ← ReadConfigVariable;
  match Config with
  | None => mret (Some tt)
  | Some Config =>
      if (DhcpEnabled Config =? 0) && (nth 0 (Ip4Address Config) 0 =? 0) then mret (Some tt)
      else
        '(Status, Ip4Cfg2) ← call (S := eth) (HandleIp4Config2 NicHandle);
        if EFI_ERROR Status then mret (Some tt)
        else if negb (DhcpEnabled Config =? 0) then
          _ ← call_ (S := eth) (SetPolicy Ip4Cfg2 Ip4Config2PolicyDhcp); mret (Some tt)
        else _ ←? ApplyStaticConfig fuel Ip4Cfg2 Config; mret (Some tt)
  end.

(** ** Claiming a NIC *)

Definition PublishFormset (NicDevicePath : list dp_node) : fw eth unit :=
  ChildDevicePath ← call (S := eth) (AppendVendorNode NicDevicePath);
  match ChildDevicePath with
  | None => mret tt
  | Some ChildDevicePath =>
      '(Status, ChildHandle) ← call (S := eth) (InstallChildPath ChildDevicePath);
      if EFI_ERROR Status then call_ (S := eth) (FreePool ChildDevicePath)
      else
        HiiHandle ← call (S := eth) (HiiAddPackages ChildHandle);
        match HiiHandle with
        | None =>
            _ ← call_ (S := eth) (UninstallChildPath ChildHandle ChildDevicePath);
            call_ (S := eth) (FreePool ChildDevicePath)
        | Some _ => mret tt
        end
  end.

Definition claim_nic (fuel : nat) (NicHandle : Z) (DevicePath : list dp_node) : fw eth (option unit) :=
  _ ←? SeedMacAddress DevicePath;
  _ ← PublishFormset DevicePath;
  ApplyConfig fuel NicHandle.

(** The notify function: it drains the queue of new handles; the answer is
    the new value of [mNicClaimed]. *)
Fixpoint OnIp4Config2Installed (fuel : nat) (mNicClaimed : bool) : fw eth (option bool) :=
  match fuel with
  | O => mret None
  | S fuel' =>
      '(Status, NicHandle) ← call (S := eth) LocateNotifiedHandle;
      if EFI_ERROR Status then mret (Some mNicClaimed)
      else if mNicClaimed then OnIp4Config2Installed fuel' true
      else
        DevicePath ← call (S := eth) (DevicePathFromHandle NicHandle);
        match DevicePath with
        | None => OnIp4Config2Installed fuel' false
        | Some DevicePath =>
            let '(HasMac, OverUsb) := ClassifyNicDevicePath DevicePath false false in
            if OverUsb || negb HasMac then OnIp4Config2Installed fuel' false
            else
              _ ←? claim_nic fuel' NicHandle DevicePath;
              OnIp4Config2Installed fuel' true
        end
  end.

Definition EthConfigEntryPoint : fw eth EFI_STATUS :=
  _ ← EnsureConfigVariable;
  '(Status, Notify) ← call (S := eth) CreateInstallEvent;
  if EFI_ERROR Status then mret Status
  else
    Status ← call (S := eth) (RegisterProtocolNotify Notify);
    if EFI_ERROR Status then _ ← call_ (S := eth) (CloseEvent Notify); mret Status
    else mret EFI_SUCCESS.
End ethconfig.
