(* ===== verification/EthConfigSpec.v ===== *)
(** * What the IPv4 policy driver guarantees

    Only the first interface that is not behind USB is ever touched; the
    stored policy, and nothing else, is what it is given; the events of a
    static apply are released; the variable keeps its layout. *)

From S2P Require Import Prelude Services Uefi EdkStrings EthConfig.

(** ** A concrete network library and machine *)

(** The number before the next dot, and what follows it. *)
Fixpoint octet (n : Z) (s : list Z) : option (Z * list Z) :=
  match s with
  | [] => Some (n, [])
  | c :: s =>
      if c =? 0x2E then Some (n, s)
      else if (0x30 <=? c) && (c <=? 0x39) && (10 * n + (c - 0x30) <? 256) then octet (10 * n + (c - 0x30)) s
      else None
  end.
Definition dotted_quad (s : list Z) : option (list Z) :=
  '(a, s) ← octet 0 s; '(b, s) ← octet 0 s; '(c, s) ← octet 0 s; '(d, s) ← octet 0 s;
  match s with [] => Some [a; b; c; d] | _ => None end.

#[global] Instance base_net : NetLib := {|
  NetLibStrToIp4 s := match dotted_quad s with Some a => (EFI_SUCCESS, a) | None => (EFI_INVALID_PARAMETER, []) end;
  NetGetMaskLength m :=
    match List.find (fun n => m =? 2 ^ 32 - 2 ^ (32 - n)) (seqZ 0 33) with Some n => n | None => 33 end;
  NetIp4IsUnicast ip m :=
    negb (ip =? 0) && negb (ip =? 2 ^ 32 - 1) && negb (Z.land ip (2 ^ 32 - 1 - m) =? 0)
    && negb (Z.lor ip m =? 2 ^ 32 - 1) && (ip <? 0xE0000000)
|}.

Definition usb_nic : list dp_node :=
  [mkNode MESSAGING_DEVICE_PATH MSG_USB_DP [1; 0]; mkNode MESSAGING_DEVICE_PATH MSG_MAC_ADDR_DP (repeat 7 33)].
Definition pci_nic : list dp_node :=
  [mkNode 1 1 [0; 0x1F]; mkNode MESSAGING_DEVICE_PATH MSG_MAC_ADDR_DP (0x1C :: 0x69 :: 0x7A :: repeat 0 30)].

(** A machine: the variable, the interfaces not yet notified, and how many
    polls the address takes. *)
Record machine := mkMachine { m_var : list Z; m_queue : list Z; m_polls : nat }.

Definition eth_host : handler eth machine := fun c w =>
  match c as c return eth_res c * machine with
  | GetEthCfg => ((EFI_SUCCESS, m_var w), w)
  | SetEthCfg d => (EFI_SUCCESS, mkMachine d (m_queue w) (m_polls w))
  | LocateNotifiedHandle =>
      match m_queue w with
      | h :: q => ((EFI_SUCCESS, h), mkMachine (m_var w) q (m_polls w))
      | [] => ((EFI_NOT_FOUND, 0), w)
      end
  | DevicePathFromHandle h => (Some (if h =? 7 then usb_nic else pci_nic), w)
  | HandleIp4Config2 h => ((EFI_SUCCESS, 100 + h), w)
  | SetManualAddress _ _ _ => (EFI_NOT_READY, w)
  | CreateTimeoutEvent => ((EFI_SUCCESS, 1), w)
  | CreateSetAddressEvent => ((EFI_SUCCESS, 2), w)
  | CreateInstallEvent => ((EFI_SUCCESS, 3), w)
  | CheckEvent _ => (EFI_NOT_READY, mkMachine (m_var w) (m_queue w) (pred (m_polls w)))
  | IsAddressOk => (Nat.eqb (m_polls w) 0, w)
  | AppendVendorNode _ => (Some 50, w)
  | InstallChildPath _ => ((EFI_SUCCESS, 51), w)
  | HiiAddPackages _ => (Some 52, w)
  | SetPolicy _ _ | SetGateway _ _ | SetDnsServer _ _ | RegisterDataNotify _ _ | UnregisterDataNotify _ _
  | SetTimerRelative _ _ | UninstallChildPath _ _ | RegisterProtocolNotify _ => (EFI_SUCCESS, w)
  | CloseEvent _ | FreePool _ => (tt, w)
  end.

Definition text_in (k : nat) (s : string) : list Z := take k (lit s ++ repeat 0 k).
Definition office : NUC_ETH_CONFIG :=
  mkEth 0 (repeat 0 18) (text_in 16 "192.168.1.20") (text_in 16 "255.255.255.0") (text_in 16 "192.168.1.1")
    (text_in 16 "9.9.9.9") (text_in 16 "none").
Definition office_nuc : machine := mkMachine (encode_config office) [7; 8; 9] 3.

(** ** Which interface is touched *)

Definition has_node (sub : Z) (path : list dp_node) : Prop :=
  exists n, n ∈ path /\ dp_type n = MESSAGING_DEVICE_PATH /\ dp_subtype n = sub.
(** A network interface that is not reached over USB. *)
Definition onboard (path : list dp_node) : Prop := has_node MSG_MAC_ADDR_DP path /\ ~ has_node MSG_USB_DP path.

Lemma has_node_cons sub n path :
  has_node sub (n :: path) <-> (dp_type n = MESSAGING_DEVICE_PATH /\ dp_subtype n = sub) \/ has_node sub path.
Proof.
  unfold has_node. split.
  - intros (x & Hx & Ht). apply elem_of_cons in Hx as [->|Hx]; eauto.
  - intros [Ht|(x & Hx & Ht)]; [exists n|exists x]; split; try done; [left|by right].
Qed.

Lemma classify_spec path a b :
  (fst (ClassifyNicDevicePath path a b) = true <-> a = true \/ has_node MSG_MAC_ADDR_DP path)
  /\ (snd (ClassifyNicDevicePath path a b) = true <-> b = true \/ has_node MSG_USB_DP path).
Proof.
  revert a b. induction path as [|n path IH]; intros a b; cbn [ClassifyNicDevicePath].
  { split; (split; [by left|]); (intros [?|(x & Hx & _)]; [done|by apply not_elem_of_nil in Hx]). }
  rewrite !has_node_cons. destruct (Z.eqb_spec (dp_type n) MESSAGING_DEVICE_PATH) as [Ht|Ht]; cbn [negb];
    [|specialize (IH a b); tauto].
  destruct (Z.eqb_spec (dp_subtype n) MSG_USB_DP) as [Hu|Hu].
  { specialize (IH a true). rewrite Hu. unfold MSG_USB_DP, MSG_MAC_ADDR_DP in *. intuition (congruence || lia). }
  destruct (Z.eqb_spec (dp_subtype n) MSG_MAC_ADDR_DP) as [Hm|Hm]; [specialize (IH true b)|specialize (IH a b)];
    intuition congruence.
Qed.

Lemma classify_onboard path :
  (let '(HasMac, OverUsb) := ClassifyNicDevicePath path false false in OverUsb || negb HasMac) = false <-> onboard path.
Proof.
  destruct (classify_spec path false false) as [Hm Hu]. destruct (ClassifyNicDevicePath path false false) as [m u].
  cbn in *. unfold onboard. destruct m, u; cbn; intuition congruence.
Qed.

#[global] Instance onboard_dec path : Decision (onboard path).
Proof.
  destruct (let '(HasMac, OverUsb) := ClassifyNicDevicePath path false false in OverUsb || negb HasMac) eqn:E.
  - right. intros Ho. apply classify_onboard in Ho. congruence.
  - left. by apply classify_onboard.
Defined.

(** The watcher of a boot: the path looked at last, the interface chosen, the
    protocol instance it gave. *)
Record watch := mkWatch { looked : option (Z * list dp_node); chosen : option Z; instance : option Z }.

(** Anything but looking requires an interface; the first thing done with an
    onboard path chooses its interface. *)
Definition touches (m : watch) : option watch :=
  match chosen m, looked m with
  | Some _, _ => Some m
  | None, Some (h, path) => if decide (onboard path) then Some (mkWatch (looked m) (Some h) None) else None
  | None, None => None
  end.
Definition configures (m : watch) (ip4 : Z) : option watch :=
  if decide (instance m = Some ip4) then Some m else None.

Definition watch_step (m : watch) (e : event eth) : option watch :=
  match e with
  | Ev c r =>
      match c as c return eth_res c -> option watch with
      | LocateNotifiedHandle => fun _ => Some m
      | DevicePathFromHandle h => fun r =>
          match chosen m with
          | Some _ => None
          | None => Some (mkWatch (match r with Some p => Some (h, p) | None => None end) None None)
          end
      | HandleIp4Config2 h => fun r =>
          if decide (chosen m = Some h)
          then Some (mkWatch (looked m) (chosen m) (if EFI_ERROR (fst r) then None else Some (snd r))) else None
      | SetPolicy ip4 _ => fun _ => configures m ip4
      | SetManualAddress ip4 _ _ => fun _ => configures m ip4
      | SetGateway ip4 _ => fun _ => configures m ip4
      | SetDnsServer ip4 _ => fun _ => configures m ip4
      | RegisterDataNotify ip4 _ => fun _ => configures m ip4
      | UnregisterDataNotify ip4 _ => fun _ => configures m ip4
      | AppendVendorNode path => fun _ =>
          if decide (option_map snd (looked m) = Some path) then touches m else None
      | _ => fun _ => touches m
      end r
  end.

(** Later notifications start from where the earlier ones ended. *)
Fixpoint notifications `{EdkStrings, NetLib} (n : nat) (fuel : nat) (mNicClaimed : bool) : fw eth (option bool) :=
  match n with
  | O => mret (Some mNicClaimed)
  | S n => c ←? OnIp4Config2Installed fuel mNicClaimed; notifications n fuel c
  end.

(** The latch tells whether an interface was chosen. *)
Definition latched (m : watch) (claimed : bool) : Prop := claimed = true <-> is_Some (chosen m).

Section touch.
Context `{EdkStrings, NetLib}.

(** An interface [h] with path [p] is being set up, or about to be. *)
Definition at_nic (h : Z) (p : list dp_node) (m : watch) : Prop := looked m = Some (h, p) /\ chosen m = Some h.
Definition ready (h : Z) (p : list dp_node) (m : watch) : Prop :=
  looked m = Some (h, p) /\ onboard p /\ (chosen m = None \/ chosen m = Some h).

Lemma touches_nic h p m : at_nic h p m -> touches m = Some m.
Proof. intros [_ Hc]. unfold touches. by rewrite Hc. Qed.
Lemma touches_ready h p m : ready h p m -> exists m', touches m = Some m' /\ at_nic h p m' /\ onboard p.
Proof.
  intros (Hl & Ho & [Hc|Hc]).
  - unfold touches. rewrite Hc, Hl, decide_True by done. eexists. split; [reflexivity|]. split; [by split|done].
  - exists m. rewrite (touches_nic h p) by done. split; [done|]. split; [by split|done].
Qed.
Lemma nic_ready h p m : at_nic h p m -> onboard p -> ready h p m.
Proof. intros [Hl Hc] Ho. split; [done|]. split; [done|by right]. Qed.

(** Calls that only touch. *)
Definition plain_op (c : eth_op) : Prop :=
  match c with
  | GetEthCfg | SetEthCfg _ | CreateTimeoutEvent | CreateSetAddressEvent | SetTimerRelative _ _ | CheckEvent _ | IsAddressOk
  | CloseEvent _ | InstallChildPath _ | UninstallChildPath _ _ | HiiAddPackages _ | FreePool _ => True
  | _ => False
  end.
Lemma plain_step m c r : plain_op c -> watch_step m (Ev (S := eth) c r) = touches m.
Proof. by destruct c. Qed.

Lemma plain_nic {A} h p m (q : fw eth A) (Q : A -> watch -> Prop) :
  only (S := eth) plain_op q -> at_nic h p m -> (forall a, Q a m) -> mon watch_step m q Q.
Proof.
  intros Ho Hm HQ. unfold mon. induction q as [a|c k IH]; cbn [wp]; [by exists m|]. destruct Ho as [Hc Hk]. intros r.
  eapply wp_mono; [|apply IH, Hk]. intros a t (m' & Ht & Ha). exists m'. cbn [monitor].
  by rewrite plain_step, (touches_nic h p).
Qed.

Lemma plain_ready {A} h p m (q : fw eth A) :
  only (S := eth) plain_op q -> ready h p m -> mon watch_step m q (fun _ m' => ready h p m').
Proof.
  intros Ho Hm. destruct q as [a|c k]; [by apply mon_ret|]. destruct Ho as [Hc Hk].
  destruct (touches_ready h p m Hm) as (m1 & Ht & Hn & Hob). intros r. cbn [wp].
  pose proof (plain_nic h p m1 (k r) (fun _ m' => ready h p m') (Hk r) Hn (fun _ => nic_ready h p m1 Hn Hob)) as Hq.
  eapply wp_mono; [|exact Hq]. intros a t (m' & Hm' & Ha). exists m'. cbn [monitor]. by rewrite plain_step, Ht.
Qed.

Lemma Seed_ready h p m : ready h p m -> mon watch_step m (SeedMacAddress p) (fun _ m' => ready h p m').
Proof. apply plain_ready. unfold SeedMacAddress, ReadConfigVariable. only_go. Qed.

Lemma Publish_nic h p m : ready h p m -> mon watch_step m (PublishFormset p) (fun _ m' => at_nic h p m').
Proof.
  intros Hm. unfold PublishFormset. apply mon_bind, mon_call. intros r. cbn [watch_step].
  rewrite decide_True by (by rewrite (proj1 Hm)). destruct (touches_ready h p m Hm) as (m1 & Ht & Hn & _). rewrite Ht.
  exists m1. split; [done|]. destruct r; [|by apply mon_ret]. apply (plain_nic h p); [only_go|done|done].
Qed.

(** With the protocol instance at hand. *)
Definition in_hand (h : Z) (p : list dp_node) (ip4 : Z) (m : watch) : Prop := at_nic h p m /\ instance m = Some ip4.

Lemma configures_hand h p ip4 m : in_hand h p ip4 m -> configures m ip4 = Some m.
Proof. intros [_ Hi]. unfold configures. by rewrite decide_True. Qed.

(** Calls on the instance [ip4], or plain ones. *)
Definition on_instance (ip4 : Z) (c : eth_op) : Prop :=
  match c with
  | SetPolicy i _ | SetManualAddress i _ _ | SetGateway i _ | SetDnsServer i _ | RegisterDataNotify i _
  | UnregisterDataNotify i _ => i = ip4
  | c => plain_op c
  end.
Lemma hand_step h p ip4 m c r : on_instance ip4 c -> in_hand h p ip4 m -> watch_step m (Ev (S := eth) c r) = Some m.
Proof.
  intros Hc Hm. pose proof (touches_nic h p m (proj1 Hm)). pose proof (configures_hand h p ip4 m Hm).
  destruct c; cbn in Hc; try done; cbn [watch_step]; subst; done.
Qed.

Lemma hand_mon {A} h p ip4 m (q : fw eth A) :
  only (S := eth) (on_instance ip4) q -> in_hand h p ip4 m -> mon watch_step m q (fun _ m' => m' = m).
Proof.
  intros Ho Hm. unfold mon. induction q as [a|c k IH]; cbn [wp]; [by exists m|]. destruct Ho as [Hc Hk]. intros r.
  eapply wp_mono; [|apply IH, Hk]. intros a t (m' & Ht & ->). exists m. cbn [monitor].
  by rewrite (hand_step h p ip4).
Qed.

Lemma wait_plain fuel ev st ip4 : only (S := eth) (on_instance ip4) (wait_address fuel ev st).
Proof. revert st. induction fuel as [|fuel IH]; intros st; cbn [wait_address]; only_go; apply IH. Qed.

Lemma static_on_instance fuel ip4 c : only (S := eth) (on_instance ip4) (ApplyStaticConfig fuel ip4 c).
Proof.
  unfold ApplyStaticConfig, static_address, static_options, static_exit. only_go; apply wait_plain.
Qed.

Lemma Apply_nic fuel h p m : at_nic h p m -> mon watch_step m (ApplyConfig fuel h) (fun _ m' => at_nic h p m').
Proof.
  intros Hm. unfold ApplyConfig. apply mon_bind.
  apply (plain_nic h p); [unfold ReadConfigVariable; only_go|done|]. intros [c|]; [|by apply mon_ret].
  destruct (_ && _); [by apply mon_ret|]. apply mon_bind, mon_call. intros [st ip4]. cbn [watch_step fst snd].
  rewrite decide_True by apply Hm. eexists. split; [reflexivity|]. cbv beta iota.
  destruct (EFI_ERROR st); [by apply mon_ret|].
  set (m1 := mkWatch _ _ _). assert (Hh : in_hand h p ip4 m1) by (split; [exact Hm|done]).
  destruct (negb _).
  - apply mon_bind. eapply mon_mono; [|apply (hand_mon h p ip4 m1); [only_go|done]]. cbn beta. intros _ ? ->.
    apply mon_ret. exact (proj1 Hh).
  - apply mon_bind. eapply mon_mono; [|apply (hand_mon h p ip4 m1); [apply static_on_instance|done]]. cbn beta.
    intros [?|] ? ->; apply mon_ret; exact (proj1 Hh).
Qed.

Lemma claim_watch fuel h p m :
  ready h p m -> mon watch_step m (claim_nic fuel h p) (fun r m' => is_Some r -> at_nic h p m').
Proof.
  intros Hm. unfold claim_nic. apply mon_bind. eapply mon_mono; [|by apply Seed_ready]. cbn beta. intros [[]|] m1 H1;
    [|apply mon_ret; by intros [? [=]]].
  apply mon_bind. eapply mon_mono; [|by apply Publish_nic]. cbn beta. intros _ m2 H2.
  eapply mon_mono; [|by apply Apply_nic]. auto.
Qed.

Lemma notify_watch fuel claimed m :
  latched m claimed -> mon watch_step m (OnIp4Config2Installed fuel claimed) (fun r m' => forall c, r = Some c -> latched m' c).
Proof.
  revert claimed m. induction fuel as [|fuel IH]; intros claimed m Hm; cbn [OnIp4Config2Installed]; [by apply mon_ret|].
  apply mon_bind, mon_call. intros [st h]. cbn [watch_step]. exists m. split; [done|]. cbv beta iota.
  destruct (EFI_ERROR st); [apply mon_ret; by intros ? [= <-]|]. destruct claimed; [by apply IH|].
  assert (Hc : chosen m = None) by (destruct (chosen m) eqn:E; [|done]; destruct Hm as [_ Hm]; discriminate Hm; rewrite E; eauto).
  apply mon_bind, mon_call. intros r. cbn [watch_step]. rewrite Hc. eexists. split; [reflexivity|]. cbv beta iota.
  assert (Hl : forall l, latched (mkWatch l None None) false) by (intros l; split; [done|by intros [? [=]]]).
  destruct r as [path|]; [|by apply IH].
  pose proof (classify_onboard path) as Hp. destruct (ClassifyNicDevicePath path false false) as [HasMac OverUsb].
  destruct (OverUsb || negb HasMac); [by apply IH|].
  apply mon_bind. eapply mon_mono; [|apply claim_watch; split; [reflexivity|split; [by apply Hp|by left]]]. cbn beta.
  intros [[]|] m1 H1; [|by apply mon_ret]. apply IH. destruct (H1 ltac:(eauto)) as [_ Hch]. split; [|done]. intros _. rewrite Hch. eauto.
Qed.

Lemma notifications_watch n fuel claimed m :
  latched m claimed -> mon watch_step m (notifications n fuel claimed) (fun r m' => forall c, r = Some c -> latched m' c).
Proof.
  revert claimed m. induction n as [|n IH]; intros claimed m Hm; cbn [notifications]; [apply mon_ret; by intros ? [= <-]|].
  apply mon_bind. eapply mon_mono; [|by apply notify_watch]. cbn beta. intros [c|] m1 H1; [|by apply mon_ret].
  apply IH. by apply H1.
Qed.
End touch.

Definition no_watch : watch := mkWatch None None None.

(** C30: Only one interface is ever configured, and never the BMC's.  For any
    number of notifications in a boot and whatever the services answer:
    nothing is read, published or configured before an interface is found
    whose device path has a MAC node and no USB node; from then on no other
    interface is looked at, the setup page goes under that path, the
    configuration protocol is taken from that interface alone, and every
    setting is made on the instance it gave.  The latch is set exactly when
    an interface was chosen. *)
Theorem only_onboard_nic `{EdkStrings, NetLib} (n fuel : nat) (tr : list (event eth)) (r : option bool)
    (Hex : exec (notifications n fuel false) tr r) :
  exists m, monitor watch_step no_watch tr = Some m
    /\ forall claimed, r = Some claimed -> (claimed = true <-> is_Some (chosen m)).
Proof.
  assert (Hl : latched no_watch false) by (split; [done|by intros [? [=]]]).
  exact (mon_exec watch_step _ _ _ _ _ (notifications_watch n fuel false no_watch Hl) Hex).
Qed.

(** The setup page and the static policy go to interface 8; the one that
    comes after it is not looked at. *)
Lemma only_onboard_nic_witness :
  exists m, monitor watch_step no_watch (run_trace eth_host (notifications 1 20 false) office_nuc) = Some m
    /\ chosen m = Some 8.
Proof.
  assert (Hex := exec_run eth_host (notifications 1 20 false) office_nuc).
  destruct (only_onboard_nic 1 20 _ _ Hex) as (m & Hm & _). exists m. split; [exact Hm|].
  assert (Hc : option_map chosen (monitor watch_step no_watch (run_trace eth_host (notifications 1 20 false) office_nuc)) = Some (Some 8))
    by (vm_compute; reflexivity).
  rewrite Hm in Hc. injection Hc as Hc. exact Hc.
Defined.

(** ** The static policy *)

Definition is_setting (c : eth_op) : bool :=
  match c with SetPolicy _ _ | SetManualAddress _ _ _ | SetGateway _ _ | SetDnsServer _ _ => true | _ => false end.
Definition settings (tr : list (event eth)) : list eth_op := List.filter is_setting (map (ev_op (S := eth)) tr).

Lemma settings_app a b : settings (a ++ b) = settings a ++ settings b.
Proof. unfold settings. by rewrite map_app, List.filter_app. Qed.

Lemma settings_cons e t : settings (e :: t) = (if is_setting (ev_op e) then [ev_op e] else []) ++ settings t.
Proof. unfold settings. cbn. by destruct (is_setting _). Qed.

Section static.
Context `{EdkStrings, NetLib}.

(** The address a field's text stands for. *)
Definition text_address (s : list Z) : option (list Z) :=
  match cstr s with
  | [] => None
  | t => if EFI_ERROR (fst (NetLibStrToIp4 t)) then None else Some (snd (NetLibStrToIp4 t))
  end.

Lemma ParseIp4Field_text s :
  match text_address s with
  | Some a => ParseIp4Field s = (EFI_SUCCESS, a)
  | None => EFI_ERROR (fst (ParseIp4Field s)) = true
  end.
Proof.
  unfold text_address, ParseIp4Field. destruct (cstr s) as [|c t]; [done|].
  destruct (NetLibStrToIp4 (c :: t)) as [st a]. cbn. by destruct (EFI_ERROR st).
Qed.

Definition static_valid (c : NUC_ETH_CONFIG) (A M : list Z) : Prop :=
  text_address (Ip4Address c) = Some A /\ text_address (Ip4SubnetMask c) = Some M
  /\ NetGetMaskLength (NTOHL M) <> 0 /\ NetGetMaskLength (NTOHL M) < 33
  /\ NetIp4IsUnicast (NTOHL A) (NTOHL M) = true.

(** Gateway and name servers, as far as their texts are addresses. *)
Definition option_settings (ip4 : Z) (c : NUC_ETH_CONFIG) (M : list Z) : list eth_op :=
  match text_address (Ip4Gateway c) with
  | Some g => if NetIp4IsUnicast (NTOHL g) (NTOHL M) then [SetGateway ip4 g] else []
  | None => []
  end
  ++ match omap text_address [Ip4Dns1 c; Ip4Dns2 c] with [] => [] | dns => [SetDnsServer ip4 dns] end.

Lemma static_options_settings ip4 c M :
  wp (static_options ip4 c (NTOHL M)) (fun _ t => settings t = option_settings ip4 c M).
Proof.
  unfold static_options, option_settings.
  assert (Hdns : forall s, (if fst (ParseIp4Field s) =? EFI_SUCCESS then [snd (ParseIp4Field s)] else [])
                           = match text_address s with Some a => [a] | None => [] end).
  { intros s. pose proof (ParseIp4Field_text s) as Hs. destruct (text_address s); [by rewrite Hs|].
    destruct (Z.eqb_spec (fst (ParseIp4Field s)) EFI_SUCCESS) as [E|]; [rewrite E in Hs; done|done]. }
  pose proof (Hdns (Ip4Dns1 c)) as H1. pose proof (Hdns (Ip4Dns2 c)) as H2.
  pose proof (ParseIp4Field_text (Ip4Gateway c)) as Hg.
  destruct (ParseIp4Field (Ip4Gateway c)) as [gs g], (ParseIp4Field (Ip4Dns1 c)) as [s1 d1], (ParseIp4Field (Ip4Dns2 c)) as [s2 d2].
  cbn [fst snd] in *.
  assert (Hlist : (if s2 =? EFI_SUCCESS then (if s1 =? EFI_SUCCESS then [d1] else []) ++ [d2] else if s1 =? EFI_SUCCESS then [d1] else [])
                  = omap text_address [Ip4Dns1 c; Ip4Dns2 c]).
  { cbn [omap list_omap]. destruct (s1 =? EFI_SUCCESS), (s2 =? EFI_SUCCESS), (text_address (Ip4Dns1 c)), (text_address (Ip4Dns2 c));
      cbn in *; congruence. }
  rewrite Hlist. destruct (text_address (Ip4Gateway c)) as [g'|].
  - injection Hg as -> ->. cbn [Z.eqb EFI_SUCCESS andb]. destruct (NetIp4IsUnicast (NTOHL g') (NTOHL M)), (omap _ _); wp_go; reflexivity.
  - destruct (Z.eqb_spec gs EFI_SUCCESS) as [->|]; [done|]. cbn [andb]. destruct (omap _ _); wp_go; reflexivity.
Qed.

(** The polls of the timeout event that found it not signaled yet. *)
Definition idle_poll (e : event eth) : bool :=
  match e with
  | Ev c r =>
      match c as c return eth_res c -> bool with
      | CheckEvent _ => fun r => EFI_ERROR r
      | _ => fun _ => false
      end r
  end.

(** A setting or an event the services refuse; EFI_NOT_READY for an address
    is no refusal, but the timer expiring while the address is awaited is. *)
Definition refused (e : event eth) : bool :=
  match e with
  | Ev c r =>
      match c as c return eth_res c -> bool with
      | SetPolicy _ _ | RegisterDataNotify _ _ => fun r => EFI_ERROR r
      | SetManualAddress _ _ _ => fun r => EFI_ERROR r && negb (r =? EFI_NOT_READY)
      | CheckEvent _ => fun r => negb (EFI_ERROR r)
      | HandleIp4Config2 _ | CreateTimeoutEvent | CreateSetAddressEvent => fun r => EFI_ERROR (fst r)
      | _ => fun _ => false
      end r
  end.

(** The wait changes no setting; it ends with EFI_SUCCESS or with the status
    it was given, and takes as many polls as it has fuel not to end. *)
Lemma wait_spec fuel ev st :
  wp (wait_address fuel ev st) (fun r t =>
    settings t = [] /\ match r with
                       | Some st' => st' = EFI_SUCCESS \/ existsb refused t = true
                       | None => (fuel <= length (List.filter idle_poll t))%nat
                       end).
Proof.
  revert st. induction fuel as [|fuel IH]; intros st; cbn [wait_address]; [apply wp_ret; split; [done|cbn; lia]|].
  apply wp_call_bind. intros r. destruct (EFI_ERROR r) eqn:Er; [|apply wp_ret; split; [done|right; cbn; by rewrite Er]].
  apply wp_call_bind. intros [|]; [apply wp_ret; split; [done|by left]|].
  eapply wp_mono; [|apply IH]. cbn beta. intros a t [Hs Ha]. split; [exact Hs|].
  destruct a; [cbn [existsb refused]; by rewrite Er|]. cbn [List.filter idle_poll]. rewrite Er. cbn [length]. lia.
Qed.

(** What is set after the policy: address, gateway and name servers in this
    order when the address was accepted; at most the address otherwise. *)
Definition address_settings (fuel : nat) (ip4 : Z) (c : NUC_ETH_CONFIG) (A M : list Z) (r : option EFI_STATUS)
    (t : list (event eth)) : Prop :=
  match r with
  | Some st =>
      if EFI_ERROR st
      then existsb refused t = true /\ (settings t = [] \/ settings t = [SetManualAddress ip4 A M])
      else settings t = SetManualAddress ip4 A M :: option_settings ip4 c M
  | None => settings t = [SetManualAddress ip4 A M] /\ (fuel <= length (List.filter idle_poll t))%nat
  end.

Lemma static_exit_wp e te st (Q : option EFI_STATUS -> list (event eth) -> Prop) :
  (forall t, settings t = [] -> Q (Some st) t) -> wp (static_exit e te st) Q.
Proof. intros HQ. unfold static_exit. destruct e; wp_go; by apply HQ. Qed.

Lemma static_wait_wp fuel te st :
  wp (if st =? EFI_NOT_READY then
        _ ← call_ (S := eth) (SetTimerRelative te 50000000); wait_address fuel te st
      else mret (Some st))
     (fun r t => settings t = [] /\ match r with
                                   | Some st' => EFI_ERROR st' = true -> EFI_ERROR st && negb (st =? EFI_NOT_READY) || existsb refused t = true
                                   | None => (fuel <= length (List.filter idle_poll t))%nat
                                   end).
Proof.
  destruct (st =? EFI_NOT_READY).
  - apply wp_bind, wp_call_. intros ?. eapply wp_mono; [|apply wait_spec]. cbn beta. intros r0 t [Hs Hr]. split; [exact Hs|].
    destruct r0; [|done]. intros He. destruct Hr as [->|Hr]; [done|]. cbn [existsb refused app]. by rewrite Hr, orb_true_r.
  - apply wp_ret. split; [done|]. intros ->. done.
Qed.

Lemma static_address_settings fuel ip4 c A M :
  wp (static_address fuel ip4 c A M) (address_settings fuel ip4 c A M).
Proof.
  unfold static_address. apply wp_call_bind. intros [st te].
  destruct (EFI_ERROR st) eqn:E1; [apply wp_ret; cbn; rewrite E1; auto|].
  apply wp_call_bind. intros [st2 se]. destruct (EFI_ERROR st2) eqn:E2.
  { apply static_exit_wp. intros t Ht. cbn. rewrite E2, orb_true_r. auto. }
  apply wp_call_bind. intros st3. destruct (EFI_ERROR st3) eqn:E3.
  { apply static_exit_wp. intros t Ht. cbn. rewrite E3, !orb_true_r. auto. }
  apply wp_call_bind. intros st4. unfold obind. eapply wp_seq; [apply static_wait_wp|]. cbn beta.
  intros [st5|] t5 [H5 H5'].
  2:{ apply wp_ret. unfold address_settings. rewrite app_nil_r, !settings_cons, H5. by split. }
  unfold call_. eapply wp_bind, wp_call_bind. intros r6. apply wp_ret.
  destruct (EFI_ERROR st5) eqn:E5.
  - apply static_exit_wp. intros t Ht. unfold address_settings. rewrite E5.
    split; [cbn [existsb refused]; rewrite existsb_app, !orb_assoc, <- (orb_assoc _ _ (existsb refused t5)), (H5' eq_refl), !orb_true_r; done|]. right.
    rewrite !settings_cons, settings_app, H5. cbn [app]. by rewrite settings_cons, Ht.
  - eapply wp_seq; [apply static_options_settings|]. cbn beta. intros _ t7 H7.
    apply static_exit_wp. intros t Ht. unfold address_settings. rewrite E5.
    rewrite !settings_cons, settings_app, H5. cbn [app ev_op is_setting].
    by rewrite settings_cons, settings_app, H7, Ht, app_nil_r.
Qed.

(** From the policy on. *)
Definition static_settings (fuel : nat) (ip4 : Z) (c : NUC_ETH_CONFIG) (A M : list Z) (r : option EFI_STATUS)
    (t : list (event eth)) : Prop :=
  let P := SetPolicy ip4 Ip4Config2PolicyStatic in
  let D := SetManualAddress ip4 A M in
  match r with
  | Some st =>
      if EFI_ERROR st then existsb refused t = true /\ (settings t = [P] \/ settings t = [P; D])
      else settings t = P :: D :: option_settings ip4 c M
  | None => settings t = [P; D] /\ (fuel <= length (List.filter idle_poll t))%nat
  end.

Lemma ApplyStatic_settings fuel ip4 c :
  wp (ApplyStaticConfig fuel ip4 c) (fun r t =>
    (exists A M, static_valid c A M /\ static_settings fuel ip4 c A M r t)
    \/ ((forall A M, ~ static_valid c A M) /\ r = Some EFI_INVALID_PARAMETER /\ t = [])).
Proof.
  unfold ApplyStaticConfig. pose proof (ParseIp4Field_text (Ip4Address c)) as HA.
  pose proof (ParseIp4Field_text (Ip4SubnetMask c)) as HM.
  destruct (ParseIp4Field (Ip4Address c)) as [s1 A], (ParseIp4Field (Ip4SubnetMask c)) as [s2 M]. cbn [fst] in *.
  destruct (text_address (Ip4Address c)) as [A'|] eqn:EA.
  2:{ rewrite HA. apply wp_ret. right. split; [|done]. intros ? ? [Ha _]. congruence. }
  injection HA as -> ->. destruct (text_address (Ip4SubnetMask c)) as [M'|] eqn:EM.
  2:{ rewrite HM. cbn. right. split; [|done]. intros ? ? (_ & Hm & _). congruence. }
  injection HM as -> ->. change (EFI_ERROR EFI_SUCCESS || EFI_ERROR EFI_SUCCESS) with false. cbv iota.
  destruct (_ || _) eqn:Ev.
  { apply wp_ret. right. split; [|done]. intros ? ? (Ha & Hm & H1 & H2 & H3). rewrite EA in Ha. rewrite EM in Hm.
    injection Ha as <-. injection Hm as <-. rewrite H3 in Ev. unfold IP4_MASK_NUM in Ev. lia. }
  assert (Hv : static_valid c A' M').
  { split; [done|]. split; [done|]. unfold IP4_MASK_NUM in Ev. destruct (NetIp4IsUnicast _ _); [|by rewrite orb_true_r in Ev]. lia. }
  apply wp_call_bind. intros st. destruct (EFI_ERROR st) eqn:Es.
  { apply wp_ret. left. exists A', M'. split; [done|]. cbn. rewrite Es. auto. }
  eapply wp_mono; [|apply static_address_settings]. cbn beta. intros r t Hr. left. exists A', M'. split; [done|].
  unfold address_settings, static_settings in *. rewrite settings_cons.
  destruct r as [st'|]; cbn [ev_op is_setting app]; [|by destruct Hr as [-> ?]].
  revert Hr. destruct (EFI_ERROR st'); [|by intros ->]. intros [Hr Hs]. split; [cbn [existsb]; by rewrite Hr, orb_true_r|].
  by destruct Hs as [->| ->]; [left|right].
Qed.
End static.

(** ** The events of a static apply *)

(** Events that exist, newest first, and the registered notification. *)
Record events := mkEvents { live : list Z; registered : option (Z * Z) }.
Definition created (m : events) (r : EFI_STATUS * Z) : option events :=
  Some (if EFI_ERROR (fst r) then m else mkEvents (snd r :: live m) (registered m)).
Definition alive (m : events) (e : Z) : option events := if decide (e ∈ live m) then Some m else None.

Fixpoint remove_first (e : Z) (l : list Z) : option (list Z) :=
  match l with
  | [] => None
  | x :: l => if decide (e = x) then Some l else option_map (cons x) (remove_first e l)
  end.

(** An event is polled, armed, registered and closed only while it exists;
    one that is still registered is not closed. *)
Definition events_step (m : events) (e : event eth) : option events :=
  match e with
  | Ev c r =>
      match c as c return eth_res c -> option events with
      | CreateTimeoutEvent => created m
      | CreateSetAddressEvent => created m
      | SetTimerRelative e _ => fun _ => alive m e
      | CheckEvent e => fun _ => alive m e
      | RegisterDataNotify i e => fun r =>
          if decide (e ∈ live m /\ registered m = None)
          then Some (if EFI_ERROR r then m else mkEvents (live m) (Some (i, e))) else None
      | UnregisterDataNotify i e => fun _ =>
          if decide (registered m = Some (i, e)) then Some (mkEvents (live m) None) else None
      | CloseEvent e => fun _ =>
          if decide (option_map snd (registered m) = Some e) then None
          else l ← remove_first e (live m); Some (mkEvents l (registered m))
      | _ => fun _ => Some m
      end r
  end.
Definition no_events : events := mkEvents [] None.

Section events.
Context `{EdkStrings, NetLib}.

Lemma alive_mem m e : e ∈ live m -> alive m e = Some m.
Proof. intros He. unfold alive. by rewrite decide_True. Qed.

Lemma wait_events fuel te st m :
  te ∈ live m -> mon events_step m (wait_address fuel te st) (fun _ m' => m' = m).
Proof.
  intros Hte. induction fuel as [|fuel IH]; cbn [wait_address]; [by apply mon_ret|].
  mon_step. mon_step. cbn [events_step]. rewrite alive_mem by done. exists m. split; [done|].
  mon_step; [|by apply mon_ret]. mon_step. mon_step. cbn [events_step]. exists m. split; [done|].
  mon_step; [by apply mon_ret|exact IH].
Qed.

Lemma options_events ip4 c mask m : mon events_step m (static_options ip4 c mask) (fun _ m' => m' = m).
Proof.
  apply (mon_only events_step (fun c => match c with SetGateway _ _ | SetDnsServer _ _ => True | _ => False end)); [|unfold static_options; only_go|done].
  by intros ? [].
Qed.

Lemma exit_events se te st m :
  live m = match se with Some se => [se; te] | None => [te] end -> registered m = None ->
  mon events_step m (static_exit se te st) (fun r m' => m' = no_events).
Proof.
  intros Hl Hr. unfold static_exit.
  assert (Hte : forall m, live m = [te] -> registered m = None ->
            mon events_step m (_ ← call_ (S := eth) (CloseEvent te); mret (Some st)) (fun r m' => m' = no_events)).
  { clear. intros m Hl Hr. mon_step. mon_step. cbn [events_step]. rewrite Hr, decide_False by done. rewrite Hl. cbn [remove_first].
    rewrite decide_True by done. eexists. split; [reflexivity|]. by apply mon_ret. }
  destruct se as [se|]; mon_step; [|apply mon_ret; by apply Hte]. mon_step. cbn [events_step].
  rewrite Hr, decide_False by done. rewrite Hl. cbn [remove_first]. rewrite decide_True by done. eexists. split; [reflexivity|]. by apply Hte.
Qed.

Lemma address_events fuel ip4 c A M :
  mon events_step no_events (static_address fuel ip4 c A M) (fun r m' => is_Some r -> m' = no_events).
Proof.
  unfold static_address. mon_step. mon_step. destruct r as [st te]. cbn [events_step created fst snd]. eexists. split; [reflexivity|].
  cbn [fst snd]. destruct (EFI_ERROR st); [by apply mon_ret|].
  mon_step. mon_step. destruct r as [st2 se]. cbn [events_step created fst snd]. eexists. split; [reflexivity|].
  cbn [fst snd]. destruct (EFI_ERROR st2).
  { eapply mon_mono; [|by apply exit_events]. auto. }
  mon_step. mon_step. cbn [events_step]. rewrite decide_True by (split; [cbn; rewrite ?elem_of_cons; tauto|done]). eexists. split; [reflexivity|].
  cbn beta. destruct (EFI_ERROR r).
  { eapply mon_mono; [|by apply exit_events]. auto. }
  clear r. cbn [live snd registered]. set (m := mkEvents _ _).
  mon_step. mon_step. cbn [events_step]. exists m. split; [done|]. cbn beta. mon_step.
  eapply (mon_mono _ _ _ (fun _ m' => m' = m)).
  2:{ destruct (r =? EFI_NOT_READY); [|by apply mon_ret]. mon_step. mon_step. cbn [events_step].
      rewrite alive_mem by (cbn; rewrite ?elem_of_cons; tauto). exists m. split; [done|]. apply wait_events. cbn. rewrite ?elem_of_cons. tauto. }
  intros [st5|] ? ->; [|apply mon_ret; by intros [? [=]]].
  mon_step. mon_step. cbn [events_step]. rewrite decide_True by done. eexists. split; [reflexivity|].
  destruct (EFI_ERROR st5); [eapply mon_mono; [|by apply exit_events]; auto|].
  mon_step. eapply mon_mono; [|apply options_events]. cbn beta. intros _ ? ->.
  eapply mon_mono; [|by apply exit_events]. auto.
Qed.

Lemma ApplyStatic_events fuel ip4 c :
  mon events_step no_events (ApplyStaticConfig fuel ip4 c) (fun r m' => is_Some r -> m' = no_events).
Proof.
  unfold ApplyStaticConfig. repeat mon_step; try done. exists no_events. split; [done|].
  mon_step; [by apply mon_ret|apply address_events].
Qed.
End events.

(** ** The stored policy *)

(** What ReadConfigVariable makes of the answer. *)
Definition stored_config (r : EFI_STATUS * list Z) : option NUC_ETH_CONFIG :=
  if EFI_ERROR (fst r) || negb (len (snd r) =? sizeof_config) then None
  else Some (terminate_all (decode_config (snd r))).

Section policy.
Context `{EdkStrings, NetLib}.

Definition static_ok (A M : list Z) : bool :=
  negb (NetGetMaskLength (NTOHL M) =? 0) && (NetGetMaskLength (NTOHL M) <? 33) && NetIp4IsUnicast (NTOHL A) (NTOHL M).

(** All the settings a policy asks for, in order. *)
Definition policy_plan (ip4 : Z) (c : NUC_ETH_CONFIG) : list eth_op :=
  if negb (DhcpEnabled c =? 0) then [SetPolicy ip4 Ip4Config2PolicyDhcp]
  else match text_address (Ip4Address c), text_address (Ip4SubnetMask c) with
       | Some A, Some M =>
           if static_ok A M
           then SetPolicy ip4 Ip4Config2PolicyStatic :: SetManualAddress ip4 A M :: option_settings ip4 c M
           else []
       | _, _ => []
       end.

Lemma static_plan_valid ip4 c A M :
  DhcpEnabled c = 0 -> static_valid c A M ->
  policy_plan ip4 c = SetPolicy ip4 Ip4Config2PolicyStatic :: SetManualAddress ip4 A M :: option_settings ip4 c M.
Proof.
  intros Hd (Ha & Hm & H1 & H2 & H3). unfold policy_plan, static_ok. rewrite Hd, Ha, Hm, H3. cbn [Z.eqb negb].
  destruct (Z.eqb_spec (NetGetMaskLength (NTOHL M)) 0); [done|].
  destruct (Z.ltb_spec (NetGetMaskLength (NTOHL M)) 33); [done|lia].
Qed.
Lemma static_plan_invalid ip4 c :
  DhcpEnabled c = 0 -> (forall A M, ~ static_valid c A M) -> policy_plan ip4 c = [].
Proof.
  intros Hd Hn. unfold policy_plan, static_ok. rewrite Hd. cbn [Z.eqb negb].
  destruct (text_address (Ip4Address c)) as [A|] eqn:EA; [|done]. destruct (text_address (Ip4SubnetMask c)) as [M|] eqn:EM; [|done].
  destruct (_ && _) eqn:E; [|done]. destruct (Hn A M). apply andb_true_iff in E as [E E3]. apply andb_true_iff in E as [E1 E2].
  repeat split; try done; lia.
Qed.

(** A run of the settings: no more than the plan, and all of it unless a call
    was refused or the fuel ran out. *)
Definition follows (fuel : nat) (plan : list eth_op) (finished : bool) (t : list (event eth)) : Prop :=
  settings t `prefix_of` plan
  /\ (if finished then existsb refused t = false -> settings t = plan
      else (fuel <= length (List.filter idle_poll t))%nat).

Lemma ApplyStatic_follows fuel ip4 c :
  DhcpEnabled c = 0 ->
  wp (ApplyStaticConfig fuel ip4 c) (fun r t => follows fuel (policy_plan ip4 c) (bool_decide (is_Some r)) t).
Proof.
  intros Hd. eapply wp_mono; [|apply ApplyStatic_settings]. cbn beta. intros r t [(A & M & Hv & Hs)|(Hn & -> & ->)].
  - rewrite (static_plan_valid _ _ A M) by done. unfold static_settings, follows in *. destruct r as [st|].
    + rewrite bool_decide_true by eauto. revert Hs. destruct (EFI_ERROR st).
      * intros [Hr Hs]. split; [|by rewrite Hr]. destruct Hs as [->| ->]; by eexists.
      * intros ->. done.
    + rewrite bool_decide_false by (by intros [? [=]]). destruct Hs as [-> Hf]. split; [by eexists|done].
  - rewrite static_plan_invalid by done. by split.
Qed.

Lemma Read_wp {B} (k : option NUC_ETH_CONFIG -> fw eth B) (Q : B -> list (event eth) -> Prop) :
  (forall r, wp (k (stored_config r)) (fun b t => Q b (Ev (S := eth) GetEthCfg r :: t))) ->
  wp (ReadConfigVariable ≫= k) Q.
Proof.
  intros Hk. unfold ReadConfigVariable. apply wp_bind, wp_call_bind. intros [st d]. apply wp_ret. apply (Hk (st, d)).
Qed.

(** ApplyConfig on a stored policy. *)
Definition applied (fuel : nat) (h : Z) (c : NUC_ETH_CONFIG) (r : option unit) (t : list (event eth)) : Prop :=
  if (DhcpEnabled c =? 0) && bool_decide (cstr (Ip4Address c) = []) then t = [] /\ r = Some tt
  else exists st ip4 t', t = Ev (S := eth) (HandleIp4Config2 h) (st, ip4) :: t'
    /\ if EFI_ERROR st then t' = [] /\ r = Some tt else follows fuel (policy_plan ip4 c) (bool_decide (is_Some r)) t'.

Lemma empty_field s : (nth 0 s 0 =? 0) = bool_decide (cstr s = []).
Proof. destruct s as [|[|x|x] s]; done. Qed.

Lemma Apply_applied fuel h c :
  wp (if (DhcpEnabled c =? 0) && (nth 0 (Ip4Address c) 0 =? 0) then mret (Some tt)
      else
        '(Status, Ip4Cfg2) ← call (S := eth) (HandleIp4Config2 h);
        if EFI_ERROR Status then mret (Some tt)
        else if negb (DhcpEnabled c =? 0) then
          _ ← call_ (S := eth) (SetPolicy Ip4Cfg2 Ip4Config2PolicyDhcp); mret (Some tt)
        else _ ←? ApplyStaticConfig fuel Ip4Cfg2 c; mret (Some tt))
     (applied fuel h c).
Proof.
  rewrite empty_field. unfold applied. destruct ((DhcpEnabled c =? 0) && _); [by apply wp_ret|].
  apply wp_call_bind. intros [st ip4]. destruct (EFI_ERROR st) eqn:Es.
  { apply wp_ret. exists st, ip4, []. by rewrite Es. }
  destruct (Z.eqb_spec (DhcpEnabled c) 0) as [Hd|Hd]; cbn [negb].
  - unfold obind. eapply wp_seq; [by apply ApplyStatic_follows|]. cbn beta. intros r t Hr.
    destruct r; apply wp_ret; exists st, ip4, t; rewrite Es, app_nil_r; by split.
  - apply wp_bind. unfold call_. apply wp_call_bind. intros r. apply wp_ret, wp_ret. exists st, ip4. eexists. split; [reflexivity|].
    rewrite Es. unfold follows, policy_plan. destruct (Z.eqb_spec (DhcpEnabled c) 0); [done|]. done.
Qed.

(** With nothing refused, the settings are the plan. *)
Lemma applied_settings fuel h c t : applied fuel h c (Some tt) t -> existsb refused t = false -> exists ip4, settings t = policy_plan ip4 c.
Proof.
  unfold applied. destruct ((DhcpEnabled c =? 0) && bool_decide (cstr (Ip4Address c) = [])) eqn:E.
  - intros [-> _] _. exists 0. apply andb_true_iff in E as [E1 E2%bool_decide_eq_true]. unfold policy_plan. rewrite E1. cbn [negb].
    unfold text_address at 1. by rewrite E2.
  - intros (st & ip4 & t' & -> & Ht) Hr. cbn [existsb refused] in Hr. apply orb_false_iff in Hr as [Hst Hr]. cbn [fst] in Hst. rewrite Hst in Ht.
    exists ip4. rewrite bool_decide_true in Ht by eauto. rewrite settings_cons. by apply Ht.
Qed.
End policy.

(** A static apply sets exactly what the configuration says, in order.
    When the address and the mask are not both valid (parsable, a mask
    length between 1 and 32, a unicast address) nothing at all is called and the answer is EFI_INVALID_PARAMETER.
    Otherwise the policy is switched first; on success the manual address
    follows, then the gateway if it is a unicast address of that network,
    then the name servers that parse; on failure some call was refused and at
    most policy and address were set.  The wait runs out of fuel only if
    that many polls found the timer not yet expired. *)
Theorem static_applied `{EdkStrings, NetLib} (fuel : nat) (ip4 : Z) (c : NUC_ETH_CONFIG) (tr : list (event eth))
    (r : option EFI_STATUS) (Hex : exec (ApplyStaticConfig fuel ip4 c) tr r) :
  (exists A M, static_valid c A M /\ static_settings fuel ip4 c A M r tr)
  \/ ((forall A M, ~ static_valid c A M) /\ r = Some EFI_INVALID_PARAMETER /\ tr = []).
Proof. exact (proj1 (wp_exec _ _) (ApplyStatic_settings fuel ip4 c) _ _ Hex). Qed.

(** No event outlives a static apply.  The notification's event carries
    the address of a local flag, so it must be gone on return: on every path
    the events polled, armed, registered and closed exist at that moment, the
    notification is withdrawn before its event is closed, and on return no
    event is left open and no notification registered. *)
Theorem static_releases `{EdkStrings, NetLib} (fuel : nat) (ip4 : Z) (c : NUC_ETH_CONFIG) (tr : list (event eth))
    (st : EFI_STATUS) (Hex : exec (ApplyStaticConfig fuel ip4 c) tr (Some st)) :
  monitor events_step no_events tr = Some no_events.
Proof.
  destruct (mon_exec events_step _ _ _ _ _ (ApplyStatic_events fuel ip4 c) Hex) as (m & Hm & Hr). rewrite Hm.
  by rewrite (Hr ltac:(eauto)).
Qed.

(** C31: The stored policy decides what an interface is given.  The variable
    is read once; unreadable or of the wrong size, nothing follows.  With
    DHCP off and no static address the interface is left alone, its protocol
    not even looked up.  Otherwise the settings made are a prefix of the
    plan (DHCP policy alone, or static policy, address, gateway, name
    servers; nothing for an invalid static configuration), and the whole plan
    unless a call was refused or the address was not ready in time. *)
Theorem policy_applied `{EdkStrings, NetLib} (fuel : nat) (h : Z) (tr : list (event eth)) (r : option unit)
    (Hex : exec (ApplyConfig fuel h) tr r) :
  exists answer t, tr = Ev (S := eth) GetEthCfg answer :: t
    /\ match stored_config answer with
       | None => t = [] /\ r = Some tt
       | Some c => applied fuel h c r t
       end.
Proof.
  revert tr r Hex. apply wp_exec. unfold ApplyConfig. apply Read_wp. intros a. destruct (stored_config a) as [c|] eqn:Ec.
  - eapply wp_mono; [|apply Apply_applied]. cbn beta. intros r t Hr. exists a, t. by rewrite Ec.
  - apply wp_ret. exists a, []. by rewrite Ec.
Qed.

Lemma static_applied_witness :
  settings (run_trace eth_host (ApplyStaticConfig 20 108 office) office_nuc)
  = [SetPolicy 108 Ip4Config2PolicyStatic; SetManualAddress 108 [192; 168; 1; 20] [255; 255; 255; 0];
     SetGateway 108 [192; 168; 1; 1]; SetDnsServer 108 [[9; 9; 9; 9]]].
Proof.
  assert (Hex := exec_run eth_host (ApplyStaticConfig 20 108 office) office_nuc).
  assert (Hr : run_val eth_host (ApplyStaticConfig 20 108 office) office_nuc = Some EFI_SUCCESS) by (vm_compute; reflexivity).
  rewrite Hr in Hex.
  destruct (static_applied 20 108 office _ _ Hex) as [(A & M & Hv & Hs)|(_ & [=] & _)].
  destruct Hv as (HA & HM & _).
  assert (HA' : text_address (Ip4Address office) = Some [192; 168; 1; 20]) by (vm_compute; reflexivity).
  assert (HM' : text_address (Ip4SubnetMask office) = Some [255; 255; 255; 0]) by (vm_compute; reflexivity).
  rewrite HA in HA'. rewrite HM in HM'. injection HA' as ->. injection HM' as ->.
  etransitivity; [exact Hs|]. vm_compute. reflexivity.
Defined.

Lemma static_releases_witness :
  monitor events_step no_events (run_trace eth_host (ApplyStaticConfig 20 108 office) office_nuc) = Some no_events.
Proof.
  assert (Hex := exec_run eth_host (ApplyStaticConfig 20 108 office) office_nuc).
  assert (Hr : run_val eth_host (ApplyStaticConfig 20 108 office) office_nuc = Some EFI_SUCCESS) by (vm_compute; reflexivity).
  rewrite Hr in Hex. exact (static_releases 20 108 office _ _ Hex).
Defined.

Lemma policy_applied_witness :
  exists answer t,
    run_trace eth_host (ApplyConfig 20 8) office_nuc = Ev (S := eth) GetEthCfg answer :: t
    /\ match stored_config answer with
       | None => t = [] /\ run_val eth_host (ApplyConfig 20 8) office_nuc = Some tt
       | Some c => applied 20 8 c (run_val eth_host (ApplyConfig 20 8) office_nuc) t
       end
    /\ length (settings t) = 4%nat.
Proof.
  assert (Hex := exec_run eth_host (ApplyConfig 20 8) office_nuc).
  destruct (policy_applied 20 8 _ _ Hex) as (a & t & Ht & Ha). exists a, t. split; [exact Ht|]. split; [exact Ha|].
  assert (Hl : length (settings (run_trace eth_host (ApplyConfig 20 8) office_nuc)) = 4%nat) by (vm_compute; reflexivity).
  rewrite Ht in Hl. exact Hl.
Defined.
