(* ===== verification/EthConfigStore.v ===== *)
(** * The EthCfg variable

    Its layout round trips, and seeding the MAC address changes that field
    alone and settles after one write. *)

From S2P Require Import Prelude Services Uefi EdkStrings EthConfig EthConfigSpec.

(** ** Layout *)

Definition text_field (k : nat) (s : list Z) : Prop := length s = k /\ Forall (is_uint 16) s.

Definition config_wf (c : NUC_ETH_CONFIG) : Prop :=
  is_byte (DhcpEnabled c) /\ text_field 18 (MacAddress c) /\ text_field 16 (Ip4Address c)
  /\ text_field 16 (Ip4SubnetMask c) /\ text_field 16 (Ip4Gateway c) /\ text_field 16 (Ip4Dns1 c)
  /\ text_field 16 (Ip4Dns2 c).

Lemma char16_bytes_cons c s : char16_bytes (c :: s) = c mod 256 :: c / 256 mod 256 :: char16_bytes s.
Proof. done. Qed.

Lemma char16_bytes_length s : length (char16_bytes s) = (2 * length s)%nat.
Proof. induction s as [|c s IH]; [done|]. rewrite char16_bytes_cons. cbn [length]. lia. Qed.

Lemma char16_bytes_bytes s : bytes (char16_bytes s).
Proof.
  induction s as [|c s IH]; [constructor|]. cbn [char16_bytes flat_map]. apply Forall_app. split; [apply le_split_bytes|exact IH].
Qed.

Lemma char16s_bytes s : Forall (is_uint 16) s -> char16s (char16_bytes s) = s.
Proof.
  induction 1 as [|c s Hc _ IH]; [done|]. rewrite char16_bytes_cons. cbn [char16s]. f_equal; [|exact IH].
  pose proof (le_combine_split 2 c Hc) as Hs. cbn in Hs. lia.
Qed.

Lemma char16s_field k b : bytes b -> length b = (2 * k)%nat -> text_field k (char16s b).
Proof.
  revert b. induction k as [|k IH]; intros b Hb Hl; [by destruct b|].
  destruct b as [|lo [|hi b]]; cbn in Hl; try lia. apply Forall_cons in Hb as [H1 Hb]. apply Forall_cons in Hb as [H2 Hb].
  destruct (IH b Hb) as [Hn Hf]; [lia|]. split; [cbn; lia|]. cbn. constructor; [|exact Hf].
  unfold is_byte, is_uint in *. lia.
Qed.

Lemma field_head k s b : text_field k s -> field_at (char16_bytes s ++ b) 0 k = s.
Proof.
  intros [Hl Hs]. unfold field_at. rewrite drop_0, take_app_length' by (rewrite char16_bytes_length; lia). by apply char16s_bytes.
Qed.
Lemma field_skip n s b off k :
  text_field n s -> (2 * n <= off)%nat -> field_at (char16_bytes s ++ b) off k = field_at b (off - 2 * n) k.
Proof.
  intros [Hl _] Ho. unfold field_at. rewrite drop_app, (drop_ge (char16_bytes s)) by (rewrite char16_bytes_length; lia).
  by rewrite char16_bytes_length, Hl.
Qed.
Lemma field_at_wf b off k : bytes b -> (off + 2 * k <= length b)%nat -> text_field k (field_at b off k).
Proof.
  intros Hb Hl. apply char16s_field; [by apply Forall_take, Forall_drop|]. rewrite length_take, length_drop. lia.
Qed.

Lemma encode_length c : config_wf c -> len (encode_config c) = sizeof_config.
Proof.
  intros (_ & Hm & Ha & Hn & Hg & H1 & H2). unfold encode_config, len. cbn [length].
  rewrite !length_app, !char16_bytes_length, (proj1 Hm), (proj1 Ha), (proj1 Hn), (proj1 Hg), (proj1 H1), (proj1 H2). done.
Qed.

Lemma decode_encode c : config_wf c -> decode_config (encode_config c) = c.
Proof.
  intros (_ & Hm & Ha & Hn & Hg & H1 & H2). destruct c as [d m a n g d1 d2]. cbn [MacAddress Ip4Address Ip4SubnetMask Ip4Gateway Ip4Dns1 Ip4Dns2] in *.
  unfold decode_config, encode_config. cbn [DhcpEnabled MacAddress Ip4Address Ip4SubnetMask Ip4Gateway Ip4Dns1 Ip4Dns2 nth].
  assert (Hc : forall x b off k, field_at (x :: b) (S off) k = field_at b off k) by done. rewrite !Hc.
  rewrite <- (app_nil_r (char16_bytes d2)).
  rewrite (field_head 18 m), !(field_skip 18 m) by (done || lia). cbn [Nat.sub Nat.mul Nat.add].
  rewrite (field_head 16 a), !(field_skip 16 a) by (done || lia). cbn [Nat.sub Nat.mul Nat.add].
  rewrite (field_head 16 n), !(field_skip 16 n) by (done || lia). cbn [Nat.sub Nat.mul Nat.add].
  rewrite (field_head 16 g), !(field_skip 16 g) by (done || lia). cbn [Nat.sub Nat.mul Nat.add].
  by rewrite (field_head 16 d1), !(field_skip 16 d1), (field_head 16 d2) by (done || lia).
Qed.

Lemma decode_wf b : bytes b -> len b = sizeof_config -> config_wf (decode_config b).
Proof.
  unfold len. intros Hb Hl. change sizeof_config with 197 in Hl. assert (length b = 197%nat) by lia.
  assert (is_byte (nth 0 b 0)) by (destruct b; [done|]; by apply Forall_cons in Hb as [? _]).
  unfold config_wf, decode_config. cbn [DhcpEnabled MacAddress Ip4Address Ip4SubnetMask Ip4Gateway Ip4Dns1 Ip4Dns2].
  split_and!; [done|apply field_at_wf; [done|lia]..].
Qed.

(** ** Forced termination *)

Lemma terminate_field k s : text_field k s -> text_field k (terminate s).
Proof.
  intros [Hl Hs]. unfold terminate. split; [by rewrite length_insert|]. apply Forall_insert; [done|]. unfold is_uint. lia.
Qed.
Lemma terminate_idem s : terminate (terminate s) = terminate s.
Proof. unfold terminate. by rewrite length_insert, list_insert_insert_eq. Qed.
Lemma terminate_nul s : terminate (s ++ [0]) = s ++ [0].
Proof. unfold terminate. rewrite length_app, Nat.add_1_r. cbn [pred]. by rewrite insert_app_r_alt, Nat.sub_diag. Qed.

Lemma terminate_wf c : config_wf c -> config_wf (terminate_all c).
Proof. unfold config_wf, terminate_all. cbn. intros (? & ? & ? & ? & ? & ? & ?). split_and!; auto using terminate_field. Qed.
Lemma terminate_all_idem c : terminate_all (terminate_all c) = terminate_all c.
Proof. unfold terminate_all. cbn. by rewrite !terminate_idem. Qed.

Lemma stored_encode c : config_wf c -> stored_config (EFI_SUCCESS, encode_config c) = Some (terminate_all c).
Proof.
  intros Hc. unfold stored_config. cbn [fst snd]. rewrite encode_length, Z.eqb_refl, decode_encode by done. done.
Qed.

Lemma stored_wf b c : bytes b -> stored_config (EFI_SUCCESS, b) = Some c -> config_wf c /\ terminate_all c = c.
Proof.
  intros Hb. unfold stored_config. cbn [fst snd]. destruct (Z.eqb_spec (len b) sizeof_config); [|done]. intros [= <-].
  split; [by apply terminate_wf, decode_wf|apply terminate_all_idem].
Qed.

(** ** The MAC text *)

Lemma cstr_take s : cstr s = take (length (cstr s)) s.
Proof. induction s as [|c s IH]; [done|]. cbn. destruct (c =? 0); [done|]. cbn. by f_equal. Qed.

Section mac.
Context `{EdkStrings, NetLib}.

Lemma hex_chars k n : Forall (fun c => 0 < c < 256) (hex k n).
Proof.
  revert n. induction k as [|k IH]; intros n; cbn [hex]; [constructor|]. apply Forall_app. split; [apply IH|].
  constructor; [|constructor]. pose proof (Z.mod_pos_bound n 16 ltac:(lia)). rewrite hex_digit_upper by done. destruct (Z.ltb_spec (n mod 16) 10); lia.
Qed.
Lemma mac_text_length addr : length (mac_text addr) = 17%nat.
Proof. unfold mac_text. cbv zeta. rewrite !length_app, !hex_length. done. Qed.
Lemma mac_text_chars addr : Forall (fun c => 0 < c < 256) (mac_text addr).
Proof.
  assert (Forall (fun c => 0 < c < 256) (lit ":")) by (repeat constructor).
  unfold mac_text. cbv zeta. rewrite !Forall_app. split_and!; auto using hex_chars.
Qed.

(** The field a MAC address is stored as: its text and the NUL. *)
Definition mac_field (addr : list Z) : list Z := mac_text addr ++ [0].

Lemma mac_field_wf addr : text_field 18 (mac_field addr).
Proof.
  split; [unfold mac_field; by rewrite length_app, mac_text_length|]. apply Forall_app. split; [|constructor; [unfold is_uint; cbn; lia|constructor]].
  eapply Forall_impl; [apply mac_text_chars|]. cbn beta. unfold is_uint. intros. cbn. lia.
Qed.
Lemma mac_field_cstr addr : cstr (mac_field addr) = mac_text addr.
Proof. apply cstr_nul. eapply Forall_impl; [apply mac_text_chars|]. cbn beta. lia. Qed.

(** A terminated field whose string is the text holds nothing else. *)
Lemma mac_field_eq s addr :
  text_field 18 s -> terminate s = s -> cstr s = mac_text addr -> s = mac_field addr.
Proof.
  intros [Hl _] Ht Hc. destruct s as [|x s] using rev_ind; [done|]. clear IHs. rewrite length_app in Hl. cbn in Hl.
  unfold terminate in Ht. rewrite length_app, Nat.add_1_r in Ht. cbn [pred] in Ht.
  rewrite insert_app_r_alt, Nat.sub_diag in Ht by done. apply app_inv_head in Ht. injection Ht as <-.
  unfold mac_field. f_equal. pose proof (cstr_take (s ++ [0])) as Hp. rewrite Hc, mac_text_length in Hp.
  rewrite Hp. by rewrite take_app_length' by lia.
Qed.
End mac.

(** ** Seeding *)

(** Services that keep the variable. *)
Definition keeps_variable {W} (env : handler eth W) (var : W -> list Z) : Prop :=
  (forall w, env GetEthCfg w = ((EFI_SUCCESS, var w), w)) /\ (forall d w, var (snd (env (SetEthCfg d) w)) = d).

Section seed.
Context `{EdkStrings, NetLib} {W} (env : handler eth W) (var : W -> list Z) (Hvar : keeps_variable env var).
Context (path : list dp_node) (node : dp_node) (addr : list Z).
Context (Hfind : List.find is_mac_node path = Some node) (Haddr : mapM (mem_get (dp_data node)) (seqZ 0 6) = Some addr).

Lemma seed_run w c :
  stored_config (EFI_SUCCESS, var w) = Some c ->
  let p := SeedMacAddress path in
  let d := encode_config (with_mac c (mac_field addr)) in
  run_val env p w = Some tt
  /\ if bool_decide (mac_text addr = cstr (MacAddress c))
     then run_state env p w = w /\ map (ev_op (S := eth)) (run_trace env p w) = [GetEthCfg]
     else run_state env p w = snd (env (SetEthCfg d) w)
          /\ map (ev_op (S := eth)) (run_trace env p w) = [GetEthCfg; SetEthCfg d].
Proof.
  intros Hc. unfold run_val, run_state, run_trace, SeedMacAddress. rewrite Hfind.
  assert (Hread : run env ReadConfigVariable w = ((Some c, w), [Ev (S := eth) GetEthCfg (EFI_SUCCESS, var w)])).
  { unfold ReadConfigVariable. rewrite run_bind. cbn. rewrite (proj1 Hvar w). cbn. unfold stored_config in Hc. cbn in Hc.
    by rewrite Hc. }
  assert (Hp : UnicodeSPrint (Z.of_nat NUC_ETH_MAC_STR_SIZE) (mac_text addr) = mac_text addr).
  { rewrite UnicodeSPrint_spec by done. apply take_ge. by rewrite mac_text_length. }
  assert (Ht : take NUC_ETH_MAC_STR_SIZE (mac_text addr ++ [0]) = mac_field addr).
  { apply (take_ge (mac_field addr)). by rewrite (proj1 (mac_field_wf addr)). }
  rewrite run_bind, Hread, Haddr. cbv zeta. cbn [fst snd]. rewrite Hp, Ht. by destruct (bool_decide _).
Qed.

Lemma with_mac_wf c : config_wf c -> terminate_all c = c ->
  config_wf (with_mac c (mac_field addr)) /\ terminate_all (with_mac c (mac_field addr)) = with_mac c (mac_field addr).
Proof.
  intros (Hd & _ & Hr) Ht. split; [split; [done|split; [apply mac_field_wf|done]]|].
  destruct c as [d m a n g d1 d2]. unfold terminate_all, with_mac in *.
  cbn [DhcpEnabled MacAddress Ip4Address Ip4SubnetMask Ip4Gateway Ip4Dns1 Ip4Dns2] in *.
  injection Ht as _ -> -> -> -> ->. unfold mac_field. by rewrite terminate_nul.
Qed.

Lemma encode_bytes c : config_wf c -> bytes (encode_config c).
Proof.
  intros [Hd _]. unfold encode_config. constructor; [done|]. rewrite !Forall_app. split_and!; apply char16_bytes_bytes.
Qed.

(** After one seeding the variable is readable and differs in the MAC field
    only. *)
Lemma seed_state w c :
  bytes (var w) -> stored_config (EFI_SUCCESS, var w) = Some c ->
  let w1 := run_state env (SeedMacAddress path) w in
  bytes (var w1) /\ stored_config (EFI_SUCCESS, var w1) = Some (with_mac c (mac_field addr)).
Proof.
  intros Hb Hc. cbv zeta. destruct (stored_wf _ _ Hb Hc) as [Hwf Ht]. destruct (seed_run w c Hc) as [_ Hrun]. revert Hrun.
  destruct (bool_decide_reflect (mac_text addr = cstr (MacAddress c))) as [Heq|Hne]; intros [-> _].
  - split; [done|]. rewrite Hc. f_equal. destruct c as [d m a n g d1 d2]. unfold with_mac, terminate_all in *.
    cbn [DhcpEnabled MacAddress Ip4Address Ip4SubnetMask Ip4Gateway Ip4Dns1 Ip4Dns2] in *.
    destruct Hwf as (_ & Hm & _). injection Ht as Hmt _ _ _ _ _. by rewrite <- (mac_field_eq m addr Hm Hmt (eq_sym Heq)).
  - rewrite (proj2 Hvar). destruct (with_mac_wf c Hwf Ht) as [Hw Htm]. split; [by apply encode_bytes|].
    rewrite stored_encode by done. by rewrite Htm.
Qed.
End seed.

(** C32: Seeding the MAC address keeps the stored policy.  With a readable
    variable, a MAC node of at least six bytes and a SetVariable that stores
    what it is given (the code ignores its status), the variable read
    afterwards is the one read before with the MAC field replaced by the
    address's text (policy and addresses untouched, the layout intact), and
    seeding the same address again only reads: the flash is written when the address
    is new, not at each boot. *)
Theorem mac_seeded `{EdkStrings, NetLib} {W} (env : handler eth W) (var : W -> list Z) (w : W)
    (path : list dp_node) (node : dp_node) (addr : list Z) (c : NUC_ETH_CONFIG)
    (Hvar : keeps_variable env var) (Hfind : List.find is_mac_node path = Some node)
    (Haddr : mapM (mem_get (dp_data node)) (seqZ 0 6) = Some addr)
    (Hb : bytes (var w)) (Hc : stored_config (EFI_SUCCESS, var w) = Some c) :
  let w1 := run_state env (SeedMacAddress path) w in
  run_val env (SeedMacAddress path) w = Some tt
  /\ stored_config (EFI_SUCCESS, var w1) = Some (with_mac c (mac_field addr))
  /\ map (ev_op (S := eth)) (run_trace env (SeedMacAddress path) w1) = [GetEthCfg].
Proof.
  intros w1. split; [by apply (seed_run env var Hvar path node addr Hfind Haddr w c)|].
  destruct (seed_state env var Hvar path node addr Hfind Haddr w c Hb Hc) as [_ Hs]. fold w1 in Hs. split; [done|].
  destruct (seed_run env var Hvar path node addr Hfind Haddr w1 _ Hs) as [_ Hr]. revert Hr. cbn [MacAddress with_mac].
  rewrite mac_field_cstr, bool_decide_true by done. by intros [_ ?].
Qed.

Lemma mac_seeded_witness :
  map (ev_op (S := eth))
    (run_trace eth_host (SeedMacAddress pci_nic) (run_state eth_host (SeedMacAddress pci_nic) office_nuc)) = [GetEthCfg]
  /\ option_map MacAddress (stored_config (EFI_SUCCESS, m_var (run_state eth_host (SeedMacAddress pci_nic) office_nuc)))
     = Some (lit "1C:69:7A:00:00:00" ++ [0]).
Proof.
  destruct (mac_seeded eth_host m_var office_nuc pci_nic (mkNode MESSAGING_DEVICE_PATH MSG_MAC_ADDR_DP (0x1C :: 0x69 :: 0x7A :: repeat 0 30))
              [0x1C; 0x69; 0x7A; 0; 0; 0] (terminate_all (decode_config (encode_config office)))) as (_ & Hs & Ht).
  - split; reflexivity.
  - reflexivity.
  - vm_compute. reflexivity.
  - apply (bool_decide_unpack _). vm_compute. exact I.
  - vm_compute. reflexivity.
  - split; [exact Ht|]. rewrite Hs. vm_compute. reflexivity.
Defined.
