(* ===== verification/EthIface.v ===== *)
(** * The EthernetInterface feature driver

    RedfishEthernetInterfaceDxe/EthernetInterfaceCommon.c and
    EthernetInterfaceDxe.c: the BMC's EthernetInterface resource is consumed
    into the setup questions of EthConfigDxe, and the questions are reported
    back.  The Redfish client library, its HTTP layer, the question database
    and the converter from JSON to C structures are services; JsonLib is an
    interface.

    A function that returns [None] does not return in the code: an ASSERT on
    its path fails, or a NULL pointer is dereferenced. *)

From S2P Require Import Prelude Services Uefi EdkStrings Json JsonLib.

(** ** Data *)

(** A string in pool memory, or lent by the caller; NULL is [null_str]. *)
Record str := mkStr { s_ptr : Z; s_text : list Z }.
Definition null_str : str := mkStr 0 [].

#[global] Instance str_eq_dec : EqDecision str.
Proof. solve_decision. Defined.

(** A REDFISH_RESPONSE that is not all zeros. *)
Record response := mkRsp { rsp_id : Z; rsp_payload : option json }.

(** The part of EFI_REDFISH_ETHERNETINTERFACE_V1_8_0_CS the driver reads.
    Lists are the converter's linked lists; an empty [StaticNameServers] is a
    NULL head. *)
Inductive cs_link := CsJson (JsonText : option (list Z)) | CsOther (ResourceType : Z).

Record ETHERNETINTERFACE_CS := mkCs {
  odata_id : list Z; odata_etag : option (list Z); DHCPv4 : option (option bool);
  IPv4StaticAddresses : list cs_link; StaticNameServers : list (option (list Z)) }.

(** REDFISH_FEATURE_ARRAY_TYPE_CONFIG_LANG_LIST *)
Record lang_list := mkLangs { ll_ptr : Z; ll_items : list (Z * str) }.

(** The members of REDFISH_RESOURCE_COMMON_PRIVATE that change. *)
Record REDFISH_RESOURCE_COMMON_PRIVATE := mkPrivate {
  RedfishService : option Z; JsonStructProtocol : option Z; Event : option Z;
  Uri : str; Payload : option json; PJson : option str }.

(** ** Services *)

Inductive ei_op :=
  (* HTTP *)
  | RedfishHttpGetResource (svc : option Z) (uri : str)
  | RedfishHttpPostResource (svc : option Z) (uri : str) (body : list Z)
  | RedfishHttpPatchResource (svc : option Z) (uri : str) (body : list Z)
  | RedfishHttpFreeResponse (r : option Z)
  | GetHttpResponseLocation (r : option Z)
  | GetHttpResponseEtag (r : option Z)
  | GetPendingSettings (svc : option Z) (payload : option json)
  | SetRedfishSettingsObjectsUri (uri pending : str)
  | SetEtagFromUri (svc : option Z) (uri : str)
  | CheckEtag (uri : str) (header odata : option (list Z))
  (* configure languages and questions *)
  | GetConfigureLang (odata_id tail : list Z)
  | ApplyString (lang value : list Z)
  | ApplyBoolean (lang : list Z) (value : bool)
  | GetPropertyStringValue (tail lang : list Z)
  | GetPropertyBooleanValue (tail lang : list Z)
  | GetUnifiedConfigureLang
  | ResourceSetConfigureLang (langs : list (Z * str))
  | RedfishSetRedfishUri (lang uri : str)
  | RedfishGetConfigLanguage (uri : str)
  | RedfishIdentifyResource (uri : str) (text : list Z)
  (* JSON *)
  | ToStructure (text : list Z)
  | DestroyStructure (p : Z)
  | JsonLoad
  | JsonValueInitObject
  | JsonInit
  | JsonStore
  | JsonDump (v : json)
  | JsonValueFree (p : Z)
  (* memory, events and protocols *)
  | FreePool (p : Z)
  | RedfishCreateService
  | RedfishCleanupService (svc : Z)
  | LocateRestJsonStructure
  | CloseEvent (e : Z)
  | AllocatePrivate
  | InstallProtocols
  | CreateReadyEvent
  | OpenConfigHandler
  | UninstallProtocols.

Definition ei_res (c : ei_op) : Type :=
  match c with
  | RedfishHttpGetResource _ _ | RedfishHttpPostResource _ _ _ | RedfishHttpPatchResource _ _ _ =>
      EFI_STATUS * option response
  | GetHttpResponseLocation _ | GetHttpResponseEtag _ => EFI_STATUS * option str
  | GetPendingSettings _ _ => EFI_STATUS * option response * option str
  | CheckEtag _ _ _ | RedfishIdentifyResource _ _ => bool
  | GetConfigureLang _ _ | GetPropertyStringValue _ _ | RedfishGetConfigLanguage _ => option str
  | GetPropertyBooleanValue _ _ => option (Z * bool)
  | GetUnifiedConfigureLang => EFI_STATUS * lang_list
  | ToStructure _ => EFI_STATUS * (Z * ETHERNETINTERFACE_CS)
  | JsonLoad | JsonValueInitObject | JsonDump _ | RedfishCreateService | AllocatePrivate => option Z
  | JsonInit | JsonStore => bool
  | LocateRestJsonStructure => EFI_STATUS * option Z
  | OpenConfigHandler => EFI_STATUS * bool
  | CreateReadyEvent => Z
  | ApplyString _ _ | ApplyBoolean _ _ | SetRedfishSettingsObjectsUri _ _ | RedfishSetRedfishUri _ _
  | SetEtagFromUri _ _ | InstallProtocols | UninstallProtocols => EFI_STATUS
  | RedfishHttpFreeResponse _ | ResourceSetConfigureLang _ | DestroyStructure _ | JsonValueFree _ | FreePool _
  | RedfishCleanupService _ | CloseEvent _ => unit
  end.

Definition ei : sig := Sig ei_op ei_res.

(** if (p != NULL) FreePool (p) *)
Definition FreeIf (s : option str) : fw ei unit :=
  match s with Some s => call_ (S := ei) (FreePool (s_ptr s)) | None => mret tt end.

(** ** Managed properties *)

Definition ETH_LANG_DHCP_ENABLED : list Z := lit "DHCPv4/DHCPEnabled".
Definition ETH_LANG_ADDRESS : list Z := lit "IPv4StaticAddresses/[1]/Address".
Definition ETH_LANG_SUBNET_MASK : list Z := lit "IPv4StaticAddresses/[1]/SubnetMask".
Definition ETH_LANG_GATEWAY : list Z := lit "IPv4StaticAddresses/[1]/Gateway".
Definition ETH_LANG_DNS1 : list Z := lit "StaticNameServers/[1]".
Definition ETH_LANG_DNS2 : list Z := lit "StaticNameServers/[2]".
Definition ETH_LANG_MAC : list Z := lit "MACAddress".

Section ethiface.
Context `{EdkStrings, JsonLib}.

(** ** Consuming *)

Definition ConsumeStringProperty (OdataId PropertyName : list Z) (Value : option (list Z)) : fw ei unit :=
  ConfigureLang ← call (S := ei) (GetConfigureLang OdataId PropertyName);
  match ConfigureLang with
  | None => mret tt
  | Some ConfigureLang =>
      _ ← call_ (S := ei) (ApplyString (s_text ConfigureLang) (default [] Value));
      call_ (S := ei) (FreePool (s_ptr ConfigureLang))
  end.

Definition JsonObjectAsciiMember (Object : json) (Key : list Z) : option (list Z) :=
  match Object with
  | JObj l => JsonObjectGetValue l Key ≫= JsonValueGetAsciiString
  | _ => None
  end.

(** [JsonLoadString]: NULL when the text does not parse or memory is short. *)
Definition LoadString (text : list Z) : fw ei (option (Z * json)) :=
  match JsonLoadString text with
  | None => mret None
  | Some v => p ← call (S := ei) JsonLoad; mret (option_map (fun p => (p, v)) p)
  end.

Definition ConsumeStaticAddresses (Cs : ETHERNETINTERFACE_CS) : fw ei unit :=
  match IPv4StaticAddresses Cs with
  | [] =>
      _ ← ConsumeStringProperty (odata_id Cs) ETH_LANG_ADDRESS None;
      _ ← ConsumeStringProperty (odata_id Cs) ETH_LANG_SUBNET_MASK None;
      ConsumeStringProperty (odata_id Cs) ETH_LANG_GATEWAY None
  | CsOther _ :: _ => mret tt
  | CsJson None :: _ => mret tt
  | CsJson (Some JsonText) :: _ =>
      Element ← LoadString JsonText;
      match Element with
      | None => mret tt
      | Some (p, Element) =>
          _ ← ConsumeStringProperty (odata_id Cs) ETH_LANG_ADDRESS (JsonObjectAsciiMember Element (lit "Address"));
          _ ← ConsumeStringProperty (odata_id Cs) ETH_LANG_SUBNET_MASK (JsonObjectAsciiMember Element (lit "SubnetMask"));
          _ ← ConsumeStringProperty (odata_id Cs) ETH_LANG_GATEWAY (JsonObjectAsciiMember Element (lit "Gateway"));
          call_ (S := ei) (JsonValueFree p)
      end
  end.

Definition ConsumeDhcp (Cs : ETHERNETINTERFACE_CS) : fw ei unit :=
  match DHCPv4 Cs with
  | Some (Some DHCPEnabled) =>
      ConfigureLang ← call (S := ei) (GetConfigureLang (odata_id Cs) ETH_LANG_DHCP_ENABLED);
      match ConfigureLang with
      | None => mret tt
      | Some ConfigureLang =>
          _ ← call_ (S := ei) (ApplyBoolean (s_text ConfigureLang) DHCPEnabled);
          call_ (S := ei) (FreePool (s_ptr ConfigureLang))
      end
  | _ => mret tt
  end.

Definition ConsumeNameServers (Cs : ETHERNETINTERFACE_CS) : fw ei unit :=
  match StaticNameServers Cs with
  | [] => mret tt
  | NameServer :: Next =>
      _ ← ConsumeStringProperty (odata_id Cs) ETH_LANG_DNS1 NameServer;
      ConsumeStringProperty (odata_id Cs) ETH_LANG_DNS2 (match Next with n :: _ => n | [] => None end)
  end.

(** Json is NULL or empty. *)
Definition is_empty_text (s : option str) : bool :=
  match s with Some s => match s_text s with [] => true | _ => false end | None => true end.

Definition RedfishConsumeResourceCommon (Private : REDFISH_RESOURCE_COMMON_PRIVATE) (Json : option str)
    (HeaderEtag : option (list Z)) : fw ei (option EFI_STATUS) :=
  if is_empty_text Json then mret (Some EFI_INVALID_PARAMETER)
  else match JsonStructProtocol Private with
  | None => mret None
  | Some _ =>
      '(Status, (p, Cs)) ← call (S := ei) (ToStructure (default [] (s_text <$> Json)));
      if EFI_ERROR Status then mret (Some Status)
      else
        same ← call (S := ei) (CheckEtag (Uri Private) HeaderEtag (odata_etag Cs));
        _ ← (if same : bool then mret tt
             else _ ← ConsumeDhcp Cs; _ ← ConsumeStaticAddresses Cs; ConsumeNameServers Cs);
        _ ← call_ (S := ei) (DestroyStructure p);
        mret (Some EFI_SUCCESS)
  end.

(** ** Reporting *)

Definition FetchStringProperty (PropertyName ConfigureLang : list Z) : fw ei (option str) :=
  Value ← call (S := ei) (GetPropertyStringValue PropertyName ConfigureLang);
  match Value with
  | None => mret None
  | Some Value =>
      match s_text Value with
      | [] => _ ← call_ (S := ei) (FreePool (s_ptr Value)); mret None
      | _ => mret (Some Value)
      end
  end.

Abbreviation members := (list (list Z * json)) (only parsing).

(** JsonObjectSetValue replaces a member or adds one; its failure is ignored. *)
Fixpoint set_member (l : members) (k : list Z) (v : json) : members :=
  match l with
  | [] => [(k, v)]
  | (k', v') :: l => if bool_decide (k' = k) then (k, v) :: l else (k', v') :: set_member l k v
  end.
Definition JsonObjectSetValue (l : members) (k : list Z) (v : json) : fw ei members :=
  ok ← call (S := ei) JsonStore; mret (if ok : bool then set_member l k v else l).
Definition JsonArrayAppendValue (l : list json) (v : json) : fw ei (list json) :=
  ok ← call (S := ei) JsonStore; mret (if ok : bool then l ++ [v] else l).

(** With a value made on the spot, which can fail as well. *)
Definition SetNew (l : members) (k : list Z) (v : json) : fw ei members :=
  ok ← call (S := ei) JsonInit; if ok : bool then JsonObjectSetValue l k v else mret l.
Definition AppendNew (l : list json) (v : json) : fw ei (list json) :=
  ok ← call (S := ei) JsonInit; if ok : bool then JsonArrayAppendValue l v else mret l.

(** if (s != NULL) set the member *)
Definition SetIf (l : members) (k : list Z) (s : option str) : fw ei members :=
  match s with Some s => SetNew l k (JStr (s_text s)) | None => mret l end.
Definition AppendIf (l : list json) (s : option str) : fw ei (list json) :=
  match s with Some s => AppendNew l (JStr (s_text s)) | None => mret l end.

Definition payload_identity (ResourceId : option (list Z)) : fw ei members :=
  match ResourceId with
  | None => mret []
  | Some ResourceId =>
      l ← SetNew [] (lit "@odata.type") (JStr (lit "#EthernetInterface.v1_8_0.EthernetInterface"));
      l ← SetNew l (lit "Id") (JStr ResourceId);
      SetNew l (lit "Name") (JStr (lit "Ethernet Interface"))
  end.

(** Each part returns the payload and the new [AnyProperty]. *)
Definition payload_mac (ConfigureLang : list Z) (l : members) : fw ei (members * bool) :=
  Mac ← FetchStringProperty ETH_LANG_MAC ConfigureLang;
  match Mac with
  | None => mret (l, false)
  | Some Mac =>
      l ← SetNew l (lit "MACAddress") (JStr (s_text Mac));
      _ ← call_ (S := ei) (FreePool (s_ptr Mac));
      mret (l, true)
  end.

Definition payload_dhcp (ConfigureLang : list Z) (l : members) (AnyProperty : bool) : fw ei (members * bool) :=
  DhcpEnabled ← call (S := ei) (GetPropertyBooleanValue ETH_LANG_DHCP_ENABLED ConfigureLang);
  match DhcpEnabled with
  | None => mret (l, AnyProperty)
  | Some (p, DhcpEnabled) =>
      Dhcp ← call (S := ei) JsonInit;
      '(l, AnyProperty) ←
        (if Dhcp : bool then
           Dhcp ← SetNew [] (lit "DHCPEnabled") (JBool DhcpEnabled);
           l ← JsonObjectSetValue l (lit "DHCPv4") (JObj Dhcp);
           mret (l, true)
         else mret (l, AnyProperty));
      _ ← call_ (S := ei) (FreePool p);
      mret (l, AnyProperty)
  end.

Definition payload_addresses (ConfigureLang : list Z) (l : members) (AnyProperty : bool) : fw ei (members * bool) :=
  Address ← FetchStringProperty ETH_LANG_ADDRESS ConfigureLang;
  SubnetMask ← FetchStringProperty ETH_LANG_SUBNET_MASK ConfigureLang;
  Gateway ← FetchStringProperty ETH_LANG_GATEWAY ConfigureLang;
  StaticAddresses ← call (S := ei) JsonInit;
  '(l, AnyProperty) ←
    (if StaticAddresses : bool then
       a ← match Address with
           | None => mret []
           | Some Address =>
               AddressEntry ← call (S := ei) JsonInit;
               if AddressEntry : bool then
                 e ← SetNew [] (lit "Address") (JStr (s_text Address));
                 e ← SetIf e (lit "SubnetMask") SubnetMask;
                 e ← SetIf e (lit "Gateway") Gateway;
                 JsonArrayAppendValue [] (JObj e)
               else mret []
           end;
       l ← JsonObjectSetValue l (lit "IPv4StaticAddresses") (JArr a);
       mret (l, true)
     else mret (l, AnyProperty));
  _ ← FreeIf Address;
  _ ← FreeIf SubnetMask;
  _ ← FreeIf Gateway;
  mret (l, AnyProperty).

Definition payload_servers (ConfigureLang : list Z) (l : members) (AnyProperty : bool) : fw ei (members * bool) :=
  Dns1 ← FetchStringProperty ETH_LANG_DNS1 ConfigureLang;
  Dns2 ← FetchStringProperty ETH_LANG_DNS2 ConfigureLang;
  NameServers ← call (S := ei) JsonInit;
  '(l, AnyProperty) ←
    (if NameServers : bool then
       a ← AppendIf [] Dns1;
       a ← AppendIf a Dns2;
       l ← JsonObjectSetValue l (lit "StaticNameServers") (JArr a);
       mret (l, true)
     else mret (l, AnyProperty));
  _ ← FreeIf Dns1;
  _ ← FreeIf Dns2;
  mret (l, AnyProperty).

Definition BuildEthernetInterfacePayload (ConfigureLang : list Z) (ResourceId : option (list Z))
    : fw ei (EFI_STATUS * option str) :=
  p ← call (S := ei) JsonValueInitObject;
  match p with
  | None => mret (EFI_OUT_OF_RESOURCES, None)
  | Some p =>
      l ← payload_identity ResourceId;
      '(l, any) ← payload_mac ConfigureLang l;
      '(l, any) ← payload_dhcp ConfigureLang l any;
      '(l, any) ← payload_addresses ConfigureLang l any;
      '(l, any) ← payload_servers ConfigureLang l any;
      if negb any then _ ← call_ (S := ei) (JsonValueFree p); mret (EFI_NOT_FOUND, None)
      else
        Json ← call (S := ei) (JsonDump (JObj l));
        _ ← call_ (S := ei) (JsonValueFree p);
        match Json with
        | None => mret (EFI_OUT_OF_RESOURCES, None)
        | Some j => mret (EFI_SUCCESS, Some (mkStr j (JsonDumpString (JObj l))))
        end
  end.

(** ** Provisioning *)

Definition resource_id (Instance : Z) : list Z :=
  AsciiSPrint 16 (lit "eth" ++ udec (wrap 32 (if Instance =? 0 then 0 else Instance - 1))).

Definition ProvisioningEthernetInterfaceResource (Private : REDFISH_RESOURCE_COMMON_PRIVATE) (Instance : Z)
    (ConfigureLang : str) : fw ei EFI_STATUS :=
  '(Status, Json) ← BuildEthernetInterfacePayload (s_text ConfigureLang) (Some (resource_id Instance));
  if EFI_ERROR Status then mret Status
  else
    let Json := default null_str Json in
    '(Status, Response) ← call (S := ei) (RedfishHttpPostResource (RedfishService Private) (Uri Private) (s_text Json));
    '(Status, NewResourceLocation) ←
      (if EFI_ERROR Status then mret (Status, None)
       else
         '(Status, NewResourceLocation) ← call (S := ei) (GetHttpResponseLocation (rsp_id <$> Response));
         match NewResourceLocation with
         | Some Location =>
             if EFI_ERROR Status then mret (EFI_DEVICE_ERROR, NewResourceLocation)
             else
               Status ← call (S := ei) (RedfishSetRedfishUri ConfigureLang Location);
               mret (Status, NewResourceLocation)
         | None => mret (EFI_DEVICE_ERROR, None)
         end);
    _ ← FreeIf NewResourceLocation;
    _ ← call_ (S := ei) (RedfishHttpFreeResponse (rsp_id <$> Response));
    _ ← call_ (S := ei) (FreePool (s_ptr Json));
    mret Status.

(** The loop; its status is that of the last instance. *)
Fixpoint provision_all (Private : REDFISH_RESOURCE_COMMON_PRIVATE) (l : list (Z * str)) (Status : EFI_STATUS)
    : fw ei EFI_STATUS :=
  match l with
  | [] => mret Status
  | (Index, ConfigureLang) :: l =>
      Status ← ProvisioningEthernetInterfaceResource Private Index ConfigureLang;
      _ ← call_ (S := ei) (FreePool (s_ptr ConfigureLang));
      provision_all Private l Status
  end.

Definition ProvisioningEthernetInterfaceResources (Private : REDFISH_RESOURCE_COMMON_PRIVATE) : fw ei EFI_STATUS :=
  '(Status, Langs) ← call (S := ei) GetUnifiedConfigureLang;
  if EFI_ERROR Status || (Z.of_nat (length (ll_items Langs)) =? 0) then mret EFI_NOT_FOUND
  else
    _ ← call_ (S := ei) (ResourceSetConfigureLang (ll_items Langs));
    Status ← provision_all Private (ll_items Langs) Status;
    _ ← call_ (S := ei) (FreePool (ll_ptr Langs));
    mret Status.

Definition ProvisioningEthernetInterfaceExistResource (Private : REDFISH_RESOURCE_COMMON_PRIVATE) : fw ei EFI_STATUS :=
  ConfigureLang ← call (S := ei) (RedfishGetConfigLanguage (Uri Private));
  match ConfigureLang with
  | None => mret EFI_NOT_FOUND
  | Some ConfigureLang =>
      '(Status, Json) ← BuildEthernetInterfacePayload (s_text ConfigureLang) None;
      Status ←
        (if EFI_ERROR Status then mret Status
         else
           '(Status, Response) ←
             call (S := ei) (RedfishHttpPatchResource (RedfishService Private) (Uri Private) (default [] (s_text <$> Json)));
           _ ← call_ (S := ei) (RedfishHttpFreeResponse (rsp_id <$> Response));
           mret Status);
      _ ← FreeIf Json;
      _ ← call_ (S := ei) (FreePool (s_ptr ConfigureLang));
      mret Status
  end.

Definition RedfishProvisioningResourceCommon (Private : REDFISH_RESOURCE_COMMON_PRIVATE) (ResourceExist : bool)
    : fw ei EFI_STATUS :=
  if ResourceExist then ProvisioningEthernetInterfaceExistResource Private
  else ProvisioningEthernetInterfaceResources Private.

Definition RedfishCheckResourceCommon (Json : option str) : fw ei EFI_STATUS :=
  if is_empty_text Json then mret EFI_INVALID_PARAMETER
  else
    Resource ← LoadString (default [] (s_text <$> Json));
    match Resource with
    | None => mret EFI_DEVICE_ERROR
    | Some (p, Resource) =>
        let Marker := match Resource with JObj l => JsonObjectGetValue l (lit "DHCPv4") | _ => None end in
        _ ← call_ (S := ei) (JsonValueFree p);
        mret (match Marker with Some _ => EFI_SUCCESS | None => EFI_NOT_FOUND end)
    end.

Definition RedfishUpdateResourceCommon (Private : REDFISH_RESOURCE_COMMON_PRIVATE) : fw ei EFI_STATUS :=
  ProvisioningEthernetInterfaceExistResource Private.

Definition RedfishIdentifyResourceCommon (Private : REDFISH_RESOURCE_COMMON_PRIVATE) (Json : option str)
    : fw ei EFI_STATUS :=
  Supported ← call (S := ei) (RedfishIdentifyResource (Uri Private) (default [] (s_text <$> Json)));
  if negb Supported then mret EFI_UNSUPPORTED
  else
    '(Status, Langs) ← call (S := ei) GetUnifiedConfigureLang;
    if EFI_ERROR Status then mret EFI_UNSUPPORTED
    else match ll_items Langs with
    | [] => mret EFI_UNSUPPORTED
    | (_, ConfigureLang) :: _ =>
        Status ← call (S := ei) (RedfishSetRedfishUri ConfigureLang (Uri Private));
        _ ← (if EFI_ERROR Status then mret tt else call_ (S := ei) (ResourceSetConfigureLang (ll_items Langs)));
        _ ← for_each (ll_items Langs) (fun l => call_ (S := ei) (FreePool (s_ptr (snd l))));
        _ ← call_ (S := ei) (FreePool (ll_ptr Langs));
        mret Status
    end.
End ethiface.
