(* ===== verification/EthIfaceDxe.v ===== *)
(** * The EthernetInterface driver's protocols (EthernetInterfaceDxe.c)

    The resource-config members around the schema logic of EthIface, the
    config handler, and the image's life cycle. *)

From S2P Require Import Prelude Services Uefi EdkStrings Json JsonLib EthIface.

Definition RESOURCE_SCHEMA : list Z := lit "EthernetInterface".
Definition RESOURCE_SCHEMA_MAJOR : list Z := lit "1".
Definition RESOURCE_SCHEMA_MINOR : list Z := lit "8".
Definition RESOURCE_SCHEMA_ERRATA : list Z := lit "0".

(** REDFISH_SCHEMA_INFO *)
Record schema_info := mkSchema { Schema : list Z; Major : list Z; Minor : list Z; Errata : list Z }.

Abbreviation private := REDFISH_RESOURCE_COMMON_PRIVATE (only parsing).

(** Assignments to members of the context. *)
Definition with_request (P : private) (uri : str) (payload : option json) : private :=
  mkPrivate (RedfishService P) (JsonStructProtocol P) (Event P) uri payload (PJson P).
Definition with_json (P : private) (j : option str) : private :=
  mkPrivate (RedfishService P) (JsonStructProtocol P) (Event P) (Uri P) (Payload P) j.
Definition no_payload (P : private) : private :=
  mkPrivate (RedfishService P) (JsonStructProtocol P) (Event P) (Uri P) None (PJson P).
Definition with_service (P : private) (s : option Z) : private :=
  mkPrivate s (JsonStructProtocol P) (Event P) (Uri P) (Payload P) (PJson P).
Definition with_event (P : private) (e : option Z) : private :=
  mkPrivate (RedfishService P) (JsonStructProtocol P) e (Uri P) (Payload P) (PJson P).
Definition with_converter (P : private) (j : option Z) : private :=
  mkPrivate (RedfishService P) j (Event P) (Uri P) (Payload P) (PJson P).

Definition is_null {A} (x : option A) : bool := match x with None => true | Some _ => false end.
Definition empty_uri (u : str) : bool := match s_text u with [] => true | _ => false end.

Section dxe.
Context `{EdkStrings, JsonLib}.

(** JsonDumpString (RedfishJsonInPayload (Payload)), with the two ASSERTs. *)
Definition dump_payload (P : private) : fw ei (option private) :=
  match Payload P with
  | None => mret None
  | Some v =>
      j ← call (S := ei) (JsonDump v);
      match j with
      | None => mret None
      | Some j => mret (Some (with_json P (Some (mkStr j (JsonDumpString v)))))
      end
  end.

(** if (Private->Json != NULL) free it and clear the member. *)
Definition free_json (P : private) : fw ei private :=
  _ ← FreeIf (PJson P); mret (with_json P None).

Abbreviation member := (fw ei (option (EFI_STATUS * private))) (only parsing).

Definition RedfishResourceProvisioningResource (P : private) (uri : str) (PostMode : bool) : member :=
  if empty_uri uri then mret (Some (EFI_INVALID_PARAMETER, P))
  else if is_null (RedfishService P) then mret (Some (EFI_NOT_READY, P))
  else
    '(Status, Response) ← call (S := ei) (RedfishHttpGetResource (RedfishService P) uri);
    if EFI_ERROR Status then mret (Some (Status, P))
    else
      let P := with_request P uri (Response ≫= rsp_payload) in
      if is_null (Payload P) then mret None
      else
        Status ← RedfishProvisioningResourceCommon P (negb PostMode);
        _ ← (if EFI_ERROR Status then mret tt
             else call_ (S := ei) (SetEtagFromUri (RedfishService P) (Uri P)));
        _ ← call_ (S := ei) (RedfishHttpFreeResponse (rsp_id <$> Response));
        mret (Some (Status, no_payload P)).

Definition RedfishResourceConsumeResource (P : private) (uri : str) : member :=
  if empty_uri uri then mret (Some (EFI_INVALID_PARAMETER, P))
  else if is_null (RedfishService P) then mret (Some (EFI_NOT_READY, P))
  else
    '(Status, Response) ← call (S := ei) (RedfishHttpGetResource (RedfishService P) uri);
    if EFI_ERROR Status then mret (Some (Status, P))
    else
      '(Status, PendingSettingResponse, PendingSettingUri) ←
        call (S := ei) (GetPendingSettings (RedfishService P) (Response ≫= rsp_payload));
      '(P, ExpectedResponse) ←
        (if EFI_ERROR Status then mret (with_request P uri (Response ≫= rsp_payload), Response)
         else
           let pending := default null_str PendingSettingUri in
           _ ← call_ (S := ei) (SetRedfishSettingsObjectsUri uri pending);
           mret (with_request P pending (PendingSettingResponse ≫= rsp_payload), PendingSettingResponse));
      P ←? dump_payload P;
      '(_, Etag) ← call (S := ei) (GetHttpResponseEtag (rsp_id <$> ExpectedResponse));
      Status ←? RedfishConsumeResourceCommon P (PJson P) (s_text <$> Etag);
      _ ← call_ (S := ei) (RedfishHttpFreeResponse (rsp_id <$> Response));
      _ ← call_ (S := ei) (RedfishHttpFreeResponse (rsp_id <$> PendingSettingResponse));
      P ← free_json (no_payload P);
      _ ← FreeIf Etag;
      _ ← FreeIf PendingSettingUri;
      mret (Some (Status, P)).

(** AsciiStrCpyS of the four constants, which fit. *)
Definition resource_info : schema_info :=
  mkSchema RESOURCE_SCHEMA RESOURCE_SCHEMA_MAJOR RESOURCE_SCHEMA_MINOR RESOURCE_SCHEMA_ERRATA.

(** The booleans say whether the pointers are non-NULL. *)
Definition RedfishResourceGetInfo (This Info : bool) : EFI_STATUS * option schema_info :=
  if negb This || negb Info then (EFI_INVALID_PARAMETER, None) else (EFI_SUCCESS, Some resource_info).

Definition RedfishResourceUpdate (P : private) (uri : str) : member :=
  if empty_uri uri then mret (Some (EFI_INVALID_PARAMETER, P))
  else if is_null (RedfishService P) then mret (Some (EFI_NOT_READY, P))
  else
    '(Status, Response) ← call (S := ei) (RedfishHttpGetResource (RedfishService P) uri);
    if EFI_ERROR Status then mret (Some (Status, P))
    else
      P ←? dump_payload (with_request P uri (Response ≫= rsp_payload));
      Status ← RedfishUpdateResourceCommon P;
      _ ← (if EFI_ERROR Status then mret tt
           else call_ (S := ei) (SetEtagFromUri (RedfishService P) (Uri P)));
      _ ← call_ (S := ei) (RedfishHttpFreeResponse (rsp_id <$> Response));
      P ← free_json (no_payload P);
      mret (Some (Status, P)).

Definition RedfishResourceCheck (P : private) (uri : str) : member :=
  if empty_uri uri then mret (Some (EFI_INVALID_PARAMETER, P))
  else if is_null (RedfishService P) then mret (Some (EFI_NOT_READY, P))
  else
    '(Status, Response) ← call (S := ei) (RedfishHttpGetResource (RedfishService P) uri);
    if EFI_ERROR Status then mret (Some (Status, P))
    else
      P ←? dump_payload (with_request P uri (Response ≫= rsp_payload));
      '(_, Etag) ← call (S := ei) (GetHttpResponseEtag (rsp_id <$> Response));
      Status ← RedfishCheckResourceCommon (PJson P);
      _ ← FreeIf Etag;
      _ ← call_ (S := ei) (RedfishHttpFreeResponse (rsp_id <$> Response));
      P ← free_json (no_payload P);
      mret (Some (Status, P)).

Definition RedfishResourceIdentify (P : private) (uri : str) : member :=
  if empty_uri uri then mret (Some (EFI_INVALID_PARAMETER, P))
  else if is_null (RedfishService P) then mret (Some (EFI_NOT_READY, P))
  else
    '(Status, Response) ← call (S := ei) (RedfishHttpGetResource (RedfishService P) uri);
    if EFI_ERROR Status then mret (Some (Status, P))
    else
      P ←? dump_payload (with_request P uri (Response ≫= rsp_payload));
      Status ← RedfishIdentifyResourceCommon P (PJson P);
      _ ← call_ (S := ei) (RedfishHttpFreeResponse (rsp_id <$> Response));
      P ← free_json (no_payload P);
      mret (Some (Status, P)).

(** ** The config handler *)

Definition RedfishResourceInit (P : private) : fw ei (EFI_STATUS * private) :=
  s ← call (S := ei) RedfishCreateService;
  mret (if is_null s then EFI_DEVICE_ERROR else EFI_SUCCESS, with_service P s).

Definition RedfishResourceStop (P : private) : fw ei (EFI_STATUS * private) :=
  P ← match Event P with
      | Some e => _ ← call_ (S := ei) (CloseEvent e); mret (with_event P None)
      | None => mret P
      end;
  P ← match RedfishService P with
      | Some s => _ ← call_ (S := ei) (RedfishCleanupService s); mret (with_service P None)
      | None => mret P
      end;
  mret (EFI_SUCCESS, P).

(** ** The image

    [mRedfishResourcePrivate]: the context and its allocation. *)
Abbreviation global := (option (Z * private)) (only parsing).

Definition EfiRestJasonStructureProtocolIsReady (g : global) (Ev : Z) : fw ei global :=
  match g with
  | None => mret None
  | Some (p, P) =>
      if negb (is_null (JsonStructProtocol P)) then mret g
      else
        '(Status, j) ← call (S := ei) LocateRestJsonStructure;
        _ ← call_ (S := ei) (CloseEvent Ev);
        mret (Some (p, with_converter P (if EFI_ERROR Status then None else j)))
  end.

Definition RedfishResourceUnload (g : global) : fw ei (EFI_STATUS * global) :=
  match g with
  | None => mret (EFI_NOT_READY, None)
  | Some (p, P) =>
      '(Status, ConfigHandler) ← call (S := ei) OpenConfigHandler;
      if EFI_ERROR Status || negb ConfigHandler then mret (Status, g)
      else
        _ ← RedfishResourceStop P;
        Status ← call (S := ei) UninstallProtocols;
        _ ← call_ (S := ei) (FreePool p);
        mret (Status, None)
  end.

Definition fresh_private : private := mkPrivate None None None null_str None None.

(** [None] where the copy into a failed allocation faults. *)
Definition RedfishResourceEntryPoint (g : global) : fw ei (option (EFI_STATUS * global)) :=
  match g with
  | Some _ => mret (Some (EFI_ALREADY_STARTED, g))
  | None =>
      p ← call (S := ei) AllocatePrivate;
      match p with
      | None => mret None
      | Some p =>
          Status ← call (S := ei) InstallProtocols;
          _ ← call_ (S := ei) CreateReadyEvent;
          mret (Some (Status, Some (p, fresh_private)))
      end
  end.
End dxe.
