(* ===== verification/EthIfaceResources.v ===== *)
(** * Resources of the EthernetInterface driver

    Pool strings, HTTP responses, JSON values and converted structures: each
    protocol member releases exactly what it was given, and no URI is used
    after its buffer is gone. *)

From S2P Require Import Prelude Services Uefi Pool EdkStrings Json JsonLib EthIface EthIfaceDxe.
From stdpp Require Import gmultiset.
#[local] Open Scope Z_scope.

(** ** What can be held *)

Inductive held := Mem (p : Z) | Rsp (r : Z) | Structure (p : Z) | Value (p : Z).

#[global] Instance held_eq_dec : EqDecision held.
Proof. solve_decision. Defined.
#[global] Instance held_countable : Countable held.
Proof.
  refine (inj_countable' (fun h => match h with Mem p => (0, p) | Rsp p => (1, p) | Structure p => (2, p) | Value p => (3, p) end)
            (fun '(k, p) => if k =? 0 then Mem p else if k =? 1 then Rsp p else if k =? 2 then Structure p else Value p) _).
  by intros [].
Defined.

Abbreviation holding := (gmultiset held) (only parsing).

Definition str_held (s : option str) : option held := (fun s => Mem (s_ptr s)) <$> s.
Definition rsp_held (r : option response) : option held := (fun r => Rsp (rsp_id r)) <$> r.

(** The list and its strings, when there are any. *)
Fixpoint strings_held (m : holding) (l : list (Z * str)) : holding :=
  match l with
  | [] => m
  | i :: l => strings_held m l ⊎ {[+ Mem (s_ptr (snd i)) +]}
  end.
Definition langs_held (m : holding) (l : lang_list) : holding :=
  strings_held (m ⊎ {[+ Mem (ll_ptr l) +]}) (ll_items l).

(** A string may be used while its buffer is live; the caller's URI [lent] is
    live throughout, and NULL is never dereferenced by the services. *)
Definition usable (lent : Z) (m : holding) (u : str) : Prop := s_ptr u = lent \/ u = null_str \/ Mem (s_ptr u) ∈ m.
#[global] Instance usable_dec lent m u : Decision (usable lent m u).
Proof. unfold usable. solve_decision. Defined.

Definition uses (lent : Z) (m : holding) (us : list str) (m' : holding) : option holding :=
  if decide (Forall (usable lent m) us) then Some m' else None.

(** What a call hands out and takes back.  A failed GET hands out nothing;
    the other HTTP calls may fill the response even when they fail. *)
Definition hold_step (lent : Z) (m : holding) (e : event ei) : option holding :=
  match e with
  | Ev c r =>
      match c as c return ei_res c -> option holding with
      | RedfishHttpGetResource _ u => fun r =>
          uses lent m [u] (if EFI_ERROR (fst r) then m else allocates m (rsp_held (snd r)))
      | RedfishHttpPostResource _ u _ => fun r => uses lent m [u] (allocates m (rsp_held (snd r)))
      | RedfishHttpPatchResource _ u _ => fun r => uses lent m [u] (allocates m (rsp_held (snd r)))
      | RedfishHttpFreeResponse q => fun _ => match q with Some q => frees m (Rsp q) | None => Some m end
      | GetHttpResponseLocation _ => fun r => Some (allocates m (str_held (snd r)))
      | GetHttpResponseEtag _ => fun r => Some (allocates m (str_held (snd r)))
      | GetPendingSettings _ _ => fun r =>
          Some (allocates (allocates m (rsp_held (snd (fst r)))) (str_held (snd r)))
      | SetRedfishSettingsObjectsUri u v => fun _ => uses lent m [u; v] m
      | SetEtagFromUri _ u => fun _ => uses lent m [u] m
      | CheckEtag u _ _ => fun _ => uses lent m [u] m
      | GetConfigureLang _ _ => fun r => Some (allocates m (str_held r))
      | GetPropertyStringValue _ _ => fun r => Some (allocates m (str_held r))
      | GetPropertyBooleanValue _ _ => fun r => Some (allocates m ((fun r => Mem (fst r)) <$> r))
      | GetUnifiedConfigureLang => fun r =>
          Some (if EFI_ERROR (fst r) then m else match ll_items (snd r) with [] => m | _ => langs_held m (snd r) end)
      | RedfishSetRedfishUri u v => fun _ => uses lent m [u; v] m
      | RedfishGetConfigLanguage u => fun r => uses lent m [u] (allocates m (str_held r))
      | RedfishIdentifyResource u _ => fun _ => uses lent m [u] m
      | ToStructure _ => fun r => Some (if EFI_ERROR (fst r) then m else m ⊎ {[+ Structure (fst (snd r)) +]})
      | DestroyStructure p => fun _ => frees m (Structure p)
      | JsonLoad => fun r => Some (allocates m (Value <$> r))
      | JsonValueInitObject => fun r => Some (allocates m (Value <$> r))
      | JsonDump _ => fun r => Some (allocates m (Mem <$> r))
      | JsonValueFree p => fun _ => frees m (Value p)
      | FreePool p => fun _ => frees m (Mem p)
      | _ => fun _ => Some m
      end r
  end.

(** ** Steps *)

Lemma uses_ok lent m us m' : Forall (usable lent m) us -> uses lent m us m' = Some m'.
Proof. intros H. unfold uses. by rewrite decide_True. Qed.
Lemma usable_add lent m u x : usable lent m u -> usable lent (m ⊎ {[+ x +]}) u.
Proof. intros [H|[H|H]]; [by left|right; by left|right; right; multiset_solver]. Qed.
Lemma usable_own lent m u : usable lent (m ⊎ {[+ Mem (s_ptr u) +]}) u.
Proof. right. right. multiset_solver. Qed.
Lemma usable_lent lent m u : s_ptr u = lent -> usable lent m u.
Proof. by left. Qed.
Lemma usable_strings lent m u l : usable lent m u -> usable lent (strings_held m l) u.
Proof. intros Hu. induction l; [done|]. by apply usable_add. Qed.
#[export] Hint Resolve usable_add usable_own usable_lent usable_strings : nuc.

Ltac solve_uses := apply uses_ok; repeat (apply Forall_cons; split); try apply Forall_nil; try done; eauto 8 with nuc.

Ltac hold_simpl := cbn [str_held rsp_held fmap option_fmap option_map allocates s_ptr rsp_id fst snd].

(** One call: the state it leads to. *)
Ltac hold_call :=
  match goal with
  | |- exists m', hold_step _ _ _ = Some m' /\ _ =>
      cbn [hold_step fst snd]; eexists; (split; [first [reflexivity | solve_frees | solve_uses]|]);
      hold_simpl
  end.
Ltac hold_step_tac :=
  first
    [ hold_call
    | match goal with
      | H : EFI_ERROR ?x = _ |- context [EFI_ERROR ?x] => rewrite H
      | |- context [EFI_ERROR EFI_SUCCESS] => change (EFI_ERROR EFI_SUCCESS) with false
      | |- mon _ _ (match ?x with [] => _ | _ :: _ => _ end) _ => destruct x eqn:?
      end
    | mon_step ]; cbv beta iota; cbn [fst snd].
Ltac hold_go := repeat hold_step_tac.

Section release.
Context `{EdkStrings, JsonLib} (lent : Z).

(** A function that gives back what it takes. *)
Abbreviation tidy p := (forall m, mon (hold_step lent) m p (fun _ m' => m' = m)).

Lemma FreeIf_mon o m : mon (hold_step lent) (allocates m (str_held o)) (FreeIf o) (fun _ m' => m' = m).
Proof. destruct o; cbn [FreeIf str_held fmap option_fmap option_map allocates]; by hold_go. Qed.

Lemma consume_string_tidy id tail v : tidy (ConsumeStringProperty id tail v).
Proof. intros m. unfold ConsumeStringProperty. hold_step_tac. hold_step_tac. destruct r; hold_go; done. Qed.

Lemma tidy_bind {A B} (p : fw ei A) (q : A -> fw ei B) m (Q : B -> holding -> Prop) :
  tidy p -> (forall a, mon (hold_step lent) m (q a) Q) -> mon (hold_step lent) m (p ≫= q) Q.
Proof. intros Hp Hq. apply mon_bind. eapply mon_mono; [|apply Hp]. cbn beta. by intros a ? ->. Qed.

Lemma LoadString_mon text m (Q : option (Z * json) -> holding -> Prop) :
  Q None m -> (forall p v, Q (Some (p, v)) (m ⊎ {[+ Value p +]})) -> mon (hold_step lent) m (LoadString text) Q.
Proof. intros Hn Hs. unfold LoadString. destruct (JsonLoadString text); [|by apply mon_ret]. hold_step_tac. hold_step_tac. destruct r; hold_go; done. Qed.

Lemma consume_dhcp_tidy c : tidy (ConsumeDhcp c).
Proof.
  intros m. unfold ConsumeDhcp. destruct (DHCPv4 c) as [[b|]|]; [|by apply mon_ret..].
  hold_step_tac. hold_step_tac. destruct r; hold_go; done.
Qed.

Lemma consume_addresses_tidy c : tidy (ConsumeStaticAddresses c).
Proof.
  intros m. unfold ConsumeStaticAddresses. destruct (IPv4StaticAddresses c) as [|[[t|]|k] l]; [| |by apply mon_ret..].
  - apply tidy_bind; [apply consume_string_tidy|]. intros _. apply tidy_bind; [apply consume_string_tidy|]. intros _. apply consume_string_tidy.
  - apply mon_bind, LoadString_mon; [by apply mon_ret|]. intros p v.
    do 3 (apply tidy_bind; [apply consume_string_tidy|]; intros _). by hold_go.
Qed.

Lemma consume_servers_tidy c : tidy (ConsumeNameServers c).
Proof.
  intros m. unfold ConsumeNameServers. destruct (StaticNameServers c); [by apply mon_ret|].
  apply tidy_bind; [apply consume_string_tidy|]. intros _. apply consume_string_tidy.
Qed.

Lemma consume_common_tidy P j etag m :
  usable lent m (Uri P) -> mon (hold_step lent) m (RedfishConsumeResourceCommon P j etag) (fun _ m' => m' = m).
Proof.
  intros Hu. unfold RedfishConsumeResourceCommon. destruct (is_empty_text j); [by apply mon_ret|].
  destruct (JsonStructProtocol P); [|by apply mon_ret]. hold_step_tac. hold_step_tac. destruct r as [st [p c]].
  hold_step_tac. cbv beta iota. destruct (EFI_ERROR st); [by apply mon_ret|].
  hold_step_tac. hold_step_tac. hold_step_tac. apply tidy_bind.
  { clear. intros m. destruct r; [by apply mon_ret|]. apply tidy_bind; [apply consume_dhcp_tidy|]. intros _.
    apply tidy_bind; [apply consume_addresses_tidy|]. intros _. apply consume_servers_tidy. }
  intros _. by hold_go.
Qed.

(** ** The payload *)

Lemma fetch_mon tail lang m :
  mon (hold_step lent) m (FetchStringProperty tail lang) (fun r m' => m' = allocates m (str_held r)).
Proof.
  unfold FetchStringProperty. hold_step_tac. hold_step_tac. destruct r as [v|]; hold_go; done.
Qed.

(** Calls that build JSON values. *)
Definition json_op (c : ei_op) : Prop := match c with JsonInit | JsonStore => True | _ => False end.
Lemma json_only {A} (p : fw ei A) : only (S := ei) json_op p -> tidy p.
Proof. intros Ho m. apply (mon_only (S := ei) _ json_op); [|done|done]. by intros ? [] ? Hc. Qed.

Lemma payload_identity_tidy id : tidy (payload_identity id).
Proof. apply json_only. unfold payload_identity, SetNew, JsonObjectSetValue. only_go. Qed.

Lemma payload_mac_tidy lang l : tidy (payload_mac lang l).
Proof.
  intros m. unfold payload_mac. apply mon_bind. eapply mon_mono; [|apply fetch_mon]. cbn beta. intros [v|] ? ->; [|by apply mon_ret].
  apply tidy_bind; [apply json_only; unfold SetNew, JsonObjectSetValue; only_go|]. intros l'. hold_simpl. by hold_go.
Qed.

Ltac json_tidy := apply json_only; unfold SetIf, AppendIf, SetNew, AppendNew, JsonObjectSetValue, JsonArrayAppendValue; only_go.

Lemma payload_dhcp_tidy lang l any : tidy (payload_dhcp lang l any).
Proof.
  intros m. unfold payload_dhcp. hold_step_tac. hold_step_tac. destruct r as [[p b]|]; hold_step_tac; [|by apply mon_ret].
  apply tidy_bind; [json_tidy|]. intros d. apply tidy_bind; [json_tidy|]. intros [l' any']. by hold_go.
Qed.

Lemma payload_addresses_tidy lang l any : tidy (payload_addresses lang l any).
Proof.
  intros m. unfold payload_addresses. do 3 (apply mon_bind; eapply mon_mono; [|apply fetch_mon]; cbn beta; intros ? ? ->).
  apply tidy_bind; [json_tidy|]. intros d. apply tidy_bind; [json_tidy|]. intros [l' any'].
  destruct a, a0, a1; unfold FreeIf; hold_simpl; hold_go; done.
Qed.

Lemma payload_servers_tidy lang l any : tidy (payload_servers lang l any).
Proof.
  intros m. unfold payload_servers. do 2 (apply mon_bind; eapply mon_mono; [|apply fetch_mon]; cbn beta; intros ? ? ->).
  apply tidy_bind; [json_tidy|]. intros d. apply tidy_bind; [json_tidy|]. intros [l' any'].
  destruct a, a0; unfold FreeIf; hold_simpl; hold_go; done.
Qed.

(** The text is handed to the caller, exactly when there is no error. *)
Lemma payload_mon lang id m :
  mon (hold_step lent) m (BuildEthernetInterfacePayload lang id) (fun r m' =>
    m' = allocates m (str_held (snd r)) /\ (EFI_ERROR (fst r) = true <-> snd r = None)).
Proof.
  unfold BuildEthernetInterfacePayload. hold_step_tac. hold_step_tac. destruct r as [p|]; hold_step_tac; [|by apply mon_ret].
  apply tidy_bind; [apply payload_identity_tidy|]. intros l.
  apply tidy_bind; [apply payload_mac_tidy|]. intros [l1 a1]. apply tidy_bind; [apply payload_dhcp_tidy|]. intros [l2 a2].
  apply tidy_bind; [apply payload_addresses_tidy|]. intros [l3 a3]. apply tidy_bind; [apply payload_servers_tidy|]. intros [l4 a4].
  destruct a4; cbn [negb]; [|by hold_go]. hold_step_tac. hold_step_tac. destruct r as [j|]; hold_go; done.
Qed.

Lemma build_bind {B} lang id m (k : EFI_STATUS * option str -> fw ei B) (Q : B -> holding -> Prop) :
  (forall st, EFI_ERROR st = true -> mon (hold_step lent) m (k (st, None)) Q) ->
  (forall st j, EFI_ERROR st = false -> mon (hold_step lent) (m ⊎ {[+ Mem (s_ptr j) +]}) (k (st, Some j)) Q) ->
  mon (hold_step lent) m (BuildEthernetInterfacePayload lang id ≫= k) Q.
Proof.
  intros Hn Hs. apply mon_bind. eapply mon_mono; [|apply payload_mon]. cbn beta. intros [st [j|]] ? [-> Hj]; cbn [fst snd] in Hj; hold_simpl.
  - apply Hs. destruct (EFI_ERROR st); [|done]. discriminate (proj1 Hj eq_refl).
  - apply Hn. by apply Hj.
Qed.

(** ** Provisioning *)

Lemma provision_one_mon P i lang m :
  usable lent m (Uri P) -> usable lent m lang ->
  mon (hold_step lent) m (ProvisioningEthernetInterfaceResource P i lang) (fun _ m' => m' = m).
Proof.
  intros Hu Hl. unfold ProvisioningEthernetInterfaceResource. apply build_bind; cbv beta iota; intros st; [intros ->; by apply mon_ret|].
  intros j ->. cbv zeta. cbn [default]. hold_step_tac. hold_step_tac. destruct r as [st1 rsp]. hold_step_tac.
  set (m1 := allocates _ _). assert (Hm1 : usable lent m1 lang) by (destruct rsp; cbn; auto with nuc).
  apply mon_bind. eapply (mon_mono _ _ _ (fun r m' => m' = allocates m1 (str_held (snd r)))).
  2:{ destruct (EFI_ERROR st1); [by apply mon_ret|]. hold_step_tac. hold_step_tac. destruct r as [st2 [loc|]]; hold_step_tac;
        [|by apply mon_ret]. destruct (EFI_ERROR st2); [by apply mon_ret|]. by hold_go. }
  intros [st2 loc] ? ->. cbn [snd]. apply mon_bind. eapply mon_mono; [|apply FreeIf_mon]. cbn beta. intros _ ? ->.
  destruct rsp; hold_go; done.
Qed.

Lemma provision_all_mon P l st m :
  usable lent m (Uri P) -> mon (hold_step lent) (strings_held m l) (provision_all P l st) (fun _ m' => m' = m).
Proof.
  intros Hu. revert st. induction l as [|[i lang] l IH]; intros st; cbn [provision_all strings_held snd]; [by apply mon_ret|].
  apply mon_bind. eapply mon_mono; [|apply provision_one_mon; eauto with nuc]. cbn beta. intros st1 ? ->. hold_go. apply IH.
Qed.

Lemma provision_exist_mon P m :
  usable lent m (Uri P) -> mon (hold_step lent) m (ProvisioningEthernetInterfaceExistResource P) (fun _ m' => m' = m).
Proof.
  intros Hu. unfold ProvisioningEthernetInterfaceExistResource. hold_step_tac. hold_step_tac.
  destruct r as [lang|]; hold_step_tac; [|by apply mon_ret].
  apply build_bind; cbv beta iota; intros st; [intros ->|intros j ->]; apply mon_bind.
  - apply mon_ret. unfold FreeIf. by hold_go.
  - hold_step_tac. hold_step_tac. destruct r as [st1 rsp]. hold_step_tac. unfold FreeIf. destruct rsp; hold_go; done.
Qed.

Lemma provision_common_mon P exist m :
  usable lent m (Uri P) -> mon (hold_step lent) m (RedfishProvisioningResourceCommon P exist) (fun _ m' => m' = m).
Proof.
  intros Hu. unfold RedfishProvisioningResourceCommon. destruct exist; [by apply provision_exist_mon|].
  unfold ProvisioningEthernetInterfaceResources. hold_step_tac. hold_step_tac. destruct r as [st [p items]]. hold_step_tac.
  cbn [ll_items]. destruct (EFI_ERROR st); [by apply mon_ret|]. destruct items as [|i items]; [by apply mon_ret|].
  cbn [orb]. unfold langs_held. cbn [ll_items ll_ptr].
  destruct (Z.eqb_spec (Z.of_nat (length (i :: items))) 0) as [E|_]; [cbn in E; lia|].
  hold_step_tac. hold_step_tac. hold_step_tac. apply mon_bind. eapply mon_mono; [|apply provision_all_mon; auto with nuc]. cbn beta.
  intros st1 ? ->. by hold_go.
Qed.

Lemma check_common_tidy j : tidy (RedfishCheckResourceCommon j).
Proof.
  intros m. unfold RedfishCheckResourceCommon. destruct (is_empty_text j); [by apply mon_ret|].
  apply mon_bind, LoadString_mon; [by apply mon_ret|]. intros p v. by hold_go.
Qed.

Lemma free_strings_mon l m :
  mon (hold_step lent) (strings_held m l) (for_each l (fun i => call_ (S := ei) (FreePool (s_ptr (snd i))))) (fun _ m' => m' = m).
Proof. induction l as [|i l IH]; cbn [for_each strings_held]; [by apply mon_ret|]. hold_go. apply IH. Qed.

Lemma identify_common_mon P j m :
  usable lent m (Uri P) -> mon (hold_step lent) m (RedfishIdentifyResourceCommon P j) (fun _ m' => m' = m).
Proof.
  intros Hu. unfold RedfishIdentifyResourceCommon. hold_step_tac. hold_step_tac. hold_step_tac. destruct (negb r); [by apply mon_ret|].
  hold_step_tac. hold_step_tac. destruct r0 as [st [p items]]. hold_step_tac. cbn [ll_items]. destruct (EFI_ERROR st); [by apply mon_ret|].
  destruct items as [|[i lang] items]; [by apply mon_ret|]. unfold langs_held. cbn [ll_items ll_ptr].
  hold_step_tac. hold_step_tac. cbn [strings_held snd]. hold_step_tac. apply tidy_bind; [clear; intros m; by hold_go|]. intros _.
  apply mon_bind. eapply mon_mono; [|apply (free_strings_mon ((i, lang) :: items))]. cbn beta. intros _ ? ->. by hold_go.
Qed.

(** ** The members *)

(** What a member leaves: everything given back, the text of the resource
    dropped, service and converter as they were. *)
Definition settled (P : REDFISH_RESOURCE_COMMON_PRIVATE) (m : holding)
    (r : option (EFI_STATUS * REDFISH_RESOURCE_COMMON_PRIVATE)) (m' : holding) : Prop :=
  forall st P', r = Some (st, P') ->
    m' = m /\ PJson P' = None /\ RedfishService P' = RedfishService P /\ JsonStructProtocol P' = JsonStructProtocol P.

Lemma settled_same P m st : PJson P = None -> settled P m (Some (st, P)) m.
Proof. intros Hj st' P' [= <- <-]. done. Qed.
Lemma settled_none P m m' : settled P m None m'.
Proof. by intros ? ? [=]. Qed.
Hint Resolve settled_same settled_none : nuc.

Lemma dump_mon P m (Q : option REDFISH_RESOURCE_COMMON_PRIVATE -> holding -> Prop) :
  (forall m', Q None m') -> (forall j, Q (Some (with_json P (Some j))) (m ⊎ {[+ Mem (s_ptr j) +]})) ->
  mon (hold_step lent) m (dump_payload P) Q.
Proof.
  intros Hn Hs. unfold dump_payload. destruct (Payload P); [|by apply mon_ret]. hold_step_tac. hold_step_tac.
  destruct r; hold_go; [apply (Hs (mkStr _ _))|apply Hn].
Qed.

(** The beginning all members share: the guards and the GET. *)
Lemma guards_mon P u m (k : EFI_STATUS * option response -> fw ei (option (EFI_STATUS * REDFISH_RESOURCE_COMMON_PRIVATE))) :
  PJson P = None -> s_ptr u = lent ->
  (forall st rsp, EFI_ERROR st = false ->
     mon (hold_step lent) (allocates m (rsp_held rsp)) (k (st, rsp)) (settled P m)) ->
  mon (hold_step lent) m
    (if empty_uri u then mret (Some (EFI_INVALID_PARAMETER, P))
     else if is_null (RedfishService P) then mret (Some (EFI_NOT_READY, P))
     else
       '(Status, Response) ← call (S := ei) (RedfishHttpGetResource (RedfishService P) u);
       if EFI_ERROR Status then mret (Some (Status, P)) else k (Status, Response))
    (settled P m).
Proof.
  intros Hj Hu Hk. destruct (empty_uri u); [apply mon_ret; auto with nuc|]. destruct (is_null _); [apply mon_ret; auto with nuc|].
  hold_step_tac. hold_step_tac. destruct r as [st rsp]. hold_step_tac. destruct (EFI_ERROR st) eqn:E; [apply mon_ret; auto with nuc|].
  by apply Hk.
Qed.

(** The end: the response, then the text. *)
Lemma finish_mon P Q rsp j st m :
  RedfishService Q = RedfishService P -> JsonStructProtocol Q = JsonStructProtocol P -> PJson Q = Some j ->
  mon (hold_step lent) (allocates m (rsp_held rsp) ⊎ {[+ Mem (s_ptr j) +]})
    (_ ← call_ (S := ei) (RedfishHttpFreeResponse (rsp_id <$> rsp));
     Q ← free_json (no_payload Q);
     mret (Some (st, Q)))
    (settled P m).
Proof.
  intros H1 H2 Hj. unfold free_json. cbn [no_payload PJson]. rewrite Hj. unfold FreeIf.
  destruct rsp; hold_go; intros ? ? [= <- <-]; done.
Qed.

Lemma provision_member P u post m :
  PJson P = None -> s_ptr u = lent -> mon (hold_step lent) m (RedfishResourceProvisioningResource P u post) (settled P m).
Proof.
  intros Hj Hu. unfold RedfishResourceProvisioningResource.
  apply (guards_mon P u m (fun '(Status, Response) => _)); [done|done|]. intros st rsp Hst. cbv zeta.
  destruct (is_null (Payload _)); [apply mon_ret; auto with nuc|]. apply mon_bind.
  eapply mon_mono; [|apply provision_common_mon; by left]. cbn beta. intros st1 ? ->.
  apply (mon_bind _ _ _ _ (settled P m)). eapply (mon_mono _ _ _ (fun _ m' => m' = allocates m (rsp_held rsp))).
  2:{ destruct (EFI_ERROR st1); [by apply mon_ret|]. hold_step_tac. hold_step_tac. cbn [Uri with_request]. done. }
  intros _ ? ->. destruct rsp; hold_go; intros ? ? [= <- <-]; done.
Qed.

Lemma update_member P u m :
  PJson P = None -> s_ptr u = lent -> mon (hold_step lent) m (RedfishResourceUpdate P u) (settled P m).
Proof.
  intros Hj Hu. unfold RedfishResourceUpdate.
  apply (guards_mon P u m (fun '(Status, Response) => _)); [done|done|]. intros st rsp Hst.
  mon_step. apply dump_mon; [intros; apply mon_ret; auto with nuc|]. intros j. mon_step.
  eapply mon_mono; [|apply provision_exist_mon; by left]. cbn beta. intros st1 ? ->.
  apply mon_bind. eapply (mon_mono _ _ _ (fun _ m' => m' = _)).
  2:{ destruct (EFI_ERROR st1); [by apply mon_ret|]. hold_step_tac. hold_step_tac. done. }
  intros _ ? ->. by apply finish_mon.
Qed.

Lemma identify_member P u m :
  PJson P = None -> s_ptr u = lent -> mon (hold_step lent) m (RedfishResourceIdentify P u) (settled P m).
Proof.
  intros Hj Hu. unfold RedfishResourceIdentify.
  apply (guards_mon P u m (fun '(Status, Response) => _)); [done|done|]. intros st rsp Hst.
  mon_step. apply dump_mon; [intros; apply mon_ret; auto with nuc|]. intros j. mon_step.
  eapply mon_mono; [|apply identify_common_mon; by left]. cbn beta. intros st1 ? ->. by apply finish_mon.
Qed.

Lemma check_member P u m :
  PJson P = None -> s_ptr u = lent -> mon (hold_step lent) m (RedfishResourceCheck P u) (settled P m).
Proof.
  intros Hj Hu. unfold RedfishResourceCheck.
  apply (guards_mon P u m (fun '(Status, Response) => _)); [done|done|]. intros st rsp Hst.
  mon_step. apply dump_mon; [intros; apply mon_ret; auto with nuc|]. intros j. hold_step_tac. hold_step_tac. destruct r as [st1 etag].
  hold_step_tac. apply tidy_bind; [apply check_common_tidy|]. intros st2. apply mon_bind. eapply mon_mono; [|apply FreeIf_mon].
  cbn beta. intros _ ? ->. by apply finish_mon.
Qed.

Lemma consume_member P u m :
  PJson P = None -> s_ptr u = lent -> mon (hold_step lent) m (RedfishResourceConsumeResource P u) (settled P m).
Proof.
  intros Hj Hu. unfold RedfishResourceConsumeResource.
  apply (guards_mon P u m (fun '(Status, Response) => _)); [done|done|]. intros st rsp Hst.
  hold_step_tac. hold_step_tac. destruct r as [[st1 prsp] puri]. hold_step_tac.
  set (m1 := allocates (allocates (allocates m (rsp_held rsp)) (rsp_held prsp)) (str_held puri)).
  apply mon_bind.
  eapply (mon_mono _ _ _ (fun r m' => m' = m1 /\ usable lent m1 (Uri (fst r)) /\ RedfishService (fst r) = RedfishService P
                                        /\ JsonStructProtocol (fst r) = JsonStructProtocol P)).
  2:{ destruct (EFI_ERROR st1); [apply mon_ret; split_and!; try done; by left|]. cbv zeta.
      assert (Hp : usable lent m1 (default null_str puri)) by (subst m1; destruct puri; cbn; [apply usable_own|right; by left]).
      hold_step_tac. hold_step_tac. hold_step_tac. by apply mon_ret. }
  intros [Q ersp] ? (-> & HQ & Hs & Hc). cbn [fst] in *.
  mon_step. apply dump_mon; [intros; apply mon_ret; auto with nuc|]. intros j. hold_step_tac. hold_step_tac. destruct r as [st2 etag].
  hold_step_tac. mon_step. eapply mon_mono; [|apply consume_common_tidy; destruct etag; cbn; auto with nuc].
  cbn beta. intros [st3|] ? ->; [|apply mon_ret; auto with nuc]. unfold free_json. cbn [no_payload with_json PJson].
  unfold FreeIf. subst m1. destruct rsp, prsp, puri, etag; hold_simpl; hold_go; intros ? ? [= <- <-]; done.
Qed.
End release.

(** ** Requests *)

(** Calls the feature core makes of the resource protocol. *)
Inductive request := Provision (uri : str) (PostMode : bool) | Consume (uri : str) | Update (uri : str) | CheckR (uri : str) | Identify (uri : str).
Definition request_uri (q : request) : str := match q with Provision u _ | Consume u | Update u | CheckR u | Identify u => u end.

Definition serve `{EdkStrings, JsonLib} (P : REDFISH_RESOURCE_COMMON_PRIVATE) (q : request)
    : fw ei (option (EFI_STATUS * REDFISH_RESOURCE_COMMON_PRIVATE)) :=
  match q with
  | Provision u post => RedfishResourceProvisioningResource P u post
  | Consume u => RedfishResourceConsumeResource P u
  | Update u => RedfishResourceUpdate P u
  | CheckR u => RedfishResourceCheck P u
  | Identify u => RedfishResourceIdentify P u
  end.

(** Every request gives back what it was given.  Whatever the BMC, the
    question database and the allocator answer, a request that returns has
    released each HTTP response, pool string, JSON value and converted
    structure exactly once; no URI or configure language is handed to a
    service after its buffer was released, whatever stale pointer the context
    still holds from the pending-settings URI of an earlier request; and the
    context keeps its service and converter and drops the resource's text. *)
Theorem requests_release `{EdkStrings, JsonLib} (P : REDFISH_RESOURCE_COMMON_PRIVATE) (q : request)
    (tr : list (event ei)) (st : EFI_STATUS) (P' : REDFISH_RESOURCE_COMMON_PRIVATE)
    (Hj : PJson P = None) (Hex : exec (serve P q) tr (Some (st, P'))) :
  monitor (hold_step (s_ptr (request_uri q))) ∅ tr = Some ∅
  /\ PJson P' = None /\ RedfishService P' = RedfishService P /\ JsonStructProtocol P' = JsonStructProtocol P.
Proof.
  assert (Hm : mon (hold_step (s_ptr (request_uri q))) ∅ (serve P q) (settled P ∅)).
  { destruct q; cbn [serve request_uri]; [apply provision_member|apply consume_member|apply update_member|apply check_member
      |apply identify_member]; done. }
  destruct (mon_exec _ _ _ _ _ _ Hm Hex) as (m & Ht & Hs). destruct (Hs st P' eq_refl) as (-> & Hrest). by split.
Qed.

(** ** A BMC with pending settings *)

Definition pending_uri : str := mkStr 40 (lit "/redfish/v1/Systems/1/EthernetInterfaces/eth0/Settings").
Definition member_uri : str := mkStr 41 (lit "/redfish/v1/Systems/1/EthernetInterfaces/eth0").
Definition pending_env : handler ei unit := fun c w =>
  match c as c return ei_res c * unit with
  | GetConfigureLang _ t => (Some (mkStr 1 t), w)
  | GetPropertyStringValue t _ => (Some (mkStr 2 t), w)
  | GetPropertyBooleanValue _ _ => (Some (3, true), w)
  | ToStructure _ => ((EFI_SUCCESS, (4, mkCs (lit "/x") None (Some (Some true)) [] [Some (lit "1.1.1.1")])), w)
  | JsonLoad => (Some 5, w)
  | JsonValueInitObject => (Some 6, w)
  | JsonDump _ => (Some 7, w)
  | JsonInit | JsonStore => (true, w)
  | CheckEtag _ _ _ => (false, w)
  | RedfishIdentifyResource _ _ => (true, w)
  | RedfishHttpGetResource _ _ => ((EFI_SUCCESS, Some (mkRsp 8 (Some (JObj [])))), w)
  | RedfishHttpPostResource _ _ _ | RedfishHttpPatchResource _ _ _ => ((EFI_SUCCESS, Some (mkRsp 9 None)), w)
  | GetHttpResponseLocation _ | GetHttpResponseEtag _ => ((EFI_SUCCESS, Some (mkStr 10 (lit "x"))), w)
  | GetPendingSettings _ _ => ((EFI_SUCCESS, Some (mkRsp 17 (Some (JObj []))), Some pending_uri), w)
  | RedfishGetConfigLanguage _ => (Some (mkStr 11 (lit "/EthernetInterfaces/{1}/")), w)
  | GetUnifiedConfigureLang => ((EFI_SUCCESS, mkLangs 12 [(1, mkStr 13 (lit "/EthernetInterfaces/{1}/"))]), w)
  | RedfishCreateService | AllocatePrivate => (Some 14, w)
  | LocateRestJsonStructure => ((EFI_SUCCESS, Some 15), w)
  | OpenConfigHandler => ((EFI_SUCCESS, true), w)
  | CreateReadyEvent => (16, w)
  | ApplyString _ _ | ApplyBoolean _ _ | SetRedfishSettingsObjectsUri _ _ | RedfishSetRedfishUri _ _ | SetEtagFromUri _ _
  | InstallProtocols | UninstallProtocols => (EFI_SUCCESS, w)
  | RedfishHttpFreeResponse _ | ResourceSetConfigureLang _ | DestroyStructure _ | JsonValueFree _ | FreePool _
  | RedfishCleanupService _ | CloseEvent _ => (tt, w)
  end.
Definition served : REDFISH_RESOURCE_COMMON_PRIVATE := mkPrivate (Some 14) (Some 15) None null_str None None.
Definition after_pending : REDFISH_RESOURCE_COMMON_PRIVATE := mkPrivate (Some 14) (Some 15) None pending_uri None None.

(** The settings object is consumed; the context then holds a stale URI, and
    an update after it releases everything as well. *)
Lemma requests_release_witness :
  monitor (hold_step 41) ∅ (run_trace pending_env (serve served (Consume member_uri)) tt) = Some ∅
  /\ monitor (hold_step 41) ∅ (run_trace pending_env (serve after_pending (Update member_uri)) tt) = Some ∅.
Proof.
  assert (H1 : run_val pending_env (serve served (Consume member_uri)) tt = Some (EFI_SUCCESS, after_pending)) by reflexivity.
  assert (H2 : run_val pending_env (serve after_pending (Update member_uri)) tt
               = Some (EFI_SUCCESS, mkPrivate (Some 14) (Some 15) None member_uri None None)) by reflexivity.
  assert (E1 := exec_run pending_env (serve served (Consume member_uri)) tt). rewrite H1 in E1.
  assert (E2 := exec_run pending_env (serve after_pending (Update member_uri)) tt). rewrite H2 in E2.
  split; [exact (proj1 (requests_release served (Consume member_uri) _ _ _ eq_refl E1))
         |exact (proj1 (requests_release after_pending (Update member_uri) _ _ _ eq_refl E2))].
Defined.
