(* ===== verification/EthIfaceErrors.v ===== *)
(** * How the EthernetInterface driver's requests end

    Guards answer without a call, a failed GET is passed on, and a request
    fails to return only for a stated cause. *)

From S2P Require Import Prelude Services Uefi Pool EdkStrings Json JsonLib EthIface EthIfaceDxe EthIfaceResources.

(** A success that carries no resource, or a dump that found no memory: what
    the driver ASSERTs against. *)
Definition starved (e : event ei) : bool :=
  match e with
  | Ev c r =>
      match c as c return ei_res c -> bool with
      | RedfishHttpGetResource _ _ => fun r => negb (EFI_ERROR (fst r)) && is_null (snd r ≫= rsp_payload)
      | GetPendingSettings _ _ => fun r => negb (EFI_ERROR (fst (fst r))) && is_null (snd (fst r) ≫= rsp_payload)
      | JsonDump _ => fun r => is_null r
      | _ => fun _ => false
      end r
  end.

Section errors.
Context `{EdkStrings, JsonLib}.

(** Programs that always return, and programs that return unless starved. *)
Abbreviation returns p := (wp p (fun r _ => is_Some r)).
Abbreviation survives p := (wp p (fun r t => is_Some r \/ existsb starved t = true)).

Lemma returns_bind {A B} (p : fw ei A) (f : A -> fw ei (option B)) : (forall a, returns (f a)) -> returns (p ≫= f).
Proof. intros Hf. eapply wp_seq; [apply wp_true|]. cbn beta. intros a t _. apply Hf. Qed.
Lemma returns_survives {A} (p : fw ei (option A)) : returns p -> survives p.
Proof. apply wp_mono. by left. Qed.
Lemma survives_bind {A B} (p : fw ei A) (f : A -> fw ei (option B)) : (forall a, survives (f a)) -> survives (p ≫= f).
Proof.
  intros Hf. eapply wp_seq; [apply wp_true|]. cbn beta. intros a t _. eapply wp_mono; [|apply Hf]. cbn beta. intros b t' [Hb|Ht]; [by left|right].
  by rewrite existsb_app, Ht, orb_true_r.
Qed.
(** The value is fit for what follows, or the program was starved. *)
Abbreviation yields p Q := (wp p (fun r t => (exists a, r = Some a /\ Q a) \/ existsb starved t = true)).
Lemma yields_obind {A B} (Q : A -> Prop) (p : fw ei (option A)) (f : A -> fw ei (option B)) :
  yields p Q -> (forall a, Q a -> survives (f a)) -> survives (obind p f).
Proof.
  intros Hp Hf. unfold obind. eapply wp_seq; [exact Hp|]. cbn beta. intros r t [(a & -> & Ha)|Ht].
  - eapply wp_mono; [|by apply Hf]. cbn beta. intros b t' [Hb|Ht']; [by left|right]. by rewrite existsb_app, Ht', orb_true_r.
  - eapply wp_mono; [|apply wp_true]. cbn beta. intros b t' _. right. by rewrite existsb_app, Ht.
Qed.
Lemma survives_obind {A B} (p : fw ei (option A)) (f : A -> fw ei (option B)) :
  survives p -> (forall a, survives (f a)) -> survives (obind p f).
Proof.
  intros Hp Hf. apply (yields_obind (fun _ => True)); [|auto]. eapply wp_mono; [|exact Hp]. cbn beta.
  intros r t [[a ->]|Ht]; eauto.
Qed.

Lemma dump_yields P v : Payload P = Some v -> yields (dump_payload P) (fun P' => exists j, P' = with_json P (Some j)).
Proof.
  intros Hv. unfold dump_payload. rewrite Hv. apply wp_call_bind. intros [j|]; apply wp_ret; [left; eauto|by right].
Qed.

(** How a request for [u] ends; [cause] is a further cause of not returning. *)
Definition outcome (P : REDFISH_RESOURCE_COMMON_PRIVATE) (u : str) (cause : Prop)
    (r : option (EFI_STATUS * REDFISH_RESOURCE_COMMON_PRIVATE)) (tr : list (event ei)) : Prop :=
  if empty_uri u then r = Some (EFI_INVALID_PARAMETER, P) /\ tr = []
  else if is_null (RedfishService P) then r = Some (EFI_NOT_READY, P) /\ tr = []
  else exists st rsp t, tr = Ev (S := ei) (RedfishHttpGetResource (RedfishService P) u) (st, rsp) :: t
    /\ if EFI_ERROR st then r = Some (st, P) /\ t = []
       else is_Some r \/ existsb starved tr = true \/ cause.

Lemma guards_outcome P u (cause : Prop) (k : EFI_STATUS * option response -> fw ei (option (EFI_STATUS * REDFISH_RESOURCE_COMMON_PRIVATE))) :
  (forall st rsp, EFI_ERROR st = false -> is_null (rsp ≫= rsp_payload) = false ->
     cause \/ survives (k (st, rsp))) ->
  wp (if empty_uri u then mret (Some (EFI_INVALID_PARAMETER, P))
      else if is_null (RedfishService P) then mret (Some (EFI_NOT_READY, P))
      else
        '(Status, Response) ← call (S := ei) (RedfishHttpGetResource (RedfishService P) u);
        if EFI_ERROR Status then mret (Some (Status, P)) else k (Status, Response))
    (outcome P u cause).
Proof.
  intros Hk. unfold outcome. destruct (empty_uri u); [by apply wp_ret|]. destruct (is_null (RedfishService P)); [by apply wp_ret|].
  apply wp_call_bind. intros [st rsp]. destruct (EFI_ERROR st) eqn:Es.
  { apply wp_ret. exists st, rsp, []. by rewrite Es. }
  destruct (is_null (rsp ≫= rsp_payload)) eqn:Hn.
  - eapply wp_mono; [|apply wp_true]. cbn beta. intros r t _. exists st, rsp, t. split; [done|]. rewrite Es. right. left.
    cbn [existsb starved fst snd]. by rewrite Es, Hn.
  - destruct (Hk st rsp Es Hn) as [Hc|Hs].
    + eapply wp_mono; [|apply wp_true]. cbn beta. intros r t _. exists st, rsp, t. rewrite Es. auto.
    + eapply wp_mono; [|exact Hs]. cbn beta. intros r t Hr. exists st, rsp, t. split; [done|]. rewrite Es.
      destruct Hr as [Hr|Hr]; [by left|right; left]. cbn [existsb]. by rewrite Hr, orb_true_r.
Qed.

Lemma not_null {A} (x : option A) : is_null x = false -> exists v, x = Some v.
Proof. destruct x; [by eexists|done]. Qed.

Lemma survives_event {A} (p : fw ei (option A)) e :
  starved e = true \/ survives p -> wp p (fun r t => is_Some r \/ existsb starved (e :: t) = true).
Proof.
  intros [He|Hp]; [eapply wp_mono; [|apply wp_true]|eapply wp_mono; [|exact Hp]]; cbn beta; intros r t Hr; cbn [existsb].
  - right. by rewrite He.
  - destruct Hr as [Hr|Hr]; [by left|right]. by rewrite Hr, orb_true_r.
Qed.

Ltac surviving := repeat (apply survives_bind; intros ?); apply returns_survives, wp_ret; by eexists.

Lemma consume_survives P j etag : is_Some (JsonStructProtocol P) -> survives (RedfishConsumeResourceCommon P j etag).
Proof.
  intros [c Hc]. unfold RedfishConsumeResourceCommon. destruct (is_empty_text j); [surviving|]. rewrite Hc.
  apply survives_bind. intros [st [p Cs]]. destruct (EFI_ERROR st); surviving.
Qed.

Ltac dumped Hn :=
  destruct (not_null _ Hn) as [? ?]; (eapply yields_obind; [eapply dump_yields; eassumption|]); intros ? [? ->].

Lemma serve_outcome P q :
  wp (serve P q) (outcome P (request_uri q) ((exists u, q = Consume u) /\ JsonStructProtocol P = None)).
Proof.
  destruct q as [u post|u|u|u|u]; cbn [serve request_uri].
  - unfold RedfishResourceProvisioningResource. apply (guards_outcome P u _ (fun '(Status, Response) => _)).
    intros st rsp Hst Hn. right. cbv zeta. cbn [Payload with_request]. rewrite Hn. surviving.
  - unfold RedfishResourceConsumeResource. apply (guards_outcome P u _ (fun '(Status, Response) => _)).
    intros st rsp Hst Hn. destruct (JsonStructProtocol P) as [c|] eqn:Hc; [right|by left; eauto].
    apply wp_call_bind. intros [[st1 prsp] puri]. cbv beta iota. apply survives_event.
    destruct (EFI_ERROR st1) eqn:E1; [right|destruct (is_null (prsp ≫= rsp_payload)) eqn:Hp;
      [left; cbn [starved fst snd]; by rewrite E1, Hp|right]].
    + dumped Hn. apply survives_bind. intros [st2 etag]. apply survives_obind; [apply consume_survives; cbn; by eexists|]. intros st3. surviving.
    + intros r; refine (survives_event _ _ (or_intror _)). dumped Hp. apply survives_bind. intros [st2 etag]. apply survives_obind; [apply consume_survives; cbn; by eexists|]. intros st3. surviving.
  - unfold RedfishResourceUpdate. apply (guards_outcome P u _ (fun '(Status, Response) => _)).
    intros st rsp Hst Hn. right. dumped Hn. surviving.
  - unfold RedfishResourceCheck. apply (guards_outcome P u _ (fun '(Status, Response) => _)).
    intros st rsp Hst Hn. right. dumped Hn. apply survives_bind. intros [st2 etag]. surviving.
  - unfold RedfishResourceIdentify. apply (guards_outcome P u _ (fun '(Status, Response) => _)).
    intros st rsp Hst Hn. right. dumped Hn. surviving.
Qed.

(** C19: How a request ends.  An empty URI is refused as an invalid parameter
    and a request before Init or after Stop as not ready, both without a
    call and without touching the context; otherwise the first call is the
    GET of that URI, and when it fails its status is returned unchanged and
    nothing else is called.  After a GET that succeeds the member returns,
    except where the code ASSERTs or dereferences NULL: a success that
    carried no resource, a JSON dump that found no memory, and a
    consume while the JSON converter has not been located. *)
Theorem request_outcomes (P : REDFISH_RESOURCE_COMMON_PRIVATE) (q : request) (tr : list (event ei))
    (r : option (EFI_STATUS * REDFISH_RESOURCE_COMMON_PRIVATE)) (Hex : exec (serve P q) tr r) :
  outcome P (request_uri q) ((exists u, q = Consume u) /\ JsonStructProtocol P = None) r tr.
Proof. exact (proj1 (wp_exec _ _) (serve_outcome P q) _ _ Hex). Qed.
End errors.

(** A consume before the converter is there; the same GET serves a check. *)
Definition unconverted : REDFISH_RESOURCE_COMMON_PRIVATE := mkPrivate (Some 14) None None null_str None None.
Lemma request_outcomes_witness :
  outcome unconverted member_uri ((exists u, CheckR member_uri = Consume u) /\ JsonStructProtocol unconverted = None)
    (run_val pending_env (serve unconverted (CheckR member_uri)) tt) (run_trace pending_env (serve unconverted (CheckR member_uri)) tt)
  /\ is_Some (run_val pending_env (serve unconverted (CheckR member_uri)) tt)
  /\ run_val pending_env (serve unconverted (Consume member_uri)) tt = None.
Proof.
  split; [|split; [vm_compute; by eexists|by vm_compute]].
  exact (request_outcomes unconverted (CheckR member_uri) _ _ (exec_run pending_env (serve unconverted (CheckR member_uri)) tt)).
Defined.
