(* ===== verification/EthIfaceSpec.v ===== *)
(** * What consuming and reporting mean

    The setup questions as an abstract store; consuming the BMC's resource and
    reporting it are shown to be an update and a reading of that store, and
    to settle after one exchange. *)

From S2P Require Import Prelude Services Uefi EdkStrings Json JsonLib EthIface.
From stdpp Require Import gmap.
#[local] Open Scope Z_scope.

(** ** The questions *)

Inductive property := PMac | PAddress | PMask | PGateway | PDns1 | PDns2.

#[global] Instance property_eq_dec : EqDecision property.
Proof. solve_decision. Defined.
#[global] Instance property_countable : Countable property.
Proof.
  refine (inj_countable' (fun p => match p with PMac => 0 | PAddress => 1 | PMask => 2 | PGateway => 3 | PDns1 => 4 | PDns2 => 5 end)
    (fun n => if n =? 0 then PMac else if n =? 1 then PAddress else if n =? 2 then PMask else if n =? 3 then PGateway
              else if n =? 4 then PDns1 else PDns2) _).
  by intros [].
Defined.

Definition property_tail (p : property) : list Z :=
  match p with
  | PMac => ETH_LANG_MAC | PAddress => ETH_LANG_ADDRESS | PMask => ETH_LANG_SUBNET_MASK
  | PGateway => ETH_LANG_GATEWAY | PDns1 => ETH_LANG_DNS1 | PDns2 => ETH_LANG_DNS2
  end.

(** Published questions and their values. *)
Record questions := mkQ { q_dhcp : option bool; q_str : gmap property (list Z) }.

Definition set_str (q : questions) (p : property) (v : list Z) : questions :=
  mkQ (q_dhcp q) (alter (fun _ => v) p (q_str q)).
Definition set_dhcp (q : questions) (b : bool) : questions :=
  mkQ (match q_dhcp q with Some _ => Some b | None => None end) (q_str q).

(** The question database behind the services, for the resource [id] whose
    instance configure language is [base]: a question's language is [base]
    followed by the property's tail, settings change the one question they
    name, and everything else leaves the questions alone.  Texts that [fits]
    rejects may be refused or cut; the rest is stored.  Memory suffices. *)
Class QuestionDb {W} (H : handler ei W) (db : W -> questions) (id base : list Z) (fits : list Z -> Prop) := {
  fits_nothing : fits [];
  lang_published p w v : q_str (db w) !! p = Some v ->
    exists a, fst (H (GetConfigureLang id (property_tail p)) w) = Some (mkStr a (base ++ property_tail p));
  lang_absent p w : q_str (db w) !! p = None -> fst (H (GetConfigureLang id (property_tail p)) w) = None;
  lang_dhcp w b : q_dhcp (db w) = Some b ->
    exists a, fst (H (GetConfigureLang id ETH_LANG_DHCP_ENABLED) w) = Some (mkStr a (base ++ ETH_LANG_DHCP_ENABLED));
  lang_dhcp_absent w : q_dhcp (db w) = None -> fst (H (GetConfigureLang id ETH_LANG_DHCP_ENABLED) w) = None;
  apply_string p v w : fits v -> db (snd (H (ApplyString (base ++ property_tail p) v) w)) = set_str (db w) p v;
  apply_boolean b w : db (snd (H (ApplyBoolean (base ++ ETH_LANG_DHCP_ENABLED) b) w)) = set_dhcp (db w) b;
  get_string p w : exists a, fst (H (GetPropertyStringValue (property_tail p) base) w) = mkStr a <$> q_str (db w) !! p;
  get_boolean w : exists a, fst (H (GetPropertyBooleanValue ETH_LANG_DHCP_ENABLED base) w) = pair a <$> q_dhcp (db w);
  others_keep c w : match c with ApplyString _ _ | ApplyBoolean _ _ => True | _ => db (snd (H c w)) = db w end;
  json_memory w : fst (H JsonInit w) = true /\ fst (H JsonStore w) = true;
  object_memory w : is_Some (fst (H JsonValueInitObject w)) /\ is_Some (fst (H JsonLoad w))
    /\ forall v, is_Some (fst (H (JsonDump v) w))
}.

(** ** What consuming does to the questions *)

Section consumed.
Context `{JsonLib}.

Definition consumed_dhcp (Cs : ETHERNETINTERFACE_CS) (q : questions) : questions :=
  match DHCPv4 Cs with Some (Some b) => set_dhcp q b | _ => q end.
(** The texts a resource sets, in order.  Absent members and members that are
    not strings clear their question. *)
Definition address_settings (Cs : ETHERNETINTERFACE_CS) : list (property * list Z) :=
  match IPv4StaticAddresses Cs with
  | [] => [(PAddress, []); (PMask, []); (PGateway, [])]
  | CsJson (Some t) :: _ =>
      match JsonLoadString t with
      | Some e =>
          let get k := default [] (JsonObjectAsciiMember e (lit k)) in
          [(PAddress, get "Address"); (PMask, get "SubnetMask"); (PGateway, get "Gateway")]
      | None => []
      end
  | _ => []
  end.
Definition server_settings (Cs : ETHERNETINTERFACE_CS) : list (property * list Z) :=
  match StaticNameServers Cs with
  | [] => []
  | [n] => [(PDns1, default [] n); (PDns2, [])]
  | n :: n' :: _ => [(PDns1, default [] n); (PDns2, default [] n')]
  end.
Definition set_all (l : list (property * list Z)) (q : questions) : questions :=
  foldl (fun q s => set_str q (fst s) (snd s)) q l.
Definition consumed_addresses (Cs : ETHERNETINTERFACE_CS) : questions -> questions := set_all (address_settings Cs).
Definition consumed_servers (Cs : ETHERNETINTERFACE_CS) : questions -> questions := set_all (server_settings Cs).
Definition consumed (Cs : ETHERNETINTERFACE_CS) (q : questions) : questions :=
  consumed_servers Cs (consumed_addresses Cs (consumed_dhcp Cs q)).
End consumed.

(** ** What is reported *)

Definition set_value (q : questions) (p : property) : option (list Z) :=
  match q_str q !! p with Some [] => None | v => v end.

Definition text_member (k : string) (v : option (list Z)) : list (list Z * json) :=
  match v with Some v => [(lit k, JStr v)] | None => [] end.
Definition reported_addresses (q : questions) : list json :=
  match set_value q PAddress with
  | Some a => [JObj ((lit "Address", JStr a) :: text_member "SubnetMask" (set_value q PMask)
                     ++ text_member "Gateway" (set_value q PGateway))]
  | None => []
  end.
Definition reported_servers (q : questions) : list (list Z) := omap (set_value q) [PDns1; PDns2].

Definition identity (id : option (list Z)) : list (list Z * json) :=
  match id with
  | Some id => [(lit "@odata.type", JStr (lit "#EthernetInterface.v1_8_0.EthernetInterface")); (lit "Id", JStr id);
                (lit "Name", JStr (lit "Ethernet Interface"))]
  | None => []
  end.
Definition reported (id : option (list Z)) (q : questions) : list (list Z * json) :=
  identity id ++ text_member "MACAddress" (set_value q PMac)
  ++ match q_dhcp q with Some b => [(lit "DHCPv4", JObj [(lit "DHCPEnabled", JBool b)])] | None => [] end
  ++ [(lit "IPv4StaticAddresses", JArr (reported_addresses q)); (lit "StaticNameServers", JArr (map JStr (reported_servers q)))].

Section refine.
Context `{EdkStrings, JsonLib} {W : Type} (env : handler ei W) (db : W -> questions) (oid base : list Z) (fits : list Z -> Prop)
  `{!QuestionDb env db oid base fits}.

Definition keeps (c : ei_op) : Prop := match c with ApplyString _ _ | ApplyBoolean _ _ => False | _ => True end.

Lemma rwp_keep c w (Q : ei_res c -> W -> Prop) :
  keeps c -> (forall w', db w' = db w -> Q (fst (env c w)) w') -> rwp env (call (S := ei) c) w Q.
Proof. intros Hc HQ. apply rwp_call, HQ. pose proof (others_keep c w) as Hk. by destruct c. Qed.
Lemma rwp_keep_ c w (Q : unit -> W -> Prop) :
  keeps c -> (forall w', db w' = db w -> Q tt w') -> rwp env (call_ (S := ei) c) w Q.
Proof. intros Hc HQ. apply rwp_call_, HQ. pose proof (others_keep c w) as Hk. by destruct c. Qed.

(** One call that leaves the questions alone. *)
Ltac kept :=
  match goal with |- rwp _ (mbind _ (call ?c)) _ _ => apply rwp_bind, (rwp_keep c); [exact I|] end.
Ltac kept_ :=
  match goal with
  | |- rwp _ (mbind _ (call_ ?c)) _ _ => apply rwp_bind, (rwp_keep_ c); [exact I|]
  | |- rwp _ (call_ ?c) _ _ => apply (rwp_keep_ c); [exact I|]
  end.

Lemma rwp_FreeIf o w (Q : unit -> W -> Prop) : (forall w', db w' = db w -> Q tt w') -> rwp env (FreeIf o) w Q.
Proof. intros HQ. destruct o; [unfold FreeIf; by kept_|]. by apply rwp_ret, HQ. Qed.

Lemma consume_string p v w :
  fits (default [] v) -> rwp env (ConsumeStringProperty oid (property_tail p) v) w (fun _ w' => db w' = set_str (db w) p (default [] v)).
Proof.
  intros Hf. unfold ConsumeStringProperty. kept. intros w1 H1.
  destruct (q_str (db w) !! p) as [old|] eqn:E.
  - destruct (lang_published p w old E) as [a ->]. apply rwp_bind, rwp_call_. cbn [s_text]. kept_. intros w2 ->. by rewrite (apply_string p _ _ Hf), H1.
  - rewrite (lang_absent p w E). apply rwp_ret. rewrite H1. destruct (db w) as [d s]. unfold set_str. cbn in *. f_equal.
    symmetry. apply map_eq. intros i. destruct (decide (i = p)) as [->|Hne]; [by rewrite lookup_alter_eq, E|by rewrite lookup_alter_ne].
Qed.

Lemma consume_dhcp Cs w :
  odata_id Cs = oid -> rwp env (ConsumeDhcp Cs) w (fun _ w' => db w' = consumed_dhcp Cs (db w)).
Proof.
  intros Hid. unfold ConsumeDhcp, consumed_dhcp. destruct (DHCPv4 Cs) as [[b|]|]; [|by apply rwp_ret..]. rewrite Hid.
  kept. intros w1 H1. destruct (q_dhcp (db w)) as [old|] eqn:E.
  - destruct (lang_dhcp w old E) as [a ->]. apply rwp_bind, rwp_call_. cbn [s_text]. kept_. intros w2 ->. by rewrite apply_boolean, H1.
  - rewrite (lang_dhcp_absent w E). apply rwp_ret. rewrite H1. unfold set_dhcp. destruct (db w). cbn in *. by rewrite E.
Qed.

Lemma load_string text w (Q : option (Z * json) -> W -> Prop) :
  (forall p w', db w' = db w -> Q (option_map (pair p) (JsonLoadString text)) w') -> rwp env (LoadString text) w Q.
Proof.
  intros HQ. unfold LoadString. destruct (JsonLoadString text) as [v|]; [|apply rwp_ret; by apply (HQ 0)].
  kept. intros w1 H1. destruct (object_memory w) as (_ & [p Hp] & _).
  apply rwp_ret. rewrite Hp. by apply HQ.
Qed.

Ltac consume1 p := eapply rwp_mono; [|apply (consume_string p); first [apply fits_nothing | done]]; cbn beta; intros _ ? ?.
Abbreviation fitting l := (Forall (fun s : property * list Z => fits (snd s)) l).

Lemma consume_addresses Cs w :
  odata_id Cs = oid -> fitting (address_settings Cs) -> rwp env (ConsumeStaticAddresses Cs) w (fun _ w' => db w' = consumed_addresses Cs (db w)).
Proof.
  intros Hid. unfold ConsumeStaticAddresses, consumed_addresses, address_settings. rewrite Hid.
  destruct (IPv4StaticAddresses Cs) as [|[[t|]|k] l]; [| |by intros _; apply rwp_ret..].
  - intros _. apply rwp_bind. consume1 PAddress. apply rwp_bind. consume1 PMask. consume1 PGateway.
    cbn [default from_option set_all foldl fst snd] in *. congruence.
  - intros Hf. apply rwp_bind, load_string. intros p w1 H1. destruct (JsonLoadString t) as [e|]; cbn [option_map]; [|by apply rwp_ret].
    cbv zeta in Hf. rewrite !Forall_cons in Hf. destruct Hf as (Hf1 & Hf2 & Hf3 & _). cbn [snd] in *. apply rwp_bind. consume1 PAddress. apply rwp_bind. consume1 PMask. apply rwp_bind. consume1 PGateway. kept_. intros.
    cbn [set_all foldl fst snd]. congruence.
Qed.

Lemma consume_servers Cs w :
  odata_id Cs = oid -> fitting (server_settings Cs) -> rwp env (ConsumeNameServers Cs) w (fun _ w' => db w' = consumed_servers Cs (db w)).
Proof.
  intros Hid. unfold ConsumeNameServers, consumed_servers, server_settings. rewrite Hid.
  destruct (StaticNameServers Cs) as [|n [|n' l]]; [by intros _; apply rwp_ret|..]; rewrite !Forall_cons; intros (Hf1 & Hf2 & _);
    cbn [snd] in *; (apply rwp_bind; consume1 PDns1; consume1 PDns2; cbn [default from_option set_all foldl fst snd] in *; congruence).
Qed.

Lemma consume_common P j etag w p Cs (same : bool) :
  is_empty_text (Some j) = false -> is_Some (JsonStructProtocol P) -> odata_id Cs = oid ->
  fitting (address_settings Cs) -> fitting (server_settings Cs) ->
  (forall w, fst (env (ToStructure (s_text j)) w) = (EFI_SUCCESS, (p, Cs))) ->
  (forall w, fst (env (CheckEtag (Uri P) etag (odata_etag Cs)) w) = same) ->
  rwp env (RedfishConsumeResourceCommon P (Some j) etag) w
    (fun r w' => r = Some EFI_SUCCESS /\ db w' = if same then db w else consumed Cs (db w)).
Proof.
  intros Hj [cv Hcv] Hid Hfa Hfs Hto Hetag. unfold RedfishConsumeResourceCommon. rewrite Hj, Hcv. cbn [fmap option_fmap option_map default].
  kept. intros w1 H1. cbn [id]. rewrite Hto. change (EFI_ERROR EFI_SUCCESS) with false. cbv iota.
  kept. intros w2 H2. rewrite Hetag. apply rwp_bind. destruct same.
  - apply rwp_ret. kept_. intros w3 H3. apply rwp_ret. split; [done|congruence].
  - apply rwp_bind. eapply rwp_mono; [|by apply consume_dhcp]. cbn beta. intros _ w3 H3.
    apply rwp_bind. eapply rwp_mono; [|by apply consume_addresses]. cbn beta. intros _ w4 H4.
    eapply rwp_mono; [|by apply consume_servers]. cbn beta. intros _ w5 H5. kept_. intros w6 H6. apply rwp_ret.
    split; [done|]. unfold consumed. congruence.
Qed.

(** ** Reporting reads the questions *)

Lemma fetch p w :
  rwp env (FetchStringProperty (property_tail p) base) w (fun r w' => db w' = db w /\ s_text <$> r = set_value (db w) p).
Proof.
  unfold FetchStringProperty. kept. intros w1 H1. destruct (get_string p w) as [a ->]. unfold set_value.
  destruct (q_str (db w) !! p) as [[|c v]|]; cbn [fmap option_fmap option_map s_text].
  - kept_. intros w2 H2. apply rwp_ret. split; [congruence|done].
  - by apply rwp_ret.
  - by apply rwp_ret.
Qed.

Lemma set_new l k v w (Q : list (list Z * json) -> W -> Prop) :
  (forall w', db w' = db w -> Q (set_member l k v) w') -> rwp env (SetNew l k v) w Q.
Proof.
  intros HQ. unfold SetNew, JsonObjectSetValue. kept. intros w1 H1. rewrite (proj1 (json_memory w)). kept. intros w2 H2.
  rewrite (proj2 (json_memory w1)). apply rwp_ret, HQ. congruence.
Qed.
Lemma set_value_of l k v w (Q : list (list Z * json) -> W -> Prop) :
  (forall w', db w' = db w -> Q (set_member l k v) w') -> rwp env (JsonObjectSetValue l k v) w Q.
Proof.
  intros HQ. unfold JsonObjectSetValue. kept. intros w2 H2. rewrite (proj2 (json_memory w)). by apply rwp_ret, HQ.
Qed.
Lemma append_new l v w (Q : list json -> W -> Prop) :
  (forall w', db w' = db w -> Q (l ++ [v]) w') -> rwp env (AppendNew l v) w Q.
Proof.
  intros HQ. unfold AppendNew, JsonArrayAppendValue. kept. intros w1 H1. rewrite (proj1 (json_memory w)). kept. intros w2 H2.
  rewrite (proj2 (json_memory w1)). apply rwp_ret, HQ. congruence.
Qed.

(** A key not yet used is added at the end. *)
Abbreviation fresh k l := (Forall (fun m : list Z * json => fst m <> k) l).
Lemma set_member_new l k v : fresh k l -> set_member l k v = l ++ [(k, v)].
Proof. induction 1 as [|[k' v'] l Hk _ IH]; [done|]. cbn in *. by rewrite bool_decide_false, IH. Qed.

Lemma payload_identity_run rid w (Q : list (list Z * json) -> W -> Prop) :
  (forall w', db w' = db w -> Q (identity rid) w') -> rwp env (payload_identity rid) w Q.
Proof.
  intros HQ. unfold payload_identity. destruct rid as [rid|]; [|by apply rwp_ret, HQ].
  apply rwp_bind, set_new. intros w1 H1. apply rwp_bind, set_new. intros w2 H2. apply set_new. intros w3 H3.
  apply HQ. congruence.
Qed.

Lemma payload_mac_run l w (Q : list (list Z * json) * bool -> W -> Prop) :
  fresh (lit "MACAddress") l ->
  (forall w' any, db w' = db w -> Q (l ++ text_member "MACAddress" (set_value (db w) PMac), any) w') ->
  rwp env (payload_mac base l) w Q.
Proof.
  intros Hf HQ. unfold payload_mac. apply rwp_bind. eapply rwp_mono; [|apply (fetch PMac)]. cbn beta. intros r w1 [H1 Hr].
  rewrite <- Hr in HQ. destruct r as [s|]; cbn [fmap option_fmap option_map text_member] in HQ.
  - apply rwp_bind, set_new. intros w2 H2. kept_. intros w3 H3. apply rwp_ret. rewrite set_member_new by done. apply HQ. congruence.
  - apply rwp_ret. rewrite app_nil_r in HQ. by apply HQ.
Qed.

Lemma payload_dhcp_run l any w (Q : list (list Z * json) * bool -> W -> Prop) :
  fresh (lit "DHCPv4") l ->
  (forall w' any', db w' = db w ->
     Q (l ++ match q_dhcp (db w) with Some b => [(lit "DHCPv4", JObj [(lit "DHCPEnabled", JBool b)])] | None => [] end, any') w') ->
  rwp env (payload_dhcp base l any) w Q.
Proof.
  intros Hf HQ. unfold payload_dhcp. kept. intros w1 H1. destruct (get_boolean w) as [a ->].
  destruct (q_dhcp (db w)) as [b|]; cbn [fmap option_fmap option_map].
  - kept. intros w2 H2. rewrite (proj1 (json_memory w1)). apply rwp_bind, rwp_bind, set_new. intros w3 H3.
    apply rwp_bind, set_value_of. intros w4 H4. apply rwp_ret. kept_. intros w5 H5. apply rwp_ret.
    rewrite set_member_new by done. apply HQ. congruence.
  - apply rwp_ret. rewrite app_nil_r in HQ. by apply HQ.
Qed.

Lemma set_if l k r w (Q : list (list Z * json) -> W -> Prop) :
  fresh (lit k) l -> (forall w', db w' = db w -> Q (l ++ text_member k (s_text <$> r)) w') -> rwp env (SetIf l (lit k) r) w Q.
Proof.
  intros Hf HQ. destruct r as [v|]; cbn [SetIf fmap option_fmap option_map text_member] in *.
  - apply set_new. intros w1 H1. rewrite set_member_new by done. by apply HQ.
  - apply rwp_ret. rewrite app_nil_r in HQ. by apply HQ.
Qed.
Lemma append_if l r w (Q : list json -> W -> Prop) :
  (forall w', db w' = db w -> Q (l ++ match s_text <$> r with Some v => [JStr v] | None => [] end) w') ->
  rwp env (AppendIf l r) w Q.
Proof.
  intros HQ. destruct r as [v|]; cbn [AppendIf fmap option_fmap option_map] in *.
  - by apply append_new.
  - apply rwp_ret. rewrite app_nil_r in HQ. by apply HQ.
Qed.

Lemma payload_addresses_run l any w (Q : list (list Z * json) * bool -> W -> Prop) :
  fresh (lit "IPv4StaticAddresses") l ->
  (forall w', db w' = db w -> Q (l ++ [(lit "IPv4StaticAddresses", JArr (reported_addresses (db w)))], true) w') ->
  rwp env (payload_addresses base l any) w Q.
Proof.
  intros Hf HQ. unfold payload_addresses.
  apply rwp_bind. eapply rwp_mono; [|apply (fetch PAddress)]. cbn beta. intros ra w1 [H1 Ha].
  apply rwp_bind. eapply rwp_mono; [|apply (fetch PMask)]. cbn beta. intros rm w2 [H2 Hm].
  apply rwp_bind. eapply rwp_mono; [|apply (fetch PGateway)]. cbn beta. intros rg w3 [H3 Hg].
  assert (Hdb : db w2 = db w /\ db w3 = db w) by (split; congruence). destruct Hdb as [Hw2 Hw3].
  rewrite H1 in Hm. rewrite Hw2 in Hg. kept. intros w4 H4. rewrite (proj1 (json_memory w3)).
  apply rwp_bind, rwp_bind. eapply (rwp_mono _ _ _ (fun a w' => db w' = db w /\ a = reported_addresses (db w))).
  2:{ unfold reported_addresses. rewrite <- Ha, <- Hm, <- Hg. destruct ra as [va|]; cbn [fmap option_fmap option_map].
      - kept. intros w5 H5. rewrite (proj1 (json_memory w4)). apply rwp_bind, set_new. intros w6 H6.
        apply rwp_bind, set_if; [by repeat constructor|]. intros w7 H7. apply rwp_bind, set_if.
        { apply Forall_app. split; [by repeat constructor|]. destruct rm; by repeat constructor. }
        intros w8 H8. unfold JsonArrayAppendValue. kept. intros w9 H9. rewrite (proj2 (json_memory w8)). apply rwp_ret.
        split; [congruence|done].
      - apply rwp_ret. split; [congruence|done]. }
  intros a w5 [H5 ->]. apply rwp_bind, set_value_of. intros w6 H6. apply rwp_ret.
  do 3 (apply rwp_bind, rwp_FreeIf; intros ? ?). apply rwp_ret. rewrite set_member_new by done. apply HQ. congruence.
Qed.

Lemma payload_servers_run l any w (Q : list (list Z * json) * bool -> W -> Prop) :
  fresh (lit "StaticNameServers") l ->
  (forall w', db w' = db w -> Q (l ++ [(lit "StaticNameServers", JArr (map JStr (reported_servers (db w))))], true) w') ->
  rwp env (payload_servers base l any) w Q.
Proof.
  intros Hf HQ. unfold payload_servers.
  apply rwp_bind. eapply rwp_mono; [|apply (fetch PDns1)]. cbn beta. intros r1 w1 [H1 Hr1].
  apply rwp_bind. eapply rwp_mono; [|apply (fetch PDns2)]. cbn beta. intros r2 w2 [H2 Hr2]. rewrite H1 in Hr2.
  kept. intros w3 H3. rewrite (proj1 (json_memory w2)). apply rwp_bind, rwp_bind, append_if. intros w4 H4.
  apply rwp_bind, append_if. intros w5 H5. apply rwp_bind, set_value_of. intros w6 H6. apply rwp_ret.
  do 2 (apply rwp_bind, rwp_FreeIf; intros ? ?). apply rwp_ret. rewrite set_member_new by done.
  assert (Hl : ([] ++ match s_text <$> r1 with Some v => [JStr v] | None => [] end) ++ match s_text <$> r2 with Some v => [JStr v] | None => [] end
               = map JStr (reported_servers (db w))).
  { unfold reported_servers. cbn [omap list_omap]. rewrite <- Hr1, <- Hr2. by destruct r1, r2. }
  rewrite Hl. apply HQ. congruence.
Qed.

Ltac solve_fresh :=
  rewrite ?Forall_app; repeat match goal with |- _ /\ _ => split end;
  try match goal with
  | |- Forall _ (identity ?r) => destruct r
  | |- Forall _ (text_member _ ?v) => destruct v
  | |- Forall _ (match ?v with Some _ => _ | None => _ end) => destruct v
  end; by repeat constructor.

Lemma build_run rid w :
  rwp env (BuildEthernetInterfacePayload base rid) w (fun r w' => db w' = db w
    /\ exists a, r = (EFI_SUCCESS, Some (mkStr a (JsonDumpString (JObj (reported rid (db w))))))).
Proof.
  unfold BuildEthernetInterfacePayload. kept. intros w1 H1. destruct (object_memory w) as ([p ->] & _ & _).
  apply rwp_bind, payload_identity_run. intros w2 H2.
  apply rwp_bind, payload_mac_run; [solve_fresh|]. intros w3 any3 H3.
  apply rwp_bind, payload_dhcp_run; [solve_fresh|]. intros w4 any4 H4.
  apply rwp_bind, payload_addresses_run; [solve_fresh|]. intros w5 H5.
  apply rwp_bind, payload_servers_run; [solve_fresh|]. intros w6 H6. cbn [negb]. kept. intros w7 H7. kept_. intros w8 H8.
  destruct (object_memory w6) as (_ & _ & Hd). destruct (Hd (JObj (reported rid (db w)))) as [a Ha].
  replace (db w5) with (db w) by congruence. replace (db w4) with (db w) by congruence.
  replace (db w3) with (db w) by congruence. replace (db w2) with (db w) by congruence.
  assert (Hl : forall (a b c : list (list Z * json)) x y, (((a ++ b) ++ c) ++ [x]) ++ [y] = a ++ b ++ c ++ [x; y])
    by (intros; by rewrite <- !(assoc_L (++))).
  rewrite Hl. fold (reported rid (db w)). rewrite Ha. apply rwp_ret. split; [congruence|]. by exists a.
Qed.
End refine.

(** ** Reported and consumed again *)

(** The text in every question is printable ASCII. *)
Definition text_ok (s : list Z) : Prop := Forall (fun c => 0x20 <= c < 0x80) s.
Definition questions_ok (q : questions) : Prop := map_Forall (fun _ v => text_ok v) (q_str q).

Section settle.
Context `{JsonLib}.

(** How the converter presents an object: arrays of objects as JSON texts,
    arrays of strings as strings. *)
Record converts (l : list (list Z * json)) (Cs : ETHERNETINTERFACE_CS) : Prop := {
  conv_dhcp : DHCPv4 Cs =
    match JsonObjectGetValue l (lit "DHCPv4") with
    | Some (JObj d) => Some (match JsonObjectGetValue d (lit "DHCPEnabled") with Some (JBool b) => Some b | _ => None end)
    | _ => None
    end;
  conv_addresses : IPv4StaticAddresses Cs =
    match JsonObjectGetValue l (lit "IPv4StaticAddresses") with
    | Some (JArr es) => map (fun e => CsJson (Some (JsonDumpString e))) es
    | _ => []
    end;
  conv_servers : StaticNameServers Cs =
    match JsonObjectGetValue l (lit "StaticNameServers") with
    | Some (JArr ns) => map (fun n => match n with JStr s => Some s | _ => None end) ns
    | _ => []
    end
}.

(** A mask or gateway without an address is dropped; a lone second name
    server moves up. *)
Definition normal_addresses (q : questions) : questions :=
  match set_value q PAddress with
  | Some _ => q
  | None => set_str (set_str (set_str q PAddress []) PMask []) PGateway []
  end.
Definition normal_servers (q : questions) : questions :=
  match set_value q PDns1, set_value q PDns2 with
  | None, Some y => set_str (set_str q PDns1 y) PDns2 []
  | _, _ => q
  end.
Definition normalise (q : questions) : questions := normal_servers (normal_addresses q).

Lemma questions_eq q q' : q_dhcp q = q_dhcp q' -> (forall p, q_str q !! p = q_str q' !! p) -> q = q'.
Proof. destruct q, q'. cbn. intros -> Hs. f_equal. by apply map_eq. Qed.

Lemma lookup_set_str q p v p' :
  q_str (set_str q p v) !! p' = if decide (p' = p) then (fun _ => v) <$> q_str q !! p else q_str q !! p'.
Proof.
  unfold set_str. cbn [q_str]. destruct (decide (p' = p)) as [->|Hne]; [by rewrite lookup_alter_eq|by rewrite lookup_alter_ne].
Qed.

Lemma set_str_same q p : set_str q p (default [] (set_value q p)) = q.
Proof.
  apply questions_eq; [done|]. intros p'. rewrite lookup_set_str. destruct (decide (p' = p)) as [->|]; [|done].
  unfold set_value. by destruct (q_str q !! p) as [[]|].
Qed.
Lemma set_str_none q p : set_value q p = None -> set_str q p [] = q.
Proof. intros Hn. pose proof (set_str_same q p) as Hs. by rewrite Hn in Hs. Qed.

Lemma set_value_set q p v p' : p' <> p -> set_value (set_str q p v) p' = set_value q p'.
Proof. intros Hne. unfold set_value. by rewrite lookup_set_str, decide_False. Qed.
Lemma set_value_clear q p : set_value (set_str q p []) p = None.
Proof. unfold set_value. rewrite lookup_set_str, decide_True by done. by destruct (q_str q !! p). Qed.

Lemma normal_addresses_idem q : normal_addresses (normal_addresses q) = normal_addresses q.
Proof.
  unfold normal_addresses at 2 3. destruct (set_value q PAddress) as [a|] eqn:E; [unfold normal_addresses; by rewrite E|].
  set (q' := set_str _ _ _). unfold normal_addresses.
  assert (Hg : set_value q' PGateway = None) by apply set_value_clear.
  assert (Hm : set_value q' PMask = None) by (subst q'; rewrite set_value_set by done; apply set_value_clear).
  assert (Ha : set_value q' PAddress = None) by (subst q'; rewrite !set_value_set by done; apply set_value_clear).
  rewrite Ha. rewrite (set_str_none q' PAddress), (set_str_none q' PMask), (set_str_none q' PGateway) by done. done.
Qed.

Lemma normal_servers_idem q : normal_servers (normal_servers q) = normal_servers q.
Proof.
  unfold normal_servers at 2 3. destruct (set_value q PDns1) as [x|] eqn:E1; [unfold normal_servers; by rewrite E1|].
  destruct (set_value q PDns2) as [y|] eqn:E2; [|unfold normal_servers; by rewrite E1, E2].
  unfold normal_servers. rewrite set_value_clear. by case_match.
Qed.

Lemma servers_keep_address q p : p <> PDns1 -> p <> PDns2 -> set_value (normal_servers q) p = set_value q p.
Proof.
  intros H1 H2. unfold normal_servers. destruct (set_value q PDns1), (set_value q PDns2); try done. by rewrite !set_value_set.
Qed.
Lemma normal_comm q : normal_addresses (normal_servers q) = normal_servers (normal_addresses q).
Proof.
  unfold normal_addresses. rewrite servers_keep_address by done. destruct (set_value q PAddress); [done|].
  unfold normal_servers. rewrite !set_value_set by done. destruct (set_value q PDns1), (set_value q PDns2); try done.
  apply questions_eq; [done|]. intros p. rewrite !lookup_set_str. by destruct p.
Qed.
Lemma normalise_idem q : normalise (normalise q) = normalise q.
Proof. unfold normalise. by rewrite normal_comm, normal_addresses_idem, normal_servers_idem. Qed.

(** ** Reading the report *)

Lemma get_value l k v : NoDup (map fst l) -> (k, v) ∈ l -> JsonObjectGetValue l k = Some v.
Proof. apply JsonObjectGetValue_unique. Qed.
Lemma get_absent l k : k ∉ map fst l -> JsonObjectGetValue l k = None.
Proof.
  intros Hk. destruct (JsonObjectGetValue l k) as [v|] eqn:E; [|done]. destruct Hk. apply JsonObjectGetValue_in in E.
  apply (list_elem_of_fmap_2 fst) in E. exact E.
Qed.

Lemma text_ascii v : text_ok v -> JsonValueGetAsciiString (JStr v) = Some v.
Proof. intros Hv. apply JsonValueGetAsciiString_ascii. eapply Forall_impl; [exact Hv|]. cbn beta. lia. Qed.

Lemma value_ok q p v : questions_ok q -> set_value q p = Some v -> text_ok v.
Proof.
  intros Hq. unfold set_value. destruct (q_str q !! p) as [[|c t]|] eqn:E; [done| |done]. intros [= <-]. exact (Hq p _ E).
Qed.

Lemma reported_keys rid q : NoDup (map fst (reported rid q)).
Proof.
  apply (bool_decide_unpack _). unfold reported. destruct rid, (set_value q PMac), (q_dhcp q); vm_compute; exact I.
Qed.

(** Reading one member of the reported address. *)
Lemma address_member q a k p :
  questions_ok q -> set_value q PAddress = Some a ->
  (k, p) ∈ [(lit "Address", PAddress); (lit "SubnetMask", PMask); (lit "Gateway", PGateway)] ->
  JsonObjectAsciiMember (JObj ((lit "Address", JStr a) :: text_member "SubnetMask" (set_value q PMask)
                              ++ text_member "Gateway" (set_value q PGateway))) k = set_value q p.
Proof.
  intros Hq Ha Hin. cbn [JsonObjectAsciiMember].
  set (l := (lit "Address", JStr a) :: text_member "SubnetMask" (set_value q PMask) ++ text_member "Gateway" (set_value q PGateway)).
  assert (Hnd : NoDup (map fst l)).
  { subst l. apply (bool_decide_unpack _). destruct (set_value q PMask), (set_value q PGateway); vm_compute; exact I. }
  assert (Hget : forall v, set_value q p = Some v -> (k, JStr v) ∈ l -> JsonObjectGetValue l k ≫= JsonValueGetAsciiString = Some v).
  { intros v Hv Hkv. rewrite (get_value l k _ Hnd Hkv). cbn. by apply text_ascii, (value_ok q p). }
  destruct (set_value q p) as [v|] eqn:Hv.
  - apply Hget; [done|]. subst l. rewrite !elem_of_cons, elem_of_app in *.
    destruct Hin as [[= -> ->]|[[= -> ->]|[[= -> ->]|?%not_elem_of_nil]]]; [left; congruence|right; left|right; right|done];
      rewrite Hv; left.
  - rewrite get_absent; [done|]. rewrite !elem_of_cons in Hin. subst l. clear Hnd Hget.
    destruct Hin as [[= -> ->]|[[= -> ->]|[[= -> ->]|?%not_elem_of_nil]]]; [congruence| | |done]; rewrite Hv;
      apply (bool_decide_unpack _); [destruct (set_value q PGateway)|destruct (set_value q PMask)]; vm_compute; exact I.
Qed.

Lemma text_plain v : text_ok v -> Forall (fun c => 0x20 <= c) v.
Proof. intros Hv. eapply Forall_impl; [exact Hv|]. cbn beta. lia. Qed.

Lemma json_ok_app (a b : list (list Z * json)) : json_ok (JObj (a ++ b)) <-> json_ok (JObj a) /\ json_ok (JObj b).
Proof.
  induction a as [|m a IH]; [cbn; tauto|]. cbn [json_ok foldr app] in *. tauto.
Qed.
Lemma member_ok k v : bool_decide (Forall (fun c => 0x20 <= c) (lit k)) = true -> (forall t, v = Some t -> text_ok t) ->
  json_ok (JObj (text_member k v)).
Proof.
  intros Hk Hv. apply bool_decide_eq_true in Hk. destruct v as [t|]; cbn; [|done]. split; [|done]. split; [done|].
  by apply text_plain, Hv.
Qed.

Lemma address_ok q a :
  questions_ok q -> set_value q PAddress = Some a ->
  json_ok (JObj ((lit "Address", JStr a) :: text_member "SubnetMask" (set_value q PMask)
                 ++ text_member "Gateway" (set_value q PGateway))).
Proof.
  intros Hq Ha. change ((lit "Address", JStr a) :: ?l) with (text_member "Address" (Some a) ++ l). rewrite <- Ha.
  rewrite !json_ok_app. split; [|split]; (apply member_ok; [reflexivity|]; intros t; by apply value_ok).
Qed.

Lemma reported_ok rid q :
  questions_ok q -> (forall r, rid = Some r -> text_ok r) -> json_ok (JObj (reported rid q)).
Proof.
  intros Hq Hr. unfold reported. rewrite !json_ok_app. split_and!.
  - destruct rid as [r|]; [|done]. cbn [identity json_ok foldr fst snd].
    split_and!; try done; first [by apply text_plain, Hr | apply (bool_decide_unpack _); vm_compute; exact I].
  - apply member_ok; [reflexivity|]. intros t. by apply value_ok.
  - destruct (q_dhcp q); [|done]. cbn [json_ok foldr fst snd]. split_and!; try done; apply (bool_decide_unpack _); vm_compute; exact I.
  - change [(lit "IPv4StaticAddresses", ?a); ?b] with ([(lit "IPv4StaticAddresses", a)] ++ [b]). rewrite json_ok_app.
    assert (Hk : forall k v, bool_decide (Forall (fun c => 0x20 <= c) (lit k)) = true -> json_ok v -> json_ok (JObj [(lit k, v)])).
    { intros k v Hk Hv. split; [|done]. split; [by apply bool_decide_eq_true in Hk|done]. }
    split; (apply Hk; [reflexivity|]).
    + unfold reported_addresses. destruct (set_value q PAddress) as [x|] eqn:E; [|done]. split; [|done]. by apply address_ok.
    + unfold reported_servers. cbn [omap list_omap].
      destruct (set_value q PDns1) eqn:E1, (set_value q PDns2) eqn:E2; cbn; repeat split; by eapply text_plain, value_ok.
Qed.

Lemma reported_member rid q k v : (k, v) ∈ reported rid q -> JsonObjectGetValue (reported rid q) k = Some v.
Proof. apply get_value, reported_keys. Qed.

Lemma settle_dhcp rid q Cs : converts (reported rid q) Cs -> consumed_dhcp Cs q = q.
Proof.
  intros [Hd _ _]. unfold consumed_dhcp. rewrite Hd. destruct (q_dhcp q) as [b|] eqn:E.
  - rewrite (reported_member rid q (lit "DHCPv4") (JObj [(lit "DHCPEnabled", JBool b)])).
    2:{ unfold reported. rewrite E, !elem_of_app. right. right. left. left. }
    rewrite (get_value _ _ (JBool b)); [|apply NoDup_singleton|left].
    unfold set_dhcp. rewrite E. destruct q. cbn in *. by rewrite E.
  - rewrite get_absent; [done|]. apply (bool_decide_unpack _). unfold reported. rewrite E.
    destruct rid, (set_value q PMac); vm_compute; exact I.
Qed.

(** The settings a reported resource makes again. *)
Lemma settle_address_settings rid q Cs :
  questions_ok q -> converts (reported rid q) Cs ->
  address_settings Cs =
    match set_value q PAddress with
    | Some a => map (fun p => (p, default [] (set_value q p))) [PAddress; PMask; PGateway]
    | None => [(PAddress, []); (PMask, []); (PGateway, [])]
    end.
Proof.
  intros Hq [_ Ha _]. unfold address_settings. rewrite Ha.
  rewrite (reported_member rid q (lit "IPv4StaticAddresses") (JArr (reported_addresses q))).
  2:{ unfold reported. rewrite !elem_of_app. do 3 right. left. }
  unfold reported_addresses. destruct (set_value q PAddress) as [a|] eqn:E; cbn [map]; [|done].
  rewrite JsonLoadDump by by apply address_ok. cbv zeta.
  by rewrite (address_member q a (lit "Address") PAddress), (address_member q a (lit "SubnetMask") PMask),
    (address_member q a (lit "Gateway") PGateway), E by (done || (rewrite !elem_of_cons; tauto)).
Qed.
Lemma settle_server_settings rid q Cs :
  converts (reported rid q) Cs ->
  server_settings Cs =
    match set_value q PDns1, set_value q PDns2 with
    | None, None => []
    | Some x, y => [(PDns1, x); (PDns2, default [] y)]
    | None, Some y => [(PDns1, y); (PDns2, [])]
    end.
Proof.
  intros [_ _ Hs]. unfold server_settings. rewrite Hs.
  rewrite (reported_member rid q (lit "StaticNameServers") (JArr (map JStr (reported_servers q)))).
  2:{ unfold reported. rewrite !elem_of_app. do 3 right. right. left. }
  unfold reported_servers. cbn [omap list_omap]. by destruct (set_value q PDns1), (set_value q PDns2).
Qed.

Lemma settle_addresses rid q Cs :
  questions_ok q -> converts (reported rid q) Cs -> consumed_addresses Cs q = normal_addresses q.
Proof.
  intros Hq Hc. unfold consumed_addresses, normal_addresses. rewrite (settle_address_settings rid q) by done.
  destruct (set_value q PAddress) as [a|] eqn:E; [|done]. cbn [map set_all foldl fst snd]. by rewrite !set_str_same.
Qed.

Lemma settle_servers rid q q' Cs :
  questions_ok q -> converts (reported rid q) Cs -> (forall p, p = PDns1 \/ p = PDns2 -> set_value q' p = set_value q p) ->
  consumed_servers Cs q' = normal_servers q'.
Proof.
  intros Hq Hc Hsame. unfold consumed_servers, normal_servers. rewrite (settle_server_settings rid q) by done.
  pose proof (set_str_same q' PDns1) as H1. pose proof (set_str_same q' PDns2) as H2. rewrite !Hsame in * by auto.
  destruct (set_value q PDns1), (set_value q PDns2); cbn [default from_option id set_all foldl fst snd] in *; try done;
    by rewrite H1, H2.
Qed.

Lemma settle rid q Cs : questions_ok q -> converts (reported rid q) Cs -> consumed Cs q = normalise q.
Proof.
  intros Hq Hc. unfold consumed, normalise. rewrite (settle_dhcp rid), (settle_addresses rid) by done.
  apply (settle_servers rid q); [done|done|]. intros p Hp. unfold normal_addresses.
  destruct (set_value q PAddress); [done|]. rewrite !set_value_set by (by intros ->; destruct Hp). done.
Qed.
End settle.
