(* ===== verification/EthPolicy.v ===== *)
(** * From the BMC's edit to the NIC's address

    The questions live in the EthCfg variable (EthConfigHii.vfr,
    EthConfigDxeMap.uni): an edit of the EthernetInterface resource that the
    feature driver consumes is the policy EthConfigDxe applies on the way back
    up, and what the driver reports settles in one exchange. *)

From S2P Require Import Prelude Services Uefi EdkStrings Json JsonLib EthConfig EthConfigSpec EthIface EthIfaceSpec.
From stdpp Require Import gmap.
#[local] Open Scope Z_scope.

(** ** The questions in the variable *)

(** The instance the form publishes. *)
Definition instance_lang : list Z := lit "/EthernetInterfaces/{1}/".

(** The field behind each string question. *)
Definition question_field (c : NUC_ETH_CONFIG) (p : property) : list Z :=
  match p with
  | PMac => MacAddress c | PAddress => Ip4Address c | PMask => Ip4SubnetMask c
  | PGateway => Ip4Gateway c | PDns1 => Ip4Dns1 c | PDns2 => Ip4Dns2 c
  end.
Definition properties : list property := [PMac; PAddress; PMask; PGateway; PDns1; PDns2].
Definition variable_questions (c : NUC_ETH_CONFIG) : questions :=
  mkQ (Some (negb (DhcpEnabled c =? 0))) (list_to_map (map (fun p => (p, cstr (question_field c p))) properties)).

Lemma variable_lookup c p : q_str (variable_questions c) !! p = Some (cstr (question_field c p)).
Proof. by destruct p. Qed.

(** ** The policy the questions stand for *)

Section policy.
Context `{EdkStrings, NetLib, JsonLib}.

Definition question_address (q : questions) (p : property) : option (list Z) := text_address (default [] (q_str q !! p)).

Definition questions_plan (ip4 : Z) (q : questions) : list eth_op :=
  if bool_decide (q_dhcp q = Some true) then [SetPolicy ip4 Ip4Config2PolicyDhcp]
  else match question_address q PAddress, question_address q PMask with
       | Some A, Some M =>
           if static_ok A M then
             SetPolicy ip4 Ip4Config2PolicyStatic :: SetManualAddress ip4 A M
             :: match question_address q PGateway with
                | Some g => if NetIp4IsUnicast (NTOHL g) (NTOHL M) then [SetGateway ip4 g] else []
                | None => []
                end
             ++ match omap (question_address q) [PDns1; PDns2] with [] => [] | dns => [SetDnsServer ip4 dns] end
           else []
       | _, _ => []
       end.

Lemma variable_address c p : question_address (variable_questions c) p = text_address (question_field c p).
Proof.
  unfold question_address. rewrite variable_lookup. cbn [default from_option id]. unfold text_address.
  by rewrite (cstr_id (cstr _)) by apply cstr_no_nul.
Qed.

Lemma policy_plan_questions ip4 c : policy_plan ip4 c = questions_plan ip4 (variable_questions c).
Proof.
  unfold policy_plan, questions_plan, option_settings. cbn [omap list_omap]. rewrite !variable_address. cbn [question_field variable_questions q_dhcp].
  destruct (DhcpEnabled c =? 0); done.
Qed.

(** Every question published, as the form does. *)
Definition published (q : questions) : Prop := is_Some (q_dhcp q) /\ forall p, is_Some (q_str q !! p).

Lemma variable_published c : published (variable_questions c).
Proof. split; [by eexists|]. intros p. rewrite variable_lookup. by eexists. Qed.
Lemma published_set q p v : published q -> published (set_str q p v).
Proof.
  intros [Hd Hs]. split; [done|]. intros p'. rewrite lookup_set_str. destruct (decide (p' = p)) as [->|]; [|apply Hs].
  by apply fmap_is_Some.
Qed.
Lemma published_dhcp q b : published q -> published (set_dhcp q b).
Proof. intros [[d Hd] Hs]. split; [|exact Hs]. unfold set_dhcp. cbn. rewrite Hd. by eexists. Qed.
Lemma published_all l q : published q -> published (set_all l q).
Proof. revert q. induction l as [|s l IH]; intros q Hq; [done|]. by apply IH, published_set. Qed.

Lemma text_set q p v p' : published q ->
  default [] (q_str (set_str q p v) !! p') = if decide (p' = p) then v else default [] (q_str q !! p').
Proof.
  intros [_ Hs]. rewrite lookup_set_str. destruct (decide (p' = p)); [|done]. by destruct (Hs p) as [x ->].
Qed.
Lemma dhcp_all l q : q_dhcp (set_all l q) = q_dhcp q.
Proof. revert q. induction l as [|s l IH]; intros q; [done|]. cbn [set_all foldl]. exact (IH (set_str q (fst s) (snd s))). Qed.

Lemma text_all_skip l q p : published q -> p ∉ map fst l -> default [] (q_str (set_all l q) !! p) = default [] (q_str q !! p).
Proof.
  revert q. induction l as [|[p' v] l IH]; intros q Hq Hp; [done|]. cbn [map fst] in Hp. apply not_elem_of_cons in Hp as [Hne Hp].
  change (set_all ((p', v) :: l) q) with (set_all l (set_str q p' v)). rewrite IH by (by auto using published_set).
  by rewrite text_set, decide_False.
Qed.

(** The texts after an edit. *)
Definition edited_dhcp (Cs : ETHERNETINTERFACE_CS) (old : bool) : bool :=
  match DHCPv4 Cs with Some (Some b) => b | _ => old end.

Lemma consumed_dhcp_value Cs q old : q_dhcp q = Some old -> q_dhcp (consumed Cs q) = Some (edited_dhcp Cs old).
Proof.
  intros Hq. unfold consumed, consumed_servers, consumed_addresses. rewrite !dhcp_all. unfold consumed_dhcp, edited_dhcp, set_dhcp.
  destruct (DHCPv4 Cs) as [[b|]|]; cbn; by rewrite Hq.
Qed.

Lemma server_keys Cs p : p ≠ PDns1 -> p ≠ PDns2 -> p ∉ map fst (server_settings Cs).
Proof.
  intros H1' H2'. unfold server_settings. destruct (StaticNameServers Cs) as [|n [|n' l]]; cbn; rewrite ?not_elem_of_cons;
    repeat split; try done; apply not_elem_of_nil.
Qed.
(** Either nothing is set, or the three texts are, in order. *)
Lemma address_settings_three Cs :
  address_settings Cs = [] \/ exists a m g, address_settings Cs = [(PAddress, a); (PMask, m); (PGateway, g)].
Proof.
  unfold address_settings. destruct (IPv4StaticAddresses Cs) as [|[[t|]|k] l]; [right|destruct (JsonLoadString t); [right|by left]|by left..];
    by eexists _, _, _.
Qed.
Lemma address_keys Cs p : p <> PAddress -> p <> PMask -> p <> PGateway -> p ∉ map fst (address_settings Cs).
Proof.
  intros H1' H2' H3'. destruct (address_settings_three Cs) as [->|(a & m & g & ->)]; cbn; rewrite ?not_elem_of_cons;
    repeat split; try done; apply not_elem_of_nil.
Qed.

Lemma published_consumed_dhcp Cs q : published q -> published (consumed_dhcp Cs q).
Proof. intros Hq. unfold consumed_dhcp. destruct (DHCPv4 Cs) as [[]|]; auto using published_dhcp. Qed.

(** An address text comes from the edit. *)
Lemma consumed_address Cs q a m g :
  published q -> address_settings Cs = [(PAddress, a); (PMask, m); (PGateway, g)] ->
  let get p := default [] (q_str (consumed Cs q) !! p) in get PAddress = a /\ get PMask = m /\ get PGateway = g.
Proof.
  intros Hq Hs. cbv zeta. unfold consumed, consumed_servers. pose proof (published_consumed_dhcp Cs q Hq) as Hd.
  rewrite !text_all_skip by (first [by apply published_all | by apply server_keys]).
  unfold consumed_addresses. rewrite Hs. cbn [set_all foldl fst snd]. rewrite !text_set by auto using published_set. done.
Qed.

(** The name servers: those of the edit, or the old ones. *)
Definition edited_servers (Cs : ETHERNETINTERFACE_CS) (q : questions) : list (list Z) :=
  match StaticNameServers Cs with
  | [] => [default [] (q_str q !! PDns1); default [] (q_str q !! PDns2)]
  | l => map (default []) (take 2 l)
  end.

Lemma consumed_servers_value Cs q :
  published q -> omap (question_address (consumed Cs q)) [PDns1; PDns2] = omap text_address (edited_servers Cs q).
Proof.
  intros Hq. unfold question_address, consumed, edited_servers. cbn [omap list_omap].
  assert (Ha : published (consumed_addresses Cs (consumed_dhcp Cs q))) by (by apply published_all, published_consumed_dhcp).
  assert (Hold : forall p, p = PDns1 \/ p = PDns2 ->
            default [] (q_str (consumed_addresses Cs (consumed_dhcp Cs q)) !! p) = default [] (q_str q !! p)).
  { intros p Hp. unfold consumed_addresses. rewrite text_all_skip.
    - unfold consumed_dhcp. by destruct (DHCPv4 Cs) as [[]|].
    - by apply published_consumed_dhcp.
    - apply address_keys; by destruct Hp as [->| ->]. }
  unfold consumed_servers, server_settings. destruct (StaticNameServers Cs) as [|n [|n' l]]; cbn [set_all foldl fst snd].
  - by rewrite !Hold by auto.
  - rewrite !text_set by auto using published_set. cbn [take map omap list_omap decide]. done.
  - rewrite !text_set by auto using published_set. done.
Qed.
End policy.

(** The static plan of texts. *)
Definition static_plan `{NetLib} (ip4 : Z) (A M : list Z) (gateway : list Z) (servers : list (list Z)) : list eth_op :=
  SetPolicy ip4 Ip4Config2PolicyStatic :: SetManualAddress ip4 A M
  :: match text_address gateway with
     | Some g => if NetIp4IsUnicast (NTOHL g) (NTOHL M) then [SetGateway ip4 g] else []
     | None => []
     end
  ++ match omap text_address servers with [] => [] | dns => [SetDnsServer ip4 dns] end.

(** The policy planned from the variable [c] is that of the resource: DHCP
    when it enables DHCP; nothing when it disables DHCP and has no static
    address; its first static address, gateway and name servers (those stored
    in [c0] when it has none) when it disables DHCP and these are valid. *)
Definition edit_applied `{NetLib, JsonLib} (ip4 : Z) (c0 : NUC_ETH_CONFIG) (Cs : ETHERNETINTERFACE_CS) (c : NUC_ETH_CONFIG) : Prop :=
  (DHCPv4 Cs = Some (Some true) -> policy_plan ip4 c = [SetPolicy ip4 Ip4Config2PolicyDhcp])
  /\ (DHCPv4 Cs = Some (Some false) -> IPv4StaticAddresses Cs = [] ->
        DhcpEnabled c = 0 /\ cstr (Ip4Address c) = [] /\ policy_plan ip4 c = [])
  /\ (DHCPv4 Cs = Some (Some false) ->
      forall a m g A M, address_settings Cs = [(PAddress, a); (PMask, m); (PGateway, g)] ->
        text_address a = Some A -> text_address m = Some M -> static_ok A M = true ->
        policy_plan ip4 c = static_plan ip4 A M g (edited_servers Cs (variable_questions c0))).

Lemma consumed_applied `{NetLib, JsonLib} ip4 c0 Cs c :
  variable_questions c = consumed Cs (variable_questions c0) -> edit_applied ip4 c0 Cs c.
Proof.
  intros Hdb. set (q := variable_questions c0) in *. assert (Hq : published q) by apply variable_published.
  pose proof (consumed_dhcp_value Cs q _ eq_refl) as Hdhcp. unfold edited_dhcp in Hdhcp. rewrite <- Hdb in Hdhcp.
  split_and!.
  - intros Hd. rewrite Hd in Hdhcp. rewrite policy_plan_questions. unfold questions_plan. by rewrite bool_decide_true.
  - intros Hd Hnil. rewrite Hd in Hdhcp. injection Hdhcp as Hdhcp.
    assert (Hz : DhcpEnabled c = 0) by (destruct (Z.eqb_spec (DhcpEnabled c) 0); done).
    destruct (consumed_address Cs q [] [] [] Hq) as (Ha & _ & _); [unfold address_settings; by rewrite Hnil|].
    rewrite <- Hdb, variable_lookup in Ha. split; [done|]. split; [exact Ha|].
    unfold policy_plan. rewrite Hz. cbn [Z.eqb negb]. unfold text_address at 1. cbn in Ha. by rewrite Ha.
  - intros Hd a m g A M Hs HA HM Hok. rewrite Hd in Hdhcp. destruct (consumed_address Cs q a m g Hq Hs) as (Ha & Hm & Hg).
    rewrite policy_plan_questions, Hdb. unfold questions_plan. rewrite <- Hdb, Hdhcp, bool_decide_false by done. rewrite Hdb.
    rewrite consumed_servers_value by done. unfold question_address. rewrite Ha, Hm, Hg, HA, HM, Hok. done.
Qed.

(** An edit made on the BMC is the address the NIC gets.  Let the
    questions live in the EthCfg variable and let the feature driver consume
    a resource whose ETag is new.  Then the policy EthConfigDxe plans from the
    variable is the resource's: DHCP when it enables DHCP; when it disables
    DHCP and its first static address has a valid address and mask, exactly
    that address, its gateway, and the first two name servers (the stored
    ones when the resource has none); when it disables DHCP and its static
    addresses are empty, nothing, and the interface is left alone. *)
Theorem bmc_edit_applied `{EdkStrings, NetLib, JsonLib} {W : Type} (env : handler ei W) (config : W -> NUC_ETH_CONFIG)
    (id : list Z) (fits : list Z -> Prop) `{!QuestionDb env (fun w => variable_questions (config w)) id instance_lang fits}
    (P : REDFISH_RESOURCE_COMMON_PRIVATE) (j : str) (etag : option (list Z)) (p : Z) (Cs : ETHERNETINTERFACE_CS) (ip4 : Z) (w : W)
    (Hj : is_empty_text (Some j) = false) (Hcv : is_Some (JsonStructProtocol P)) (Hid : odata_id Cs = id)
    (Hfa : Forall (fun s => fits (snd s)) (address_settings Cs)) (Hfs : Forall (fun s => fits (snd s)) (server_settings Cs))
    (Hto : forall w, fst (env (ToStructure (s_text j)) w) = (EFI_SUCCESS, (p, Cs)))
    (Hetag : forall w, fst (env (CheckEtag (Uri P) etag (odata_etag Cs)) w) = false) :
  run_val env (RedfishConsumeResourceCommon P (Some j) etag) w = Some EFI_SUCCESS
  /\ edit_applied ip4 (config w) Cs (config (run_state env (RedfishConsumeResourceCommon P (Some j) etag) w)).
Proof.
  destruct (proj1 (rwp_run _ _ _ _) (consume_common env (fun w => variable_questions (config w)) id instance_lang fits
              P j etag w p Cs false Hj Hcv Hid Hfa Hfs Hto Hetag)) as [Hval Hdb]. cbn beta iota in Hdb.
  split; [exact Hval|by apply consumed_applied].
Qed.

(** C18: What the host reports and gets back settles.  Against a question
    database that keeps what it is told, and with memory to build it, the
    payload is valid JSON with exactly the published questions that have a
    value (empty texts are left out, and a mask or gateway without an
    address); when the BMC hands the same resource
    back under a new ETag, consuming it changes at most two things (a mask or
    gateway without an address is dropped, a lone second name server moves
    up), and after that one exchange nothing changes any more. *)
Theorem report_settles `{EdkStrings, JsonLib} {W : Type} (env : handler ei W) (db : W -> questions) (id base : list Z)
    (fits : list Z -> Prop) `{!QuestionDb env db id base fits} (rid : option (list Z))
    (P : REDFISH_RESOURCE_COMMON_PRIVATE) (j : str) (etag : option (list Z)) (p : Z) (Cs : ETHERNETINTERFACE_CS) (w : W)
    (Hok : questions_ok (db w)) (Hrid : forall r, rid = Some r -> text_ok r)
    (Hfit : forall p v, q_str (db w) !! p = Some v -> fits v)
    (Hj : is_empty_text (Some j) = false) (Hcv : is_Some (JsonStructProtocol P)) (Hid : odata_id Cs = id)
    (Hconv : converts (reported rid (db w)) Cs)
    (Hto : forall w, fst (env (ToStructure (s_text j)) w) = (EFI_SUCCESS, (p, Cs)))
    (Hetag : forall w, fst (env (CheckEtag (Uri P) etag (odata_etag Cs)) w) = false) :
  let w1 := run_state env (BuildEthernetInterfacePayload base rid) w in
  let w2 := run_state env (RedfishConsumeResourceCommon P (Some j) etag) w1 in
  (exists a text, run_val env (BuildEthernetInterfacePayload base rid) w = (EFI_SUCCESS, Some (mkStr a text))
     /\ JsonLoadString text = Some (JObj (reported rid (db w))))
  /\ db w2 = normalise (db w) /\ normalise (db w2) = db w2.
Proof.
  intros w1 w2. destruct (proj1 (rwp_run _ _ _ _) (build_run env db id base fits rid w)) as [Hw1 [a Ha]]. fold w1 in Hw1.
  split; [exists a, (JsonDumpString (JObj (reported rid (db w)))); split; [exact Ha|by apply JsonLoadDump, reported_ok]|].
  assert (Hv : forall p, fits (default [] (set_value (db w) p))).
  { intros p'. unfold set_value. destruct (q_str (db w) !! p') as [[|c t]|] eqn:E; cbn; [apply fits_nothing|by apply (Hfit p')|apply fits_nothing]. }
  assert (Hfa : Forall (fun s => fits (snd s)) (address_settings Cs)).
  { rewrite (settle_address_settings rid (db w)) by done. destruct (set_value (db w) PAddress);
      cbn [map]; rewrite !Forall_cons; split_and!; try apply Forall_nil_2; cbn [snd]; first [apply Hv | apply fits_nothing]. }
  assert (Hfs : Forall (fun s => fits (snd s)) (server_settings Cs)).
  { rewrite (settle_server_settings rid (db w)) by done. pose proof (Hv PDns1) as V1. pose proof (Hv PDns2) as V2.
    destruct (set_value (db w) PDns1), (set_value (db w) PDns2);
      rewrite ?Forall_cons; split_and?; try apply Forall_nil_2; cbn [snd]; first [exact V1 | exact V2 | apply fits_nothing]. }
  assert (Hdb : db w2 = normalise (db w)).
  { destruct (proj1 (rwp_run _ _ _ _) (consume_common env db id base fits P j etag w1 p Cs false Hj Hcv Hid Hfa Hfs Hto Hetag)) as [_ Hd].
    cbn beta iota in Hd. fold w2 in Hd. rewrite Hd, Hw1. by apply (settle rid). }
  split; [done|]. rewrite Hdb. apply normalise_idem.
Qed.

(** ** A concrete machine: the questions in the variable *)

Definition pad (k : nat) (v : list Z) : list Z := take k (v ++ repeat 0 k).

Definition set_field (c : NUC_ETH_CONFIG) (p : property) (v : list Z) : NUC_ETH_CONFIG :=
  let '(mkEth d m a n g d1 d2) := c in
  match p with
  | PMac => mkEth d (pad 18 v) a n g d1 d2
  | PAddress => mkEth d m (pad 16 v) n g d1 d2
  | PMask => mkEth d m a (pad 16 v) g d1 d2
  | PGateway => mkEth d m a n (pad 16 v) d1 d2
  | PDns1 => mkEth d m a n g (pad 16 v) d2
  | PDns2 => mkEth d m a n g d1 (pad 16 v)
  end.
Definition with_dhcp (c : NUC_ETH_CONFIG) (b : bool) : NUC_ETH_CONFIG :=
  mkEth (if b then 1 else 0) (MacAddress c) (Ip4Address c) (Ip4SubnetMask c) (Ip4Gateway c) (Ip4Dns1 c) (Ip4Dns2 c).

(** Which question a language names. *)
Definition named (lang : list Z) : option property :=
  List.find (fun p => bool_decide (lang = instance_lang ++ property_tail p)) properties.
Definition named_tail (t : list Z) : option property := List.find (fun p => bool_decide (t = property_tail p)) properties.

(** Texts the form's strings take. *)
Definition short (v : list Z) : Prop := (length v < 16)%nat /\ Forall (fun c => c <> 0) v.

Definition setup_env (Cs : ETHERNETINTERFACE_CS) : handler ei NUC_ETH_CONFIG := fun c w =>
  match c as c return ei_res c * NUC_ETH_CONFIG with
  | GetConfigureLang _ t => (Some (mkStr 1 (instance_lang ++ t)), w)
  | ApplyString l v => (EFI_SUCCESS, match named l with Some p => set_field w p v | None => w end)
  | ApplyBoolean _ b => (EFI_SUCCESS, with_dhcp w b)
  | GetPropertyStringValue t _ => (option_map (fun p => mkStr 2 (cstr (question_field w p))) (named_tail t), w)
  | GetPropertyBooleanValue _ _ => (Some (3, negb (DhcpEnabled w =? 0)), w)
  | ToStructure _ => ((EFI_SUCCESS, (4, Cs)), w)
  | JsonLoad => (Some 5, w)
  | JsonValueInitObject => (Some 6, w)
  | JsonDump _ => (Some 7, w)
  | JsonInit | JsonStore => (true, w)
  | CheckEtag _ _ _ => (false, w)
  | RedfishIdentifyResource _ _ => (true, w)
  | RedfishHttpGetResource _ _ => ((EFI_SUCCESS, Some (mkRsp 8 (Some (JObj [(lit "DHCPv4", JObj [])])))), w)
  | RedfishHttpPostResource _ _ _ | RedfishHttpPatchResource _ _ _ => ((EFI_SUCCESS, Some (mkRsp 9 None)), w)
  | GetHttpResponseLocation _ | GetHttpResponseEtag _ => ((EFI_SUCCESS, Some (mkStr 10 (lit "x"))), w)
  | GetPendingSettings _ _ => ((EFI_NOT_FOUND, None, None), w)
  | RedfishGetConfigLanguage _ => (Some (mkStr 11 instance_lang), w)
  | GetUnifiedConfigureLang => ((EFI_SUCCESS, mkLangs 12 [(1, mkStr 13 instance_lang)]), w)
  | RedfishCreateService | AllocatePrivate => (Some 14, w)
  | LocateRestJsonStructure => ((EFI_SUCCESS, Some 15), w)
  | OpenConfigHandler => ((EFI_SUCCESS, true), w)
  | CreateReadyEvent => (16, w)
  | SetRedfishSettingsObjectsUri _ _ | RedfishSetRedfishUri _ _ | SetEtagFromUri _ _ | InstallProtocols | UninstallProtocols =>
      (EFI_SUCCESS, w)
  | RedfishHttpFreeResponse _ | ResourceSetConfigureLang _ | DestroyStructure _ | JsonValueFree _ | EthIface.FreePool _
  | RedfishCleanupService _ | EthIface.CloseEvent _ => (tt, w)
  end.

Lemma cstr_pad k v : (length v < k)%nat -> Forall (fun c => c <> 0) v -> cstr (pad k v) = v.
Proof.
  intros Hl Hv. unfold pad. rewrite take_app_ge by lia. destruct k as [|k]; [lia|]. cbn [repeat].
  replace (S k - length v)%nat with (S (k - length v)) by lia. cbn [take]. by apply cstr_nul.
Qed.

Lemma named_question p : named (instance_lang ++ property_tail p) = Some p.
Proof. by destruct p; vm_compute. Qed.
Lemma named_property p : named_tail (property_tail p) = Some p.
Proof. by destruct p; vm_compute. Qed.

Lemma field_questions c p v : short v -> variable_questions (set_field c p v) = set_str (variable_questions c) p v.
Proof.
  intros [Hl Hv]. apply questions_eq; [by destruct c, p|]. intros p'. rewrite lookup_set_str, !variable_lookup.
  destruct c as [d m a n g d1 d2], p, p'; cbn [decide decide_rel property_eq_dec question_field set_field fmap option_fmap option_map
    MacAddress Ip4Address Ip4SubnetMask Ip4Gateway Ip4Dns1 Ip4Dns2]; try done; by rewrite cstr_pad by (done || lia).
Qed.

#[global] Instance setup_db Cs : QuestionDb (setup_env Cs) variable_questions (odata_id Cs) instance_lang short.
Proof.
  constructor.
  - split; [cbn; lia|constructor].
  - intros p w v _. by eexists.
  - intros p w Hp. by rewrite variable_lookup in Hp.
  - intros w b _. by eexists.
  - done.
  - intros p v w Hv. cbn [setup_env snd]. rewrite named_question. by apply field_questions.
  - intros b w. by destruct b.
  - intros p w. exists 2. cbn [setup_env fst]. by rewrite named_property, variable_lookup.
  - intros w. by exists 3.
  - by intros [] w.
  - done.
  - intros w. split_and!; by eexists.
Qed.

(** The BMC moves the machine to another network. *)
Definition bmc_edit : ETHERNETINTERFACE_CS :=
  mkCs (lit "/redfish/v1/Systems/1/EthernetInterfaces/eth0") None (Some (Some false))
    [CsJson (Some (jlit "{'Address':'10.0.0.5','SubnetMask':'255.0.0.0','Gateway':'10.0.0.1'}"))] [Some (lit "10.0.0.2")].
Definition ready_private : REDFISH_RESOURCE_COMMON_PRIVATE := mkPrivate (Some 1) (Some 2) None (mkStr 20 (lit "/x")) None None.
Definition some_json : str := mkStr 21 (lit "{}").

Lemma bmc_edit_applied_witness :
  policy_plan 108 (run_state (setup_env bmc_edit) (RedfishConsumeResourceCommon ready_private (Some some_json) None) office)
  = [SetPolicy 108 Ip4Config2PolicyStatic; SetManualAddress 108 [10; 0; 0; 5] [255; 0; 0; 0]; SetGateway 108 [10; 0; 0; 1];
     SetDnsServer 108 [[10; 0; 0; 2]]].
Proof.
  destruct (bmc_edit_applied (setup_env bmc_edit) (fun c => c) (odata_id bmc_edit) short ready_private some_json None 4 bmc_edit 108 office)
    as (_ & _ & _ & Hplan).
  - reflexivity.
  - by eexists.
  - reflexivity.
  - repeat constructor; vm_compute; lia.
  - repeat constructor; vm_compute; lia.
  - reflexivity.
  - reflexivity.
  - etransitivity; [apply (Hplan eq_refl (lit "10.0.0.5") (lit "255.0.0.0") (lit "10.0.0.1") [10; 0; 0; 5] [255; 0; 0; 0]);
      vm_compute; reflexivity|]. vm_compute. reflexivity.
Defined.

(** The office configuration reported and handed back. *)
Definition office_report : ETHERNETINTERFACE_CS :=
  mkCs (lit "/redfish/v1/Systems/1/EthernetInterfaces/eth0") None (Some (Some false))
    [CsJson (Some (jlit "{'Address':'192.168.1.20','SubnetMask':'255.255.255.0','Gateway':'192.168.1.1'}"))]
    [Some (lit "9.9.9.9"); Some (lit "none")].

Lemma report_settles_witness :
  let w := run_state (setup_env office_report) (BuildEthernetInterfacePayload instance_lang None) office in
  variable_questions (run_state (setup_env office_report) (RedfishConsumeResourceCommon ready_private (Some some_json) None) w)
  = normalise (variable_questions office).
Proof.
  destruct (report_settles (setup_env office_report) variable_questions (odata_id office_report) instance_lang short None
              ready_private some_json None 4 office_report office) as (_ & Hdb & _).
  - apply (bool_decide_unpack _). vm_compute. exact I.
  - discriminate.
  - intros p v Hp. rewrite variable_lookup in Hp. injection Hp as <-. destruct p; apply (bool_decide_unpack _); vm_compute; exact I.
  - reflexivity.
  - by eexists.
  - reflexivity.
  - constructor; vm_compute; reflexivity.
  - reflexivity.
  - reflexivity.
  - exact Hdb.
Defined.
