(* ===== verification/EthCollection.v ===== *)
(** * The EthernetInterface collection driver

    RedfishEthernetInterfaceCollectionDxe/EthernetInterfaceCollectionDxe.c:
    the feature core calls back for Systems/{}/EthernetInterfaces/{}; the
    driver reads the collection from the BMC and hands each member to the
    resource driver of its schema, or has the member created when the
    collection is empty.  The resource-config library that finds the resource
    driver, the converter and the HTTP layer are services.

    As in EthIface, [None] is a failed ASSERT or a NULL dereference. *)

From S2P Require Import Prelude Services Uefi EdkStrings Json JsonLib EthIface EthIfaceDxe.

(** ** Data *)

(** The part of EFI_REDFISH_ETHERNETINTERFACECOLLECTION_CS the driver reads;
    the count is a pointer. *)
Inductive member_link := UriLink (Uri : list Z) | OtherLink (ResourceType : Z).
Record ETHERNETINTERFACECOLLECTION_CS := mkCollectionCs { Membersodata_count : option Z; Members : list member_link }.

(** RESOURCE_INFORMATION_EXCHANGE: what the feature core sends, and the
    configure languages it gets back (an array and its entries). *)
Inductive RESOURCE_INFORMATION_TYPE := InformationTypeNone | InformationTypeCollectionMemberConfigLanguage.
Record exchange := mkExchange {
  FullUri : list Z; InformationType : RESOURCE_INFORMATION_TYPE; LangCount : Z; LangList : option (Z * list (Z * option str)) }.

(** The members of REDFISH_COLLECTION_PRIVATE that change.
    [InformationExchange] is set by the callback before anything reads it. *)
Record REDFISH_COLLECTION_PRIVATE := mkCollection {
  RedfishService : option Z; JsonStructProtocol : option Z; FeatureProtocol : option Z;
  CollectionUri : str; Response : option response; CollectionPayload : option json; CollectionJson : option str;
  RedfishVersion : option str; InformationExchange : exchange }.

Abbreviation collection := REDFISH_COLLECTION_PRIVATE (only parsing).

Inductive FEATURE_CALLBACK_ACTION := CallbackActionStartOperation | CallbackActionOther (a : Z).

Definition REDFISH_SCHEMA_NAME : list Z := lit "EthernetInterface".
Definition REDFISH_MANAGED_URI : list Z := lit "Systems/{}/EthernetInterfaces/{}".
Definition MAX_URI_LENGTH : Z := 256.

(** ** Services *)

Inductive ec_op :=
  | RedfishHttpGetResource (svc : option Z) (uri : str)
  | RedfishHttpFreeResponse (r : option Z)
  | RedfishGetVersion (svc : Z)
  | RedfishGetUri (text : list Z)
  (* schemas and configure languages *)
  | GetRedfishSchemaInfo (svc conv : option Z) (uri : str)
  | GetSupportedSchemaVersion (name : list Z)
  | RedfishGetConfigLanguage (uri : str)
  | GetArrayIndexFromArrayTypeConfigureLang (lang : str)
  (* the resource driver of a schema *)
  | EdkIIRedfishResourceConfigIdentify (s : schema_info) (uri : str) (x : exchange)
  | EdkIIRedfishResourceConfigCheck (s : schema_info) (uri : str)
  | EdkIIRedfishResourceConfigProvisioning (s : schema_info) (uri : str) (x : exchange) (PostMode : bool)
  | EdkIIRedfishResourceConfigConsume (s : schema_info) (uri : str)
  | EdkIIRedfishResourceConfigUpdate (s : schema_info) (uri : str)
  (* JSON *)
  | ToStructure (text : list Z)
  | DestroyStructure (p : Z)
  | JsonDump (v : json)
  (* memory *)
  | StrAsciiToUnicode (text : list Z)
  | AllocateLangList
  | AllocateCopyLang (text : list Z)
  | AllocateUri
  | FreePool (p : Z)
  (* events and protocols *)
  | RedfishCreateService
  | RedfishCleanupService (svc : Z)
  | LocateRestJsonStructure
  | LocateRedfishFeature
  | RegisterFeature (feature : Z) (uri : list Z)
  | UnregisterFeature (feature : Z) (uri : list Z)
  | CloseEvent (e : Z)
  | AllocatePrivate
  | InstallConfigHandler
  | CreateConverterEvent
  | CreateFeatureEvent
  | OpenConfigHandler
  | UninstallConfigHandler.

Definition ec_res (c : ec_op) : Type :=
  match c with
  | RedfishHttpGetResource _ _ => EFI_STATUS * option response
  | RedfishGetVersion _ | RedfishGetUri _ | RedfishGetConfigLanguage _ => option str
  | GetRedfishSchemaInfo _ _ _ | GetSupportedSchemaVersion _ => EFI_STATUS * schema_info
  | GetArrayIndexFromArrayTypeConfigureLang _ => EFI_STATUS * (option str * Z)
  | EdkIIRedfishResourceConfigIdentify _ _ _ | EdkIIRedfishResourceConfigProvisioning _ _ _ _ => EFI_STATUS * exchange
  | EdkIIRedfishResourceConfigCheck _ _ | EdkIIRedfishResourceConfigConsume _ _ | EdkIIRedfishResourceConfigUpdate _ _ => EFI_STATUS
  | ToStructure _ => EFI_STATUS * (Z * ETHERNETINTERFACECOLLECTION_CS)
  | JsonDump _ | StrAsciiToUnicode _ | AllocateCopyLang _ | AllocateLangList | AllocateUri | RedfishCreateService | AllocatePrivate => option Z
  | LocateRestJsonStructure => EFI_STATUS * option Z
  | LocateRedfishFeature => EFI_STATUS * Z
  | RegisterFeature _ _ | InstallConfigHandler | UninstallConfigHandler => EFI_STATUS
  | OpenConfigHandler => EFI_STATUS * bool
  | RedfishHttpFreeResponse _ | DestroyStructure _ | FreePool _ | RedfishCleanupService _ | UnregisterFeature _ _ | CloseEvent _
  | CreateConverterEvent | CreateFeatureEvent => unit
  end.

Definition ec : sig := Sig ec_op ec_res.

(** ** Assignments to members *)

Definition with_exchange (P : collection) (x : exchange) : collection :=
  mkCollection (RedfishService P) (JsonStructProtocol P) (FeatureProtocol P) (CollectionUri P) (Response P) (CollectionPayload P)
    (CollectionJson P) (RedfishVersion P) x.
Definition with_collection (P : collection) (r : option response) (payload : option json) (j : option str) : collection :=
  mkCollection (RedfishService P) (JsonStructProtocol P) (FeatureProtocol P) (CollectionUri P) r payload j (RedfishVersion P)
    (InformationExchange P).
Definition with_version (P : collection) (v : option str) : collection :=
  mkCollection (RedfishService P) (JsonStructProtocol P) (FeatureProtocol P) (CollectionUri P) (Response P) (CollectionPayload P)
    (CollectionJson P) v (InformationExchange P).
Definition with_uri (P : collection) (u : str) : collection :=
  mkCollection (RedfishService P) (JsonStructProtocol P) (FeatureProtocol P) u (Response P) (CollectionPayload P)
    (CollectionJson P) (RedfishVersion P) (InformationExchange P).
Definition with_service (P : collection) (s : option Z) : collection :=
  mkCollection s (JsonStructProtocol P) (FeatureProtocol P) (CollectionUri P) (Response P) (CollectionPayload P)
    (CollectionJson P) (RedfishVersion P) (InformationExchange P).
Definition with_converter (P : collection) (j : option Z) : collection :=
  mkCollection (RedfishService P) j (FeatureProtocol P) (CollectionUri P) (Response P) (CollectionPayload P)
    (CollectionJson P) (RedfishVersion P) (InformationExchange P).
Definition with_feature (P : collection) (f : option Z) : collection :=
  mkCollection (RedfishService P) (JsonStructProtocol P) f (CollectionUri P) (Response P) (CollectionPayload P)
    (CollectionJson P) (RedfishVersion P) (InformationExchange P).

Section collection.
Context `{EdkStrings, JsonLib}.

(** ** One member *)

(** The exchange information of a member known from an earlier boot; the one
    list entry takes the parsed instance in [Index]. *)
Definition record_history (P : collection) (ConfigLang : str) : fw ec (option (EFI_STATUS * collection)) :=
  '(Status, (ReturnedConfigLang, Index)) ← call (S := ec) (GetArrayIndexFromArrayTypeConfigureLang ConfigLang);
  if negb (EFI_ERROR Status) || (Status =? EFI_NOT_FOUND) then
    let x := InformationExchange P in
    List ← call (S := ec) AllocateLangList;
    match List with
    | None =>
        mret (Some (EFI_OUT_OF_RESOURCES,
                    with_exchange P (mkExchange (FullUri x) InformationTypeCollectionMemberConfigLanguage 1 None)))
    | Some p =>
        match ReturnedConfigLang with
        | None => mret None
        | Some lang =>
            copy ← call (S := ec) (AllocateCopyLang (s_text lang));
            mret (Some (EFI_SUCCESS,
                        with_exchange P (mkExchange (FullUri x) InformationTypeCollectionMemberConfigLanguage 1 (Some (p, [(Index, (fun c => mkStr c (s_text lang)) <$> copy)])))))
        end
    end
  else mret (Some (EFI_SUCCESS, P)).

(** Check, then either provision or consume and update. *)
Definition drive_resource (P : collection) (SchemaInfo : schema_info) (Uri : str) : fw ec (EFI_STATUS * collection) :=
  Status ← call (S := ec) (EdkIIRedfishResourceConfigCheck SchemaInfo Uri);
  if EFI_ERROR Status then
    '(Status, x) ← call (S := ec) (EdkIIRedfishResourceConfigProvisioning SchemaInfo Uri (InformationExchange P) false);
    mret (Status, with_exchange P x)
  else
    _ ← call_ (S := ec) (EdkIIRedfishResourceConfigConsume SchemaInfo Uri);
    Status ← call (S := ec) (EdkIIRedfishResourceConfigUpdate SchemaInfo Uri);
    mret (Status, P).

Definition HandleResource (P : collection) (Uri : str) : fw ec (option (EFI_STATUS * collection)) :=
  if empty_uri Uri then mret (Some (EFI_INVALID_PARAMETER, P))
  else
    '(Status, SchemaInfo) ← call (S := ec) (GetRedfishSchemaInfo (RedfishService P) (JsonStructProtocol P) Uri);
    if EFI_ERROR Status then mret (Some (Status, P))
    else
      ConfigLang ← call (S := ec) (RedfishGetConfigLanguage Uri);
      match ConfigLang with
      | None =>
          '(Status, x) ← call (S := ec) (EdkIIRedfishResourceConfigIdentify SchemaInfo Uri (InformationExchange P));
          let P := with_exchange P x in
          if EFI_ERROR Status then
            mret (Some (if Status =? EFI_UNSUPPORTED then EFI_SUCCESS else Status, P))
          else r ← drive_resource P SchemaInfo Uri; mret (Some r)
      | Some ConfigLang =>
          '(Status, P) ←? record_history P ConfigLang;
          if EFI_ERROR Status then mret (Some (Status, P))
          else
            _ ← call_ (S := ec) (FreePool (s_ptr ConfigLang));
            r ← drive_resource P SchemaInfo Uri; mret (Some r)
      end.

(** ** The collection *)

(** The walk over the members; a member's failure does not end it. *)
Fixpoint handle_members (P : collection) (l : list member_link) : fw ec (option collection) :=
  match l with
  | [] => mret (Some P)
  | OtherLink _ :: l => handle_members P l
  | UriLink u :: l =>
      MemberUri ← call (S := ec) (StrAsciiToUnicode u);
      match MemberUri with
      | None => mret None
      | Some p =>
          let MemberUri := mkStr p u in
          '(_, P) ←? HandleResource P MemberUri;
          _ ← call_ (S := ec) (FreePool (s_ptr MemberUri));
          handle_members P l
      end
  end.

Definition HandleCollectionResource (P : collection) : fw ec (option (EFI_STATUS * collection)) :=
  match JsonStructProtocol P, CollectionJson P with
  | Some _, Some CollectionJson =>
      '(Status, (Collection, CollectionCs)) ← call (S := ec) (ToStructure (s_text CollectionJson));
      if EFI_ERROR Status then mret (Some (Status, P))
      else
        match Membersodata_count CollectionCs with
        | None => mret None
        | Some count =>
            if count =? 0 then
              _ ← call_ (S := ec) (DestroyStructure Collection); mret (Some (EFI_NOT_FOUND, P))
            else
              match Members CollectionCs with
              | [] => _ ← call_ (S := ec) (DestroyStructure Collection); mret (Some (EFI_NOT_FOUND, P))
              | l =>
                  P ←? handle_members P l;
                  _ ← call_ (S := ec) (DestroyStructure Collection);
                  mret (Some (EFI_SUCCESS, P))
              end
        end
  | _, _ => mret (Some (EFI_NOT_READY, P))
  end.

Definition CreateCollectionResource (P : collection) : fw ec (EFI_STATUS * collection) :=
  '(Status, SchemaInfo) ← call (S := ec) (GetSupportedSchemaVersion REDFISH_SCHEMA_NAME);
  if EFI_ERROR Status then mret (Status, P)
  else
    '(Status, x) ← call (S := ec) (EdkIIRedfishResourceConfigProvisioning SchemaInfo (CollectionUri P) (InformationExchange P) true);
    mret (Status, with_exchange P x).

Definition FreeText (s : option str) : fw ec unit :=
  match s with Some s => call_ (S := ec) (FreePool (s_ptr s)) | None => mret tt end.

Definition ReleaseCollectionResource (P : collection) : fw ec (EFI_STATUS * collection) :=
  _ ← call_ (S := ec) (RedfishHttpFreeResponse (rsp_id <$> Response P));
  _ ← FreeText (CollectionJson P);
  _ ← FreeText (RedfishVersion P);
  mret (EFI_SUCCESS, with_version (with_collection P None (CollectionPayload P) None) None).

Definition CollectionHandler (P : collection) : fw ec (option (EFI_STATUS * collection)) :=
  '(Status, R) ← call (S := ec) (RedfishHttpGetResource (RedfishService P) (CollectionUri P));
  '(Status, P) ←? (
    if EFI_ERROR Status then mret (Some (Status, with_collection P R (CollectionPayload P) (CollectionJson P)))
    else
      match R ≫= rsp_payload with
      | None => mret None
      | Some v =>
          j ← call (S := ec) (JsonDump v);
          match j with
          | None => mret None
          | Some j =>
              let P := with_collection P R (Some v) (Some (mkStr j (JsonDumpString v))) in
              '(Status, P) ←? HandleCollectionResource P;
              if EFI_ERROR Status && (Status =? EFI_NOT_FOUND)
              then r ← CreateCollectionResource P; mret (Some r)
              else mret (Some (Status, P))
          end
      end);
  '(_, P) ← ReleaseCollectionResource P;
  mret (Some (Status, P)).

(** StrCatS leaves the buffer alone when the source is NULL. *)
Definition StrCatText (d : list Z) (max : Z) (s : option (list Z)) : list Z :=
  match s with Some s => StrCatS d max s | None => d end.

Definition RedfishCollectionFeatureCallback (P : collection) (FeatureAction : FEATURE_CALLBACK_ACTION) (x : exchange)
    : fw ec (option (EFI_STATUS * collection)) :=
  match FeatureAction with
  | CallbackActionOther _ => mret (Some (EFI_UNSUPPORTED, P))
  | CallbackActionStartOperation =>
      match RedfishService P with
      | None => mret (Some (EFI_NOT_READY, P))
      | Some svc =>
          v ← call (S := ec) (RedfishGetVersion svc);
          let P := with_version (with_exchange P x) v in
          ResourceUri ← call (S := ec) AllocateUri;
          match ResourceUri with
          | None => mret (Some (EFI_OUT_OF_RESOURCES, P))
          | Some _ =>
              let ResourceUri := StrCatText [] MAX_URI_LENGTH (s_text <$> v) in
              let ResourceUri := StrCatS ResourceUri MAX_URI_LENGTH (FullUri x) in
              u ← call (S := ec) (RedfishGetUri ResourceUri);
              match u with
              | None => mret None
              | Some u => '(_, P) ←? CollectionHandler (with_uri P u); mret (Some (EFI_SUCCESS, P))
              end
          end
      end
  end.

(** ** The config handler *)

Definition RedfishCollectionInit (P : collection) : fw ec (EFI_STATUS * collection) :=
  s ← call (S := ec) RedfishCreateService;
  mret (if is_null s then EFI_DEVICE_ERROR else EFI_SUCCESS, with_service P s).

Definition RedfishCollectionStop (P : collection) : fw ec (EFI_STATUS * collection) :=
  P ← match RedfishService P with
      | Some s => _ ← call_ (S := ec) (RedfishCleanupService s); mret (with_service P None)
      | None => mret P
      end;
  '(_, P) ← ReleaseCollectionResource P;
  _ ← match FeatureProtocol P with
      | Some f => call_ (S := ec) (UnregisterFeature f REDFISH_MANAGED_URI)
      | None => mret tt
      end;
  mret (EFI_SUCCESS, P).

(** ** The image

    [mRedfishCollectionPrivate]: the context and its allocation. *)
Abbreviation global := (option (Z * collection)) (only parsing).

Definition EfiRestJasonStructureProtocolIsReady (g : global) (Ev : Z) : fw ec global :=
  match g with
  | None => mret None
  | Some (p, P) =>
      if negb (is_null (JsonStructProtocol P)) then mret g
      else
        '(Status, j) ← call (S := ec) LocateRestJsonStructure;
        _ ← call_ (S := ec) (CloseEvent Ev);
        mret (Some (p, with_converter P (if EFI_ERROR Status then None else j)))
  end.

Definition EdkIIRedfishFeatureProtocolIsReady (g : global) (Ev : Z) : fw ec global :=
  match g with
  | None => mret None
  | Some (p, P) =>
      if negb (is_null (FeatureProtocol P)) then mret g
      else
        '(Status, f) ← call (S := ec) LocateRedfishFeature;
        if EFI_ERROR Status then _ ← call_ (S := ec) (CloseEvent Ev); mret g
        else
          _ ← call_ (S := ec) (RegisterFeature f REDFISH_MANAGED_URI);
          _ ← call_ (S := ec) (CloseEvent Ev);
          mret (Some (p, with_feature P (Some f)))
  end.

Definition RedfishCollectionUnload (g : global) : fw ec (EFI_STATUS * global) :=
  match g with
  | None => mret (EFI_NOT_READY, None)
  | Some (p, P) =>
      '(Status, ConfigHandler) ← call (S := ec) OpenConfigHandler;
      if EFI_ERROR Status || negb ConfigHandler then mret (Status, g)
      else
        _ ← RedfishCollectionStop P;
        Status ← call (S := ec) UninstallConfigHandler;
        _ ← call_ (S := ec) (FreePool p);
        mret (Status, None)
  end.

Definition fresh_collection : collection :=
  mkCollection None None None null_str None None None None (mkExchange [] InformationTypeNone 0 None).

Definition RedfishCollectionEntryPoint (g : global) : fw ec (option (EFI_STATUS * global)) :=
  match g with
  | Some _ => mret (Some (EFI_ALREADY_STARTED, g))
  | None =>
      p ← call (S := ec) AllocatePrivate;
      match p with
      | None => mret None
      | Some p =>
          Status ← call (S := ec) InstallConfigHandler;
          _ ← call_ (S := ec) CreateConverterEvent;
          _ ← call_ (S := ec) CreateFeatureEvent;
          mret (Some (Status, Some (p, fresh_collection)))
      end
  end.
End collection.
