(* ===== verification/EthCollectionSpec.v ===== *)
(** * The walk over the collection

    Which requests the collection driver makes of the resource driver, and in
    which order. *)

From S2P Require Import Prelude Services Uefi EdkStrings Json JsonLib EthIface EthIfaceDxe EthIfaceResources EthCollection.

(** ** Requests in a trace *)

Definition asked (e : event ec) : option (request * EFI_STATUS) :=
  match e with
  | Ev c r =>
      match c as c return ec_res c -> option (request * EFI_STATUS) with
      | EdkIIRedfishResourceConfigIdentify _ u _ => fun r => Some (Identify u, fst r)
      | EdkIIRedfishResourceConfigCheck _ u => fun st => Some (CheckR u, st)
      | EdkIIRedfishResourceConfigProvisioning _ u _ post => fun r => Some (Provision u post, fst r)
      | EdkIIRedfishResourceConfigConsume _ u => fun st => Some (Consume u, st)
      | EdkIIRedfishResourceConfigUpdate _ u => fun st => Some (Update u, st)
      | _ => fun _ => None
      end r
  end.
Definition requests (t : list (event ec)) : list (request * EFI_STATUS) := omap asked t.

(** The structure the collection was converted to. *)
Definition converted (e : event ec) : option ETHERNETINTERFACECOLLECTION_CS :=
  match e with
  | Ev c r =>
      match c as c return ec_res c -> option ETHERNETINTERFACECOLLECTION_CS with
      | ToStructure _ => fun r => if EFI_ERROR (fst r) then None else Some (snd (snd r))
      | _ => fun _ => None
      end r
  end.
Definition structure_of (t : list (event ec)) : option ETHERNETINTERFACECOLLECTION_CS := head (omap converted t).

Definition populated (Cs : ETHERNETINTERFACECOLLECTION_CS) : bool :=
  match Membersodata_count Cs, Members Cs with Some n, _ :: _ => negb (n =? 0) | _, _ => false end.
Definition uris (l : list member_link) : list (list Z) := omap (fun m => match m with UriLink u => Some u | OtherLink _ => None end) l.

(** A configure language recorded by an earlier boot was found. *)
Definition remembered (e : event ec) : bool :=
  match e with
  | Ev c r => match c as c return ec_res c -> bool with RedfishGetConfigLanguage _ => fun r => negb (is_null r) | _ => fun _ => false end r
  end.
(** The member's schema could not be read, or memory ran out. *)
Definition gave_up (e : event ec) : bool :=
  match e with
  | Ev c r =>
      match c as c return ec_res c -> bool with
      | GetRedfishSchemaInfo _ _ _ => fun r => EFI_ERROR (fst r)
      | AllocateLangList => fun r => is_null r
      | _ => fun _ => false
      end r
  end.

(** ** The visit of one member *)

(** Nothing needs to be identified that an earlier boot remembered. *)
Definition identification (u : str) (t : list (event ec)) (pre : list (request * EFI_STATUS)) : Prop :=
  if existsb remembered t then pre = [] else exists st, EFI_ERROR st = false /\ pre = [(Identify u, st)].

Inductive visit (u : str) (t : list (event ec)) : Prop :=
  | visit_skipped : requests t = [] -> s_text u = [] \/ existsb gave_up t = true -> visit u t
  | visit_foreign st :
      existsb remembered t = false -> EFI_ERROR st = true -> requests t = [(Identify u, st)] -> visit u t
  | visit_provisioned pre st st' :
      identification u t pre -> EFI_ERROR st = true -> requests t = pre ++ [(CheckR u, st); (Provision u false, st')] -> visit u t
  | visit_synced pre st st1 st2 :
      identification u t pre -> EFI_ERROR st = false ->
      requests t = pre ++ [(CheckR u, st); (Consume u, st1); (Update u, st2)] -> visit u t.

Definition visited (u : list Z) (t : list (event ec)) : Prop := exists p, visit (mkStr p u) t.

Section walk.
Context `{EdkStrings, JsonLib}.

Lemma requests_app t t' : requests (t ++ t') = requests t ++ requests t'.
Proof. apply omap_app. Qed.

Lemma requests_cons e t : asked e = None -> requests (e :: t) = requests t.
Proof. intros He. unfold requests. cbn. by rewrite He. Qed.

(** What follows the identification. *)
Inductive driven (u : str) (t : list (event ec)) : Prop :=
  | driven_provision st st' : EFI_ERROR st = true -> requests t = [(CheckR u, st); (Provision u false, st')] -> driven u t
  | driven_sync st st1 st2 :
      EFI_ERROR st = false -> requests t = [(CheckR u, st); (Consume u, st1); (Update u, st2)] -> driven u t.

Lemma drive_driven P s u : wp (drive_resource P s u) (fun _ t => driven u t /\ existsb remembered t = false).
Proof.
  unfold drive_resource. apply wp_call_bind. intros st. destruct (EFI_ERROR st) eqn:E.
  - apply wp_call_bind. intros [st' x]. apply wp_ret. split; [by eapply driven_provision|done].
  - apply wp_bind, wp_call_. intros st1. apply wp_call_bind. intros st2. apply wp_ret. split; [by eapply driven_sync|done].
Qed.

Lemma driven_visit u t0 t pre :
  driven u t -> requests t0 = pre -> identification u (t0 ++ t) pre -> visit u (t0 ++ t).
Proof.
  intros [st st' E Hr|st st1 st2 E Hr] Hp Hi.
  - apply (visit_provisioned u _ pre st st'); [done..|]. by rewrite requests_app, Hp, Hr.
  - apply (visit_synced u _ pre st st1 st2); [done..|]. by rewrite requests_app, Hp, Hr.
Qed.

Lemma record_quiet P lang : wp (record_history P lang) (fun r t => requests t = [] /\ existsb remembered t = false
  /\ match r with Some (st, _) => EFI_ERROR st = true -> existsb gave_up t = true | None => True end).
Proof.
  unfold record_history. apply wp_call_bind. intros [st [o i]]. destruct (negb (EFI_ERROR st) || (st =? EFI_NOT_FOUND)); [|by apply wp_ret].
  cbv zeta. apply wp_call_bind. intros [p|]; [|by apply wp_ret]. destruct o; [|by apply wp_ret].
  apply wp_call_bind. intros c. by apply wp_ret.
Qed.

(** Only a fault keeps a member from being visited. *)
Lemma handle_visit P u : wp (HandleResource P u) (fun r t => is_Some r -> visit u t).
Proof.
  unfold HandleResource. destruct (empty_uri u) eqn:Hu.
  { apply wp_ret. intros _. apply visit_skipped; [done|left]. unfold empty_uri in Hu. by destruct (s_text u). }
  apply wp_call_bind. intros [st s]. destruct (EFI_ERROR st) eqn:E.
  { apply wp_ret. intros _. apply visit_skipped; [done|right]. cbn. by rewrite E. }
  apply wp_call_bind. intros [lang|].
  - apply wp_bind. eapply wp_mono; [|apply record_quiet]. cbn beta. intros [[st1 P1]|] t (Hr & Hk & Hg).
    2:{ apply wp_ret. by intros []. }
    destruct (EFI_ERROR st1) eqn:E1.
    + apply wp_ret. intros _. rewrite app_nil_r. apply visit_skipped; [exact Hr|right]. cbn. by rewrite E, Hg.
    + apply wp_bind, wp_call_. intros ?. apply wp_bind. eapply wp_mono; [|apply drive_driven]. cbn beta. intros r' t' [Hd Hk'].
      apply wp_ret. intros _. rewrite app_nil_r. rewrite (assoc_L (++)).
      apply (driven_visit u (_ :: _ :: t ++ [_]) t' []); [done| |done]. rewrite !requests_cons by done.
      by rewrite requests_app, Hr.
  - apply wp_call_bind. intros [st1 x]. cbv zeta. destruct (EFI_ERROR st1) eqn:E1.
    + apply wp_ret. intros _. by apply (visit_foreign u _ st1).
    + apply wp_bind. eapply wp_mono; [|apply drive_driven]. cbn beta. intros r t' [Hd Hk']. apply wp_ret. intros _. rewrite app_nil_r.
      apply (driven_visit u [_; _; _] t' [(Identify u, st1)]); [done..|]. unfold identification. cbn. rewrite Hk'. eauto.
Qed.

Lemma identification_pad u a t b pre :
  existsb remembered a = false -> existsb remembered b = false ->
  identification u t pre -> identification u (a ++ t ++ b) pre.
Proof. intros Ha Hb. unfold identification. by rewrite !existsb_app, Ha, Hb, orb_false_r. Qed.

(** Events that are no requests may surround a visit. *)
Lemma visit_pad u a t b :
  requests a = [] -> requests b = [] -> existsb remembered a = false -> existsb remembered b = false ->
  visit u t -> visit u (a ++ t ++ b).
Proof.
  intros Hra Hrb Ha Hb Hv.
  assert (Hr : requests (a ++ t ++ b) = requests t) by (by rewrite !requests_app, Hra, Hrb, app_nil_r).
  destruct Hv as [Hn Hc|st Hk E Hi|pre st st' Hi E Hq|pre st st1 st2 Hi E Hq]; rewrite <- Hr in *.
  - apply visit_skipped; [done|]. destruct Hc as [Hc|Hc]; [by left|right]. by rewrite !existsb_app, Hc, orb_true_r.
  - apply (visit_foreign u _ st); [|done..]. by rewrite !existsb_app, Ha, Hb, Hk.
  - eapply visit_provisioned; [by apply identification_pad|done..].
  - eapply visit_synced; [by apply identification_pad|done..].
Qed.

Lemma members_walk l P :
  wp (handle_members P l) (fun r t => is_Some r -> exists segs, t = concat segs /\ Forall2 visited (uris l) segs).
Proof.
  revert P. induction l as [|[u|k] l IH]; intros P; cbn [handle_members].
  - apply wp_ret. intros _. by exists [].
  - apply wp_call_bind. intros [p|]; [|by apply wp_ret; intros []]. cbv zeta. apply wp_bind.
    eapply wp_mono; [|apply handle_visit]. cbn beta. intros [[st P']|] t Hv; [|by apply wp_ret; intros []].
    apply wp_bind, wp_call_. intros q. eapply wp_mono; [|apply IH]. cbn beta. intros r t' Ht' Hr.
    destruct (Ht' Hr) as (segs & -> & Hs). exists (([Ev (S := ec) (StrAsciiToUnicode u) (Some p)] ++ t
      ++ [Ev (S := ec) (EthCollection.FreePool p) q]) :: segs).
    split; [cbn; by rewrite <- (assoc_L (++))|]. constructor; [|done]. exists p. apply visit_pad; try done. by apply Hv.
  - apply IH.
Qed.

(** ** The whole callback *)

Definition creation (u : str) (rs : list (request * EFI_STATUS)) : Prop := rs = [] \/ exists st, rs = [(Provision u true, st)].

(** The converter itself answered EFI_NOT_FOUND. *)
Definition unconvertible (e : event ec) : bool :=
  match e with
  | Ev c r => match c as c return ec_res c -> bool with ToStructure _ => fun r => fst r =? EFI_NOT_FOUND | _ => fun _ => false end r
  end.

Definition walked (u : str) (t : list (event ec)) : Prop :=
  match structure_of t with
  | Some Cs =>
      if populated Cs then
        exists pre segs post, t = pre ++ concat segs ++ post /\ requests pre = [] /\ requests post = []
          /\ Forall2 visited (uris (Members Cs)) segs
      else creation u (requests t)
  | None => if existsb unconvertible t then creation u (requests t) else requests t = []
  end.

Definition about_driver (c : ec_op) : bool :=
  match c with
  | ToStructure _ | EdkIIRedfishResourceConfigIdentify _ _ _ | EdkIIRedfishResourceConfigCheck _ _
  | EdkIIRedfishResourceConfigProvisioning _ _ _ _ | EdkIIRedfishResourceConfigConsume _ _ | EdkIIRedfishResourceConfigUpdate _ _ => false
  | _ => true
  end.
Abbreviation idle t := (Forall (fun e : event ec => about_driver (ev_op e) = true) t).

Lemma idle_requests t : idle t -> requests t = [] /\ omap converted t = [] /\ existsb unconvertible t = false.
Proof.
  induction 1 as [|[c r] t He _ (IH1 & IH2 & IH3)]; [done|]. unfold requests in *. cbn [omap list_omap existsb].
  rewrite IH1, IH2, IH3. by destruct c.
Qed.

Lemma walked_pad u a t b : idle a -> idle b -> walked u t -> walked u (a ++ t ++ b).
Proof.
  intros (Ha1 & Ha2 & Ha3)%idle_requests (Hb1 & Hb2 & Hb3)%idle_requests. unfold walked, structure_of.
  rewrite !omap_app, Ha2, Hb2, !existsb_app, Ha3, Hb3, !requests_app, Ha1, Hb1, !app_nil_r, orb_false_r. cbn [app orb].
  destruct (head (omap converted t)) as [Cs|]; [|done]. destruct (populated Cs); [|done].
  intros (pre & segs & post & -> & Hp & Hq & Hs). exists (a ++ pre), segs, (post ++ b).
  rewrite !requests_app, Ha1, Hb1, Hp, Hq. split_and!; try done. by rewrite <- !(assoc_L (++)).
Qed.

(** The collection was read and has no members. *)
Definition vacant (t : list (event ec)) : Prop :=
  requests t = [] /\ match structure_of t with Some Cs => populated Cs = false | None => existsb unconvertible t = true end.

Lemma vacant_walked u t t' : vacant t -> omap converted t' = [] -> creation u (requests t') -> walked u (t ++ t').
Proof.
  intros [Hr Hv] Hc Hq. unfold walked. rewrite requests_app, Hr, existsb_app. unfold structure_of in *. rewrite omap_app, Hc, app_nil_r.
  destruct (head (omap converted t)); rewrite Hv; done.
Qed.

Lemma collection_walked P :
  wp (HandleCollectionResource P) (fun r t => forall st P', r = Some (st, P') ->
    if st =? EFI_NOT_FOUND then vacant t else forall u, walked u t).
Proof.
  unfold HandleCollectionResource. destruct (JsonStructProtocol P); [|by apply wp_ret; intros ? ? [= <- <-]].
  destruct (CollectionJson P) as [j|]; [|by apply wp_ret; intros ? ? [= <- <-]].
  apply wp_call_bind. intros [st [p Cs]]. destruct (EFI_ERROR st) eqn:E.
  { apply wp_ret. intros ? ? [= <- <-]. unfold vacant, walked, structure_of. cbn. rewrite E, orb_false_r. by destruct (st =? EFI_NOT_FOUND) eqn:En. }
  assert (Hv : forall r : unit, populated Cs = false ->
            vacant [Ev (S := ec) (ToStructure (s_text j)) (st, (p, Cs)); Ev (S := ec) (DestroyStructure p) r]).
  { intros r Hp. unfold vacant, structure_of. cbn. by rewrite E. }
  unfold populated in Hv. destruct (Membersodata_count Cs) as [n|] eqn:Hn; [|by apply wp_ret; intros ? ? [=]].
  destruct (n =? 0) eqn:Hz.
  { apply wp_bind, wp_call_. intros r. apply wp_ret. intros ? ? [= <- <-]. apply Hv. by destruct (Members Cs). }
  destruct (Members Cs) as [|m l] eqn:Hm.
  { apply wp_bind, wp_call_. intros r. apply wp_ret. intros ? ? [= <- <-]. by apply Hv. }
  apply wp_bind. eapply wp_mono; [|apply members_walk]. cbn beta. intros [P1|] t Hw; [|by apply wp_ret; intros ? ? [=]].
  apply wp_bind, wp_call_. intros r. apply wp_ret. intros ? ? [= <- <-]. change (EFI_SUCCESS =? EFI_NOT_FOUND) with false. intros u.
  destruct (Hw ltac:(by eexists)) as (segs & -> & Hs). unfold walked, structure_of. cbn. rewrite E. cbn. unfold populated. rewrite Hn, Hm, Hz.
  by exists [Ev (S := ec) (ToStructure (s_text j)) (st, (p, Cs))], segs, [Ev (S := ec) (DestroyStructure p) r].
Qed.

Lemma release_idle P : wp (ReleaseCollectionResource P) (fun r t => idle t /\ CollectionUri (snd r) = CollectionUri P).
Proof.
  unfold ReleaseCollectionResource, FreeText. apply wp_bind, wp_call_. intros ?. apply wp_bind.
  destruct (CollectionJson P); [apply wp_call_; intros ?|apply wp_ret]; apply wp_bind;
    (destruct (RedfishVersion P); [apply wp_call_; intros ?|apply wp_ret]); apply wp_ret; split; by repeat constructor.
Qed.

Lemma create_creation P :
  wp (CreateCollectionResource P)
    (fun r t => omap converted t = [] /\ creation (CollectionUri P) (requests t) /\ CollectionUri (snd r) = CollectionUri P).
Proof.
  unfold CreateCollectionResource. apply wp_call_bind. intros [st s]. destruct (EFI_ERROR st).
  { apply wp_ret. split_and!; [done|by left|done]. }
  apply wp_call_bind. intros [st' x]. apply wp_ret. split_and!; [done|right; by eexists|done].
Qed.

Lemma walked_idle u t : idle t -> walked u t.
Proof. intros (Hr & Hc & Hu)%idle_requests. unfold walked, structure_of. by rewrite Hc, Hu. Qed.

Lemma handler_walked P :
  wp (CollectionHandler P) (fun r t => forall st P', r = Some (st, P') -> walked (CollectionUri P') t).
Proof.
  unfold CollectionHandler. apply wp_call_bind. intros [st R]. cbv beta iota. unfold obind at 1. eapply wp_seq
    with (R := fun r t => forall st P', r = Some (st, P') -> walked (CollectionUri P') t).
  - destruct (EFI_ERROR st); [apply wp_ret; intros ? ? _; by apply walked_idle|].
    destruct (R ≫= rsp_payload) as [v|]; [|by apply wp_ret; intros ? ? [=]].
    apply wp_call_bind. intros [j|]; [|by apply wp_ret; intros ? ? [=]]. cbv zeta.
    eapply wp_seq; [apply collection_walked|]. cbn beta. intros [[st1 P1]|] t Hw; [|by apply wp_ret; intros ? ? [=]].
    specialize (Hw st1 P1 eq_refl). destruct (EFI_ERROR st1 && (st1 =? EFI_NOT_FOUND)) eqn:E.
    + apply andb_prop in E as [_ E]. rewrite E in Hw. apply wp_bind. eapply wp_mono; [|apply create_creation].
      cbn beta. intros [st2 P2] t' (Hc & Hq & Hu). apply wp_ret. rewrite app_nil_r. intros ? ? [= <- <-]. cbn [snd] in Hu. rewrite Hu.
      assert (Hx : walked (CollectionUri P1) ([Ev (S := ec) (JsonDump v) (Some j)] ++ (t ++ t') ++ [])).
      { apply walked_pad; [by repeat constructor|done|by apply vacant_walked]. }
      by rewrite app_nil_r in Hx.
    + apply wp_ret. rewrite app_nil_r. intros ? ? [= <- <-]. apply andb_false_iff in E. 
      assert (Hx : walked (CollectionUri P1) ([Ev (S := ec) (JsonDump v) (Some j)] ++ t ++ [])).
      { apply walked_pad; [by repeat constructor|done|]. destruct (st1 =? EFI_NOT_FOUND) eqn:En; [|done].
        apply Z.eqb_eq in En as ->. by destruct E. }
      by rewrite app_nil_r in Hx.
  - cbn beta. intros [[st1 P1]|] t Hw; [|by apply wp_ret; intros ? ? [=]]. apply wp_bind.
    eapply wp_mono; [|apply release_idle]. cbn beta. intros [st2 P2] t' [Hi Hu]. apply wp_ret. rewrite app_nil_r.
    intros ? ? [= <- <-]. cbn [snd] in Hu. rewrite Hu.
    apply (walked_pad _ [Ev (S := ec) (RedfishHttpGetResource (RedfishService P) (CollectionUri P)) (st, R)] t t');
      [by repeat constructor|done|by apply (Hw st1)].
Qed.

(** C17: What the callback does to the collection.  When the BMC's collection
    has members, the trace is one visit per member URI, in the collection's
    order, and nothing else is asked of the resource driver: a member whose
    schema cannot be read is skipped, and one failure never stops the walk; a
    member is identified only when no earlier boot remembered it; it is
    checked before anything is sent; it is provisioned by PATCH when the
    check fails, and otherwise first consumed, then updated, even when the
    consume failed.  A member is created by POST only when the collection was
    read and is empty (or the converter finds nothing in it), at most once,
    and at the collection's URI.  When the collection cannot be read, nothing
    is asked at all. *)
Theorem collection_walk (P : collection) (a : FEATURE_CALLBACK_ACTION) (x : exchange) (tr : list (event ec))
    (st : EFI_STATUS) (P' : collection) (Hex : exec (RedfishCollectionFeatureCallback P a x) tr (Some (st, P'))) :
  walked (CollectionUri P') tr.
Proof.
  assert (Hw : wp (RedfishCollectionFeatureCallback P a x) (fun r t => forall st P', r = Some (st, P') -> walked (CollectionUri P') t)).
  { unfold RedfishCollectionFeatureCallback. destruct a; [|apply wp_ret; intros ? ? _; by apply walked_idle].
    destruct (RedfishService P) as [svc|]; [|apply wp_ret; intros ? ? _; by apply walked_idle].
    apply wp_call_bind. intros v. cbv zeta. apply wp_call_bind. intros [m|]; [|apply wp_ret; intros ? ? _; apply walked_idle; by repeat constructor].
    apply wp_call_bind. intros [u|]; [|by apply wp_ret; intros ? ? [=]].
    apply wp_bind. eapply wp_mono; [|apply handler_walked]. cbn beta. intros [[st1 P1]|] t Hw; [|by apply wp_ret; intros ? ? [=]].
    apply wp_ret. intros ? ? [= <- <-]. apply (walked_pad _ [_; _; _] t []); [by repeat constructor|done|by apply (Hw st1)]. }
  exact (proj1 (wp_exec _ _) Hw _ _ Hex st P' eq_refl).
Qed.
End walk.

(** ** A BMC with two members, the second one new *)

Definition eth0 : list Z := lit "/redfish/v1/Systems/1/EthernetInterfaces/eth0".
Definition eth1 : list Z := lit "/redfish/v1/Systems/1/EthernetInterfaces/eth1".
Definition two_members : ETHERNETINTERFACECOLLECTION_CS := mkCollectionCs (Some 2) [UriLink eth0; OtherLink 3; UriLink eth1].
Definition sent : exchange := mkExchange (lit "/Systems/1/EthernetInterfaces") InformationTypeNone 0 None.
Definition schema_1_8 : schema_info := resource_info.

Definition collection_env (Cs : ETHERNETINTERFACECOLLECTION_CS) : handler ec unit := fun c w =>
  match c as c return ec_res c * unit with
  | RedfishHttpGetResource _ _ => ((EFI_SUCCESS, Some (mkRsp 1 (Some (JObj [])))), w)
  | RedfishGetVersion _ => (Some (mkStr 2 (lit "/redfish/v1")), w)
  | RedfishGetUri t => (Some (mkStr 3 t), w)
  | RedfishGetConfigLanguage u =>
      (if bool_decide (s_text u = eth0) then Some (mkStr 4 (lit "/EthernetInterfaces/{1}/")) else None, w)
  | StrAsciiToUnicode _ => (Some 5, w)
  | AllocateCopyLang _ => (Some 6, w)
  | GetRedfishSchemaInfo _ _ _ | GetSupportedSchemaVersion _ => ((EFI_SUCCESS, schema_1_8), w)
  | GetArrayIndexFromArrayTypeConfigureLang l => ((EFI_SUCCESS, (Some l, 1)), w)
  | EdkIIRedfishResourceConfigIdentify _ _ x | EdkIIRedfishResourceConfigProvisioning _ _ x _ => ((EFI_SUCCESS, x), w)
  | EdkIIRedfishResourceConfigCheck _ u => (if bool_decide (s_text u = eth0) then EFI_SUCCESS else EFI_NOT_FOUND, w)
  | EdkIIRedfishResourceConfigConsume _ _ => (EFI_DEVICE_ERROR, w)
  | EdkIIRedfishResourceConfigUpdate _ _ => (EFI_SUCCESS, w)
  | ToStructure _ => ((EFI_SUCCESS, (7, Cs)), w)
  | JsonDump _ => (Some 8, w)
  | AllocateLangList => (Some 9, w)
  | AllocateUri => (Some 10, w)
  | RedfishCreateService => (Some 11, w)
  | AllocatePrivate => (Some 12, w)
  | LocateRestJsonStructure => ((EFI_SUCCESS, Some 13), w)
  | LocateRedfishFeature => ((EFI_SUCCESS, 14), w)
  | RegisterFeature _ _ | InstallConfigHandler | UninstallConfigHandler => (EFI_SUCCESS, w)
  | OpenConfigHandler => ((EFI_SUCCESS, true), w)
  | RedfishHttpFreeResponse _ | DestroyStructure _ | EthCollection.FreePool _ | RedfishCleanupService _ | UnregisterFeature _ _
  | EthCollection.CloseEvent _ | CreateConverterEvent | CreateFeatureEvent => (tt, w)
  end.

Definition started_collection : REDFISH_COLLECTION_PRIVATE :=
  mkCollection (Some 11) (Some 13) (Some 14) null_str None None None None sent.
Definition callback_run : fw ec (option (EFI_STATUS * REDFISH_COLLECTION_PRIVATE)) :=
  RedfishCollectionFeatureCallback started_collection CallbackActionStartOperation sent.

(** eth0 is remembered and synced although the consume fails; eth1 is
    identified and provisioned; an empty collection gets a member. *)
Lemma collection_walk_witness :
  exists P, walked (CollectionUri P) (run_trace (collection_env two_members) callback_run tt)
  /\ requests (run_trace (collection_env two_members) callback_run tt)
     = [(CheckR (mkStr 5 eth0), EFI_SUCCESS); (Consume (mkStr 5 eth0), EFI_DEVICE_ERROR); (Update (mkStr 5 eth0), EFI_SUCCESS);
        (Identify (mkStr 5 eth1), EFI_SUCCESS); (CheckR (mkStr 5 eth1), EFI_NOT_FOUND); (Provision (mkStr 5 eth1) false, EFI_SUCCESS)]
  /\ requests (run_trace (collection_env (mkCollectionCs (Some 0) [])) callback_run tt)
     = [(Provision (mkStr 3 (lit "/redfish/v1/Systems/1/EthernetInterfaces")) true, EFI_SUCCESS)].
Proof.
  pose proof (exec_run (collection_env two_members) callback_run tt) as Hex.
  destruct (run_val (collection_env two_members) callback_run tt) as [[st P]|] eqn:E; [|vm_compute in E; discriminate E].
  exists P. split; [exact (collection_walk _ _ _ _ _ _ Hex)|]. split; vm_compute; reflexivity.
Defined.
