(* ===== verification/EthCollectionResources.v ===== *)
(** * Resources of the collection driver

    The answer to the GET, its text and structure, the version, the member
    URIs and the remembered configure languages are given back by the
    operation that got them.  The URI buffers, and the configure languages and
    lists built for the feature core, are never given back. *)

From S2P Require Import Prelude Services Uefi Pool EdkStrings Json JsonLib EthIface EthIfaceDxe EthIfaceResources EthCollection EthCollectionSpec.
From stdpp Require Import gmultiset.
#[local] Open Scope Z_scope.

(** What is held, and which of it was obtained through a call whose result the
    driver keeps; or [None] once an allocation of the driver's own failed: on
    those paths it returns early and leaves things behind. *)
Abbreviation ledger := (option (gmultiset held * gmultiset held)) (only parsing).

Definition got (m : ledger) (h : option held) : ledger := (fun m => (allocates (fst m) h, snd m)) <$> m.
Definition gave (m : ledger) (h : held) : option ledger :=
  match m with None => Some None | Some m => (fun q => Some (q, snd m)) <$> frees (fst m) h end.
(** Held for good. *)
Definition more (k : gmultiset held) (m : ledger) : ledger := (fun m => (fst m ⊎ k, snd m ⊎ k)) <$> m.
Definition kept (m : ledger) (h : option held) : ledger := more (allocates ∅ h) m.

(** GetArrayIndexFromArrayTypeConfigureLang allocates the language it returns,
    with or without an index in it. *)
Definition collection_step (m : ledger) (e : event ec) : option ledger :=
  match e with
  | Ev c r =>
      match c as c return ec_res c -> option ledger with
      | RedfishHttpGetResource _ _ => fun r => Some (got m (rsp_held (snd r)))
      | RedfishHttpFreeResponse q => fun _ => match q with Some q => gave m (Rsp q) | None => Some m end
      | RedfishGetVersion _ => fun r => Some (got m (str_held r))
      | RedfishGetConfigLanguage _ => fun r => Some (got m (str_held r))
      | ToStructure _ => fun r => Some (if EFI_ERROR (fst r) then m else got m (Some (Structure (fst (snd r)))))
      | DestroyStructure p => fun _ => gave m (Structure p)
      | JsonDump _ => fun r => Some (got m (Mem <$> r))
      | StrAsciiToUnicode _ => fun r => Some (got m (Mem <$> r))
      | GetArrayIndexFromArrayTypeConfigureLang _ => fun r =>
          Some (if negb (EFI_ERROR (fst r)) || (fst r =? EFI_NOT_FOUND) then kept m (str_held (fst (snd r))) else m)
      | RedfishGetUri _ => fun r => Some (kept m (str_held r))
      | AllocateCopyLang _ => fun r => Some (kept m (Mem <$> r))
      | AllocateLangList => fun r => Some (if is_null r then None else kept m (Mem <$> r))
      | AllocateUri => fun r => Some (if is_null r then None else kept m (Mem <$> r))
      | EthCollection.FreePool p => fun _ => gave m (Mem p)
      | _ => fun _ => Some m
      end r
  end.

Lemma gave_last m h : gave (got m (Some h)) h = Some m.
Proof. destruct m as [[m k]|]; [|done]. unfold gave, got. cbn. by rewrite frees_last. Qed.
Lemma gave_under m x h q : gave m h = Some q -> gave (got m (Some x)) h = Some (got q (Some x)).
Proof.
  destruct m as [[m k]|]; cbn; [|by intros [= <-]]. destruct (frees m h) as [m'|] eqn:E; [|done]. intros [= <-].
  unfold gave, got. cbn. by rewrite (frees_under m x h m').
Qed.
Lemma gave_more m k h q : gave m h = Some q -> gave (more k m) h = Some (more k q).
Proof.
  destruct m as [[m l]|]; cbn; [|by intros [= <-]]. unfold frees. destruct (decide (h ∈ m)); [|done]. intros [= <-].
  cbn. rewrite decide_True by multiset_solver. cbn. do 3 f_equal. multiset_solver.
Qed.
Lemma got_none m : got m None = m.
Proof. by destruct m as [[]|]. Qed.
Lemma more_got k m h : more k (got m h) = got (more k m) h.
Proof. destruct m as [[m l]|]; [|done]. destruct h; [|done]. unfold more, got. cbn. f_equal. f_equal. multiset_solver. Qed.

(** [m'] is [m] and things held for good. *)
Definition grew (m m' : ledger) : Prop := exists k, m' = more k m.
Lemma more_empty m : more ∅ m = m.
Proof. destruct m as [[m l]|]; [|done]. cbn. by rewrite !(right_id_L ∅ (⊎)). Qed.
Lemma grew_refl m : grew m m.
Proof. exists ∅. by rewrite more_empty. Qed.
Lemma grew_more m m' k : grew m m' -> grew m (more k m').
Proof. intros [l ->]. exists (l ⊎ k). destruct m as [[m n]|]; [|done]. cbn. by rewrite !(assoc_L (⊎)). Qed.
Lemma grew_trans m m' m'' : grew m m' -> grew m' m'' -> grew m m''.
Proof. intros H [k ->]. by apply grew_more. Qed.
Hint Resolve grew_refl grew_more : nuc.

Ltac solve_gave := first [apply gave_last | apply gave_under; solve_gave | apply gave_more; solve_gave].

Ltac ledger_call :=
  match goal with
  | |- exists m', collection_step _ _ = Some m' /\ _ =>
      cbn [collection_step fst snd]; eexists; (split; [first [reflexivity | solve_gave]|]);
      cbn [str_held rsp_held fmap option_fmap option_map is_null s_ptr rsp_id fst snd]; unfold kept; rewrite ?got_none
  end.
Ltac ledger_step := first [ledger_call | mon_step].
Ltac ledger_go := repeat ledger_step.

Section release.
Context `{EdkStrings, JsonLib}.

(** From a lost ledger nothing matters. *)
Lemma step_lost e : collection_step None e = Some None.
Proof.
  destruct e as [c r]. destruct c; cbn; try done; [by destruct r0|by destruct (_ || _)|by destruct (EFI_ERROR _)|by destruct (is_null _)..].
Qed.
Lemma mon_lost {A} (p : fw ec A) : mon collection_step None p (fun _ m' => m' = None).
Proof.
  induction p as [a|c k IH]; [by apply mon_ret|]. intros r. eapply wp_mono; [|apply IH]. cbn beta.
  intros a t (m' & Hm & ->). exists None. split; [|done]. cbn [monitor]. by rewrite step_lost.
Qed.

(** What the context holds between calls, and that it survives a member. *)
Definition same (P P' : REDFISH_COLLECTION_PRIVATE) : Prop :=
  Response P' = Response P /\ CollectionJson P' = CollectionJson P /\ RedfishVersion P' = RedfishVersion P.
Definition clear (P : REDFISH_COLLECTION_PRIVATE) : Prop := Response P = None /\ CollectionJson P = None /\ RedfishVersion P = None.

Definition intact {A} (P : REDFISH_COLLECTION_PRIVATE) (m : ledger) (r : option (A * REDFISH_COLLECTION_PRIVATE)) (m' : ledger) : Prop :=
  forall a P', r = Some (a, P') -> m' = None \/ (grew m m' /\ same P P').

Lemma intact_lost {A} P m (r : option (A * REDFISH_COLLECTION_PRIVATE)) : intact P m r None.
Proof. intros ? ? _. by left. Qed.
Lemma intact_fault {A} P m m' : intact (A := A) P m None m'.
Proof. by intros ? ? [=]. Qed.
Lemma intact_same {A} P P' m m' (a : A) : grew m m' -> same P P' -> intact P m (Some (a, P')) m'.
Proof. intros Hg Hs ? ? [= <- <-]. by right. Qed.
Hint Resolve intact_lost intact_fault intact_same : nuc.
Lemma mon_ret_intact {A} P P' m m' (a : A) : grew m m' -> same P P' -> mon collection_step m' (mret (Some (a, P'))) (intact P m).
Proof. intros Hg Hs. apply mon_ret. auto with nuc. Qed.
Lemma lost_intact {A} P m (p : fw ec (option (A * REDFISH_COLLECTION_PRIVATE))) : mon collection_step None p (intact P m).
Proof. eapply mon_mono; [|apply mon_lost]. cbn beta. intros ? ? ->. auto with nuc. Qed.

Lemma drive_intact P P' s u m m' :
  grew m m' -> same P P' -> mon collection_step m' (r ← drive_resource P' s u; mret (Some r)) (intact P m).
Proof. intros Hg Hs. unfold drive_resource. ledger_go; by apply intact_same. Qed.

Lemma record_intact P lang m :
  mon collection_step m (record_history P lang) (fun r m' => forall st P', r = Some (st, P') ->
    m' = None \/ (grew m m' /\ EFI_ERROR st = false /\ same P P')).
Proof.
  unfold record_history. apply mon_bind, mon_call. intros [st [l Index]]. ledger_call. cbn [fst snd].
  destruct (negb (EFI_ERROR st) || (st =? EFI_NOT_FOUND)); ledger_go; intros ? ? Hr; try discriminate Hr; injection Hr as <- <-;
    first [by left | right; split; [auto with nuc|done]].
Qed.

Lemma handle_intact P u m : mon collection_step m (HandleResource P u) (intact P m).
Proof.
  unfold HandleResource. destruct (empty_uri u); [apply mon_ret_intact; auto with nuc; done|]. ledger_step. ledger_step. destruct r as [st s]. ledger_step.
  destruct (EFI_ERROR st); [apply mon_ret_intact; auto with nuc; done|]. ledger_step. ledger_step. destruct r as [lang|]; ledger_step.
  - apply mon_bind. eapply mon_mono; [|apply record_intact]. cbn beta. intros [[st1 P1]|] m' Hi; [|apply mon_ret; auto with nuc].
    destruct (Hi st1 P1 eq_refl) as [->|([k ->] & -> & Hs)]; [apply lost_intact|]. ledger_step. ledger_step. ledger_step.
    apply drive_intact; auto with nuc.
  - ledger_step. ledger_step. destruct r as [st1 x]. ledger_step. cbv zeta. destruct (EFI_ERROR st1); [apply mon_ret_intact; auto with nuc; done|].
    apply drive_intact; auto with nuc; done.
Qed.

Lemma same_trans P P1 P2 : same P P1 -> same P1 P2 -> same P P2.
Proof. unfold same. intuition congruence. Qed.

Lemma members_intact l P m :
  mon collection_step m (handle_members P l) (fun r => intact P m (pair tt <$> r)).
Proof.
  revert P m. induction l as [|[u|k] l IH]; intros P m; cbn [handle_members]; [apply mon_ret, intact_same; auto with nuc; done| |apply IH].
  ledger_step. ledger_step. destruct r as [p|]; ledger_step; [|apply mon_ret; auto with nuc].
  cbv zeta. apply mon_bind. eapply mon_mono; [|apply handle_intact]. cbn beta. intros [[st P1]|] m' Hi; [|apply mon_ret; auto with nuc].
  destruct (Hi st P1 eq_refl) as [->|[[k ->] Hs]].
  { eapply mon_mono; [|apply mon_lost]. cbn beta. intros ? ? ->. auto with nuc. }
  ledger_step. ledger_step. ledger_step. eapply mon_mono; [|apply IH]. cbn beta. intros [P2|] m' Hi2; [|auto with nuc].
  destruct (Hi2 tt P2 eq_refl) as [->|[Hg Hs2]]; [auto with nuc|].
  apply intact_same; [eapply grew_trans; [|exact Hg]; auto with nuc|by eapply same_trans].
Qed.

Lemma collection_intact P m : mon collection_step m (HandleCollectionResource P) (intact P m).
Proof.
  assert (Hnone : forall A (a : A), mon collection_step m (mret (Some (a, P))) (intact P m)) by (intros; apply mon_ret_intact; auto with nuc; done).
  unfold HandleCollectionResource. destruct (JsonStructProtocol P); [|apply Hnone].
  destruct (CollectionJson P) as [j|]; [|apply Hnone]. ledger_step. ledger_step. destruct r as [st [p Cs]]. ledger_step.
  destruct (EFI_ERROR st); [apply Hnone|]. destruct (Membersodata_count Cs); [|apply mon_ret; auto with nuc].
  destruct (_ =? 0); [ledger_go; apply intact_same; auto with nuc; done|].
  destruct (Members Cs) as [|l ms]; [ledger_go; apply intact_same; auto with nuc; done|].
  apply mon_bind. eapply mon_mono; [|apply members_intact]. cbn beta. intros [P1|] m' Hi; [|apply mon_ret; auto with nuc].
  destruct (Hi tt P1 eq_refl) as [->|[[k ->] Hs]]; [apply lost_intact|]. ledger_go. apply intact_same; auto with nuc.
Qed.

(** The end of every operation. *)
Definition holds (P : REDFISH_COLLECTION_PRIVATE) (m : ledger) : ledger :=
  got (got (got m (str_held (RedfishVersion P))) (rsp_held (Response P))) (str_held (CollectionJson P)).
Lemma more_holds k P m : more k (holds P m) = holds P (more k m).
Proof. unfold holds. by rewrite !more_got. Qed.

Definition cleared {A} (m : ledger) (r : option (A * REDFISH_COLLECTION_PRIVATE)) (m' : ledger) : Prop :=
  forall a P', r = Some (a, P') -> m' = None \/ (grew m m' /\ clear P').

Lemma release_ledger P m :
  mon collection_step (holds P m) (ReleaseCollectionResource P) (fun r m' => m' = m /\ clear (snd r)).
Proof.
  unfold ReleaseCollectionResource, FreeText, holds.
  destruct (RedfishVersion P), (Response P), (CollectionJson P); cbn [str_held rsp_held fmap option_fmap option_map]; rewrite ?got_none;
    ledger_go; done.
Qed.

Lemma cleared_fault {A} m m' : cleared (A := A) m None m'.
Proof. by intros ? ? [=]. Qed.
Lemma lost_cleared {A} m (p : fw ec (option (A * REDFISH_COLLECTION_PRIVATE))) : mon collection_step None p (cleared m).
Proof. eapply mon_mono; [|apply mon_lost]. cbn beta. intros ? ? -> ? ? _. by left. Qed.
Lemma cleared_unchanged {A} m (a : A) P : clear P -> cleared m (Some (a, P)) m.
Proof. intros Hc ? ? [= <- <-]. right. auto with nuc. Qed.
Hint Resolve cleared_fault cleared_unchanged : nuc.

Lemma holds_same P P' m : same P P' -> holds P' m = holds P m.
Proof. intros (H1 & H2 & H3). unfold holds. by rewrite H1, H2, H3. Qed.

Lemma handler_cleared P m :
  Response P = None -> CollectionJson P = None ->
  mon collection_step (got m (str_held (RedfishVersion P))) (CollectionHandler P) (cleared m).
Proof.
  intros Hr Hj. unfold CollectionHandler. ledger_step. ledger_step. destruct r as [st R]. ledger_step. apply mon_bind.
  eapply (mon_mono _ _ _ (fun r m' => forall st P', r = Some (st, P') -> m' = None \/ exists k, m' = holds P' (more k m))).
  - intros [[st1 P1]|] m' Hi; [|apply mon_ret; auto with nuc]. destruct (Hi st1 P1 eq_refl) as [->|[k ->]]; [apply lost_cleared|].
    apply mon_bind. eapply mon_mono; [|apply release_ledger]. cbn beta. intros [st2 P2] m'' [-> Hc]. apply mon_ret.
    intros ? ? [= <- <-]. right. auto with nuc.
  - destruct (EFI_ERROR st).
    { apply mon_ret. intros ? ? [= <- <-]. right. exists ∅. rewrite more_empty. unfold holds. cbn. by rewrite Hj, got_none. }
    destruct (R ≫= rsp_payload) as [v|]; [|by apply mon_ret; intros ? ? [=]]. ledger_step. ledger_step.
    destruct r as [j|]; ledger_step; [|by apply mon_ret; intros ? ? [=]]. cbv zeta.
    set (P1 := with_collection P R (Some v) (Some (mkStr j (JsonDumpString v)))). change (got _ _) with (holds P1 m).
    apply mon_bind. eapply mon_mono; [|apply collection_intact]. cbn beta. intros [[st1 P2]|] m' Hi; [|by apply mon_ret; intros ? ? [=]].
    destruct (Hi st1 P2 eq_refl) as [->|[[k ->] Hs]].
    { eapply mon_mono; [|apply mon_lost]. cbn beta. intros ? ? -> ? ? _. by left. }
    rewrite more_holds, <- (holds_same _ _ _ Hs). unfold CreateCollectionResource.
    destruct (EFI_ERROR st1 && _); ledger_go; intros ? ? [= <- <-]; right; by exists k.
Qed.

Lemma callback_cleared P a x m : clear P -> mon collection_step m (RedfishCollectionFeatureCallback P a x) (cleared m).
Proof.
  intros Hc. unfold RedfishCollectionFeatureCallback. destruct a; [|apply mon_ret; auto with nuc].
  destruct (RedfishService P); [|apply mon_ret; auto with nuc]. ledger_step. ledger_step. ledger_step. cbv zeta.
  ledger_step. ledger_step. destruct r0 as [b|]; ledger_step; [|apply mon_ret; intros ? ? _; by left].
  ledger_step. ledger_step. destruct r0 as [u|]; ledger_step; [|apply mon_ret; auto with nuc].
  apply mon_bind. destruct Hc as (Hr & Hj & _). rewrite !more_got.
  eapply mon_mono; [|exact (handler_cleared (with_uri (with_version (with_exchange P x) r) u) _ Hr Hj)].
  cbn beta. intros [[st1 P1]|] m' Hi; apply mon_ret; [|auto with nuc]. intros ? ? [= <- <-].
  destruct (Hi st1 P1 eq_refl) as [->|[Hg Hc]]; [by left|right]. split; [|exact Hc]. eapply grew_trans; [|exact Hg]. auto with nuc.
Qed.

Lemma holds_clear P m : clear P -> holds P m = m.
Proof. intros (H1 & H2 & H3). unfold holds. by rewrite H1, H2, H3, !got_none. Qed.

Lemma stop_cleared P m : clear P -> mon collection_step m (RedfishCollectionStop P) (fun r m' => m' = m /\ clear (snd r)).
Proof.
  intros Hc. unfold RedfishCollectionStop. apply mon_bind. eapply (mon_mono _ _ _ (fun P1 m' => m' = m /\ clear P1)).
  2:{ destruct (RedfishService P); ledger_go; done. }
  intros P1 ? [-> Hc1]. apply mon_bind. rewrite <- (holds_clear P1 m Hc1) at 1.
  eapply mon_mono; [|apply release_ledger]. cbn beta. intros [st P2] m' [-> Hc2]. cbn [snd] in Hc2.
  destruct (FeatureProtocol P2); ledger_go; done.
Qed.
End release.

(** ** Sessions *)

Inductive collection_call := CInit | CFeature (a : FEATURE_CALLBACK_ACTION) (x : exchange) | CStop.

Definition serve_collection `{EdkStrings, JsonLib} (P : REDFISH_COLLECTION_PRIVATE) (q : collection_call)
    : fw ec (option (EFI_STATUS * REDFISH_COLLECTION_PRIVATE)) :=
  match q with
  | CInit => r ← RedfishCollectionInit P; mret (Some r)
  | CFeature a x => RedfishCollectionFeatureCallback P a x
  | CStop => r ← RedfishCollectionStop P; mret (Some r)
  end.

Fixpoint collection_session `{EdkStrings, JsonLib} (P : REDFISH_COLLECTION_PRIVATE) (qs : list collection_call)
    : fw ec (option (unit * REDFISH_COLLECTION_PRIVATE)) :=
  match qs with
  | [] => mret (Some (tt, P))
  | q :: qs => '(_, P) ←? serve_collection P q; collection_session P qs
  end.

(** One of the driver's own allocations failed. *)
Definition refused (e : event ec) : bool :=
  match e with
  | Ev c r => match c as c return ec_res c -> bool with AllocateLangList | AllocateUri => fun r => is_null r | _ => fun _ => false end r
  end.

Section sessions.
Context `{EdkStrings, JsonLib}.

Lemma serve_cleared P q m : clear P -> mon collection_step m (serve_collection P q) (cleared m).
Proof.
  intros Hc. destruct q; cbn [serve_collection]; [|by apply callback_cleared|].
  - unfold RedfishCollectionInit. ledger_go. by apply cleared_unchanged.
  - apply mon_bind. eapply mon_mono; [|by apply stop_cleared]. cbn beta. intros [st P'] m' [-> Hc']. apply mon_ret. by apply cleared_unchanged.
Qed.

Lemma session_cleared qs P m : clear P -> mon collection_step m (collection_session P qs) (cleared m).
Proof.
  revert P m. induction qs as [|q qs IH]; intros P m Hc; cbn [collection_session]; [apply mon_ret; by apply cleared_unchanged|].
  apply mon_bind. eapply mon_mono; [|by apply serve_cleared]. cbn beta. intros [[st P1]|] m' Hi; [|apply mon_ret; by intros ? ? [=]].
  destruct (Hi st P1 eq_refl) as [->|[Hg Hc1]]; [apply lost_cleared|]. eapply mon_mono; [|by apply IH]. cbn beta.
  intros o m'' Ho a P2 Hp. destruct (Ho a P2 Hp) as [->|[Hg2 Hc2]]; [by left|right]. split; [by eapply grew_trans|done].
Qed.

Lemma step_refused m e m' : collection_step (Some m) e = Some m' -> (if refused e then m' = None else is_Some m').
Proof.
  destruct e as [c r]. destruct c; cbn; try (intros [= <-]; by eexists).
  - destruct r0; [|intros [= <-]; by eexists]. destruct (frees _ _); [|done]. intros [= <-]. by eexists.
  - intros [= <-]. destruct (_ || _); by eexists.
  - intros [= <-]. destruct (EFI_ERROR _); by eexists.
  - destruct (frees _ _); [|done]. intros [= <-]. by eexists.
  - destruct r; intros [= <-]; [by eexists|done].
  - destruct r; intros [= <-]; [by eexists|done].
  - destruct (frees _ _); [|done]. intros [= <-]. by eexists.
Qed.

Lemma monitor_lost t : monitor collection_step None t = Some None.
Proof. induction t as [|e t IH]; [done|]. cbn [monitor]. by rewrite step_lost. Qed.
Lemma monitor_refused t m m' :
  monitor collection_step (Some m) t = Some m' -> if existsb refused t then m' = None else is_Some m'.
Proof.
  revert m. induction t as [|e t IH]; intros m; cbn [monitor existsb]; [intros [= <-]; by eexists|].
  destruct (collection_step (Some m) e) as [m1|] eqn:E; [|done]. apply step_refused in E. destruct (refused e).
  - subst m1. rewrite monitor_lost. cbn. by intros [= <-].
  - destruct E as [m2 ->]. apply IH.
Qed.

(** C35: What a callback gives back, and what it does not.  Over any sequence
    of Init, callbacks and Stop on a context that holds nothing, with any
    answers: the collection's HTTP response, its text and converted structure,
    the service version, every member's URI and remembered configure language
    are released exactly once, before the call that obtained them returns,
    and the context's Response, CollectionJson and RedfishVersion are NULL
    again; nothing is released that is not held.  What is left is exactly what
    was obtained for good: the buffer each callback builds its URI in, the URI
    each one resolves, and for each remembered member the language without its
    index and the list and copy handed to the feature core.  The exception is
    an allocation of the URI buffer or of the list that was refused. *)
Theorem collection_releases (P : REDFISH_COLLECTION_PRIVATE) (qs : list collection_call) (tr : list (event ec)) (P' : REDFISH_COLLECTION_PRIVATE)
    (Hc : clear P) (Hex : exec (collection_session P qs) tr (Some (tt, P'))) (Hmem : existsb refused tr = false) :
  exists forever, monitor collection_step (Some (∅, ∅)) tr = Some (Some (forever, forever)) /\ clear P'.
Proof.
  destruct (mon_exec _ _ _ _ _ _ (session_cleared qs P (Some (∅, ∅)) Hc) Hex) as (m & Hm & Hi).
  pose proof (monitor_refused _ _ _ Hm) as Hl. rewrite Hmem in Hl.
  destruct (Hi tt P' eq_refl) as [->|[[k ->] Hc']]; [by destruct Hl|]. exists k. split; [|exact Hc'].
  rewrite Hm. unfold more. cbn [fmap option_fmap option_map fst snd]. by rewrite !(left_id_L ∅ (⊎)).
Qed.
End sessions.

Definition two_boots : list collection_call :=
  [CInit; CFeature CallbackActionStartOperation sent; CFeature (CallbackActionOther 1) sent; CStop; CInit; CFeature CallbackActionStartOperation sent].
Definition idle_collection : REDFISH_COLLECTION_PRIVATE := mkCollection None (Some 13) (Some 14) null_str None None None None sent.

Lemma collection_releases_witness :
  exists forever P',
    run_val (collection_env two_members) (collection_session idle_collection two_boots) tt = Some (tt, P')
    /\ monitor collection_step (Some (∅, ∅)) (run_trace (collection_env two_members) (collection_session idle_collection two_boots) tt)
       = Some (Some (forever, forever))
    /\ clear P'.
Proof.
  pose proof (exec_run (collection_env two_members) (collection_session idle_collection two_boots) tt) as Hex.
  destruct (run_val (collection_env two_members) (collection_session idle_collection two_boots) tt) as [[[] P]|] eqn:E;
    [|vm_compute in E; discriminate E].
  destruct (collection_releases idle_collection two_boots _ P (conj eq_refl (conj eq_refl eq_refl)) Hex eq_refl) as (k & Hm & Hc).
  exists k, P. split; [reflexivity|]. split; [exact Hm|exact Hc].
Defined.

(** After those two callbacks ten allocations are left, and the context's
    CollectionPayload still points into a response that was released. *)
Theorem callbacks_leak :
  (exists forever, monitor collection_step (Some (∅, ∅)) (run_trace (collection_env two_members) (collection_session idle_collection two_boots) tt)
     = Some (Some (forever, forever)) /\ size forever = 10%nat)
  /\ match run_val (collection_env two_members) (collection_session idle_collection two_boots) tt with
     | Some (_, P) => Response P = None /\ CollectionPayload P = Some (JObj [])
     | None => False
     end.
Proof.
  split; [|by vm_compute].
  assert (Hs : option_map (option_map (fun m => (size (fst m), bool_decide (fst m = snd m))))
    (monitor collection_step (Some (∅, ∅)) (run_trace (collection_env two_members) (collection_session idle_collection two_boots) tt))
    = Some (Some (10%nat, true))) by (vm_compute; reflexivity).
  destruct (monitor _ _ _) as [[[a b]|]|]; try discriminate Hs. injection Hs as Hn Hb%bool_decide_eq_true. cbn in Hb. subst b. by exists a.
Qed.
