(* ===== verification/EthFlow.v ===== *)
(** * The feature drivers together

    The collection driver run against the resource driver: the
    resource-config library hands a request for the EthernetInterface schema
    to the resource driver's protocol member.  An edit made on the BMC then
    reaches the policy EthConfigDxe applies, through both drivers and the
    EthCfg variable. *)

From S2P Require Import Prelude Services Uefi EdkStrings Json JsonLib EthConfig EthConfigSpec EthIface EthIfaceDxe EthIfaceResources EthIfaceSpec.
From S2P Require Import EthPolicy EthCollection EthCollectionSpec.
From stdpp Require Import gmap.
#[local] Open Scope Z_scope.

Abbreviation resource := EthIface.REDFISH_RESOURCE_COMMON_PRIVATE (only parsing).

#[global] Instance schema_info_eq_dec : EqDecision schema_info.
Proof. solve_decision. Defined.

(** ** The linked machine *)

Section link.
Context `{EdkStrings, JsonLib} {W : Type} (envc : handler ec W) (envi : handler ei W).
(** What the library puts into the exchange after a request. *)
Context (returned : request -> exchange -> exchange).

Definition ours (s : schema_info) : bool := bool_decide (s = resource_info).

(** A request served by the resource driver; [None] does not return. *)
Definition delivered {A} (q : request) (answer : EFI_STATUS -> A) (s : W * resource) : option (A * (W * resource)) :=
  match run_val envi (serve (snd s) q) (fst s) with
  | Some (st, P) => Some (answer st, (run_state envi (serve (snd s) q) (fst s), P))
  | None => None
  end.
Definition elsewhere (c : ec_op) (s : W * resource) : option (ec_res c * (W * resource)) :=
  Some (fst (envc c (fst s)), (snd (envc c (fst s)), snd s)).

(** Other schemas, and everything else, is the environment's. *)
Definition link_call (c : ec_op) (s : W * resource) : option (ec_res c * (W * resource)) :=
  match c as c return option (ec_res c * (W * resource)) with
  | EdkIIRedfishResourceConfigIdentify i u x =>
      if ours i then delivered (Identify u) (fun st => (st, returned (Identify u) x)) s else elsewhere (EdkIIRedfishResourceConfigIdentify i u x) s
  | EdkIIRedfishResourceConfigCheck i u =>
      if ours i then delivered (CheckR u) (fun st => st) s else elsewhere (EdkIIRedfishResourceConfigCheck i u) s
  | EdkIIRedfishResourceConfigProvisioning i u x post =>
      if ours i then delivered (Provision u post) (fun st => (st, returned (Provision u post) x)) s
      else elsewhere (EdkIIRedfishResourceConfigProvisioning i u x post) s
  | EdkIIRedfishResourceConfigConsume i u =>
      if ours i then delivered (Consume u) (fun st => st) s else elsewhere (EdkIIRedfishResourceConfigConsume i u) s
  | EdkIIRedfishResourceConfigUpdate i u =>
      if ours i then delivered (Update u) (fun st => st) s else elsewhere (EdkIIRedfishResourceConfigUpdate i u) s
  | c => elsewhere c s
  end.

Fixpoint linked {A} (p : fw ec A) (s : W * resource) : option (A * (W * resource)) :=
  match p with
  | Ret a => Some (a, s)
  | Do c k => match link_call c s with Some (r, s) => linked (k r) s | None => None end
  end.

(** [lwp p s Q]: the linked run returns, with [Q]. *)
Definition lwp {A} (p : fw ec A) (s : W * resource) (Q : A -> W * resource -> Prop) : Prop :=
  match linked p s with Some (a, s) => Q a s | None => False end.

Lemma lwp_ret {A} (a : A) s (Q : A -> W * resource -> Prop) : Q a s -> lwp (mret a) s Q.
Proof. done. Qed.
Lemma lwp_bind {A B} (p : fw ec A) (f : A -> fw ec B) s (Q : B -> W * resource -> Prop) :
  lwp p s (fun a s' => lwp (f a) s' Q) -> lwp (p ≫= f) s Q.
Proof.
  unfold lwp. revert s. induction p as [a|c k IH]; intros s; [done|].
  change (Do c k ≫= f) with (Do (S := ec) c (fun r => k r ≫= f)). cbn [linked]. destruct (link_call c s) as [[r s']|]; [apply IH|done].
Qed.
Lemma lwp_mono {A} (p : fw ec A) s (Q Q' : A -> W * resource -> Prop) : (forall a s', Q a s' -> Q' a s') -> lwp p s Q -> lwp p s Q'.
Proof. intros HQ. unfold lwp. destruct (linked p s) as [[a s']|]; auto. Qed.

(** Calls that go to the resource driver. *)
Definition to_driver (c : ec_op) : bool :=
  match c with
  | EdkIIRedfishResourceConfigIdentify i _ _ | EdkIIRedfishResourceConfigCheck i _ | EdkIIRedfishResourceConfigProvisioning i _ _ _
  | EdkIIRedfishResourceConfigConsume i _ | EdkIIRedfishResourceConfigUpdate i _ => ours i
  | _ => false
  end.
Lemma link_elsewhere c s : to_driver c = false -> link_call c s = elsewhere c s.
Proof. destruct c; cbn [to_driver link_call]; try done; by intros ->. Qed.
Lemma lwp_call c w P (Q : ec_res c -> W * resource -> Prop) :
  to_driver c = false -> Q (fst (envc c w)) (snd (envc c w), P) -> lwp (call (S := ec) c) (w, P) Q.
Proof. intros Hc HQ. unfold lwp. cbn [linked call]. by rewrite link_elsewhere. Qed.
Lemma lwp_call_ c w P (Q : unit -> W * resource -> Prop) :
  to_driver c = false -> Q tt (snd (envc c w), P) -> lwp (call_ (S := ec) c) (w, P) Q.
Proof. intros Hc HQ. apply lwp_bind, lwp_call; [done|]. by apply lwp_ret. Qed.

(** A request the resource driver serves. *)
Lemma lwp_ask c q (answer : EFI_STATUS -> ec_res c) w P (Q : ec_res c -> W * resource -> Prop) :
  link_call c (w, P) = delivered q answer (w, P) ->
  rwp envi (serve P q) w (fun o w' => exists st P', o = Some (st, P') /\ Q (answer st) (w', P')) ->
  lwp (call (S := ec) c) (w, P) Q.
Proof.
  intros Hc. rewrite rwp_run. intros (st & P' & Ho & HQ). unfold lwp. cbn [linked call]. rewrite Hc.
  unfold delivered. cbn [fst snd]. by rewrite Ho.
Qed.
End link.

(** ** The BMC's member, seen by the resource driver *)

(** The member at [uri] is the JSON object [v], converted to [Cs]; it has no
    settings object, its ETag is new if [fresh], and the host published an
    instance it can be identified with. *)
Record serves_member `{JsonLib} {W} (envi : handler ei W) (fresh : bool) (uri : list Z) (v : json) (p : Z) (Cs : ETHERNETINTERFACE_CS) : Prop := {
  member_named : uri <> [];
  member_get svc u w : s_text u = uri ->
    exists r, fst (envi (EthIface.RedfishHttpGetResource svc u) w) = (EFI_SUCCESS, Some (mkRsp r (Some v)));
  member_final svc j w : EFI_ERROR (fst (fst (fst (envi (GetPendingSettings svc j) w)))) = true;
  member_text : JsonDumpString v <> [];
  member_loads : exists l d, JsonLoadString (JsonDumpString v) = Some (JObj l) /\ JsonObjectGetValue l (lit "DHCPv4") = Some d;
  member_converts w : fst (envi (EthIface.ToStructure (JsonDumpString v)) w) = (EFI_SUCCESS, (p, Cs));
  member_edited u e w : s_text u = uri -> fst (envi (CheckEtag u e (odata_etag Cs)) w) = negb fresh;
  member_supported u t w : s_text u = uri -> fst (envi (RedfishIdentifyResource u t) w) = true;
  member_instance w : exists a i items, fst (envi GetUnifiedConfigureLang w) = (EFI_SUCCESS, mkLangs a (i :: items));
  member_remembered l u w : fst (envi (RedfishSetRedfishUri l u) w) = EFI_SUCCESS
}.

(** What the visit of a member does to the questions. *)
Definition edited_by `{JsonLib} (fresh : bool) (Cs : ETHERNETINTERFACE_CS) (q : questions) : questions := if fresh then consumed Cs q else q.

Definition ready (P : resource) : Prop := is_Some (EthIface.RedfishService P) /\ is_Some (EthIface.JsonStructProtocol P).

(** A program that applies no setting leaves the questions alone. *)
Lemma keeps_only {W} (envi : handler ei W) (db : W -> questions) (id base : list Z) (fits : list Z -> Prop) `{!QuestionDb envi db id base fits}
    {A} (q : fw ei A) w (Q : A -> W -> Prop) :
  only (S := ei) keeps q -> (forall a w', db w' = db w -> Q a w') -> rwp envi q w Q.
Proof.
  intros Ho HQ. revert w HQ. induction q as [a|c k IH]; intros w HQ; [by apply rwp_ret, HQ|]. destruct Ho as [Hc Hk].
  change (Do c k) with (call (S := ei) c ≫= k). apply rwp_bind, (rwp_keep envi db id base fits); [done|].
  intros w1 H1. apply IH; [apply Hk|]. intros a w' H2. apply HQ. congruence.
Qed.

(** Reporting applies none. *)
Ltac report_go :=
  unfold BuildEthernetInterfacePayload, payload_identity, payload_mac, payload_dhcp, payload_addresses, payload_servers, FetchStringProperty,
    SetIf, AppendIf, SetNew, AppendNew, JsonObjectSetValue, JsonArrayAppendValue, FreeIf; only_go.
Lemma update_keeps `{EdkStrings, JsonLib} P : only (S := ei) keeps (RedfishUpdateResourceCommon P).
Proof. unfold RedfishUpdateResourceCommon, ProvisioningEthernetInterfaceExistResource. report_go. Qed.
Lemma provision_keeps `{EdkStrings, JsonLib} P exist : only (S := ei) keeps (RedfishProvisioningResourceCommon P exist).
Proof.
  unfold RedfishProvisioningResourceCommon, ProvisioningEthernetInterfaceResources. destruct exist; [apply update_keeps|].
  assert (Hall : forall l st, only (S := ei) keeps (provision_all P l st)).
  { induction l as [|[i lang] l IH]; intros st; cbn [provision_all]; [done|]. unfold ProvisioningEthernetInterfaceResource. report_go; apply IH. }
  only_go. apply Hall.
Qed.

Section member.
Context `{EdkStrings, JsonLib} {W : Type} (envi : handler ei W) (db : W -> questions) (base : list Z) (fits : list Z -> Prop).
Context (uri : list Z) (v : json) (p : Z) (Cs : ETHERNETINTERFACE_CS) `{!QuestionDb envi db (odata_id Cs) base fits}.
Context (fresh : bool) (Hm : serves_member envi fresh uri v p Cs).
Context (Hfa : Forall (fun s => fits (snd s)) (address_settings Cs)) (Hfs : Forall (fun s => fits (snd s)) (server_settings Cs)).

Lemma rwp_only {A} (q : fw ei A) w (Q : A -> W -> Prop) :
  only (S := ei) keeps q -> (forall a w', db w' = db w -> Q a w') -> rwp envi q w Q.
Proof. by apply (keeps_only envi db (odata_id Cs) base fits). Qed.

Ltac kept :=
  match goal with |- rwp _ (mbind _ (call ?c)) _ _ => apply rwp_bind, (rwp_keep envi db (odata_id Cs) base fits c); [exact I|] end.

(** The common start of every request: the member is read and printed. *)
Lemma fetched P u w (f : resource -> fw ei (option (EFI_STATUS * resource))) (Q : option (EFI_STATUS * resource) -> W -> Prop) :
  (forall j w', db w' = db w -> rwp envi (f (with_json (with_request P u (Some v)) (Some (mkStr j (JsonDumpString v))))) w' Q) ->
  rwp envi (obind (dump_payload (with_request P u (Some v))) f) w Q.
Proof.
  intros HQ. unfold obind, dump_payload. cbn [with_request Payload]. apply rwp_bind. kept. intros w1 H1.
  destruct (object_memory (H := envi) w) as (_ & _ & Hd). destruct (Hd v) as [j ->]. apply rwp_ret. by apply HQ.
Qed.
Lemma started P u w (f : EFI_STATUS * option response -> fw ei (option (EFI_STATUS * resource)))
    (Q : option (EFI_STATUS * resource) -> W -> Prop) :
  s_text u = uri -> ready P ->
  (forall r w', db w' = db w -> rwp envi (f (EFI_SUCCESS, Some (mkRsp r (Some v)))) w' Q) ->
  rwp envi (if empty_uri u then mret (Some (EFI_INVALID_PARAMETER, P))
            else if is_null (EthIface.RedfishService P) then mret (Some (EFI_NOT_READY, P))
            else call (S := ei) (EthIface.RedfishHttpGetResource (EthIface.RedfishService P) u) ≫= f) w Q.
Proof.
  intros Hu [[svc Hs] _] HQ. destruct (member_get _ _ _ _ _ _ Hm (Some svc) u w Hu) as [r Hr]. unfold empty_uri. rewrite Hu, Hs.
  destruct uri eqn:E; [by destruct (member_named _ _ _ _ _ _ Hm)|]. cbn [is_null]. kept. intros w1 H1. rewrite Hr. by apply HQ.
Qed.

(** How a request ends: with a status, ready for the next one, and with the
    questions [q]. *)
Definition ends (good : EFI_STATUS -> Prop) (q : questions) (o : option (EFI_STATUS * resource)) (w : W) : Prop :=
  exists st P, o = Some (st, P) /\ good st /\ ready P /\ db w = q.

Ltac kept_ :=
  match goal with |- rwp _ (mbind _ (call_ ?c)) _ _ => apply rwp_bind, (rwp_keep_ envi db (odata_id Cs) base fits c); [exact I|] end.
Ltac freed := apply rwp_bind, (rwp_FreeIf envi db (odata_id Cs) base fits).

Lemma check_ends P u w :
  s_text u = uri -> ready P -> rwp envi (serve P (CheckR u)) w (ends (fun st => st = EFI_SUCCESS) (db w)).
Proof.
  intros Hu HP. apply started; [done..|]. intros r w1 H1. change (EFI_ERROR EFI_SUCCESS) with false. cbv iota. apply fetched.
  intros j w2 H2. kept. intros w3 H3. destruct (fst _) as [? e]. apply rwp_bind. unfold RedfishCheckResourceCommon.
  destruct (member_loads _ _ _ _ _ _ Hm) as (l & d & Hl & Hd). pose proof (member_text _ _ _ _ _ _ Hm) as Ht.
  cbn [PJson with_json is_empty_text s_text fmap option_fmap option_map default]. destruct (JsonDumpString v) eqn:E; [done|].
  rewrite <- E in *. apply rwp_bind, (load_string envi db (odata_id Cs) base fits). intros p' w4 H4. unfold id. rewrite Hl.
  cbn [option_map]. rewrite Hd. kept_. intros w5 H5. apply rwp_ret. freed. intros w6 H6. kept_. intros w7 H7. unfold free_json.
  apply rwp_bind. freed. intros w8 H8. apply rwp_ret, rwp_ret. eexists _, _. split; [done|]. split; [done|]. split; [exact HP|congruence].
Qed.

Lemma consume_ends P u w :
  s_text u = uri -> ready P -> rwp envi (serve P (Consume u)) w (ends (fun st => st = EFI_SUCCESS) (edited_by fresh Cs (db w))).
Proof.
  intros Hu HP. apply started; [done..|]. intros r w1 H1. change (EFI_ERROR EFI_SUCCESS) with false. cbv iota.
  kept. intros w2 H2. pose proof (member_final _ _ _ _ _ _ Hm (EthIface.RedfishService P) (Some v) w1) as Hn.
  cbn [mbind option_bind rsp_payload] in *. destruct (fst (envi (GetPendingSettings _ _) _)) as [[st pr] pu]. cbn [fst] in Hn. rewrite Hn. apply rwp_bind, rwp_ret. apply fetched.
  intros j w3 H3. kept. intros w4 H4. destruct (fst _) as [? e]. apply rwp_bind. eapply rwp_mono;
    [|apply (consume_common envi db (odata_id Cs) base fits _ (mkStr j (JsonDumpString v)) _ _ p Cs (negb fresh))].
  - cbn beta iota. intros o w5 [-> H5]. kept_. intros w6 H6. kept_. intros w7 H7. unfold free_json.
    apply rwp_bind. freed. intros w8 H8. apply rwp_ret. freed. intros w9 H9. freed. intros w10 H10. apply rwp_ret.
    eexists _, _. split; [done|]. split; [done|]. split; [exact HP|]. unfold edited_by. destruct fresh; cbn [negb] in *; congruence.
  - pose proof (member_text _ _ _ _ _ _ Hm). cbn. by destruct (JsonDumpString v).
  - apply HP.
  - done.
  - done.
  - done.
  - apply (member_converts _ _ _ _ _ _ Hm).
  - intros w'. by apply (member_edited _ _ _ _ _ _ Hm).
Qed.

Lemma update_ends P u w : s_text u = uri -> ready P -> rwp envi (serve P (Update u)) w (ends (fun _ => True) (db w)).
Proof.
  intros Hu HP. apply started; [done..|]. intros r w1 H1. change (EFI_ERROR EFI_SUCCESS) with false. cbv iota. apply fetched.
  intros j w2 H2. apply rwp_bind, rwp_only; [apply update_keeps|]. intros st w3 H3. apply rwp_bind, rwp_only; [only_go|]. intros _ w4 H4.
  kept_. intros w5 H5. unfold free_json. apply rwp_bind. freed. intros w6 H6. apply rwp_ret, rwp_ret.
  eexists _, _. split; [done|]. split; [done|]. split; [exact HP|congruence].
Qed.

Lemma identify_ends P u w :
  s_text u = uri -> ready P -> rwp envi (serve P (Identify u)) w (ends (fun st => st = EFI_SUCCESS) (db w)).
Proof.
  intros Hu HP. apply started; [done..|]. intros r w1 H1. change (EFI_ERROR EFI_SUCCESS) with false. cbv iota. apply fetched.
  intros j w2 H2. apply rwp_bind. unfold RedfishIdentifyResourceCommon. kept. intros w3 H3.
  rewrite (member_supported _ _ _ _ _ _ Hm) by done. cbn [negb]. kept. intros w4 H4.
  destruct (member_instance _ _ _ _ _ _ Hm w3) as (a & [n l] & items & ->). change (EFI_ERROR EFI_SUCCESS) with false. cbn [ll_items].
  kept. intros w5 H5. rewrite (member_remembered _ _ _ _ _ _ Hm). apply rwp_bind, rwp_only; [only_go|]. intros _ w6 H6.
  apply rwp_bind, rwp_only; [only_go|]. intros _ w7 H7. kept_. intros w8 H8. apply rwp_ret. kept_. intros w9 H9. unfold free_json.
  apply rwp_bind. freed. intros w10 H10. apply rwp_ret, rwp_ret.
  eexists _, _. split; [done|]. split; [done|]. split; [exact HP|congruence].
Qed.
End member.

(** ** The BMC's collection, seen by the collection driver *)

(** The collection is readable and converts to [Coll]; memory suffices.  The
    member at [uri] has the resource driver's schema, no other member does;
    whether a member is remembered from an earlier boot is left open.  None
    of this touches the questions. *)
Record serves_collection {W} (envc : handler ec W) (db : W -> questions) (uri : list Z) (Coll : ETHERNETINTERFACECOLLECTION_CS) : Prop := {
  collection_keeps c w : db (snd (envc c w)) = db w;
  collection_memory w : is_Some (fst (envc AllocateUri w)) /\ is_Some (fst (envc AllocateLangList w))
    /\ (forall v, is_Some (fst (envc (JsonDump v) w))) /\ forall t, is_Some (fst (envc (StrAsciiToUnicode t) w));
  collection_uri t w : is_Some (fst (envc (RedfishGetUri t) w));
  collection_get svc u w : exists r v, fst (envc (RedfishHttpGetResource svc u) w) = (EFI_SUCCESS, Some (mkRsp r (Some v)));
  collection_converts t w : exists p, fst (envc (ToStructure t) w) = (EFI_SUCCESS, (p, Coll));
  collection_schema svc cv u w : s_text u = uri -> fst (envc (GetRedfishSchemaInfo svc cv u) w) = (EFI_SUCCESS, resource_info);
  collection_foreign svc cv u w : s_text u <> uri ->
    let r := fst (envc (GetRedfishSchemaInfo svc cv u) w) in EFI_ERROR (fst r) = true \/ snd r <> resource_info;
  collection_lang l w : let r := fst (envc (GetArrayIndexFromArrayTypeConfigureLang l) w) in
    EFI_ERROR (fst r) = false \/ fst r = EFI_NOT_FOUND -> is_Some (fst (snd r))
}.

(** *** Calls that are no request to the resource driver *)

Section aside.
Context `{EdkStrings, JsonLib} {W : Type} (envc : handler ec W) (envi : handler ei W) (returned : request -> exchange -> exchange).
Context (db : W -> questions) (Hkeep : forall c w, db (snd (envc c w)) = db w).

Lemma aside_call c w P (Q : ec_res c -> W * resource -> Prop) :
  to_driver c = false -> (forall w', db w' = db w -> Q (fst (envc c w)) (w', P)) -> lwp envc envi returned (call (S := ec) c) (w, P) Q.
Proof. intros Hd HQ. apply lwp_call; [done|]. by apply HQ. Qed.
Lemma aside_call_ c w P (Q : unit -> W * resource -> Prop) :
  to_driver c = false -> (forall w', db w' = db w -> Q tt (w', P)) -> lwp envc envi returned (call_ (S := ec) c) (w, P) Q.
Proof. intros Hd HQ. apply lwp_call_; [done|]. by apply HQ. Qed.

(** A run that leaves the questions [q] and the resource driver ready. *)
Definition settled {A} (q : questions) (_ : A) (s : W * resource) : Prop := db (fst s) = q /\ ready (snd s).

Lemma release_settles C w P : ready P -> lwp envc envi returned (ReleaseCollectionResource C) (w, P) (settled (db w)).
Proof.
  intros HP. unfold ReleaseCollectionResource, FreeText. apply lwp_bind, aside_call_; [done|]. intros w1 H1.
  apply lwp_bind. eapply (lwp_mono _ _ _ _ _ (settled (db w))).
  2:{ destruct (CollectionJson C); [apply aside_call_; [done|]; intros w2 H2|apply lwp_ret]; (split; [cbn; congruence|done]). }
  intros _ [w2 P2] [H2 HP2]. cbn [fst snd] in *. apply lwp_bind. eapply (lwp_mono _ _ _ _ _ (settled (db w))).
  2:{ destruct (RedfishVersion C); [apply aside_call_; [done|]; intros w3 H3|apply lwp_ret]; (split; [cbn; congruence|done]). }
  intros _ [w3 P3] [H3 HP3]. apply lwp_ret. by split.
Qed.
End aside.

Section flow.
Context `{EdkStrings, JsonLib} {W : Type} (envc : handler ec W) (envi : handler ei W) (returned : request -> exchange -> exchange).
Context (db : W -> questions) (base : list Z) (fits : list Z -> Prop).
Context (uri : list Z) (v : json) (p : Z) (Cs : ETHERNETINTERFACE_CS) `{!QuestionDb envi db (odata_id Cs) base fits}.
Context (Coll : ETHERNETINTERFACECOLLECTION_CS).
Context (fresh : bool) (Hm : serves_member envi fresh uri v p Cs) (Hc : serves_collection envc db uri Coll).
Context (Hfa : Forall (fun s => fits (snd s)) (address_settings Cs)) (Hfs : Forall (fun s => fits (snd s)) (server_settings Cs)).

Abbreviation lwp := (lwp envc envi returned).

Let Hkeep := collection_keeps _ _ _ _ Hc.
Abbreviation settled := (settled db).

Ltac aside := match goal with |- context [mbind _ (call ?c)] => apply lwp_bind, (aside_call _ _ _ _ Hkeep c); [first [done | reflexivity]|] end.
Ltac aside_ := match goal with |- context [mbind _ (call_ ?c)] => apply lwp_bind, (aside_call_ _ _ _ _ Hkeep c); [first [done | reflexivity]|] end.

(** The member is checked, consumed and updated. *)
Lemma drive_settles C u w P :
  s_text u = uri -> ready P ->
  lwp (drive_resource C resource_info u) (w, P) (settled (edited_by fresh Cs (db w))).
Proof.
  intros Hu HP. assert (Ho : ours resource_info = true) by by apply bool_decide_true.
  unfold drive_resource. apply lwp_bind, (lwp_ask _ _ _ (EdkIIRedfishResourceConfigCheck _ u) (CheckR u) (fun st => st)); [cbn [link_call]; by rewrite Ho|].
  eapply rwp_mono; [|by apply (check_ends envi db base fits uri v p Cs fresh)]. cbn beta. intros o w1 (st & P1 & -> & -> & HP1 & H1).
  eexists _, _. split; [done|]. change (EFI_ERROR EFI_SUCCESS) with false. cbv iota.
  apply lwp_bind. unfold call_. apply lwp_bind, (lwp_ask _ _ _ (EdkIIRedfishResourceConfigConsume _ u) (Consume u) (fun st => st)); [cbn [link_call]; by rewrite Ho|].
  eapply rwp_mono; [|by apply (consume_ends envi db base fits uri v p Cs fresh)]. cbn beta. intros o w2 (st & P2 & -> & -> & HP2 & H2).
  eexists _, _. split; [done|]. apply lwp_ret.
  apply lwp_bind, (lwp_ask _ _ _ (EdkIIRedfishResourceConfigUpdate _ u) (Update u) (fun st => st)); [cbn [link_call]; by rewrite Ho|].
  eapply rwp_mono; [|by apply (update_ends envi db base fits uri v p Cs fresh)]. cbn beta. intros o w3 (st & P3 & -> & _ & HP3 & H3).
  eexists _, _. split; [done|]. apply lwp_ret. split; [cbn; congruence|exact HP3].
Qed.

(** Another schema's driver is asked instead. *)
Lemma drive_foreign C i u w P :
  i <> resource_info -> ready P -> lwp (drive_resource C i u) (w, P) (settled (db w)).
Proof.
  intros Hi HP. assert (Ho : ours i = false) by by apply bool_decide_false. unfold drive_resource. aside. intros w1 H1. destruct (EFI_ERROR _).
  - aside. intros w2 H2. destruct (fst _) as [? x]. apply lwp_ret. split; [cbn; congruence|done].
  - aside_. intros w2 H2. aside. intros w3 H3. apply lwp_ret. split; [cbn; congruence|done].
Qed.

Lemma history_settles C l w P :
  ready P -> lwp (record_history C l) (w, P) (fun o s => (exists C', o = Some (EFI_SUCCESS, C')) /\ settled (db w) o s).
Proof.
  intros HP. unfold record_history. aside. intros w1 H1. pose proof (collection_lang _ _ _ _ Hc l w) as Hl. cbv zeta in Hl.
  destruct (fst (envc (GetArrayIndexFromArrayTypeConfigureLang l) w)) as [st [o n]]. cbn [fst snd] in Hl.
  destruct (negb (EFI_ERROR st) || (st =? EFI_NOT_FOUND)) eqn:E.
  - destruct Hl as [lang ->].
    { apply orb_true_iff in E as [E|E]; [left; by apply negb_true_iff|right; by apply Z.eqb_eq]. }
    cbv zeta. aside. intros w2 H2. destruct (collection_memory _ _ _ _ Hc w1) as (_ & [a ->] & _).
    aside. intros w3 H3. apply lwp_ret. split; [by eexists|]. split; [cbn; congruence|done].
  - apply lwp_ret. split; [by eexists|]. split; [cbn; congruence|done].
Qed.

(** Both ways into a member: it is remembered, or identified first. *)
Lemma resource_visit C u w P st i q :
  empty_uri u = false -> fst (envc (GetRedfishSchemaInfo (RedfishService C) (JsonStructProtocol C) u) w) = (st, i) ->
  EFI_ERROR st = false -> ready P ->
  (forall C w' P, db w' = db w -> ready P -> lwp (drive_resource C i u) (w', P) (settled q)) ->
  (forall x w' P, db w' = db w -> ready P -> lwp (call (S := ec) (EdkIIRedfishResourceConfigIdentify i u x)) (w', P)
     (fun r s => settled (db w) r s /\ (EFI_ERROR (fst r) = true -> q = db w))) ->
  lwp (HandleResource C u) (w, P) (fun o s => is_Some o /\ settled q o s).
Proof.
  intros Hu Hs Hst HP Hdrive Hident. unfold HandleResource. rewrite Hu. aside. intros w1 H1. rewrite Hs, Hst.
  assert (Hfinish : forall C w' P', db w' = db w -> ready P' ->
    lwp (drive_resource C i u ≫= (fun r => mret (Some r))) (w', P') (fun o s => is_Some o /\ settled q o s)).
  { intros C' w' P' Hw HP'. apply lwp_bind. eapply lwp_mono; [|by apply Hdrive]. intros r [w2 P2] Hr. apply lwp_ret. split; [by eexists|exact Hr]. }
  aside. intros w2 H2. destruct (fst (envc (RedfishGetConfigLanguage u) w1)) as [lang|].
  - apply lwp_bind. eapply lwp_mono; [|by apply history_settles]. cbn beta. intros o [w3 P3] [[C' ->] [H3 HP3]]. cbn [fst snd] in H3, HP3.
    change (EFI_ERROR EFI_SUCCESS) with false. cbv iota. aside_. intros w4 H4. apply Hfinish; [congruence|done].
  - apply lwp_bind. eapply lwp_mono; [|apply Hident; [congruence|done]]. cbn beta. intros [st1 x] [w3 P3] [[H3 HP3] Herr].
    cbn [fst snd] in H3, HP3, Herr. cbv zeta. destruct (EFI_ERROR st1); [|by apply Hfinish].
    apply lwp_ret. split; [by eexists|]. split; [|exact HP3]. by rewrite Herr.
Qed.

(** What a member does to the questions. *)
Definition visit_effect (q : questions) (u : list Z) : questions := if bool_decide (u = uri) then edited_by fresh Cs q else q.

Lemma resource_settles C u w P :
  ready P -> lwp (HandleResource C u) (w, P) (fun o s => is_Some o /\ settled (visit_effect (db w) (s_text u)) o s).
Proof.
  intros HP. unfold visit_effect. destruct (empty_uri u) eqn:Eu.
  { unfold HandleResource. rewrite Eu. apply lwp_ret. split; [by eexists|]. rewrite bool_decide_false; [done|]. intros Hu. unfold empty_uri in Eu.
    rewrite Hu in Eu. pose proof (member_named _ _ _ _ _ _ Hm). by destruct uri. }
  destruct (decide (s_text u = uri)) as [Hu|Hu]; [rewrite bool_decide_true by done|rewrite bool_decide_false by done].
  - eapply resource_visit; [done|by apply (collection_schema _ _ _ _ Hc)|done|done|..].
    + intros C' w' P' Hw HP'. rewrite <- Hw. by apply drive_settles.
    + intros x w' P' Hw HP'. apply (lwp_ask _ _ _ (EdkIIRedfishResourceConfigIdentify _ u x) (Identify u) (fun st => (st, returned (Identify u) x))).
      { cbn [link_call]. by rewrite (bool_decide_true (resource_info = resource_info) eq_refl : ours _ = true). }
      eapply rwp_mono; [|by apply (identify_ends envi db base fits uri v p Cs fresh)]. cbn beta. intros o w1 (st & P1 & -> & -> & HP1 & H1).
      eexists _, _. split; [done|]. split; [split; [cbn; congruence|exact HP1]|done].
  - pose proof (collection_foreign _ _ _ _ Hc (RedfishService C) (JsonStructProtocol C) u w Hu) as Hf. cbv zeta in Hf.
    destruct (fst (envc (GetRedfishSchemaInfo (RedfishService C) (JsonStructProtocol C) u) w)) as [st i] eqn:Es. cbn [fst snd] in Hf.
    destruct (EFI_ERROR st) eqn:Est.
    { unfold HandleResource. rewrite Eu. aside. intros w1 H1. rewrite Es, Est. apply lwp_ret. split; [by eexists|]. by split. }
    destruct Hf as [|Hi]; [done|]. eapply resource_visit; [done..| |].
    + intros C' w' P' Hw HP'. rewrite <- Hw. by apply drive_foreign.
    + intros x w' P' Hw HP'. apply (aside_call _ _ _ _ Hkeep); [by apply bool_decide_false|]. intros w1 H1. split; [split; [cbn; congruence|done]|done].
Qed.

Lemma members_settle l C w P :
  ready P -> lwp (handle_members C l) (w, P) (fun o s => is_Some o /\ settled (foldl visit_effect (db w) (uris l)) o s).
Proof.
  revert C w P. induction l as [|[u|k] l IH]; intros C w P HP; cbn [handle_members].
  - apply lwp_ret. split; [by eexists|]. by split.
  - aside. intros w1 H1. destruct (collection_memory _ _ _ _ Hc w) as (_ & _ & _ & Hs). destruct (Hs u) as [a ->]. cbv zeta.
    apply lwp_bind. eapply lwp_mono; [|by apply resource_settles]. cbn beta. intros o [w2 P2] [[[st C'] ->] [H2 HP2]]. cbn [fst snd s_text] in *.
    aside_. intros w3 H3. eapply lwp_mono; [|by apply IH]. cbn beta. intros o s. cbn [uris omap list_omap foldl]. by rewrite H3, H2, H1.
  - by apply IH.
Qed.

Lemma effects_foreign l q : uri ∉ l -> foldl visit_effect q l = q.
Proof.
  revert q. induction l as [|u l IH]; intros q Hl; [done|]. apply not_elem_of_cons in Hl as [Hne Hl]. cbn [foldl].
  unfold visit_effect at 2. rewrite bool_decide_false by done. by apply IH.
Qed.
Lemma effects_once l q : NoDup l -> uri ∈ l -> foldl visit_effect q l = edited_by fresh Cs q.
Proof.
  intros Hnd. revert q. induction Hnd as [|u l Hu Hnd IH]; intros q Hin; [by apply not_elem_of_nil in Hin|]. cbn [foldl].
  unfold visit_effect at 2. destruct (decide (u = uri)) as [->|Hne].
  - rewrite bool_decide_true by done. by apply effects_foreign.
  - rewrite bool_decide_false by done. apply IH. apply elem_of_cons in Hin as [|]; [done|done].
Qed.

Lemma collection_settles C w P j n :
  ready P -> is_Some (JsonStructProtocol C) -> CollectionJson C = Some j -> Membersodata_count Coll = Some n -> n <> 0 ->
  NoDup (uris (Members Coll)) -> uri ∈ uris (Members Coll) ->
  lwp (HandleCollectionResource C) (w, P) (fun o s => (exists C', o = Some (EFI_SUCCESS, C')) /\ settled (edited_by fresh Cs (db w)) o s).
Proof.
  intros HP [cv Hcv] Hj Hn Hz Hnd Hin. unfold HandleCollectionResource. rewrite Hcv, Hj. aside. intros w1 H1.
  destruct (collection_converts _ _ _ _ Hc (s_text j) w) as [a ->]. change (EFI_ERROR EFI_SUCCESS) with false. cbv iota. rewrite Hn.
  apply Z.eqb_neq in Hz. rewrite Hz. destruct (Members Coll) as [|m l] eqn:El; [by apply not_elem_of_nil in Hin|]. rewrite <- El in *.
  apply lwp_bind. eapply lwp_mono; [|by apply members_settle]. cbn beta. intros o [w2 P2] [[C' ->] [H2 HP2]]. cbn [fst snd] in *.
  aside_. intros w3 H3. apply lwp_ret. split; [by eexists|]. split; [|done]. cbn [fst]. by rewrite H3, H2, H1, effects_once.
Qed.

Lemma callback_settles C x w P n :
  is_Some (RedfishService C) -> is_Some (JsonStructProtocol C) -> ready P -> Membersodata_count Coll = Some n -> n <> 0 ->
  NoDup (uris (Members Coll)) -> uri ∈ uris (Members Coll) ->
  lwp (RedfishCollectionFeatureCallback C CallbackActionStartOperation x) (w, P)
    (fun o s => (exists C', o = Some (EFI_SUCCESS, C')) /\ settled (edited_by fresh Cs (db w)) o s).
Proof.
  intros [svc Hsvc] Hcv HP Hn Hz Hnd Hin. unfold RedfishCollectionFeatureCallback. rewrite Hsvc. aside. intros w1 H1. cbv zeta.
  aside. intros w2 H2. destruct (collection_memory _ _ _ _ Hc w1) as ([a ->] & _). aside. intros w3 H3.
  destruct (collection_uri _ _ _ _ Hc (StrCatS (StrCatText [] MAX_URI_LENGTH (s_text <$> fst (envc (RedfishGetVersion svc) w))) MAX_URI_LENGTH (FullUri x)) w2)
    as [u ->].
  apply lwp_bind. eapply (lwp_mono _ _ _ _ _ (fun o s => is_Some o /\ settled (edited_by fresh Cs (db w)) o s)).
  { intros o s [[[st C'] ->] Hs]. apply lwp_ret. split; [by eexists|exact Hs]. }
  unfold CollectionHandler. aside. intros w4 H4. destruct (collection_get _ _ _ _ Hc (RedfishService (with_uri (with_version (with_exchange C x)
    (fst (envc (RedfishGetVersion svc) w))) u)) (CollectionUri (with_uri (with_version (with_exchange C x)
    (fst (envc (RedfishGetVersion svc) w))) u)) w3) as (r & j & ->). change (EFI_ERROR EFI_SUCCESS) with false. cbv iota.
  cbn [mbind option_bind rsp_payload].
  apply lwp_bind. aside. intros w5 H5. destruct (collection_memory _ _ _ _ Hc w4) as (_ & _ & Hd & _). destruct (Hd j) as [q ->]. cbv zeta.
  apply lwp_bind. eapply lwp_mono; [|by eapply collection_settles]. cbn beta. intros o [w6 P6] [[C' ->] [H6 HP6]]. cbn [fst snd] in *.
  apply lwp_ret. apply lwp_bind. eapply lwp_mono; [|by apply (release_settles _ _ _ _ Hkeep)]. cbn beta. intros [st C''] [w7 P7] [H7 HP7]. apply lwp_ret.
  split; [by eexists|]. split; [cbn [fst snd] in *; congruence|done].
Qed.
End flow.

(** ** EthConfigDxe, on the way back up *)

Definition variable_read (e : event eth) : option (EFI_STATUS * list Z) :=
  match e with
  | Ev c r => match c as c return eth_res c -> option (EFI_STATUS * list Z) with GetEthCfg => Some | _ => fun _ => None end r
  end.

(** Reading the policy [c], with no call refused, the settings made are its
    plan. *)
Lemma stored_policy_set `{EdkStrings, NetLib} fuel h answer tr c :
  exec (ApplyConfig fuel h) (Ev (S := eth) GetEthCfg answer :: tr) (Some tt) -> stored_config answer = Some c ->
  existsb refused tr = false -> exists ip4, settings tr = policy_plan ip4 c.
Proof.
  intros Hex Hc Hr.
  assert (Hw : wp (ApplyConfig fuel h) (fun r t =>
    forall a, head t ≫= variable_read = Some a -> stored_config a = Some c -> applied fuel h c r (tail t))).
  { unfold ApplyConfig. apply Read_wp. intros a. destruct (stored_config a) as [c'|] eqn:Ea.
    - eapply wp_mono; [|apply Apply_applied]. cbn beta. intros r t Ht a' [= <-] Ea'. rewrite Ea in Ea'. by injection Ea' as <-.
    - apply wp_ret. intros a' [= <-] Ea'. congruence. }
  exact (applied_settings _ _ _ _ (proj1 (wp_exec _ _) Hw _ _ Hex answer eq_refl Hc) Hr).
Qed.

(** C14: An edit on the BMC reaches the NIC, through both drivers, the
    variable and EthConfigDxe.  The feature core starts the collection
    driver; the collection has members with distinct URIs, of which one has
    the resource driver's schema and was edited (its ETag is new), whether or
    not an earlier boot remembered it.  Assumed: the edited member answers
    with a resource that has DHCPv4 and no settings object (@Redfish.Settings),
    the converter reads it, its texts fit their questions, setting a question
    stores it, and memory suffices.  Then the callback returns EFI_SUCCESS,
    whatever the final PATCH answers, and the questions are exactly the old
    ones with the resource's values set: the other members and the update
    disturb nothing.  A resource whose StaticNameServers is empty keeps the
    stored servers; one without static addresses clears the stored one.  When
    EthConfigDxe later reads the variable so left and no call is refused, the
    settings it makes on the interface are the plan of that policy. *)
Theorem edit_reaches_nic `{EdkStrings, NetLib, JsonLib} {W : Type} (envc : handler ec W) (envi : handler ei W)
    (returned : request -> exchange -> exchange) (config : W -> NUC_ETH_CONFIG) (fits : list Z -> Prop)
    (uri : list Z) (v : json) (p : Z) (Cs : ETHERNETINTERFACE_CS) (Coll : ETHERNETINTERFACECOLLECTION_CS)
    `{!QuestionDb envi (fun w => variable_questions (config w)) (odata_id Cs) instance_lang fits}
    (Hm : serves_member envi true uri v p Cs) (Hc : serves_collection envc (fun w => variable_questions (config w)) uri Coll)
    (Hfa : Forall (fun s => fits (snd s)) (address_settings Cs)) (Hfs : Forall (fun s => fits (snd s)) (server_settings Cs))
    (Hpop : populated Coll = true) (Hnd : NoDup (uris (Members Coll))) (Hin : uri ∈ uris (Members Coll))
    (C : REDFISH_COLLECTION_PRIVATE) (x : exchange) (P : resource) (w : W)
    (HC : is_Some (RedfishService C)) (HJ : is_Some (JsonStructProtocol C)) (HP : ready P) :
  exists C' w' P',
    linked envc envi returned (RedfishCollectionFeatureCallback C CallbackActionStartOperation x) (w, P)
      = Some (Some (EFI_SUCCESS, C'), (w', P'))
    /\ variable_questions (config w') = consumed Cs (variable_questions (config w))
    /\ (forall ip4, edit_applied ip4 (config w) Cs (config w'))
    /\ (forall fuel h answer tr, exec (ApplyConfig fuel h) (Ev (S := eth) GetEthCfg answer :: tr) (Some tt) ->
          stored_config answer = Some (config w') -> existsb refused tr = false ->
          exists ip4, settings tr = policy_plan ip4 (config w')).
Proof.
  unfold populated in Hpop. destruct (Membersodata_count Coll) as [n|] eqn:Hn; [|done].
  assert (Hz : n <> 0) by (destruct (Members Coll); [done|]; by apply Z.eqb_neq, negb_true_iff).
  pose proof (callback_settles envc envi returned (fun w => variable_questions (config w)) instance_lang fits uri v p Cs Coll
    true Hm Hc Hfa Hfs C x w P n HC HJ HP Hn Hz Hnd Hin) as Hrun.
  unfold lwp in Hrun. destruct (linked _ _ _ _ _) as [[o [w' P']]|]; [|done]. destruct Hrun as [[C' ->] [Hdb _]].
  exists C', w', P'. split; [done|]. split; [exact Hdb|]. split; [intros ip4; by apply consumed_applied|]. intros. by eapply stored_policy_set.
Qed.

(** ** A BMC with two members, the first one edited *)

Definition edited_bmc : handler ec NUC_ETH_CONFIG := fun c w =>
  (match c as c return ec_res c with
   | GetRedfishSchemaInfo _ _ u => (if bool_decide (s_text u = eth0) then EFI_SUCCESS else EFI_UNSUPPORTED, resource_info)
   | c => fst (collection_env two_members c tt)
   end, w).

Lemma edited_member : serves_member (setup_env bmc_edit) true eth0 (JObj [(lit "DHCPv4", JObj [])]) 4 bmc_edit.
Proof.
  constructor; try done.
  - intros. by eexists.
  - by eexists _, _.
  - intros w. by eexists _, _, _.
Qed.
Lemma edited_collection : serves_collection edited_bmc variable_questions eth0 two_members.
Proof.
  constructor; try done.
  - intros. by eexists _, _.
  - intros. by eexists.
  - intros svc cv u w Hu. cbn [edited_bmc fst]. by rewrite bool_decide_true.
  - intros svc cv u w Hu. cbn [edited_bmc fst]. rewrite bool_decide_false by done. by left.
Qed.

(** The edit, and then the boot that applies it. *)
Definition edited_config : NUC_ETH_CONFIG :=
  match linked edited_bmc (setup_env bmc_edit) (fun _ x => x) callback_run (office, ready_private) with Some (_, (c, _)) => c | None => office end.
Definition edited_nuc : EthConfigSpec.machine := mkMachine (encode_config edited_config) [] 3.

Lemma edit_reaches_nic_witness :
  exists C' P',
    linked edited_bmc (setup_env bmc_edit) (fun _ x => x) callback_run (office, ready_private) = Some (Some (EFI_SUCCESS, C'), (edited_config, P'))
    /\ exists ip4, settings (tail (run_trace eth_host (ApplyConfig 20 8) edited_nuc))
       = static_plan ip4 [10; 0; 0; 5] [255; 0; 0; 0] (lit "10.0.0.1") [lit "10.0.0.2"].
Proof.
  destruct (edit_reaches_nic edited_bmc (setup_env bmc_edit) (fun _ x => x) (fun c => c) short eth0 (JObj [(lit "DHCPv4", JObj [])]) 4
    bmc_edit two_members edited_member edited_collection) with (C := started_collection) (x := sent) (P := ready_private) (w := office)
    as (C' & w' & P' & Hrun & _ & Happ & Hset).
  - repeat constructor; vm_compute; lia.
  - repeat constructor; vm_compute; lia.
  - reflexivity.
  - apply (bool_decide_unpack _). vm_compute. exact I.
  - left.
  - by eexists.
  - by eexists.
  - split; by eexists.
  - fold callback_run in Hrun. assert (Hw : w' = edited_config) by (unfold edited_config; by rewrite Hrun). subst w'.
    exists C', P'. split; [exact Hrun|].
    pose proof (exec_run eth_host (ApplyConfig 20 8) edited_nuc) as Hex.
    assert (Hv : run_val eth_host (ApplyConfig 20 8) edited_nuc = Some tt) by (vm_compute; reflexivity). rewrite Hv in Hex.
    assert (Ht : run_trace eth_host (ApplyConfig 20 8) edited_nuc
                 = Ev (S := eth) GetEthCfg (EFI_SUCCESS, encode_config edited_config) :: tail (run_trace eth_host (ApplyConfig 20 8) edited_nuc))
      by reflexivity.
    rewrite Ht in Hex. destruct (Hset _ _ _ _ Hex) as [ip4 Hs]; [vm_compute; reflexivity|vm_compute; reflexivity|]. exists ip4.
    rewrite Hs. destruct (Happ ip4) as (_ & _ & Hplan).
    etransitivity; [apply (Hplan eq_refl (lit "10.0.0.5") (lit "255.0.0.0") (lit "10.0.0.1") [10; 0; 0; 5] [255; 0; 0; 0]);
      vm_compute; reflexivity|]. reflexivity.
Defined.

(** Emptying StaticNameServers on the BMC does not empty the stored servers:
    the edit moves the interface, and its old name server stays. *)
Definition servers_emptied : ETHERNETINTERFACE_CS :=
  mkCs (odata_id bmc_edit) (odata_etag bmc_edit) (DHCPv4 bmc_edit) (IPv4StaticAddresses bmc_edit) [].
Theorem emptied_servers_kept :
  option_map (fun '(_, (c, _)) => (cstr (Ip4Address c), cstr (Ip4Dns1 c)))
    (linked edited_bmc (setup_env servers_emptied) (fun _ x => x) callback_run (office, ready_private))
  = Some (lit "10.0.0.5", lit "9.9.9.9").
Proof. vm_compute. reflexivity. Qed.
