(* ===== verification/EthFirst.v ===== *)
(** * Exchanges without an edit

    The same two drivers when the BMC has no member yet, which the first boot
    creates, and when it does not answer.  The callback returns, and the
    stored policy stays as it is. *)

From S2P Require Import Prelude Services Uefi EdkStrings Json JsonLib EthConfig EthConfigSpec EthIface EthIfaceDxe EthIfaceResources EthIfaceSpec.
From S2P Require Import EthPolicy EthCollection EthCollectionSpec EthFlow.
From stdpp Require Import gmap.
#[local] Open Scope Z_scope.

(** The collection is readable and has no members; memory suffices.  Which
    schema the host supports, and how the driver's own requests are answered,
    is left open. *)
Record serves_vacant {W} (envc : handler ec W) (envi : handler ei W) (db : W -> questions) : Prop := {
  vacant_keeps c w : db (snd (envc c w)) = db w;
  vacant_memory w : is_Some (fst (envc AllocateUri w)) /\ forall v, is_Some (fst (envc (JsonDump v) w));
  vacant_uri t w : is_Some (fst (envc (RedfishGetUri t) w));
  vacant_get svc u w : exists r v, fst (envc (RedfishHttpGetResource svc u) w) = (EFI_SUCCESS, Some (mkRsp r (Some v)));
  vacant_converts t w : exists p Coll n, fst (envc (ToStructure t) w) = (EFI_SUCCESS, (p, Coll))
    /\ Membersodata_count Coll = Some n /\ (n = 0 \/ Members Coll = []);
  vacant_driver svc u w : let r := fst (envi (EthIface.RedfishHttpGetResource svc u) w) in
    EFI_ERROR (fst r) = true \/ is_Some (snd r ≫= rsp_payload)
}.

(** The BMC does not answer the collection's URI. *)
Record unanswered {W} (envc : handler ec W) (db : W -> questions) : Prop := {
  unanswered_keeps c w : db (snd (envc c w)) = db w;
  unanswered_memory w : is_Some (fst (envc AllocateUri w));
  unanswered_uri t w : is_Some (fst (envc (RedfishGetUri t) w));
  unanswered_get svc u w : EFI_ERROR (fst (fst (envc (RedfishHttpGetResource svc u) w))) = true
}.

Section first.
Context `{EdkStrings, JsonLib} {W : Type} (envc : handler ec W) (envi : handler ei W) (returned : request -> exchange -> exchange).
Context (db : W -> questions) (id base : list Z) (fits : list Z -> Prop) `{!QuestionDb envi db id base fits}.

Abbreviation lwp := (lwp envc envi returned).
Abbreviation settled := (settled db).
Ltac aside Hk :=
  match goal with
  | |- context [mbind _ (call ?c)] => apply lwp_bind, (aside_call _ _ _ _ Hk c); [first [done | reflexivity]|]
  | |- context [mbind _ (call_ ?c)] => apply lwp_bind, (aside_call_ _ _ _ _ Hk c); [first [done | reflexivity]|]
  end.

(** Whether the driver creates the member or is refused, it returns. *)
Lemma provision_ends P u post w :
  (forall svc u w, let r := fst (envi (EthIface.RedfishHttpGetResource svc u) w) in EFI_ERROR (fst r) = true \/ is_Some (snd r ≫= rsp_payload)) ->
  ready P -> rwp envi (serve P (Provision u post)) w (ends db (fun _ => True) (db w)).
Proof.
  intros Hget HP. cbn [serve]. unfold RedfishResourceProvisioningResource. destruct (empty_uri u); [apply rwp_ret; by eexists _, _|].
  destruct HP as [[svc Hs] Hj]. rewrite Hs. cbn [is_null]. apply rwp_bind, (rwp_keep envi db id base fits (EthIface.RedfishHttpGetResource (Some svc) u)); [done|]. intros w1 H1.
  specialize (Hget (Some svc) u w). cbv zeta in Hget. destruct (fst (envi _ w)) as [st r]. cbn [fst snd] in Hget.
  destruct (EFI_ERROR st); [apply rwp_ret; eexists _, _; split_and!; [done|done|by split; [eexists|]|done]|].
  destruct Hget as [|[v Hv]]; [done|]. cbn [with_request Payload]. rewrite Hv. cbn [is_null].
  apply rwp_bind, (keeps_only envi db id base fits); [apply provision_keeps|]. intros st' w2 H2.
  apply rwp_bind, (keeps_only envi db id base fits); [only_go|]. intros _ w3 H3.
  apply rwp_bind, (rwp_keep_ envi db id base fits (EthIface.RedfishHttpFreeResponse (rsp_id <$> r))); [done|]. intros w4 H4. apply rwp_ret.
  eexists _, _. split_and!; [done|done|split; [by eexists|exact Hj]|congruence].
Qed.

Lemma create_settles C w P :
  serves_vacant envc envi db -> ready P -> lwp (CreateCollectionResource C) (w, P) (settled (db w)).
Proof.
  intros Hv HP. unfold CreateCollectionResource. aside (vacant_keeps _ _ _ Hv). intros w1 H1. destruct (fst _) as [st i].
  destruct (EFI_ERROR st); [by apply lwp_ret|]. destruct (ours i) eqn:Ho.
  - apply lwp_bind, (lwp_ask _ _ _ (EdkIIRedfishResourceConfigProvisioning i (CollectionUri C) (InformationExchange C) true)
      (Provision (CollectionUri C) true) (fun st => (st, returned (Provision (CollectionUri C) true) (InformationExchange C)))).
    { cbn [link_call]. by rewrite Ho. }
    eapply rwp_mono; [|by apply (provision_ends _ _ _ _ (vacant_driver _ _ _ Hv))]. cbn beta.
    intros o w2 (st2 & P2 & -> & _ & HP2 & H2). eexists _, _. split; [done|]. apply lwp_ret. split; [cbn; congruence|done].
  - aside (vacant_keeps _ _ _ Hv). intros w2 H2. destruct (fst _) as [st2 x].
    apply lwp_ret. split; [cbn; congruence|done].
Qed.

(** The part of the callback that is the same for every answer. *)
Lemma callback_enters C x w P (Q : option (EFI_STATUS * REDFISH_COLLECTION_PRIVATE) -> W * resource -> Prop) :
  (forall c w, db (snd (envc c w)) = db w) -> (forall w, is_Some (fst (envc AllocateUri w))) -> (forall t w, is_Some (fst (envc (RedfishGetUri t) w))) ->
  is_Some (RedfishService C) ->
  (forall C' w', RedfishService C' = RedfishService C -> JsonStructProtocol C' = JsonStructProtocol C -> db w' = db w ->
     lwp (CollectionHandler C') (w', P) (fun o s => exists st C'', o = Some (st, C'') /\ Q (Some (EFI_SUCCESS, C'')) s)) ->
  lwp (RedfishCollectionFeatureCallback C CallbackActionStartOperation x) (w, P) Q.
Proof.
  intros Hk Hmem Huri [svc Hsvc] HQ. unfold RedfishCollectionFeatureCallback. rewrite Hsvc. aside Hk. intros w1 H1. cbv zeta.
  aside Hk. intros w2 H2. destruct (Hmem w1) as [a ->]. aside Hk. intros w3 H3.
  match goal with |- context [envc (RedfishGetUri ?t) ?v] => destruct (Huri t v) as [u ->] end.
  apply lwp_bind. eapply lwp_mono; [|apply HQ; [done|done|congruence]]. cbn beta. intros o s (st & C'' & -> & HC). by apply lwp_ret.
Qed.

Lemma vacant_handled C w P j :
  serves_vacant envc envi db -> is_Some (JsonStructProtocol C) -> CollectionJson C = Some j -> ready P ->
  lwp (HandleCollectionResource C) (w, P) (fun o s => o = Some (EFI_NOT_FOUND, C) /\ settled (db w) o s).
Proof.
  intros Hv [cv Hcv] Hj HP. pose proof (vacant_keeps _ _ _ Hv) as Hk. unfold HandleCollectionResource. rewrite Hcv, Hj. aside Hk. intros w1 H1.
  destruct (vacant_converts _ _ _ Hv (s_text j) w) as (p & Coll & n & -> & Hn & Hz). change (EFI_ERROR EFI_SUCCESS) with false. cbv iota. rewrite Hn.
  assert (Hend : lwp (_ ← call_ (S := ec) (DestroyStructure p); mret (Some (EFI_NOT_FOUND, C))) (w1, P)
                   (fun o s => o = Some (EFI_NOT_FOUND, C) /\ settled (db w) o s)).
  { aside Hk. intros w2 H2. apply lwp_ret. split; [done|]. split; [cbn; congruence|done]. }
  destruct Hz as [->| ->]; [done|]. by destruct (n =? 0).
Qed.

(** The first boot: the collection is empty. *)
Lemma vacant_settles C x w P :
  serves_vacant envc envi db -> is_Some (RedfishService C) -> is_Some (JsonStructProtocol C) -> ready P ->
  lwp (RedfishCollectionFeatureCallback C CallbackActionStartOperation x) (w, P)
    (fun o s => (exists C', o = Some (EFI_SUCCESS, C')) /\ settled (db w) o s).
Proof.
  intros Hv Hs Hcv HP. pose proof (vacant_keeps _ _ _ Hv) as Hk.
  apply callback_enters; [done|apply (vacant_memory _ _ _ Hv)|apply (vacant_uri _ _ _ Hv)|done|].
  intros C1 w1 _ Hj H1. unfold CollectionHandler. aside Hk. intros w2 H2.
  destruct (vacant_get _ _ _ Hv (RedfishService C1) (CollectionUri C1) w1) as (r & v & ->). change (EFI_ERROR EFI_SUCCESS) with false. cbv iota.
  cbn [mbind option_bind rsp_payload]. apply lwp_bind. aside Hk. intros w3 H3. destruct (vacant_memory _ _ _ Hv w2) as [_ Hd]. destruct (Hd v) as [j ->].
  cbv zeta. apply lwp_bind. eapply lwp_mono; [|eapply vacant_handled; [done| |done|done]; cbn [with_collection JsonStructProtocol]; by rewrite Hj].
  cbn beta. intros o [w4 P4] [-> [H4 HP4]]. cbn [fst snd] in *. change (EFI_ERROR EFI_NOT_FOUND && (EFI_NOT_FOUND =? EFI_NOT_FOUND)) with true. cbv iota.
  apply lwp_bind. eapply lwp_mono; [|by apply create_settles]. cbn beta. intros [st C2] [w5 P5] [H5 HP5]. cbn [fst snd] in *. apply lwp_ret.
  apply lwp_bind. eapply lwp_mono; [|by apply (release_settles _ _ _ _ Hk)]. cbn beta. intros [st' C3] [w6 P6] [H6 HP6]. cbn [fst snd] in *.
  apply lwp_ret. eexists _, _. split; [done|]. split; [by eexists|]. split; [cbn; congruence|done].
Qed.

(** The BMC is down. *)
Lemma unanswered_settles C x w P :
  unanswered envc db -> is_Some (RedfishService C) -> ready P ->
  lwp (RedfishCollectionFeatureCallback C CallbackActionStartOperation x) (w, P)
    (fun o s => (exists C', o = Some (EFI_SUCCESS, C')) /\ settled (db w) o s).
Proof.
  intros Hu Hs HP. pose proof (unanswered_keeps _ _ Hu) as Hk.
  apply callback_enters; [done|apply (unanswered_memory _ _ Hu)|apply (unanswered_uri _ _ Hu)|done|].
  intros C1 w1 _ _ H1. unfold CollectionHandler. aside Hk. intros w2 H2.
  pose proof (unanswered_get _ _ Hu (RedfishService C1) (CollectionUri C1) w1) as Hg. destruct (fst (envc _ w1)) as [st r]. cbn [fst] in Hg. rewrite Hg.
  apply lwp_bind, lwp_ret. apply lwp_bind. eapply lwp_mono; [|by apply (release_settles _ _ _ _ Hk)]. cbn beta. intros [st' C3] [w6 P6] [H6 HP6]. cbn [fst snd] in *.
  apply lwp_ret. eexists _, _. split; [done|]. split; [by eexists|]. split; [cbn; congruence|done].
Qed.
End first.
