(* ===== verification/EthHost.v ===== *)
(** * EthConfigDxe over one boot

    Its entry point and its notify function run against services that keep
    the EthCfg variable: from an absent or unreadable variable the default
    policy is written; the onboard interface gets the stored policy; and the
    variable left behind holds the same policy. *)

From S2P Require Import Prelude Services Uefi EdkStrings Json JsonLib EthConfig EthConfigSpec EthConfigStore EthIface EthIfaceSpec EthPolicy.
From stdpp Require Import gmap.
#[local] Open Scope Z_scope.

(** ** The same policy

    Every question but the MAC address. *)
Definition same_policy (q q' : questions) : Prop :=
  q_dhcp q = q_dhcp q' /\ forall p, p <> PMac -> q_str q !! p = q_str q' !! p.

#[export] Instance same_policy_equiv : Equivalence same_policy.
Proof.
  split.
  - by intros q.
  - intros q q' [Hd Hs]. split; [done|]. intros p Hp. symmetry. by apply Hs.
  - intros q1 q2 q3 [Hd Hs] [Hd' Hs']. split; [congruence|]. intros p Hp. rewrite Hs by done. by apply Hs'.
Qed.

#[export] Instance questions_plan_proper `{NetLib} ip4 : Proper (same_policy ==> eq) (questions_plan ip4).
Proof.
  intros q q' [Hd Hs]. assert (Ha : forall p, p <> PMac -> question_address q p = question_address q' p)
    by (intros p Hp; unfold question_address; by rewrite Hs).
  unfold questions_plan. cbn [omap list_omap]. by rewrite !Ha, Hd by done.
Qed.
#[export] Instance set_str_proper p v : Proper (same_policy ==> same_policy) (fun q => set_str q p v).
Proof. intros q q' [Hd Hs]. split; [exact Hd|]. intros p' Hp. rewrite !lookup_set_str. destruct (decide _) as [->|]; by rewrite Hs. Qed.
#[export] Instance set_all_proper l : Proper (same_policy ==> same_policy) (set_all l).
Proof.
  unfold set_all. induction l as [|[p v] l IH]; intros q q' Hq; [done|]. cbn [foldl]. apply IH. by apply set_str_proper.
Qed.
#[export] Instance consumed_proper `{JsonLib} Cs : Proper (same_policy ==> same_policy) (consumed Cs).
Proof.
  intros q q' Hq. unfold consumed, consumed_servers, consumed_addresses, consumed_dhcp. do 2 apply set_all_proper.
  destruct (DHCPv4 Cs) as [[b|]|]; try done. destruct Hq as [Hd Hs]. unfold set_dhcp. split; [by cbn; rewrite Hd|exact Hs].
Qed.

Lemma with_mac_policy c m : same_policy (variable_questions (with_mac c m)) (variable_questions c).
Proof. split; [done|]. intros p Hp. rewrite !variable_lookup. by destruct p. Qed.

(** ** The services EthConfigDxe runs on *)

Section host.
Context `{EdkStrings, NetLib} {W : Type} (var : W -> option (list Z)).

(** The variable can be read: a buffer of the structure's size. *)
Definition readable (w : W) : Prop := exists d, var w = Some d /\ bytes d /\ len d = sizeof_config.
(** The policy stored, or the one EnsureConfigVariable would store. *)
Definition config (w : W) : NUC_ETH_CONFIG := default default_config (var w ≫= fun d => stored_config (EFI_SUCCESS, d)).
Definition policy (w : W) : questions := variable_questions (config w).

(** The variable services store what they are given and nothing else changes
    the variable; the notification queue hands out [queue]; a handle has the
    device path [paths] gives it, with a whole MAC address in a MAC node; the
    timer expires within [limit] polls of being set; and the entry point's
    event and registration succeed. *)
Record host_ok (host : handler eth W) (queue : W -> list Z) (patience : W -> nat) (paths : Z -> option (list dp_node)) (limit : nat) : Prop := {
  host_get w : match var w with
               | Some d => fst (host GetEthCfg w) = (EFI_SUCCESS, d)
               | None => EFI_ERROR (fst (fst (host GetEthCfg w))) = true
               end;
  host_set c w : config_wf c -> var (snd (host (SetEthCfg (encode_config c)) w)) = Some (encode_config c);
  host_var c w : match c with SetEthCfg _ => True | _ => var (snd (host c w)) = var w end;
  host_locate w : match queue w with
                  | [] => EFI_ERROR (fst (fst (host LocateNotifiedHandle w))) = true
                  | h :: l => fst (host LocateNotifiedHandle w) = (EFI_SUCCESS, h) /\ queue (snd (host LocateNotifiedHandle w)) = l
                  end;
  host_queue c w : match c with LocateNotifiedHandle => True | _ => queue (snd (host c w)) = queue w end;
  host_path h w : fst (host (DevicePathFromHandle h) w) = paths h;
  host_mac h p n : paths h = Some p -> n ∈ p -> is_mac_node n = true -> (6 <= length (dp_data n))%nat;
  host_timer e t w : (patience (snd (host (SetTimerRelative e t) w)) <= limit)%nat;
  host_poll e w : EFI_ERROR (fst (host (CheckEvent e) w)) = true -> (patience (snd (host (CheckEvent e) w)) < patience w)%nat;
  host_patience c w : match c with SetTimerRelative _ _ => True | _ => (patience (snd (host c w)) <= patience w)%nat end;
  host_event w : EFI_ERROR (fst (fst (host CreateInstallEvent w))) = false;
  host_register e w : EFI_ERROR (fst (host (RegisterProtocolNotify e) w)) = false
}.

Context (host : handler eth W) (queue : W -> list Z) (patience : W -> nat) (paths : Z -> option (list dp_node)) (limit : nat).
Context (Hh : host_ok host queue patience paths limit).

Lemma config_wf_default : config_wf default_config.
Proof. repeat split; try done; repeat constructor; unfold is_uint; cbn; lia. Qed.
Lemma readable_config w : readable w -> exists d, var w = Some d /\ stored_config (EFI_SUCCESS, d) = Some (config w)
  /\ config_wf (config w) /\ terminate_all (config w) = config w.
Proof.
  intros (d & Hd & Hb & Hl). exists d. split; [done|].
  assert (Hs : stored_config (EFI_SUCCESS, d) = Some (config w)).
  { unfold config. rewrite Hd. cbn [mbind option_bind]. unfold stored_config. cbn [fst snd]. by rewrite Hl, Z.eqb_refl. }
  split; [done|]. by apply (stored_wf d).
Qed.
Lemma stored_readable c w : config_wf c -> terminate_all c = c -> var w = Some (encode_config c) -> readable w /\ config w = c.
Proof.
  intros Hc Ht Hv. split; [exists (encode_config c); split_and!; [done|by apply encode_bytes|by apply encode_length]|].
  unfold config. rewrite Hv. cbn [mbind option_bind]. rewrite stored_encode by done. by rewrite Ht.
Qed.

(** Programs that neither write the variable nor take from the queue. *)
Definition aloof (c : eth_op) : Prop := match c with SetEthCfg _ | LocateNotifiedHandle => False | _ => True end.
Lemma aloof_call c w : aloof c -> var (snd (host c w)) = var w /\ queue (snd (host c w)) = queue w.
Proof.
  intros Hc. pose proof (host_var _ _ _ _ _ Hh c w). pose proof (host_queue _ _ _ _ _ Hh c w). by destruct c.
Qed.
Lemma same_config w w' : var w' = var w -> config w' = config w /\ (readable w -> readable w').
Proof. intros Hv. unfold config, readable. by rewrite Hv. Qed.
Lemma aloof_run {A} (p : fw eth A) w :
  only (S := eth) aloof p -> rwp host p w (fun _ w' => var w' = var w /\ queue w' = queue w).
Proof.
  revert w. induction p as [a|c k IH]; intros w Ho; [by apply rwp_ret|]. destruct Ho as [Hc Hk].
  change (Do c k) with (call (S := eth) c ≫= k). apply rwp_bind, rwp_call. eapply rwp_mono; [|apply IH, Hk]. cbn beta. intros a w' [-> ->].
  by apply aloof_call.
Qed.

Ltac calls := match goal with |- rwp _ (mbind _ (call ?c)) _ _ => apply rwp_bind, (rwp_call (S := eth) _ c) end.

(** ** The entry point *)

Lemma entry_run w :
  (forall d, var w = Some d -> bytes d) ->
  rwp host EthConfigEntryPoint w (fun st w' => EFI_ERROR st = false /\ readable w' /\ config w' = config w /\ queue w' = queue w).
Proof.
  intros Hb. unfold EthConfigEntryPoint. apply rwp_bind. eapply (rwp_mono _ _ _ (fun _ w' => readable w' /\ config w' = config w /\ queue w' = queue w)).
  - intros _ w1 (Hr & Hc & Hq). calls. destruct (aloof_call CreateInstallEvent w1 I) as [Hv2 Hq2]. pose proof (host_event _ _ _ _ _ Hh w1) as He.
    destruct (fst (host CreateInstallEvent w1)) as [st e]. cbn [fst] in He. rewrite He.
    calls. rewrite (host_register _ _ _ _ _ Hh). apply rwp_ret.
    destruct (aloof_call (RegisterProtocolNotify e) (snd (host CreateInstallEvent w1)) I) as [Hv3 Hq3].
    rewrite Hv2 in Hv3. destruct (same_config _ _ Hv3) as [-> Hr3]. split_and!; [done|by apply Hr3|done|congruence].
  - unfold EnsureConfigVariable. calls. pose proof (host_get _ _ _ _ _ Hh w) as Hg.
    destruct (aloof_call GetEthCfg w I) as [Hv Hq].
    destruct (fst (host GetEthCfg w)) as [st d] eqn:E. set (w1 := snd (host GetEthCfg w)) in *.
    destruct (negb (EFI_ERROR st) && (len d =? sizeof_config)) eqn:Ht.
    + apply rwp_ret. apply andb_true_iff in Ht as [Hst%negb_true_iff Hl%Z.eqb_eq]. destruct (var w) as [d'|] eqn:Hw; [|cbn in Hg; congruence].
      injection Hg as -> ->. split; [exists d'; split_and!; [congruence|by apply Hb|done]|]. split; [unfold config; by rewrite Hv, Hw|done].
    + apply (rwp_call_ (S := eth)). pose proof (host_queue _ _ _ _ _ Hh (SetEthCfg (encode_config default_config)) w1 : queue _ = _) as Hq2.
      destruct (stored_readable default_config (snd (host (SetEthCfg (encode_config default_config)) w1)) config_wf_default eq_refl) as [Hr Hc];
        [by apply (host_set _ _ _ _ _ Hh), config_wf_default|]. split; [done|]. split; [|congruence]. rewrite Hc. unfold config.
      destruct (var w) as [d'|]; [|done]. injection Hg as -> ->. cbn [mbind option_bind]. unfold stored_config. cbn [fst snd] in *.
      change (EFI_ERROR EFI_SUCCESS) with false in *. cbn [negb andb orb] in *. by rewrite Ht.
Qed.

(** ** Claiming the interface *)

(** The variable after a step that keeps the policy. *)
Definition kept (w w' : W) : Prop := readable w' /\ same_policy (policy w') (policy w) /\ queue w' = queue w.

Lemma kept_aloof w w' : readable w -> var w' = var w -> queue w' = queue w -> kept w w'.
Proof. intros Hr Hv Hq. destruct (same_config w w' Hv) as [Hc Hr']. split; [by apply Hr'|]. split; [unfold policy; by rewrite Hc|done]. Qed.
Lemma kept_trans w1 w2 w3 : kept w1 w2 -> kept w2 w3 -> kept w1 w3.
Proof. intros (_ & H2 & H3) (K1 & K2 & K3). split; [done|]. split; [by transitivity (policy w2)|congruence]. Qed.

Lemma config_read_run w (Q : option NUC_ETH_CONFIG -> W -> Prop) :
  readable w -> (forall w', var w' = var w -> queue w' = queue w -> Q (Some (config w)) w') -> rwp host ReadConfigVariable w Q.
Proof.
  intros Hr HQ. destruct (readable_config w Hr) as (d & Hd & Hs & _). unfold ReadConfigVariable. calls.
  pose proof (host_get _ _ _ _ _ Hh w) as Hg. rewrite Hd in Hg. destruct (aloof_call GetEthCfg w I) as [Hv Hq]. rewrite Hg. apply rwp_ret.
  unfold stored_config in Hs. cbn [fst snd] in Hs. rewrite Hs. by apply HQ.
Qed.

Lemma seed_keeps h path w : paths h = Some path -> readable w -> rwp host (SeedMacAddress path) w (fun r w' => r = Some tt /\ kept w w').
Proof.
  intros Hp Hr. unfold SeedMacAddress. destruct (List.find is_mac_node path) as [n|] eqn:Hf; [|apply rwp_ret; split; [done|by apply kept_aloof]].
  apply rwp_bind, config_read_run; [done|]. intros w1 Hv1 Hq1. apply List.find_some in Hf as [Hin%list_elem_of_In Hn].
  pose proof (host_mac _ _ _ _ _ Hh h path n Hp Hin Hn) as Hl.
  assert (exists addr, mapM (mem_get (dp_data n)) (seqZ 0 6) = Some addr) as [addr ->].
  { destruct (dp_data n) as [|b0 [|b1 [|b2 [|b3 [|b4 [|b5 l]]]]]]; cbn in Hl; try lia. by eexists. }
  cbv zeta. destruct (bool_decide _); [apply rwp_ret; split; [done|by apply kept_aloof]|].
  rewrite UnicodeSPrint_spec, (take_ge (mac_text addr)) by (done || by rewrite mac_text_length).
  rewrite (take_ge (mac_text addr ++ [0])) by (rewrite length_app, mac_text_length; unfold NUC_ETH_MAC_STR_SIZE; cbn; lia). fold (mac_field addr).
  destruct (readable_config w Hr) as (_ & _ & _ & Hwf & Ht). destruct (with_mac_wf addr (config w) Hwf Ht) as [Hwf' Ht'].
  apply rwp_bind, (rwp_call_ (S := eth)), rwp_ret. split; [done|].
  destruct (stored_readable _ _ Hwf' Ht' (host_set _ _ _ _ _ Hh _ w1 Hwf')) as [Hr2 Hc2].
  split; [done|]. split; [unfold policy; rewrite Hc2; apply with_mac_policy|].
  pose proof (host_queue _ _ _ _ _ Hh (SetEthCfg (encode_config (with_mac (config w) (mac_field addr)))) w1 : queue _ = _). congruence.
Qed.

(** The wait for the address ends. *)
Lemma wait_ends fuel ev st w : (patience w < fuel)%nat -> rwp host (wait_address fuel ev st) w (fun r _ => is_Some r).
Proof.
  revert st w. induction fuel as [|fuel IH]; intros st w Hf; [lia|]. cbn [wait_address]. calls. destruct (EFI_ERROR (fst (host (CheckEvent ev) w))) eqn:E; [|apply rwp_ret; by eexists].
  pose proof (host_poll _ _ _ _ _ Hh ev w E) as Hp. calls. destruct (fst (host IsAddressOk _)); [apply rwp_ret; by eexists|]. apply IH.
  pose proof (host_patience _ _ _ _ _ Hh IsAddressOk (snd (host (CheckEvent ev) w)) : (patience _ <= _)%nat). lia.
Qed.
Lemma exit_some e te st w : rwp host (static_exit e te st) w (fun r _ => is_Some r).
Proof. unfold static_exit. apply rwp_bind. destruct e; [apply (rwp_call_ (S := eth))|apply rwp_ret]; apply rwp_bind, (rwp_call_ (S := eth)), rwp_ret; by eexists. Qed.

(** A program whose result does not matter here. *)
Lemma rwp_skip {A} (p : fw eth A) w (Q : A -> W -> Prop) : (forall a w', Q a w') -> rwp host p w Q.
Proof. intros HQ. rewrite rwp_run. apply HQ. Qed.

Lemma address_some fuel ip4 c A M w : (limit < fuel)%nat -> rwp host (static_address fuel ip4 c A M) w (fun r _ => is_Some r).
Proof.
  intros Hf. unfold static_address. apply rwp_bind, rwp_skip. intros [st te] w1. destruct (EFI_ERROR st); [apply rwp_ret; by eexists|].
  apply rwp_bind, rwp_skip. intros [st2 se] w2. destruct (EFI_ERROR st2); [apply exit_some|].
  apply rwp_bind, rwp_skip. intros st3 w3. destruct (EFI_ERROR st3); [apply exit_some|].
  apply rwp_bind, rwp_skip. intros st4 w4. apply rwp_bind. eapply (rwp_mono _ _ _ (fun r _ => is_Some r)).
  - intros r w5 [st5 ->]. apply rwp_bind, rwp_skip. intros _ w6. destruct (EFI_ERROR st5); [apply exit_some|].
    apply rwp_bind, rwp_skip. intros _ w7. apply exit_some.
  - destruct (st4 =? EFI_NOT_READY); [|apply rwp_ret; by eexists]. apply rwp_bind, (rwp_call_ (S := eth)), wait_ends.
    pose proof (host_timer _ _ _ _ _ Hh te 50000000 w4). lia.
Qed.
Lemma apply_some fuel h w : (limit < fuel)%nat -> rwp host (ApplyConfig fuel h) w (fun r _ => r = Some tt).
Proof.
  intros Hf. unfold ApplyConfig. apply rwp_bind, rwp_skip. intros [c|] w1; [|by apply rwp_ret]. destruct (_ && _); [by apply rwp_ret|].
  apply rwp_bind, rwp_skip. intros [st ip4] w2. destruct (EFI_ERROR st); [by apply rwp_ret|]. destruct (negb _).
  - apply rwp_bind, rwp_skip. intros _ w3. by apply rwp_ret.
  - apply rwp_bind. eapply (rwp_mono _ _ _ (fun r _ => is_Some r)); [intros r w3 [st3 ->]; by apply rwp_ret|].
    unfold ApplyStaticConfig. destruct (ParseIp4Field _) as [S1 A]. destruct (ParseIp4Field _) as [S2 M].
    destruct (_ || _); [apply rwp_ret; by eexists|]. destruct (_ || _); [apply rwp_ret; by eexists|].
    apply rwp_bind, rwp_skip. intros st4 w4. destruct (EFI_ERROR st4); [apply rwp_ret; by eexists|by apply address_some].
Qed.

Lemma wait_aloof fuel ev st : only (S := eth) aloof (wait_address fuel ev st).
Proof. revert st. induction fuel; intros st; cbn [wait_address]; only_go; apply IHfuel. Qed.
Lemma apply_aloof fuel h : only (S := eth) aloof (ApplyConfig fuel h).
Proof.
  unfold ApplyConfig, ReadConfigVariable, ApplyStaticConfig, static_address, static_exit, static_options. only_go; apply wait_aloof.
Qed.
Lemma publish_aloof path : only (S := eth) aloof (PublishFormset path).
Proof. unfold PublishFormset. only_go. Qed.

(** The settings made from what the variable holds. *)
Lemma apply_settings fuel h w :
  readable w -> rtwp host (ApplyConfig fuel h) w (fun r _ t => r = Some tt -> existsb refused t = false -> exists ip4, settings t = policy_plan ip4 (config w)).
Proof.
  intros Hr. unfold ApplyConfig. apply rtwp_bind.
  eapply (rtwp_mono _ _ _ (fun r w' t => settings t = [] /\ existsb refused t = false /\ r = Some (config w))).
  - intros r w1 t (Hs & Hf & ->). eapply rtwp_mono; [|apply (rtwp_both _ _ _ _ (fun _ _ => True) (Apply_applied fuel h (config w))); by apply rwp_skip].
    cbn beta. intros r w2 t' [Ha _] -> Hr'. rewrite existsb_app, Hf in Hr'. rewrite settings_app, Hs. by apply (applied_settings fuel h).
  - eapply rtwp_mono; [|apply (rtwp_both _ _ _ (fun _ t => settings t = [] /\ existsb refused t = false) (fun r _ => r = Some (config w)))].
    + cbn beta. intros r w' t [[Hs Hf] ->]. done.
    + unfold ReadConfigVariable. by wp_go.
    + by apply config_read_run.
Qed.

Lemma claim_run fuel h path w :
  (limit < fuel)%nat -> paths h = Some path -> readable w ->
  rtwp host (claim_nic fuel h path) w (fun r w' t => r = Some tt /\ kept w w'
    /\ (existsb refused t = false -> exists ip4, settings t = questions_plan ip4 (policy w))).
Proof.
  intros Hf Hp Hr. unfold claim_nic. apply rtwp_bind.
  eapply rtwp_mono; [|apply (rtwp_both _ _ _ (fun _ t => settings t = [])); [|by apply (seed_keeps h)]].
  2:{ unfold SeedMacAddress, ReadConfigVariable. by wp_go. }
  cbn beta. intros r w1 t1 (Hs1 & -> & Hk1). apply rtwp_bind.
  eapply rtwp_mono; [|apply (rtwp_both _ _ _ (fun _ t => settings t = [])); [|apply aloof_run, publish_aloof]].
  2:{ unfold PublishFormset. by wp_go. }
  cbn beta. intros [] w2 t2 (Hs2 & Hv2 & Hq2). assert (Hk2 : kept w w2) by (eapply kept_trans; [exact Hk1|apply kept_aloof; [apply Hk1|done|done]]).
  eapply rtwp_mono; [|apply rtwp_and; [apply (apply_settings fuel h w2), Hk2|
    apply rwp_rtwp, rwp_and; [by apply (apply_some fuel h)|apply aloof_run, apply_aloof]]].
  cbn beta. intros r w3 t3 (Hs3 & -> & Hv3 & Hq3). split; [done|].
  split; [eapply kept_trans; [exact Hk2|apply kept_aloof; [apply Hk2|done|done]]|].
  rewrite !existsb_app, !settings_app, Hs1, Hs2. intros Hr3. cbn [app].
  apply orb_false_iff in Hr3 as [_ Hr3]. apply orb_false_iff in Hr3 as [_ Hr3]. destruct (Hs3 eq_refl Hr3) as [ip4 ->]. exists ip4.
  rewrite policy_plan_questions. apply questions_plan_proper, Hk2.
Qed.

(** ** The notify function *)

Definition nic (h : Z) : bool :=
  match paths h with
  | Some p => let '(HasMac, OverUsb) := ClassifyNicDevicePath p false false in negb (OverUsb || negb HasMac)
  | None => false
  end.

Ltac traced := match goal with |- rtwp _ (mbind _ (call ?c)) _ _ => apply rtwp_bind, (rtwp_call (S := eth) _ c) end.

(** The first onboard interface of the queue is claimed, and no other. *)
Lemma notify_run l : forall fuel w claimed,
  queue w = l -> (length l + limit + 1 < fuel)%nat -> readable w ->
  rtwp host (OnIp4Config2Installed fuel claimed) w (fun r w' t => r = Some (claimed || existsb nic l) /\ readable w'
    /\ same_policy (policy w') (policy w)
    /\ if negb claimed && existsb nic l then existsb refused t = false -> exists ip4, settings t = questions_plan ip4 (policy w) else settings t = []).
Proof.
  induction l as [|h l IH]; intros fuel w claimed Hq Hf Hr; (destruct fuel as [|fuel]; [lia|]); cbn [OnIp4Config2Installed];
    traced; pose proof (host_locate _ _ _ _ _ Hh w) as Hl; rewrite Hq in Hl;
    pose proof (host_var _ _ _ _ _ Hh LocateNotifiedHandle w : var _ = _) as Hv1; destruct (same_config _ _ Hv1) as [Hc1 Hr1]; specialize (Hr1 Hr).
  - destruct (fst (host LocateNotifiedHandle w)) as [st h]. cbn [fst] in Hl. rewrite Hl. apply rtwp_ret. cbn [existsb]. rewrite orb_false_r, andb_false_r.
    split_and!; [done|done|unfold policy; by rewrite Hc1|done].
  - destruct Hl as [-> Hq1]. set (w1 := snd (host LocateNotifiedHandle w)) in *. change (EFI_ERROR EFI_SUCCESS) with false. cbv iota. cbn [length] in Hf.
    assert (Hp1 : policy w1 = policy w) by (unfold policy; by rewrite Hc1). destruct claimed.
    + eapply rtwp_mono; [|apply (IH fuel w1 true); [done|lia|done]]. cbn beta. intros r w2 t (-> & Hr2 & Hp2 & Hs). rewrite Hp1 in Hp2.
      split_and!; done.
    + traced. rewrite (host_path _ _ _ _ _ Hh). destruct (aloof_call (DevicePathFromHandle h) w1 I) as [Hv2 Hq2].
      set (w2 := snd (host (DevicePathFromHandle h) w1)) in *. destruct (same_config _ _ Hv2) as [Hc2 Hr2]. specialize (Hr2 Hr1).
      assert (Hp2 : policy w2 = policy w) by (unfold policy; by rewrite Hc2, Hc1).
      assert (Hskip : nic h = false -> rtwp host (OnIp4Config2Installed fuel false) w2 (fun r w' t => r = Some (existsb nic (h :: l)) /\ readable w'
        /\ same_policy (policy w') (policy w) /\ if existsb nic (h :: l) then existsb refused t = false -> exists ip4, settings t = questions_plan ip4 (policy w) else settings t = [])).
      { intros Hn. eapply rtwp_mono; [|apply (IH fuel w2 false); [congruence|lia|done]]. cbn beta. cbn [existsb]. rewrite Hn, Hp2. cbn [orb negb andb].
        by intros r w3 t. }
      unfold nic in Hskip at 1. cbn [orb negb andb]. destruct (paths h) as [path|] eqn:Hpath.
      2:{ eapply rtwp_mono; [|by apply Hskip]. cbn beta. intros r w3 t (-> & Hr3 & Hp3 & Hs). by split_and!. }
      destruct (ClassifyNicDevicePath path false false) as [HasMac OverUsb] eqn:Hcl. destruct (OverUsb || negb HasMac) eqn:Ho.
      { eapply rtwp_mono; [|by apply Hskip]. cbn beta. intros r w3 t (-> & Hr3 & Hp3 & Hs). by split_and!. }
      assert (Hn : existsb nic (h :: l) = true) by (cbn [existsb]; unfold nic at 1; by rewrite Hpath, Hcl, Ho).
      rewrite Hn. unfold obind. apply rtwp_bind. eapply rtwp_mono; [|apply (claim_run fuel h path w2); [lia|done|done]]. cbn beta.
      intros r w3 t3 (-> & (Hr3 & Hp3 & Hq3) & Hs3). eapply rtwp_mono; [|apply (IH fuel w3 true); [congruence|lia|done]]. cbn beta.
      intros r w4 t4 (-> & Hr4 & Hp4 & Hs4). cbn [orb negb andb] in *. split_and!; [done|done|rewrite Hp4, Hp3, Hp2; reflexivity|].
      rewrite !settings_app, !existsb_app, Hs4, app_nil_r, <- Hp2. intros Hrf. apply Hs3. cbn [existsb refused orb] in Hrf. by apply orb_false_iff in Hrf as [? _].
Qed.
End host.
