(* ===== verification/EthBoots.v ===== *)
(** * Boot after boot

    What the BMC's administrator sees: EthConfigDxe and the two feature
    drivers run at every boot over one EthCfg variable, which survives the
    reset.  The abstract machine is a policy and the edits made to it; the
    theorem shows that the boots implement it. *)

From S2P Require Import Prelude Services Uefi EdkStrings Json JsonLib EthConfig EthConfigSpec EthConfigStore EthIface EthIfaceDxe EthIfaceResources.
From S2P Require Import EthIfaceSpec EthPolicy EthCollection EthCollectionSpec EthFlow EthFirst EthHost.
From stdpp Require Import gmap.
#[local] Open Scope Z_scope.

(** ** One boot *)

(** What a boot meets: the reset, the services of the three drivers, and the
    drivers' contexts once their protocols are there. *)
Record boot (W : Type) := mkBoot {
  power_on : W -> W;
  b_host : handler eth W; b_bmc : handler ec W; b_driver : handler ei W;
  b_returned : request -> exchange -> exchange;
  b_collection : REDFISH_COLLECTION_PRIVATE; b_resource : resource; b_exchange : exchange
}.
Arguments mkBoot {W}.
Arguments power_on {W}.
Arguments b_host {W}.
Arguments b_bmc {W}.
Arguments b_driver {W}.
Arguments b_returned {W}.
Arguments b_collection {W}.
Arguments b_resource {W}.
Arguments b_exchange {W}.

Section boots.
Context `{EdkStrings, NetLib, JsonLib} {W : Type}.

(** EthConfigDxe is dispatched, then told of the interfaces; later the
    feature core starts the collection driver.  The answer is the calls
    EthConfigDxe made on the interfaces. *)
Definition boot_once (fuel : nat) (b : boot W) (w : W) : option (list (event eth) * W) :=
  let w := power_on b w in
  let Status := run_val (b_host b) EthConfigEntryPoint w in
  let w := run_state (b_host b) EthConfigEntryPoint w in
  let notify := if EFI_ERROR Status then mret (Some false) else OnIp4Config2Installed fuel false in
  match run_val (b_host b) notify w with
  | None => None
  | Some _ =>
      match linked (b_bmc b) (b_driver b) (b_returned b)
              (RedfishCollectionFeatureCallback (b_collection b) CallbackActionStartOperation (b_exchange b))
              (run_state (b_host b) notify w, b_resource b) with
      | Some (Some _, (w', _)) => Some (run_trace (b_host b) notify w, w')
      | _ => None
      end
  end.

Fixpoint boots (fuel : nat) (bs : list (boot W)) (w : W) : option (list (list (event eth)) * W) :=
  match bs with
  | [] => Some ([], w)
  | b :: bs => '(t, w) ← boot_once fuel b w; '(ts, w) ← boots fuel bs w; Some (t :: ts, w)
  end.

(** ** The abstract machine *)

(** The policy after an exchange: edited on the BMC, or not. *)
Definition after (q : questions) (edit : option ETHERNETINTERFACE_CS) : questions :=
  match edit with Some Cs => consumed Cs q | None => q end.

#[export] Instance after_proper : Proper (same_policy ==> eq ==> same_policy) after.
Proof. intros q q' Hq e _ <-. destruct e; [by apply consumed_proper|done]. Qed.
#[export] Instance edits_proper l : Proper (same_policy ==> same_policy) (fun q => foldl after q l).
Proof. induction l as [|e l IH]; intros q q' Hq; [done|]. cbn [foldl]. apply IH. by apply after_proper. Qed.

(** ** What the boots rely on *)

Context (var : W -> option (list Z)).
Abbreviation db := (policy var).

(** The BMC has the member, edited or not; or no member; or is silent. *)
Inductive meets (b : boot W) : option ETHERNETINTERFACE_CS -> Prop :=
  | met_member fresh uri v p Cs Coll fits :
      QuestionDb (b_driver b) db (odata_id Cs) instance_lang fits ->
      serves_member (b_driver b) fresh uri v p Cs -> serves_collection (b_bmc b) db uri Coll ->
      Forall (fun s => fits (snd s)) (address_settings Cs) -> Forall (fun s => fits (snd s)) (server_settings Cs) ->
      populated Coll = true -> NoDup (uris (Members Coll)) -> uri ∈ uris (Members Coll) ->
      meets b (if fresh then Some Cs else None)
  | met_vacant id fits :
      QuestionDb (b_driver b) db id instance_lang fits -> serves_vacant (b_bmc b) (b_driver b) db -> meets b None
  | met_silent : unanswered (b_bmc b) db -> meets b None.

(** The reset keeps the variable and brings an onboard interface; the two
    feature drivers are ready, and no service of theirs breaks the variable's
    layout. *)
Record boot_ok (fuel : nat) (b : boot W) (edit : option ETHERNETINTERFACE_CS) : Prop := {
  ok_reset w : var (power_on b w) = var w;
  ok_host : exists queue patience paths limit, host_ok var (b_host b) queue patience paths limit
    /\ forall w, existsb (nic paths) (queue (power_on b w)) = true /\ (length (queue (power_on b w)) + limit + 1 < fuel)%nat;
  ok_meets : meets b edit;
  ok_layout : (forall c w, readable var w -> readable var (snd (b_bmc b c w))) /\ (forall c w, readable var w -> readable var (snd (b_driver b c w)));
  ok_collection : is_Some (RedfishService (b_collection b)) /\ is_Some (JsonStructProtocol (b_collection b));
  ok_resource : ready (b_resource b)
}.

(** ** The exchange *)

Lemma exchange_settles b edit w :
  meets b edit -> is_Some (RedfishService (b_collection b)) -> is_Some (JsonStructProtocol (b_collection b)) -> ready (b_resource b) ->
  lwp (b_bmc b) (b_driver b) (b_returned b) (RedfishCollectionFeatureCallback (b_collection b) CallbackActionStartOperation (b_exchange b)) (w, b_resource b)
    (fun o s => (exists C', o = Some (EFI_SUCCESS, C')) /\ settled db (after (db w) edit) o s).
Proof.
  intros [fresh uri v p Cs Coll fits Hdb Hm Hc Hfa Hfs Hpop Hnd Hin|id fits Hdb Hv|Hu] Hs Hj HP.
  - unfold populated in Hpop. destruct (Membersodata_count Coll) as [n|] eqn:Hn; [|done].
    assert (Hz : n <> 0) by (destruct (Members Coll); [done|]; by apply Z.eqb_neq, negb_true_iff).
    replace (after (db w) (if fresh then Some Cs else None)) with (edited_by fresh Cs (db w)) by by destruct fresh.
    by eapply callback_settles.
  - change (after (db w) None) with (db w). by eapply vacant_settles.
  - change (after (db w) None) with (db w). by apply unanswered_settles.
Qed.

(** Both drivers keep the variable readable, whatever they are asked. *)
Lemma run_readable (env : handler ei W) {A} (p : fw ei A) w :
  (forall c w, readable var w -> readable var (snd (env c w))) -> readable var w -> readable var (run_state env p w).
Proof.
  intros Hk Hr. change (rwp env p w (fun _ w' => readable var w')). revert w Hr. induction p as [a|c k IH]; intros w Hr; [by apply rwp_ret|].
  change (Do c k) with (call (S := ei) c ≫= k). apply rwp_bind, rwp_call. by apply IH, Hk.
Qed.
Lemma linked_readable b {A} (p : fw ec A) w P a w' P' :
  (forall c w, readable var w -> readable var (snd (b_bmc b c w))) -> (forall c w, readable var w -> readable var (snd (b_driver b c w))) ->
  linked (b_bmc b) (b_driver b) (b_returned b) p (w, P) = Some (a, (w', P')) -> readable var w -> readable var w'.
Proof.
  intros Hc Hi. revert w P. induction p as [x|c k IH]; intros w P; cbn [linked]; [by intros [= _ <- _]|].
  destruct (link_call _ _ _ c (w, P)) as [[r [w1 P1]]|] eqn:E; [|done]. intros Hl Hr. eapply IH; [exact Hl|].
  assert (Helse : forall c r w1 P1, elsewhere (b_bmc b) c (w, P) = Some (r, (w1, P1)) -> readable var w1)
    by (intros c' r' w2 P2 [= _ <- _]; by apply Hc).
  assert (Hdel : forall X q (ans : EFI_STATUS -> X) r w1 P1, delivered (b_driver b) q ans (w, P) = Some (r, (w1, P1)) -> readable var w1).
  { intros X q ans r' w2 P2. unfold delivered. cbn [fst snd]. destruct (run_val _ _ _) as [[st Q]|]; [|done]. intros [= _ <- _]. by apply run_readable. }
  destruct c; cbn [link_call] in E; try (by eapply Helse); (destruct (ours _); [by eapply Hdel|by eapply Helse]).
Qed.

(** ** A boot implements a step *)

Lemma boot_run fuel b edit w :
  boot_ok fuel b edit -> (forall d, var w = Some d -> bytes d) ->
  exists t w', boot_once fuel b w = Some (t, w') /\ readable var w' /\ same_policy (db w') (after (db w) edit)
    /\ (existsb refused t = false -> exists ip4, settings t = questions_plan ip4 (db w)).
Proof.
  intros [Hreset (queue & patience & paths & limit & Hh & Hq) Hm [Hlc Hli] [Hs Hj] HP] Hb. unfold boot_once. set (w0 := power_on b w).
  destruct (Hq w) as [Hnic Hf]. fold w0 in Hnic, Hf. assert (Hv0 : var w0 = var w) by apply Hreset.
  assert (Hw0 : db w0 = db w) by (unfold policy, config; by rewrite Hv0).
  destruct (proj1 (rwp_run _ _ _ _) (entry_run var (b_host b) queue patience paths limit Hh w0 ltac:(intros d Hd; apply Hb; by rewrite <- Hv0)))
    as (Hst & Hr1 & Hc1 & Hq1). rewrite Hst. set (w1 := run_state (b_host b) EthConfigEntryPoint w0) in *.
  assert (Hw1 : db w1 = db w) by (rewrite <- Hw0; unfold policy; by rewrite Hc1).
  pose proof (notify_run var (b_host b) queue patience paths limit Hh (queue w0) fuel w1 false Hq1 Hf Hr1) as Hn. apply rtwp_run in Hn.
  rewrite Hnic in Hn. cbn [orb negb andb] in Hn. destruct Hn as (-> & Hr2 & Hp2 & Hset).
  set (w2 := run_state (b_host b) (OnIp4Config2Installed fuel false) w1) in *. set (t := run_trace (b_host b) (OnIp4Config2Installed fuel false) w1) in *.
  pose proof (exchange_settles b edit w2 Hm Hs Hj HP) as He. unfold lwp in He.
  destruct (linked _ _ _ _ (w2, b_resource b)) as [[o [w3 P3]]|] eqn:El; [|done]. destruct He as [[C' ->] [H3 HP3]]. cbn [fst snd] in *.
  exists t, w3. split; [done|]. split; [by eapply linked_readable|]. rewrite Hw1 in Hp2, Hset. split; [|exact Hset].
  rewrite H3. by apply after_proper.
Qed.

Lemma readable_bytes w : readable var w -> forall d, var w = Some d -> bytes d.
Proof. intros (d & Hd & Hb & _) d' Hd'. congruence. Qed.

Lemma boots_run fuel bs edits w :
  Forall2 (boot_ok fuel) bs edits -> (forall d, var w = Some d -> bytes d) ->
  exists ts w', boots fuel bs w = Some (ts, w') /\ length ts = length bs /\ same_policy (db w') (foldl after (db w) edits)
    /\ forall i t, ts !! i = Some t -> existsb refused t = false ->
       exists ip4, settings t = questions_plan ip4 (foldl after (db w) (take i edits)).
Proof.
  intros Hbs. revert w. induction Hbs as [|b edit bs edits Hb Hbs IH]; intros w Hw; [by exists [], w|].
  destruct (boot_run fuel b edit w Hb Hw) as (t & w1 & E1 & Hr & Hp & Ht).
  destruct (IH w1 (readable_bytes w1 Hr)) as (ts & w2 & E2 & Hlen & Hp2 & Hts).
  exists (t :: ts), w2. cbn [boots]. rewrite E1. cbn [mbind option_bind]. rewrite E2. split; [done|]. cbn [foldl length].
  split; [by rewrite Hlen|]. split; [rewrite Hp2; by apply edits_proper|].
  intros [|i] t' Hi Hrf; cbn [lookup list_lookup] in Hi; [injection Hi as <-; by apply Ht|].
  destruct (Hts i t' Hi Hrf) as [ip4 ->]. exists ip4. cbn [take foldl]. apply questions_plan_proper. by apply edits_proper.
Qed.
End boots.

(** C15: Boot after boot, the firmware implements a policy and the edits made
    to it.  The machine is reset any number of times; at each boot
    EthConfigDxe is dispatched and told of the interfaces, among them an
    onboard one, and later the feature core starts the collection driver,
    whose BMC has the member (edited since or not), has no members, or does
    not answer.  Assumed of every boot: a variable written is stored and
    survives the reset, setting a question stores it in the variable, the
    polls for an address end, the member has DHCPv4 and no settings object
    (@Redfish.Settings), its texts fit their questions, and memory suffices.
    Then every boot completes.  The policy left in the variable
    is the first one with the edits applied in order: a MAC address seeded, a
    member created, a silent BMC and an ETag seen before lose nothing and add
    nothing.  Applying an edit sets what the resource carries: an empty
    StaticNameServers keeps the stored servers, absent static addresses clear
    the stored one.  And at boot [i], unless a call is refused, the settings made on
    the interface are the plan of the policy after the edits of the boots
    before it: an edit is applied by the next boot and by every boot until
    the next edit.  A variable that is absent or has another size stands for
    the default policy. *)
Theorem boots_follow_edits `{EdkStrings, NetLib, JsonLib} {W : Type} (var : W -> option (list Z)) (fuel : nat)
    (bs : list (boot W)) (edits : list (option ETHERNETINTERFACE_CS)) (w : W)
    (Hbs : Forall2 (boot_ok var fuel) bs edits) (Hw : forall d, var w = Some d -> bytes d) :
  exists ts w', boots fuel bs w = Some (ts, w') /\ length ts = length bs
    /\ same_policy (policy var w') (foldl after (policy var w) edits)
    /\ forall i t, ts !! i = Some t -> existsb refused t = false ->
       exists ip4, settings t = questions_plan ip4 (foldl after (policy var w) (take i edits)).
Proof. by apply boots_run. Qed.

(** ** A machine *)

(** The variable's structure, the interfaces announced, and the polls until
    the address is there. *)
Record nuc := mkNuc { n_cfg : option NUC_ETH_CONFIG; n_queue : list Z; n_polls : nat }.

(** Any structure, as its fields' widths hold it. *)
Definition fit (k : nat) (s : list Z) : list Z := map (fun c => c mod 2 ^ 16) (pad k s).
Definition norm (c : NUC_ETH_CONFIG) : NUC_ETH_CONFIG :=
  mkEth (DhcpEnabled c mod 256) (fit 18 (MacAddress c)) (fit 16 (Ip4Address c)) (fit 16 (Ip4SubnetMask c)) (fit 16 (Ip4Gateway c))
    (fit 16 (Ip4Dns1 c)) (fit 16 (Ip4Dns2 c)).
Definition n_var (w : nuc) : option (list Z) := option_map (fun c => encode_config (norm c)) (n_cfg w).

Lemma pad_length k s : length (pad k s) = k.
Proof. unfold pad. rewrite length_take, length_app, repeat_length. lia. Qed.
Lemma pad_id k s : length s = k -> pad k s = s.
Proof. intros <-. unfold pad. by rewrite take_app_length. Qed.
Lemma fit_field k s : text_field k (fit k s).
Proof.
  split; [unfold fit; by rewrite length_map, pad_length|]. apply Forall_map, Forall_true. intros x. unfold is_uint. cbn. apply Z.mod_pos_bound. lia.
Qed.
Lemma fit_id k s : text_field k s -> fit k s = s.
Proof.
  intros [Hl Hs]. unfold fit. rewrite pad_id by done. clear Hl. induction Hs as [|c s Hc _ IH]; [done|]. cbn [map]. rewrite IH. f_equal.
  unfold is_uint in Hc. by apply Z.mod_small.
Qed.
Lemma norm_wf c : config_wf (norm c).
Proof. split; [|split_and!; apply fit_field]. by apply Z.mod_pos_bound. Qed.
Lemma norm_id c : config_wf c -> norm c = c.
Proof.
  intros (Hd & Hm & Ha & Hn & Hg & H1 & H2). unfold norm. rewrite !fit_id by done.
  rewrite Z.mod_small by exact Hd. by destruct c.
Qed.

(** What the drivers read. *)
Abbreviation n_config := (config n_var).
Lemma n_config_eq w : n_config w = match n_cfg w with Some c => terminate_all (norm c) | None => default_config end.
Proof.
  unfold config, n_var. destruct (n_cfg w) as [c|]; [|done]. cbn [option_map mbind option_bind default]. by rewrite stored_encode by apply norm_wf.
Qed.
Lemma n_config_wf w : config_wf (n_config w) /\ terminate_all (n_config w) = n_config w.
Proof.
  rewrite n_config_eq. destruct (n_cfg w) as [c|]; [|by split; [apply config_wf_default|]].
  split; [apply terminate_wf, norm_wf|apply terminate_all_idem].
Qed.
Lemma n_readable w : is_Some (n_cfg w) <-> readable n_var w.
Proof.
  unfold readable, n_var. split.
  - intros [c ->]. eexists. split; [done|]. split; [apply encode_bytes, norm_wf|apply encode_length, norm_wf].
  - intros (d & Hd & _). by destruct (n_cfg w) as [c|]; [eexists|].
Qed.

(** The host: variable services, one USB interface and one on PCI, a timer of
    three polls. *)
Definition n_host : handler eth nuc := fun c w =>
  match c as c return eth_res c * nuc with
  | GetEthCfg => (match n_var w with Some d => (EFI_SUCCESS, d) | None => (EFI_NOT_FOUND, []) end, w)
  | SetEthCfg d => (EFI_SUCCESS, mkNuc (Some (decode_config d)) (n_queue w) (n_polls w))
  | SetTimerRelative _ _ => (EFI_SUCCESS, mkNuc (n_cfg w) (n_queue w) 3)
  | CheckEvent _ => (if Nat.eqb (n_polls w) 0 then EFI_SUCCESS else EFI_NOT_READY, mkNuc (n_cfg w) (n_queue w) (pred (n_polls w)))
  | c => let a := eth_host c (mkMachine [] (n_queue w) (n_polls w)) in (fst a, mkNuc (n_cfg w) (m_queue (snd a)) (m_polls (snd a)))
  end.
Definition n_path (h : Z) : option (list dp_node) := Some (if h =? 7 then usb_nic else pci_nic).

Lemma n_host_ok : host_ok n_var n_host n_queue n_polls n_path 3.
Proof.
  constructor; try done.
  - intros w. cbn [n_host fst]. by destruct (n_var w).
  - intros c w Hc. cbn [n_host snd n_var n_cfg option_map]. by rewrite EthConfigStore.decode_encode, norm_id.
  - by intros [] w.
  - intros w. cbn. by destruct (n_queue w).
  - by intros [] w.
  - intros h p n [= <-] Hin Hn. destruct (h =? 7); repeat (apply elem_of_cons in Hin as [->|Hin]; [first [done|cbn; lia]|]); by apply elem_of_nil in Hin.
  - intros e w. cbn. destruct (n_polls w); [done|]. cbn. lia.
  - intros [] w; cbn; try done; try lia. by destruct (n_queue w).
Qed.

(** The resource driver's services: the question database over the variable,
    and a BMC whose ETag is new or not. *)
Definition sets (c : ei_op) : bool := match c with ApplyString _ _ | ApplyBoolean _ _ => true | _ => false end.
Definition n_driver (fresh : bool) (Cs : ETHERNETINTERFACE_CS) : handler ei nuc := fun c w =>
  let a := setup_env Cs c (n_config w) in
  (match c as c return ei_res c -> ei_res c with CheckEtag _ _ _ => fun _ => negb fresh | _ => fun r => r end (fst a),
   if sets c then mkNuc (Some (snd a)) (n_queue w) (n_polls w) else w).
Definition n_fits (v : list Z) : Prop := short v /\ Forall (is_uint 16) v.

Lemma repeat_lookup (n i : nat) : (i < n)%nat -> repeat 0 n !! i = Some 0.
Proof. revert i. induction n as [|n IH]; intros [|i] Hi; try lia; [done|]. apply IH. lia. Qed.
Lemma pad_field k v : (length v < k)%nat -> Forall (is_uint 16) v -> text_field k (pad k v) /\ terminate (pad k v) = pad k v.
Proof.
  intros Hl Hv. split; [split; [apply pad_length|]|].
  - unfold pad. apply Forall_take, Forall_app. split; [done|]. apply List.Forall_forall. intros x ->%repeat_spec. by unfold is_uint.
  - unfold terminate. rewrite pad_length. apply list_insert_id. unfold pad. rewrite lookup_take_lt, lookup_app_r by lia. apply repeat_lookup. lia.
Qed.

(** A question set is stored in its field, and the structure stays whole. *)
Lemma set_field_wf c p v :
  n_fits v -> config_wf c -> terminate_all c = c -> config_wf (set_field c p v) /\ terminate_all (set_field c p v) = set_field c p v.
Proof.
  intros [[Hl _] Hv] Hwf Ht. destruct (pad_field 18 v ltac:(lia) Hv) as [Hf18 Ht18]. destruct (pad_field 16 v ltac:(lia) Hv) as [Hf16 Ht16].
  destruct c as [d m a n g d1 d2]. destruct Hwf as (Hd & Hm & Ha & Hn & Hg & H1 & H2). unfold terminate_all in *.
  cbn [DhcpEnabled MacAddress Ip4Address Ip4SubnetMask Ip4Gateway Ip4Dns1 Ip4Dns2] in *. injection Ht as E1 E2 E3 E4 E5 E6.
  destruct p; cbn [set_field DhcpEnabled MacAddress Ip4Address Ip4SubnetMask Ip4Gateway Ip4Dns1 Ip4Dns2];
    (split; [split_and!; done|congruence]).
Qed.
Lemma with_dhcp_wf c b : config_wf c -> terminate_all c = c -> config_wf (with_dhcp c b) /\ terminate_all (with_dhcp c b) = with_dhcp c b.
Proof.
  intros (_ & Hr) Ht. split; [split; [by destruct b|exact Hr]|]. unfold with_dhcp, terminate_all in *. destruct c as [d m a n g d1 d2].
  cbn [DhcpEnabled MacAddress Ip4Address Ip4SubnetMask Ip4Gateway Ip4Dns1 Ip4Dns2] in *. congruence.
Qed.

Lemma stored_config_eq c q n : config_wf c -> terminate_all c = c -> n_config (mkNuc (Some c) q n) = c.
Proof. intros Hc Ht. rewrite n_config_eq. cbn [n_cfg]. by rewrite norm_id. Qed.

#[global] Instance n_db fresh Cs : QuestionDb (n_driver fresh Cs) (policy n_var) (odata_id Cs) instance_lang n_fits.
Proof.
  pose proof (setup_db Cs) as Hs. constructor.
  - split; [apply fits_nothing|constructor].
  - intros p w v. exact (lang_published p (n_config w) v).
  - intros p w. exact (lang_absent p (n_config w)).
  - intros w b. exact (lang_dhcp (n_config w) b).
  - intros w. exact (lang_dhcp_absent (n_config w)).
  - intros p v w Hv. destruct (n_config_wf w) as [Hwf Ht]. cbn [n_driver setup_env sets snd]. rewrite named_question. unfold policy.
    rewrite stored_config_eq by (by apply set_field_wf). apply field_questions, Hv.
  - intros b w. destruct (n_config_wf w) as [Hwf Ht]. cbn [n_driver setup_env sets snd]. unfold policy.
    rewrite stored_config_eq by (by apply with_dhcp_wf). exact (apply_boolean b (n_config w)).
  - intros p w. exact (get_string p (n_config w)).
  - intros w. exact (get_boolean (n_config w)).
  - by intros [] w.
  - done.
  - intros w. split_and!; by eexists.
Qed.

(** The collection driver's BMC, which never touches the variable. *)
Definition still (answers : forall c, ec_res c) : handler ec nuc := fun c w => (answers c, w).
Definition with_members (c : ec_op) : ec_res c := fst (edited_bmc c office).
Definition without_members (c : ec_op) : ec_res c := fst (collection_env (mkCollectionCs (Some 0) []) c tt).
Definition down (c : ec_op) : ec_res c :=
  match c as c return ec_res c with RedfishHttpGetResource _ _ => (EFI_TIMEOUT, None) | c => without_members c end.

Definition n_boot (bmc : forall c, ec_res c) (fresh : bool) : boot nuc :=
  mkBoot (fun w => mkNuc (n_cfg w) [7; 8; 9] 0) n_host (still bmc) (n_driver fresh bmc_edit) (fun _ x => x) started_collection ready_private sent.

Lemma n_member fresh : serves_member (n_driver fresh bmc_edit) fresh eth0 (JObj [(lit "DHCPv4", JObj [])]) 4 bmc_edit.
Proof.
  constructor; try done.
  - intros. by eexists.
  - by eexists _, _.
  - intros w. by eexists _, _, _.
Qed.
Lemma n_collection : serves_collection (still with_members) (policy n_var) eth0 two_members.
Proof.
  constructor; try done.
  - intros. by eexists _, _.
  - intros. by eexists.
  - intros svc cv u w Hu. cbn [still with_members edited_bmc fst]. by rewrite bool_decide_true.
  - intros svc cv u w Hu. cbn [still with_members edited_bmc fst]. rewrite bool_decide_false by done. by left.
Qed.
Lemma n_edit_fits : Forall (fun s => n_fits (snd s)) (address_settings bmc_edit) /\ Forall (fun s => n_fits (snd s)) (server_settings bmc_edit).
Proof. split; repeat constructor; vm_compute; intuition discriminate. Qed.

Lemma n_boot_ok bmc fresh edit : meets n_var (n_boot bmc fresh) edit -> boot_ok n_var 20 (n_boot bmc fresh) edit.
Proof.
  intros Hm. split; [done| |done| |by split; eexists|by split; eexists].
  - exists n_queue, n_polls, n_path, 3%nat. split; [apply n_host_ok|]. intros w. split; [by vm_compute|cbn; lia].
  - split; [done|]. intros c w Hr. apply n_readable. cbn [n_boot b_driver n_driver snd]. destruct (sets c); [by eexists|by apply n_readable].
Qed.
Lemma n_meets_member fresh : meets n_var (n_boot with_members fresh) (if fresh then Some bmc_edit else None).
Proof.
  destruct n_edit_fits as [Hfa Hfs]. eapply (met_member _ _ fresh); [apply n_db|apply n_member|apply n_collection|done|done|done| |left].
  apply (bool_decide_unpack _). vm_compute. exact I.
Qed.
Lemma n_meets_vacant : meets n_var (n_boot without_members true) None.
Proof.
  eapply met_vacant; [apply n_db|]. constructor; try done.
  - intros. by eexists _, _.
  - intros. eexists _, _, _. split_and!; [done|done|by left].
  - intros svc u w. right. by eexists.
Qed.
Lemma n_meets_silent : meets n_var (n_boot down true) None.
Proof. apply met_silent. constructor; try done; intros; by eexists. Qed.

(** A new machine, edited at its second boot, whose BMC is then unchanged and
    then down. *)
Definition n_life : list (boot nuc) := [n_boot without_members true; n_boot with_members true; n_boot with_members false; n_boot down true].
Definition n_new : nuc := mkNuc None [] 0.

Lemma boots_follow_edits_witness :
  exists t0 t1 t2 t3 w',
    boots 20 n_life n_new = Some ([t0; t1; t2; t3], w')
    /\ (exists ip4, settings t1 = [SetPolicy ip4 Ip4Config2PolicyDhcp])
    /\ exists ip4, settings t3 = static_plan ip4 [10; 0; 0; 5] [255; 0; 0; 0] (lit "10.0.0.1") [lit "10.0.0.2"].
Proof.
  destruct (boots_follow_edits n_var 20 n_life [None; Some bmc_edit; None; None] n_new) as (ts & w' & Hrun & Hlen & _ & Hts); [|done|].
  - repeat (constructor; [apply n_boot_ok; first [apply n_meets_vacant | apply (n_meets_member true) | apply (n_meets_member false) | apply n_meets_silent]|]).
    constructor.
  - destruct ts as [|t0 [|t1 [|t2 [|t3 [|]]]]]; try discriminate Hlen. exists t0, t1, t2, t3, w'. split; [exact Hrun|].
    assert (Hr : option_map (fun r => map (existsb refused) (fst r)) (boots 20 n_life n_new) = Some [false; false; false; false]) by (vm_compute; reflexivity).
    rewrite Hrun in Hr. injection Hr as _ R1 _ R3. split.
    + destruct (Hts 1%nat t1 eq_refl R1) as [ip4 ->]. exists ip4. vm_compute. reflexivity.
    + destruct (Hts 3%nat t3 eq_refl R3) as [ip4 ->]. exists ip4. vm_compute. reflexivity.
Defined.
