(* ===== verification/HostInterface.v ===== *)
(** * The Redfish host interface record

    Library/NucRedfishHostInterfaceLib: the SMBIOS type 42 data that tells
    RedfishDiscoverDxe which NIC leads to the BMC and where its service is.
    Structures are the bytes of a zeroed allocation, written at the offsets of
    DSP0270 (USB network interface V2 descriptor, Redfish-over-IP protocol
    data). *)

From S2P Require Import Prelude Services Uefi EdkStrings.

(** ** Stores into a buffer *)

(** [None] is a store outside the allocation. *)
Definition store (off : Z) (v : list Z) (b : list Z) : option (list Z) :=
  if (0 <=? off) && (off + len v <=? len b)
  then Some (take (Z.to_nat off) b ++ v ++ drop (Z.to_nat off + length v) b) else None.

Fixpoint stores (l : list (Z * list Z)) (b : list Z) : option (list Z) :=
  match l with
  | [] => Some b
  | (off, v) :: l => store off v b ≫= stores l
  end.

Definition zeros (n : Z) : list Z := repeat 0 (Z.to_nat n).

(** AllocateZeroPool: whether there was memory. *)
Inductive hi_op := AllocateZeroPool (n : Z).
Definition hi_res (c : hi_op) : Type := match c with AllocateZeroPool _ => bool end.
Definition hi : sig := Sig hi_op hi_res.

(** ** Parameters of the link *)

Definition NUC_REDFISH_ECM_MAC : list Z := [0xDA; 0xC0; 0xFF; 0xEE; 0x10; 0x02].
Definition NUC_REDFISH_ECM_ID_VENDOR : Z := 0x1D6B.
Definition NUC_REDFISH_ECM_ID_PRODUCT : Z := 0x0104.
Definition NUC_REDFISH_HOST_IP : list Z := [0xA9; 0xFE; 0x0A; 0x02].
Definition NUC_REDFISH_SVC_IP : list Z := [0xA9; 0xFE; 0x0A; 0x01].
Definition NUC_REDFISH_IP_MASK : list Z := [0xFF; 0xFF; 0x00; 0x00].
Definition NUC_REDFISH_SVC_PORT : Z := 80.
Definition NUC_REDFISH_SVC_HOSTNAME : list Z := lit "169.254.10.1".
Definition mNucRedfishServiceUuid : EFI_GUID :=
  mkGuid 0x5cc27a14 0xc9f9 0x50c6 [0xbd; 0xaa; 0xb9; 0x1b; 0x6d; 0xc7; 0x7f; 0x98].

Definition REDFISH_HOST_INTERFACE_DEVICE_TYPE_USB_V2 : Z := 0x04.
Definition USB_INTERFACE_DEVICE_DESCRIPTOR_V2_SIZE_1_3 : Z := 0x11.
Definition MCHostInterfaceProtocolTypeRedfishOverIP : Z := 0x04.
Definition IP_ASSIGNMENT_TYPE_STATIC : Z := 0x01.
Definition IP_ADDRESS_FORMAT_IP4 : Z := 0x01.

(** Sizes of the packed structures, the last with its one-byte array. *)
Definition SIZEOF_USB_V2 : Z := 16.
Definition SIZEOF_OVER_IP : Z := 92.
Definition SIZEOF_PROTOCOL_RECORD : Z := 3.

(** A GUID in memory: the first three fields little-endian. *)
Definition guid_bytes (g : EFI_GUID) : list Z := le_split 4 (Data1 g) ++ le_split 2 (Data2 g) ++ le_split 2 (Data3 g) ++ Data4 g.

(** ** The library *)

(** The descriptor follows the device type; [size] is
    sizeof (REDFISH_INTERFACE_DATA), and the booleans say whether the output
    pointers are non-NULL. *)
Definition RedfishPlatformHostInterfaceDeviceDescriptor (size : Z) (DeviceType DeviceDescriptor : bool)
    : fw hi (option (EFI_STATUS * option (Z * list Z))) :=
  if negb DeviceType || negb DeviceDescriptor then mret (Some (EFI_INVALID_PARAMETER, None))
  else
  InterfaceData ← call (S := hi) (AllocateZeroPool size);
  if negb InterfaceData then mret (Some (EFI_OUT_OF_RESOURCES, None))
  else
    let Usb := 1 in
    let written := stores [
      (0, [REDFISH_HOST_INTERFACE_DEVICE_TYPE_USB_V2]);
      (Usb + 0, [USB_INTERFACE_DEVICE_DESCRIPTOR_V2_SIZE_1_3]);
      (Usb + 1, le_split 2 NUC_REDFISH_ECM_ID_VENDOR);
      (Usb + 3, le_split 2 NUC_REDFISH_ECM_ID_PRODUCT);
      (Usb + 5, [0]);
      (Usb + 6, NUC_REDFISH_ECM_MAC);
      (Usb + 12, le_split 2 0);
      (Usb + 14, le_split 2 0)] (zeros size) in
    mret (option_map (fun b => (EFI_SUCCESS, Some (REDFISH_HOST_INTERFACE_DEVICE_TYPE_USB_V2, b))) written).

(** The members of the record and of its data, which begins at byte 2. *)
Definition protocol_stores (ProtocolDataSize HostNameSize : Z) : list (Z * list Z) :=
  let Data := 2 in
  [
   (0, [MCHostInterfaceProtocolTypeRedfishOverIP]);
   (1, [ProtocolDataSize]);
   (Data + 0, guid_bytes mNucRedfishServiceUuid);
   (Data + 16, [IP_ASSIGNMENT_TYPE_STATIC]);
   (Data + 17, [IP_ADDRESS_FORMAT_IP4]);
   (Data + 18, NUC_REDFISH_HOST_IP);
   (Data + 34, NUC_REDFISH_IP_MASK);
   (Data + 50, [IP_ASSIGNMENT_TYPE_STATIC]);
   (Data + 51, [IP_ADDRESS_FORMAT_IP4]);
   (Data + 52, NUC_REDFISH_SVC_IP);
   (Data + 68, NUC_REDFISH_IP_MASK);
   (Data + 84, le_split 2 NUC_REDFISH_SVC_PORT);
   (Data + 86, le_split 4 0xFFFFFFFF);
   (Data + 90, [HostNameSize])].

(** [hostname] is NUC_REDFISH_SVC_HOSTNAME; the two sizes are UINT8;
    [ProtocolRecord] says whether the output pointer is non-NULL. *)
Definition RedfishPlatformHostInterfaceProtocolData (hostname : list Z) (ProtocolRecord : bool) (IndexOfProtocolData : Z)
    : fw hi (option (EFI_STATUS * option (list Z))) :=
  if negb ProtocolRecord then mret (Some (EFI_INVALID_PARAMETER, None))
  else if negb (IndexOfProtocolData =? 0) then mret (Some (EFI_NOT_FOUND, None))
  else
    let HostNameSize := wrap 8 (len hostname + 1) in
    let ProtocolDataSize := wrap 8 (SIZEOF_OVER_IP - 1 + HostNameSize) in
    let RecordSize := SIZEOF_PROTOCOL_RECORD - 1 + ProtocolDataSize in
    Record ← call (S := hi) (AllocateZeroPool RecordSize);
    if negb Record then mret (Some (EFI_OUT_OF_RESOURCES, None))
    else
      let written := stores (protocol_stores ProtocolDataSize HostNameSize) (zeros RecordSize) in
      (* AsciiStrCpyS refuses a string that does not fit *)
      let named := if len hostname <? HostNameSize then written ≫= store (2 + 91) (hostname ++ [0]) else written in
      mret (option_map (fun b => (EFI_SUCCESS, Some b)) named).

Definition RedfishPlatformHostInterfaceNotification : EFI_STATUS := EFI_UNSUPPORTED.
Definition RedfishPlatformHostInterfaceSerialNumber : EFI_STATUS := EFI_UNSUPPORTED.

(** ** Reading the record as DSP0270 defines it *)

Definition field (off n : Z) (b : list Z) : list Z := take (Z.to_nat n) (drop (Z.to_nat off) b).

Record over_ip := mkOverIp {
  oi_uuid : list Z; oi_host_static : bool; oi_host_ip : list Z; oi_host_mask : list Z;
  oi_svc_static : bool; oi_svc_ip : list Z; oi_svc_mask : list Z; oi_port : Z; oi_vlan : Z; oi_hostname : list Z }.

(** The record is refused when a length disagrees with its bytes, when an
    address is not IPv4, or when the host name is not terminated. *)
Definition read_over_ip (b : list Z) : option over_ip :=
  match b with
  | ty :: n :: d =>
      if (ty =? MCHostInterfaceProtocolTypeRedfishOverIP) && (n =? len d) && (91 <=? len d) then
        let hn := le_combine (field 90 1 d) in
        let name := field 91 hn d in
        if (len d =? 91 + hn) && (0 <? hn) && (len (cstr name) =? hn - 1)
           && (le_combine (field 17 1 d) =? IP_ADDRESS_FORMAT_IP4) && (le_combine (field 51 1 d) =? IP_ADDRESS_FORMAT_IP4)
        then Some (mkOverIp (field 0 16 d) (le_combine (field 16 1 d) =? IP_ASSIGNMENT_TYPE_STATIC) (field 18 4 d) (field 34 4 d)
                     (le_combine (field 50 1 d) =? IP_ASSIGNMENT_TYPE_STATIC) (field 52 4 d) (field 68 4 d)
                     (le_combine (field 84 2 d)) (le_combine (field 86 4 d)) (cstr name))
        else None
      else None
  | _ => None
  end.

Record usb_v2 := mkUsbV2 { uv_vendor : Z; uv_product : Z; uv_serial : Z; uv_mac : list Z; uv_characteristics : Z; uv_credential : Z }.

(** A descriptor counts its own length byte and the device type. *)
Definition read_usb_v2 (b : list Z) : option usb_v2 :=
  if (le_combine (field 0 1 b) =? 4) && (le_combine (field 1 1 b) =? 17) && (17 <=? len b) then
    Some (mkUsbV2 (le_combine (field 2 2 b)) (le_combine (field 4 2 b)) (le_combine (field 6 1 b)) (field 7 6 b)
            (le_combine (field 13 2 b)) (le_combine (field 15 2 b)))
  else None.

(** ** The fixed part and the name *)

Lemma store_app off v a b : 0 <= off -> off + len v <= len a -> store off v (a ++ b) = (fun a => a ++ b) <$> store off v a.
Proof.
  intros H0 Hl. pose proof (len_nonneg b). unfold store. rewrite len_app.
  destruct (Z.leb_spec 0 off), (Z.leb_spec (off + len v) (len a)), (Z.leb_spec (off + len v) (len a + len b)); try lia. cbn.
  unfold len in *. rewrite take_app_le, drop_app_le by lia. by rewrite <- !(assoc_L (++)).
Qed.
Lemma store_length off v b b' : store off v b = Some b' -> length b' = length b.
Proof.
  unfold store, len. destruct (Z.leb_spec 0 off), (Z.leb_spec (off + Z.of_nat (length v)) (Z.of_nat (length b))); cbn; try done.
  intros [= <-]. rewrite !length_app, length_take, length_drop. lia.
Qed.
Lemma stores_app l a b : Forall (fun s => 0 <= fst s /\ fst s + len (snd s) <= len a) l -> stores l (a ++ b) = (fun a => a ++ b) <$> stores l a.
Proof.
  intros Hl. revert a Hl. induction l as [|[off v] l IH]; intros a Hl; [done|]. apply Forall_cons in Hl as [[H1 H2] Hl]. cbn [stores].
  cbn in H1, H2. rewrite store_app by done. destruct (store off v a) as [a'|] eqn:E; [|done]. cbn. apply IH.
  apply store_length in E. unfold len in *. by rewrite E.
Qed.
(** A store that replaces the rest of the buffer. *)
Lemma store_end a v z : length v = length z -> store (len a) v (a ++ z) = Some (a ++ v).
Proof.
  intros Hl. unfold store. rewrite len_app. unfold len. destruct (Z.leb_spec 0 (Z.of_nat (length a))); [|lia].
  destruct (Z.leb_spec (Z.of_nat (length a) + Z.of_nat (length v)) (Z.of_nat (length a) + Z.of_nat (length z))); [|lia]. cbn.
  rewrite Nat2Z.id, take_app_length. f_equal. f_equal. rewrite drop_ge; [apply app_nil_r|]. rewrite length_app. lia.
Qed.
Lemma zeros_app n m : 0 <= n -> 0 <= m -> zeros (n + m) = zeros n ++ zeros m.
Proof. intros. unfold zeros. rewrite Z2Nat.inj_add by lia. apply repeat_app. Qed.

Lemma field_app off n a b : 0 <= off -> 0 <= n -> off + n <= len a -> field off n (a ++ b) = field off n a.
Proof. intros ? ? Hl. unfold field, len in *. rewrite drop_app_le by lia. rewrite take_app_le; [done|]. rewrite length_drop. lia. Qed.
Lemma field_after off n a b : len a <= off -> field off n (a ++ b) = field (off - len a) n b.
Proof.
  intros Hl. unfold field, len in *. rewrite drop_app_ge by lia. do 2 f_equal. lia.
Qed.
Lemma field_end a b : field (len a) (len b) (a ++ b) = b.
Proof. unfold field, len. rewrite !Nat2Z.id, drop_app_length, take_ge by done. done. Qed.

(** The service this firmware advertises, under a name. *)
Definition advertised (hostname : list Z) : over_ip :=
  mkOverIp (guid_bytes mNucRedfishServiceUuid) true NUC_REDFISH_HOST_IP NUC_REDFISH_IP_MASK true NUC_REDFISH_SVC_IP NUC_REDFISH_IP_MASK
    NUC_REDFISH_SVC_PORT 0xFFFFFFFF hostname.

Definition header (n h : Z) : list Z := default [] (stores (protocol_stores n h) (zeros 93)).
Lemma header_length n h : length (header n h) = 93%nat.
Proof. reflexivity. Qed.

Lemma header_written n h k : 0 <= k -> stores (protocol_stores n h) (zeros (93 + k)) = Some (header n h ++ zeros k).
Proof. intros Hk. rewrite zeros_app by lia. rewrite stores_app; [reflexivity|]. by repeat constructor. Qed.

(** Reading back: the fixed part is in front of the name. *)
Lemma read_header n h name :
  len name = h -> 0 < h -> n = 91 + h -> len (cstr name) = h - 1 -> read_over_ip (header n h ++ name) = Some (advertised (cstr name)).
Proof.
  intros Hh H0 Hn Hc. set (d := drop 2 (header n h)).
  assert (Hd : header n h = MCHostInterfaceProtocolTypeRedfishOverIP :: n :: d) by reflexivity.
  assert (Hl : len d = 91) by reflexivity. rewrite Hd. cbn [app]. unfold read_over_ip.
  rewrite Z.eqb_refl, len_app, Hl, Hh, (proj2 (Z.eqb_eq n _)) by lia. cbn [andb].
  destruct (Z.leb_spec 91 (91 + h)); [|lia].
  assert (Hq : le_combine (field 90 1 (d ++ name)) = h).
  { rewrite field_app by lia. transitivity (h + 256 * 0); [reflexivity|lia]. }
  assert (Hm : field 91 h (d ++ name) = name) by (rewrite <- Hl, <- Hh; apply field_end).
  rewrite Hq. cbv zeta. rewrite Hm, Hc, !(field_app _ _ d name) by lia.
  rewrite !Z.eqb_refl, (proj2 (Z.ltb_lt 0 h)) by done. reflexivity.
Qed.

(** C36: The protocol record says what the link is.  For every host name of at
    most 163 characters, which the one-byte sizes can hold, index 0 yields
    (when there is memory) a record of exactly the allocated size, every store
    inside it, whose length byte counts its bytes and which reads back as the
    static IPv4 service: the service UUID, 169.254.10.2/16 for the host,
    169.254.10.1/16 port 80 for the BMC, no VLAN, and the NUL-terminated
    name.  Every other index ends the enumeration without allocating, and a
    NULL output pointer is refused. *)
Theorem protocol_record_reads (hostname : list Z) (ptr : bool) (i : Z) (tr : list (event hi)) (r : option (EFI_STATUS * option (list Z)))
    (Hlen : len hostname <= 163) (Hnul : Forall (fun c => c <> 0) hostname)
    (Hex : exec (RedfishPlatformHostInterfaceProtocolData hostname ptr i) tr r) :
  if negb ptr then r = Some (EFI_INVALID_PARAMETER, None) /\ tr = []
  else if negb (i =? 0) then r = Some (EFI_NOT_FOUND, None) /\ tr = []
  else exists ok, tr = [Ev (S := hi) (AllocateZeroPool (94 + len hostname)) ok]
       /\ if ok then exists b, r = Some (EFI_SUCCESS, Some b) /\ len b = 94 + len hostname /\ read_over_ip b = Some (advertised hostname)
          else r = Some (EFI_OUT_OF_RESOURCES, None).
Proof.
  set (k := len hostname) in *. pose proof (len_nonneg hostname) as Hk. fold k in Hk.
  assert (Hw : wp (RedfishPlatformHostInterfaceProtocolData hostname ptr i) (fun r tr =>
    if negb ptr then r = Some (EFI_INVALID_PARAMETER, None) /\ tr = []
    else if negb (i =? 0) then r = Some (EFI_NOT_FOUND, None) /\ tr = []
    else exists ok, tr = [Ev (S := hi) (AllocateZeroPool (94 + k)) ok]
         /\ if ok then exists b, r = Some (EFI_SUCCESS, Some b) /\ len b = 94 + k /\ read_over_ip b = Some (advertised hostname)
            else r = Some (EFI_OUT_OF_RESOURCES, None))); [|exact (proj1 (wp_exec _ _) Hw _ _ Hex)].
  unfold RedfishPlatformHostInterfaceProtocolData. destruct (negb ptr); [by apply wp_ret|].
  destruct (negb (i =? 0)); [by apply wp_ret|]. cbv zeta. fold k.
  unfold SIZEOF_OVER_IP, SIZEOF_PROTOCOL_RECORD. rewrite (wrap_id 8 (k + 1)), (wrap_id 8 (92 - 1 + (k + 1))) by (unfold is_uint; lia).
  replace (3 - 1 + (92 - 1 + (k + 1))) with (94 + k) by lia.
  apply wp_call_bind. intros [|]; (apply wp_ret; eexists; split; [done|]); [|done]. cbv iota.
  replace (94 + k) with (93 + (k + 1)) by lia. rewrite header_written by lia. destruct (Z.ltb_spec k (k + 1)); [|lia]. cbn [mbind option_bind].
  change (2 + 91) with (len (header (92 - 1 + (k + 1)) (k + 1))). rewrite store_end.
  2:{ unfold zeros. rewrite length_app, repeat_length. cbn. unfold k, len. lia. }
  eexists. split; [reflexivity|].
  assert (Hc : cstr (hostname ++ [0]) = hostname) by (by apply cstr_nul).
  assert (Hln : len (hostname ++ [0]) = k + 1) by (rewrite len_app; done). split.
  - rewrite len_app, Hln. reflexivity.
  - rewrite <- Hc at 2. apply read_header; [done|lia|lia|rewrite Hc; fold k; lia].
Qed.

Definition memory : handler hi unit := fun c w => match c as c return hi_res c * unit with AllocateZeroPool _ => (true, w) end.

Lemma protocol_record_reads_witness :
  exists b, run_val memory (RedfishPlatformHostInterfaceProtocolData NUC_REDFISH_SVC_HOSTNAME true 0) tt = Some (EFI_SUCCESS, Some b)
  /\ read_over_ip b = Some (advertised (lit "169.254.10.1")).
Proof.
  destruct (protocol_record_reads NUC_REDFISH_SVC_HOSTNAME true 0 _ _ ltac:(vm_compute; discriminate) ltac:(repeat constructor; discriminate)
              (exec_run memory (RedfishPlatformHostInterfaceProtocolData NUC_REDFISH_SVC_HOSTNAME true 0) tt)) as (ok & Ht & Hr).
  destruct ok; [|vm_compute in Hr; discriminate Hr]. destruct Hr as (b & Hr & _ & Hb). exists b. split; [exact Hr|exact Hb].
Defined.

(** The name is the service's address in dotted form, and host and service
    are two addresses of one subnet. *)
Lemma advertised_consistent :
  NUC_REDFISH_SVC_HOSTNAME = concat (map (fun b => udec b ++ lit ".") (take 3 NUC_REDFISH_SVC_IP)) ++ concat (map udec (drop 3 NUC_REDFISH_SVC_IP))
  /\ zip_with Z.land NUC_REDFISH_HOST_IP NUC_REDFISH_IP_MASK = zip_with Z.land NUC_REDFISH_SVC_IP NUC_REDFISH_IP_MASK
  /\ NUC_REDFISH_HOST_IP <> NUC_REDFISH_SVC_IP.
Proof. by vm_compute. Qed.

(** The descriptor in any allocation that holds it: a USB V2 interface whose
    MAC is the link's. *)
Lemma descriptor_reads size :
  1 + SIZEOF_USB_V2 <= size -> wp (RedfishPlatformHostInterfaceDeviceDescriptor size true true) (fun r tr =>
  exists ok, tr = [Ev (S := hi) (AllocateZeroPool size) ok]
  /\ if ok then exists b, r = Some (EFI_SUCCESS, Some (REDFISH_HOST_INTERFACE_DEVICE_TYPE_USB_V2, b)) /\ len b = size
                  /\ read_usb_v2 b = Some (mkUsbV2 NUC_REDFISH_ECM_ID_VENDOR NUC_REDFISH_ECM_ID_PRODUCT 0 NUC_REDFISH_ECM_MAC 0 0)
     else r = Some (EFI_OUT_OF_RESOURCES, None)).
Proof.
  unfold SIZEOF_USB_V2. intros Hs. unfold RedfishPlatformHostInterfaceDeviceDescriptor. cbn [negb orb]. apply wp_call_bind.
  intros [|]; (apply wp_ret; eexists; split; [done|]); [|done]. cbv iota zeta.
  replace size with (17 + (size - 17)) by lia. set (k := size - 17). assert (0 <= k) by lia. rewrite zeros_app by lia.
  rewrite stores_app by (by repeat constructor).
  match goal with |- context [stores ?l ?z] => assert (E : exists d, stores l z = Some d /\ len d = 17
    /\ read_usb_v2 d = Some (mkUsbV2 NUC_REDFISH_ECM_ID_VENDOR NUC_REDFISH_ECM_ID_PRODUCT 0 NUC_REDFISH_ECM_MAC 0 0))
    by (eexists; split; [reflexivity|split; reflexivity]); destruct E as (d & -> & Hd & Hr) end.
  exists (d ++ zeros k). split; [done|]. split.
  - rewrite len_app, Hd. unfold zeros, len. rewrite repeat_length. lia.
  - revert Hr. unfold read_usb_v2. pose proof (len_nonneg (zeros k)). rewrite len_app, !field_app, Hd by lia.
    by destruct (Z.leb_spec 17 (17 + len (zeros k))); [|lia].
Qed.
