(* ===== verification/Credential.v ===== *)
(** * Redfish credentials (Library/NucRedfishCredentialLib)

    HTTP Basic with the build-time user and password, or no authentication
    when no user is configured. *)

From S2P Require Import Prelude Services Uefi Pool.
From stdpp Require Import gmultiset.
#[local] Open Scope Z_scope.

Inductive EDKII_REDFISH_AUTH_METHOD := AuthMethodNone | AuthMethodHttpBasic.

(** PCD strings and pool memory; a PCD pointer can be NULL. *)
Inductive cr_op := PcdNucRedfishUser | PcdNucRedfishPassword | AllocateCopyPool (text : list Z) | FreePool (p : Z).
Definition cr_res (c : cr_op) : Type :=
  match c with
  | PcdNucRedfishUser | PcdNucRedfishPassword => option (list Z)
  | AllocateCopyPool _ => option Z
  | FreePool _ => unit
  end.
Definition cr : sig := Sig cr_op cr_res.

(** The out-parameters: [None] where the caller's variable is not written. *)
Record auth_info := mkAuth {
  AuthMethod : option EDKII_REDFISH_AUTH_METHOD; UserId : option (option (Z * list Z)); Password : option (option (Z * list Z)) }.

(** [This] and the three booleans after it say whether the protocol pointer
    and the output pointers are non-NULL.  The answer [None] is a fault: the
    size of a NULL password is taken. *)
Definition LibCredentialGetAuthInfo (This AuthMethodPtr UserIdPtr PasswordPtr : bool)
    : fw cr (option (EFI_STATUS * auth_info)) :=
  if negb This || negb AuthMethodPtr || negb UserIdPtr || negb PasswordPtr
  then mret (Some (EFI_INVALID_PARAMETER, mkAuth None None None))
  else
  User ← call (S := cr) PcdNucRedfishUser;
  Pass ← call (S := cr) PcdNucRedfishPassword;
  match User with
  | None | Some [] => mret (Some (EFI_SUCCESS, mkAuth (Some AuthMethodNone) (Some None) (Some None)))
  | Some User =>
      u ← call (S := cr) (AllocateCopyPool User);
      match u with
      | None => mret (Some (EFI_OUT_OF_RESOURCES, mkAuth None (Some None) None))
      | Some u =>
          match Pass with
          | None => mret None
          | Some Pass =>
              p ← call (S := cr) (AllocateCopyPool Pass);
              match p with
              | None =>
                  _ ← call_ (S := cr) (FreePool u);
                  mret (Some (EFI_OUT_OF_RESOURCES, mkAuth None (Some None) (Some None)))
              | Some p => mret (Some (EFI_SUCCESS, mkAuth (Some AuthMethodHttpBasic) (Some (Some (u, User))) (Some (Some (p, Pass)))))
              end
          end
      end
  end.

(** [ServiceStopTypeMax] is the bound of RedfishPkg's enumeration. *)
Definition LibStopRedfishService (ServiceStopTypeMax : Z) (This : bool) (ServiceStopType : Z) : EFI_STATUS :=
  if negb This || (ServiceStopTypeMax <=? ServiceStopType) then EFI_INVALID_PARAMETER else EFI_SUCCESS.

(** The two notifications return at once. *)
Definition LibCredentialExitBootServicesNotify : fw cr unit := mret tt.
Definition LibCredentialEndOfDxeNotify : fw cr unit := mret tt.

(** ** What the caller ends up with *)

Definition credential_step (m : gmultiset Z) (e : event cr) : option (gmultiset Z) :=
  match e with
  | Ev c r =>
      match c as c return cr_res c -> option (gmultiset Z) with
      | AllocateCopyPool _ => fun r => Some (allocates m r)
      | FreePool p => fun _ => frees m p
      | _ => fun _ => Some m
      end r
  end.

Definition owned (a : auth_info) (m : gmultiset Z) : gmultiset Z :=
  allocates (allocates m (fst <$> default None (UserId a))) (fst <$> default None (Password a)).

(** The configured strings, when a user is configured. *)
Definition configured (tr : list (event cr)) : option (list Z * option (list Z)) :=
  match tr with
  | e :: e' :: _ =>
      match e, e' with
      | Ev c r, Ev c' r' =>
          match c as c, c' as c' return cr_res c -> cr_res c' -> option (list Z * option (list Z)) with
          | PcdNucRedfishUser, PcdNucRedfishPassword => fun u p => match u with None | Some [] => None | Some u => Some (u, p) end
          | _, _ => fun _ _ => None
          end r r'
      end
  | _ => None
  end.

(** Credentials are all or nothing.  With no user configured the method is
    None, both strings are NULL and nothing is allocated.  With a user,
    success means HTTP Basic with copies of exactly the configured user and
    password; running out of memory is reported as such, no method is
    announced, no string is handed out, and a user name already copied is
    freed.  On every path the caller owns exactly the strings it was handed.
    A NULL protocol or output pointer is refused before anything is read,
    written or allocated.  (A user with a NULL password would fault; PCD pointers are not NULL.) *)
Theorem credentials_all_or_nothing (This am ui pw : bool) (tr : list (event cr)) (r : option (EFI_STATUS * auth_info))
    (Hex : exec (LibCredentialGetAuthInfo This am ui pw) tr r) :
  if negb (This && am && ui && pw)
  then r = Some (EFI_INVALID_PARAMETER, mkAuth None None None) /\ tr = []
  else
  match r with
  | None => exists u, configured tr = Some (u, None)
  | Some (st, a) =>
      monitor credential_step ∅ tr = Some (owned a ∅)
      /\ if EFI_ERROR st then st = EFI_OUT_OF_RESOURCES /\ AuthMethod a = None /\ default None (UserId a) = None /\ default None (Password a) = None
         else match configured tr with
              | None => a = mkAuth (Some AuthMethodNone) (Some None) (Some None)
              | Some (u, pw) => exists p q v, pw = Some v /\ a = mkAuth (Some AuthMethodHttpBasic) (Some (Some (p, u))) (Some (Some (q, v)))
              end
  end.
Proof.
  revert tr r Hex. apply wp_exec. unfold LibCredentialGetAuthInfo.
  destruct This, am, ui, pw; cbn [negb orb andb]; try by apply wp_ret.
  apply wp_call_bind. intros u. apply wp_call_bind. intros pw.
  destruct u as [[|c u]|]; [by apply wp_ret| |by apply wp_ret].
  apply wp_call_bind. intros [p|]; [|by apply wp_ret]. destruct pw as [pw|]; [|apply wp_ret; by eexists].
  apply wp_call_bind. intros [q|].
  - apply wp_ret. split; [done|]. by eexists _, _, _.
  - apply wp_bind, wp_call_. intros []. apply wp_ret. split; [|done]. cbn [app monitor credential_step allocates]. by rewrite frees_last.
Qed.

(** A machine with memory for the user name only. *)
Definition tight : handler cr nat := fun c w =>
  match c as c return cr_res c * nat with
  | PcdNucRedfishUser => (Some (lit "admin"), w)
  | PcdNucRedfishPassword => (Some (lit "secret"), w)
  | AllocateCopyPool _ => match w with S w => (Some (Z.of_nat w), w) | O => (None, O) end
  | FreePool _ => (tt, S w)
  end.

Lemma credentials_all_or_nothing_witness :
  monitor credential_step ∅ (run_trace tight (LibCredentialGetAuthInfo true true true true) 1%nat) = Some ∅
  /\ exists p q, run_val tight (LibCredentialGetAuthInfo true true true true) 2%nat
     = Some (EFI_SUCCESS, mkAuth (Some AuthMethodHttpBasic) (Some (Some (p, lit "admin"))) (Some (Some (q, lit "secret")))).
Proof.
  split.
  - exact (proj1 (credentials_all_or_nothing true true true true _ _ (exec_run tight (LibCredentialGetAuthInfo true true true true) 1%nat))).
  - destruct (proj2 (credentials_all_or_nothing true true true true _ _ (exec_run tight (LibCredentialGetAuthInfo true true true true) 2%nat))) as (p & q & v & [= <-] & Ha).
    exists p, q. vm_compute. vm_compute in Ha. exact (f_equal (fun a => Some (0, a)) Ha).
Defined.
