(* ===== verification/ConnectApp.v ===== *)
(** * ConnectRedfishApp (ConnectRedfishApp.c)

    A one-shot application that connects every controller, in up to three
    passes. *)

From S2P Require Import Prelude Services Uefi.

Inductive ca_op :=
  | LocateHandleBuffer
  | ConnectController (handle : Z) (recursive : bool)
  | FreeHandles (p : Z)
  | Print (pass connected : Z)
  | PrintDone (total : Z).
Definition ca_res (c : ca_op) : Type :=
  match c with
  | LocateHandleBuffer => EFI_STATUS * (Z * list Z)
  | ConnectController _ _ => EFI_STATUS
  | FreeHandles _ | Print _ _ | PrintDone _ => unit
  end.
Definition ca : sig := Sig ca_op ca_res.

(** The loop over the handles; [Connected] is a UINTN. *)
Fixpoint connect_handles (Handles : list Z) (Connected : Z) : fw ca Z :=
  match Handles with
  | [] => mret Connected
  | h :: Handles =>
      Status ← call (S := ca) (ConnectController h true);
      connect_handles Handles (if EFI_ERROR Status then Connected else wrap 64 (Connected + 1))
  end.

Definition ConnectAllRecursive : fw ca Z :=
  '(Status, (p, Handles)) ← call (S := ca) LocateHandleBuffer;
  if EFI_ERROR Status then mret 0
  else
    Connected ← connect_handles Handles 0;
    _ ← call_ (S := ca) (FreeHandles p);
    mret Connected.

(** [passes] more passes, the next one being number [Pass + 1]. *)
Fixpoint connect_passes (passes : nat) (Pass Total : Z) : fw ca Z :=
  match passes with
  | O => mret Total
  | S passes =>
      Connected ← ConnectAllRecursive;
      let Total := wrap 64 (Total + Connected) in
      _ ← call_ (S := ca) (Print (wrap 32 (Pass + 1)) (wrap 32 Connected));
      if Connected =? 0 then mret Total else connect_passes passes (Pass + 1) Total
  end.

Definition UefiMain : fw ca EFI_STATUS :=
  Total ← connect_passes 3 0 0;
  _ ← call_ (S := ca) (PrintDone (wrap 32 Total));
  mret EFI_SUCCESS.

(** ** What a run looks like *)

(** One pass: the handles of the snapshot, each connected once, recursively
    and in order, whatever the others answer; the buffer is freed. *)
Definition connects (Handles : list Z) (sts : list EFI_STATUS) : list (event ca) :=
  zip_with (fun h st => Ev (S := ca) (ConnectController h true) st) Handles sts.
Definition successes (sts : list EFI_STATUS) : Z := Z.of_nat (length (filter (fun st => EFI_ERROR st = false) sts)).

Inductive pass_trace : list (event ca) -> Z -> Prop :=
  | pass_failed st hs : EFI_ERROR st = true -> pass_trace [Ev (S := ca) LocateHandleBuffer (st, hs)] 0
  | pass_done st p hs sts : EFI_ERROR st = false -> length sts = length hs ->
      pass_trace (Ev (S := ca) LocateHandleBuffer (st, (p, hs)) :: connects hs sts ++ [Ev (S := ca) (FreeHandles p) tt]) (successes sts).

(** A run: passes until one connects nothing, but no more than [n]. *)
Inductive passes_trace : nat -> list (event ca) -> Z -> Prop :=
  | passes_none : passes_trace 0 [] 0
  | passes_settled n t e : pass_trace t 0 -> passes_trace (S n) (t ++ [e]) 0
  | passes_more n t c e ts total : pass_trace t c -> 0 < c -> passes_trace n ts total -> passes_trace (S n) (t ++ e :: ts) (c + total).

(** The handle database is smaller than 2^30. *)
Definition small_event (e : event ca) : bool :=
  match e with
  | Ev c r => match c as c return ca_res c -> bool with LocateHandleBuffer => fun r => Z.of_nat (length (snd (snd r))) <? 2 ^ 30 | _ => fun _ => true end r
  end.
Abbreviation small t := (Forall (fun e => small_event e = true) t).
Lemma successes_bound sts : 0 <= successes sts <= Z.of_nat (length sts).
Proof. unfold successes. pose proof (length_filter (fun st => EFI_ERROR st = false) sts). lia. Qed.

Lemma connect_all hs c :
  0 <= c -> c + Z.of_nat (length hs) < 2 ^ 64 ->
  wp (connect_handles hs c) (fun r t => exists sts, length sts = length hs /\ t = connects hs sts /\ r = c + successes sts).
Proof.
  revert c. induction hs as [|h hs IH]; intros c H0 Hc; cbn [connect_handles].
  { apply wp_ret. exists []. unfold successes. cbn. split_and!; [done..|lia]. }
  cbn [length] in Hc. apply wp_call_bind. intros st. destruct (EFI_ERROR st) eqn:E; eapply wp_mono; try (apply IH; rewrite ?wrap_id by (unfold is_uint; lia); lia);
    cbn beta; intros r t (sts & Hl & -> & ->); exists (st :: sts); (split; [cbn; by rewrite Hl|]); (split; [done|]); unfold successes.
  - rewrite filter_cons_False by (by rewrite E). done.
  - rewrite filter_cons_True by done. rewrite wrap_id by (unfold is_uint; lia). cbn [length]. lia.
Qed.

Lemma connect_pass : wp ConnectAllRecursive (fun r t => small t -> pass_trace t r /\ 0 <= r < 2 ^ 30).
Proof.
  unfold ConnectAllRecursive. apply wp_call_bind. intros [st [p hs]]. destruct (EFI_ERROR st) eqn:E.
  { apply wp_ret. intros _. split; [by apply pass_failed|lia]. }
  destruct (Z.lt_ge_cases (Z.of_nat (length hs)) (2 ^ 30)) as [Hs|Hs].
  2:{ eapply wp_mono; [|apply wp_true]. cbn beta. intros r t _ Hf. apply Forall_cons in Hf as [Hx _]. apply Z.ltb_lt in Hx. cbn in Hx, Hs. lia. }
  apply wp_bind. eapply wp_mono; [|apply connect_all; lia]. cbn beta. intros r t (sts & Hl & -> & ->).
  apply wp_bind, wp_call_. intros []. apply wp_ret. intros _. rewrite Z.add_0_l, app_nil_r. pose proof (successes_bound sts).
  split; [by apply pass_done|lia].
Qed.

Lemma connect_all_passes n Pass Total :
  0 <= Total -> Total + Z.of_nat n * 2 ^ 30 < 2 ^ 64 ->
  wp (connect_passes n Pass Total) (fun r t => small t -> exists total, passes_trace n t total /\ r = Total + total /\ 0 <= total <= Z.of_nat n * 2 ^ 30).
Proof.
  revert Pass Total. induction n as [|n IH]; intros Pass Total H0 Hb; cbn [connect_passes].
  { apply wp_ret. intros _. exists 0. split; [constructor|lia]. }
  apply wp_bind. eapply wp_mono; [|apply connect_pass]. cbn beta. intros c t Ht. cbv zeta. apply wp_bind, wp_call_. intros [].
  destruct (Z.eqb_spec c 0) as [->|Hc].
  - apply wp_ret. cbn [app]. intros [Hf _]%Forall_app. destruct (Ht Hf) as [Hp _]. exists 0. rewrite Z.add_0_r.
    split; [by apply passes_settled|]. rewrite wrap_id by (unfold is_uint; lia). lia.
  - destruct (Z.lt_ge_cases c (2 ^ 30)); [|eapply wp_mono; [|apply wp_true]; cbn beta; intros r t' _ [Hf _]%Forall_app; destruct (Ht Hf); lia].
    destruct (Z.lt_ge_cases 0 c); [|eapply wp_mono; [|apply wp_true]; cbn beta; intros r t' _ [Hf _]%Forall_app; destruct (Ht Hf); lia].
    rewrite wrap_id by (unfold is_uint; lia). eapply wp_mono; [|apply IH; lia]. cbn beta. intros r t' Hr [Hf Hf']%Forall_app.
    apply Forall_cons in Hf' as [_ Hf']. destruct (Ht Hf) as [Hp _]. destruct (Hr Hf') as (total & Hts & -> & Hb').
    exists (c + total). split; [by apply passes_more|lia].
Qed.

(** The application makes at most three passes and stops after the first
    that connects nothing; each pass connects every handle of its snapshot
    exactly once, in order and recursively, no matter how the others fared,
    and frees the snapshot; the total it prints is the number of successful
    connections of all passes. *)
Theorem connect_passes_bounded (tr : list (event ca)) (st : EFI_STATUS) (Hex : exec UefiMain tr st) (Hsmall : forallb small_event tr = true) :
  st = EFI_SUCCESS /\ exists ts total, passes_trace 3 ts total /\ tr = ts ++ [Ev (S := ca) (PrintDone total) tt].
Proof.
  refine (proj1 (wp_exec UefiMain (fun st tr => small tr -> _)) _ tr st Hex _);
    [|by apply List.Forall_forall, forallb_forall]. clear.
  unfold UefiMain. apply wp_bind. eapply wp_mono; [|apply connect_all_passes; lia]. cbn beta.
  intros total t Ht. apply wp_bind, wp_call_. intros []. apply wp_ret. intros [Hf _]%Forall_app. destruct (Ht Hf) as (s & Hp & -> & Hs).
  split; [done|]. exists t, s. split; [done|]. cbn [app]. by rewrite Z.add_0_l, wrap_id by (unfold is_uint; lia).
Qed.

(** Two controllers bind in the first pass and a child in the second. *)
Definition machine : handler ca nat := fun c w =>
  match c as c return ca_res c * nat with
  | LocateHandleBuffer => ((EFI_SUCCESS, (1, [10; 11; 12])), w)
  | ConnectController _ _ => match w with S w => (EFI_SUCCESS, w) | O => (EFI_NOT_FOUND, O) end
  | FreeHandles _ | Print _ _ | PrintDone _ => (tt, w)
  end.
Lemma connect_passes_bounded_witness :
  exists ts, passes_trace 3 ts 4 /\ run_trace machine UefiMain 4%nat = ts ++ [Ev (S := ca) (PrintDone 4) tt].
Proof.
  destruct (connect_passes_bounded _ _ (exec_run machine UefiMain 4%nat)) as (_ & ts & total & Hp & Ht).
  - vm_compute. reflexivity.
  - exists ts. assert (Hl := f_equal last Ht). rewrite last_snoc in Hl. vm_compute in Hl. injection Hl as Hl. subst total. split; [exact Hp|exact Ht].
Defined.
