(* ===== verification/Ptt.v ===== *)
(** * The firmware TPM (coreboot mainboard, ptt.c)

    The ME's command/response buffer is set up, the TPM started and, on
    request, cleared once; the TPM2 ACPI table is written only for a window
    that answers. *)

From S2P Require Import Prelude Services Uefi HostInterface.

(** ** Registers *)

Definition PTT_CRB_BASE : Z := 0xFED70000.
Definition PTT_CRB_DATA : Z := PTT_CRB_BASE + 0x80.
Definition PTT_CRB_DATA_SIZE : Z := 0xF80.

Definition CRB_CTRL_START : Z := 0x0c.
Definition CRB_CTRL_CMD_SIZE : Z := 0x18.
Definition CRB_CTRL_CMD_PA_LO : Z := 0x1c.
Definition CRB_CTRL_CMD_PA_HI : Z := 0x20.
Definition CRB_CTRL_RSP_SIZE : Z := 0x24.
Definition CRB_CTRL_RSP_PA_LO : Z := 0x28.
Definition CRB_CTRL_RSP_PA_HI : Z := 0x2c.
Definition CRB_HCMD : Z := 0x40.
Definition CRB_HSTS : Z := 0x44.

(** ** Services: MMIO, a stopwatch, the setup options (true is CB_SUCCESS)
    and the ACPI table list *)

Inductive tp_op :=
  | write8 (a v : Z) | write32 (a v : Z) | read8 (a : Z) | read32 (a : Z)
  | stopwatch_init_msecs_expire (ms : Z) | stopwatch_expired | udelay (us : Z)
  | get_uint_option (name : string) (fallback : Z) | set_uint_option (name : string) (value : Z)
  | acpi_add_table (address : Z) (table : list Z).

Definition tp_res (c : tp_op) : Type :=
  match c with
  | read8 _ | read32 _ | get_uint_option _ _ => Z
  | stopwatch_expired | set_uint_option _ _ => bool
  | write8 _ _ | write32 _ _ | stopwatch_init_msecs_expire _ | udelay _ | acpi_add_table _ _ => unit
  end.
Definition tp : sig := Sig tp_op tp_res.

(** ** Commands *)

Fixpoint ptt_stage (a : Z) (cmd : list Z) : fw tp unit :=
  match cmd with
  | [] => mret tt
  | c :: cmd => _ ← call_ (S := tp) (write8 a c); ptt_stage (a + 1) cmd
  end.

(** The wait for completion: whether it ended before the stopwatch. *)
Fixpoint ptt_wait (fuel : nat) : fw tp (option bool) :=
  match fuel with
  | O => mret None
  | S fuel =>
      s ← call (S := tp) (read32 (PTT_CRB_BASE + CRB_CTRL_START));
      if Z.testbit s 0 then
        expired ← call (S := tp) stopwatch_expired;
        if (expired : bool) then mret (Some false)
        else _ ← call_ (S := tp) (udelay 50); ptt_wait fuel
      else mret (Some true)
  end.

Definition ptt_run (fuel : nat) (cmd : list Z) : fw tp (option Z) :=
  _ ← ptt_stage PTT_CRB_DATA cmd;
  _ ← call_ (S := tp) (write32 (PTT_CRB_BASE + CRB_HCMD) 0);
  _ ← call_ (S := tp) (write32 (PTT_CRB_BASE + CRB_CTRL_START) 1);
  _ ← call_ (S := tp) (stopwatch_init_msecs_expire 2000);
  done ←? ptt_wait fuel;
  if negb done then mret (Some 0xffffffff)
  else
    b6 ← call (S := tp) (read8 (PTT_CRB_DATA + 6));
    b7 ← call (S := tp) (read8 (PTT_CRB_DATA + 7));
    b8 ← call (S := tp) (read8 (PTT_CRB_DATA + 8));
    b9 ← call (S := tp) (read8 (PTT_CRB_DATA + 9));
    mret (Some (wrap 32 (Z.lor (Z.lor (Z.lor (Z.shiftl b6 24) (Z.shiftl b7 16)) (Z.shiftl b8 8)) b9))).

Definition startup_clear : list Z := [0x80; 0x01; 0x00; 0x00; 0x00; 0x0c; 0x00; 0x00; 0x01; 0x44; 0x00; 0x00].
Definition clear_cmd : list Z :=
  [0x80; 0x02; 0x00; 0x00; 0x00; 0x1b; 0x00; 0x00; 0x01; 0x26; 0x40; 0x00; 0x00; 0x0c; 0x00; 0x00; 0x00; 0x09;
   0x40; 0x00; 0x00; 0x09; 0x00; 0x00; 0x00; 0x00; 0x00].

(** Their return codes are only logged. *)
Definition ptt_tpm_startup (fuel : nat) : fw tp (option unit) := rc ←? ptt_run fuel startup_clear; mret (Some tt).
Definition ptt_tpm_clear (fuel : nat) : fw tp (option unit) := rc ←? ptt_run fuel clear_cmd; mret (Some tt).

(** ** Setup: the new value of [ptt_enabled] *)

Definition ptt_setup (fuel : nat) (ptt_enabled : bool) : fw tp (option bool) :=
  enable ← call (S := tp) (get_uint_option "tpm_enable" 1);
  if enable =? 0 then mret (Some ptt_enabled)
  else
    hsts ← call (S := tp) (read32 (PTT_CRB_BASE + CRB_HSTS));
    if hsts =? 0xffffffff then mret (Some ptt_enabled)
    else
      _ ← call_ (S := tp) (write32 (PTT_CRB_BASE + CRB_CTRL_CMD_SIZE) PTT_CRB_DATA_SIZE);
      _ ← call_ (S := tp) (write32 (PTT_CRB_BASE + CRB_CTRL_CMD_PA_LO) PTT_CRB_DATA);
      _ ← call_ (S := tp) (write32 (PTT_CRB_BASE + CRB_CTRL_CMD_PA_HI) 0);
      _ ← call_ (S := tp) (write32 (PTT_CRB_BASE + CRB_CTRL_RSP_SIZE) PTT_CRB_DATA_SIZE);
      _ ← call_ (S := tp) (write32 (PTT_CRB_BASE + CRB_CTRL_RSP_PA_LO) PTT_CRB_DATA);
      _ ← call_ (S := tp) (write32 (PTT_CRB_BASE + CRB_CTRL_RSP_PA_HI) 0);
      size ← call (S := tp) (read32 (PTT_CRB_BASE + CRB_CTRL_CMD_SIZE));
      if negb (size =? PTT_CRB_DATA_SIZE) then
        _ ← call_ (S := tp) (read32 (PTT_CRB_BASE + CRB_CTRL_CMD_SIZE));
        mret (Some ptt_enabled)
      else
        _ ← call_ (S := tp) (read32 (PTT_CRB_BASE + CRB_HSTS));
        _ ←? ptt_tpm_startup fuel;
        clear ← call (S := tp) (get_uint_option "tpm_clear" 0);
        if clear =? 0 then mret (Some true)
        else
          reset ← call (S := tp) (set_uint_option "tpm_clear" 0);
          if (reset : bool) then _ ←? ptt_tpm_clear fuel; mret (Some true)
          else mret (Some true).

(** ** The TPM2 table *)

(** coreboot's ACPI support: alignment, identifiers and the checksum that
    makes a table sum to zero. *)
Class AcpiLib := {
  acpi_align_current : Z -> Z;
  OEM_ID : list Z; OEM_ID_size : length OEM_ID = 6%nat;
  ACPI_TABLE_CREATOR : list Z; ACPI_TABLE_CREATOR_size : length ACPI_TABLE_CREATOR = 8%nat;
  ASLC : list Z; ASLC_size : length ASLC = 4%nat;
  asl_revision : Z;
  tpm2_table_revision : Z;
  acpi_checksum : list Z -> Z;
  acpi_checksum_sum b : (acpi_checksum b + foldr Z.add 0 b) mod 256 = 0
}.

Definition ACPI_TPM2_SM_ACPI_START : Z := 2.
Definition SIZEOF_TPM2 : Z := 76.

Section table.
Context `{AcpiLib}.

(** The members of acpi_tpm2_t that are set, at their offsets. *)
Definition tpm2_stores : list (Z * list Z) :=
  [(0, lit "TPM2"); (10, OEM_ID); (16, ACPI_TABLE_CREATOR); (28, ASLC); (32, le_split 4 asl_revision);
   (8, [tpm2_table_revision]); (4, le_split 4 SIZEOF_TPM2);
   (40, le_split 8 PTT_CRB_BASE); (48, le_split 4 ACPI_TPM2_SM_ACPI_START)].

(** [None] is a store outside the table. *)
Definition ptt_write_tpm2_table (ptt_enabled : bool) (current : Z) : fw tp (option Z) :=
  if negb ptt_enabled then mret (Some current)
  else
    let current := acpi_align_current current in
    match stores tpm2_stores (zeros SIZEOF_TPM2) with
    | None => mret None
    | Some tpm2 =>
        match store 9 [acpi_checksum tpm2] tpm2 with
        | None => mret None
        | Some tpm2 => _ ← call_ (S := tp) (acpi_add_table current tpm2); mret (Some (current + SIZEOF_TPM2))
        end
    end.
End table.
