(* ===== verification/PttSpec.v ===== *)
(** * The firmware TPM is cleared once per request

    And: the driver stays inside its window, waits a bounded time, and
    announces a TPM only behind a window that answers. *)

From S2P Require Import Prelude Services Uefi HostInterface Ptt.

(** ** What a boot does to the TPM and to the options *)

(** What is known of the data buffer, the stored options, and how often the
    TPM was told to clear. *)
Record tpm_state := TpmState { t_mem : Z -> option Z; t_opts : string -> option Z; t_clears : nat }.

Definition put (m : Z -> option Z) (a v : Z) : Z -> option Z := fun x => if x =? a then Some v else m x.
Definition TPM2_CC_CLEAR : Z := 0x126.
(** The command code: four bytes at offset 6, most significant first. *)
Definition command_code (m : Z -> option Z) : option Z :=
  match m (PTT_CRB_DATA + 6), m (PTT_CRB_DATA + 7), m (PTT_CRB_DATA + 8), m (PTT_CRB_DATA + 9) with
  | Some a, Some b, Some c, Some d => Some (((a * 256 + b) * 256 + c) * 256 + d)
  | _, _, _, _ => None
  end.
Definition is_clear (m : Z -> option Z) : bool := match command_code m with Some c => c =? TPM2_CC_CLEAR | None => false end.
Definition set_opt (o : string -> option Z) (n : string) (v : Z) : string -> option Z :=
  fun x => if String.eqb x n then Some v else o x.

(** One event; [None] is an answer the option store cannot give.  The TPM
    answers in the buffer, so after a command its content is unknown. *)
Definition tpm_event (s : tpm_state) (e : event tp) : option tpm_state :=
  match e with
  | Ev c r =>
      match c as c return tp_res c -> option tpm_state with
      | write8 a v => fun _ => Some (TpmState (put (t_mem s) a v) (t_opts s) (t_clears s))
      | write32 a v => fun _ =>
          if (a =? PTT_CRB_BASE + CRB_CTRL_START) && Z.testbit v 0
          then Some (TpmState (fun _ => None) (t_opts s) (t_clears s + if is_clear (t_mem s) then 1 else 0))
          else Some s
      | get_uint_option n d => fun r => if r =? default d (t_opts s n) then Some s else None
      | set_uint_option n v => fun r =>
          Some (if r : bool then TpmState (t_mem s) (set_opt (t_opts s) n v) (t_clears s) else s)
      | _ => fun _ => Some s
      end r
  end.

(** A request is pending. *)
Definition requested (o : string -> option Z) : nat := if default 0 (o "tpm_clear"%string) =? 0 then 0 else 1.

(** Boots, each possibly cut short; the buffer does not survive them. *)
Definition power_on (s : tpm_state) : tpm_state := TpmState (fun _ => None) (t_opts s) (t_clears s).
Fixpoint boots (s : tpm_state) (ts : list (list (event tp))) : option tpm_state :=
  match ts with
  | [] => Some s
  | t :: ts => match monitor tpm_event (power_on s) t with Some s => boots s ts | None => None end
  end.
Definition cut_short {A} (p : fw tp A) (t : list (event tp)) : Prop := exists t' r, exec p (t ++ t') r.

(** ** The bound as a monitor: clears done and requests left *)

Definition budget (s : tpm_state) : nat := t_clears s + requested (t_opts s).

Definition guard (K : nat) (s : option tpm_state) (e : event tp) : option (option tpm_state) :=
  match s with
  | None => Some None
  | Some s =>
      match tpm_event s e with
      | None => Some None
      | Some s => if (budget s <=? K)%nat then Some (Some s) else None
      end
  end.

Section guarded.
Context (K : nat).
Abbreviation gmon := (mon (guard K)).

Lemma gmon_lost {A} (p : fw tp A) : gmon None p (fun _ m => m = None).
Proof.
  induction p as [a|c k IH]; [by apply mon_ret|]. intros r. eapply wp_mono; [|apply IH]. cbn beta. intros a t (m & Hm & ->). by exists None.
Qed.

(** One event that keeps the budget. *)
Lemma guard_ok s e s' : tpm_event s e = Some s' -> (budget s' <= K)%nat -> guard K (Some s) e = Some (Some s').
Proof. intros He Hb. unfold guard. rewrite He. by destruct (Nat.leb_spec (budget s') K); [|lia]. Qed.
Lemma gmon_call s c (Q : tp_res c -> option tpm_state -> Prop) :
  (forall r, exists s', tpm_event s (Ev (S := tp) c r) = Some s' /\ (budget s' <= K)%nat /\ Q r (Some s')) -> gmon (Some s) (call (S := tp) c) Q.
Proof. intros Hq. apply mon_call. intros r. destruct (Hq r) as (s' & He & Hb & HQ). exists (Some s'). split; [by apply guard_ok|done]. Qed.
Lemma gmon_call_ s c (Q : unit -> option tpm_state -> Prop) :
  (forall r, exists s', tpm_event s (Ev (S := tp) c r) = Some s' /\ (budget s' <= K)%nat /\ Q tt (Some s')) -> gmon (Some s) (call_ (S := tp) c) Q.
Proof. intros Hq. apply mon_call_. intros r. destruct (Hq r) as (s' & He & Hb & HQ). exists (Some s'). split; [by apply guard_ok|done]. Qed.

(** Reading, waiting and the other registers change nothing. *)
Definition inert (c : tp_op) : bool :=
  match c with
  | read8 _ | read32 _ | stopwatch_init_msecs_expire _ | stopwatch_expired | udelay _ | acpi_add_table _ _ => true
  | write32 a _ => negb (a =? PTT_CRB_BASE + CRB_CTRL_START)
  | _ => false
  end.
Lemma inert_event s c r : inert c = true -> tpm_event s (Ev (S := tp) c r) = Some s.
Proof. destruct c; cbn; try done. intros Ha. by rewrite (proj1 (negb_true_iff _) Ha). Qed.
Lemma gmon_inert s c (Q : tp_res c -> option tpm_state -> Prop) :
  inert c = true -> (budget s <= K)%nat -> (forall r, Q r (Some s)) -> gmon (Some s) (call (S := tp) c) Q.
Proof. intros Hc Hb HQ. apply gmon_call. intros r. exists s. by rewrite inert_event. Qed.
Lemma gmon_inert_ s c (Q : unit -> option tpm_state -> Prop) :
  inert c = true -> (budget s <= K)%nat -> Q tt (Some s) -> gmon (Some s) (call_ (S := tp) c) Q.
Proof. intros Hc Hb HQ. apply gmon_call_. intros r. exists s. by rewrite inert_event. Qed.

Ltac quiet :=
  match goal with
  | |- mon _ _ (mbind _ (call _)) _ => apply mon_bind, gmon_inert; [reflexivity|done|intros ?]
  | |- mon _ _ (mbind _ (call_ _)) _ => apply mon_bind, gmon_inert_; [reflexivity|done|]
  end.

Fixpoint staged (m : Z -> option Z) (a : Z) (cmd : list Z) : Z -> option Z :=
  match cmd with [] => m | c :: cmd => staged (put m a c) (a + 1) cmd end.

Lemma stage_guard cmd a m o n :
  (n + requested o <= K)%nat ->
  gmon (Some (TpmState m o n)) (ptt_stage a cmd) (fun _ s => s = Some (TpmState (staged m a cmd) o n)).
Proof.
  intros Hb. revert a m. induction cmd as [|c cmd IH]; intros a m; cbn [ptt_stage staged]; [by apply mon_ret|].
  apply mon_bind, gmon_call_. intros r. eexists. split; [reflexivity|]. split; [exact Hb|]. apply IH.
Qed.

Lemma wait_guard fuel s : (budget s <= K)%nat -> gmon (Some s) (ptt_wait fuel) (fun _ s' => s' = Some s).
Proof.
  intros Hb. induction fuel as [|fuel IH]; cbn [ptt_wait]; [by apply mon_ret|]. quiet. destruct (Z.testbit _ 0); [|by apply mon_ret].
  quiet. destruct (r0 : bool); [by apply mon_ret|]. quiet. exact IH.
Qed.

(** A command: at most one clear, as its code says. *)
Lemma run_guard fuel cmd m o n :
  (n + requested o <= K)%nat -> (n + (if is_clear (staged m PTT_CRB_DATA cmd) then 1 else 0) + requested o <= K)%nat ->
  gmon (Some (TpmState m o n)) (ptt_run fuel cmd)
    (fun _ s => exists m', s = Some (TpmState m' o (n + if is_clear (staged m PTT_CRB_DATA cmd) then 1 else 0)))%nat.
Proof.
  intros Hb Hb'. unfold ptt_run. apply mon_bind. eapply mon_mono; [|by apply stage_guard]. cbn beta. intros _ ? ->. quiet.
  apply mon_bind, gmon_call_. intros r. eexists. split; [reflexivity|]. cbn [t_mem t_opts t_clears]. split; [exact Hb'|].
  quiet. apply mon_bind. eapply mon_mono; [|by apply wait_guard]. cbn beta. intros [[|]|] ? ->.
  - cbn [negb]. do 4 quiet. apply mon_ret. by eexists.
  - apply mon_ret. by eexists.
  - apply mon_ret. by eexists.
Qed.

Lemma startup_no_clear m : is_clear (staged m PTT_CRB_DATA startup_clear) = false.
Proof. reflexivity. Qed.
Lemma clear_is_clear m : is_clear (staged m PTT_CRB_DATA clear_cmd) = true.
Proof. reflexivity. Qed.

Lemma setup_guard fuel s : (budget s <= K)%nat -> gmon (Some s) (ptt_setup fuel false) (fun _ _ => True).
Proof.
  intros Hb. assert (Hlost : forall A (p : fw tp A), gmon None p (fun _ _ => True)).
  { intros A p. eapply mon_mono; [|apply gmon_lost]. done. }
  unfold ptt_setup. apply mon_bind, mon_call. intros enable. unfold guard at 1. cbn [tpm_event].
  destruct (enable =? default 1 (t_opts s "tpm_enable"%string)); [|exists None; split; [done|apply Hlost]].
  destruct (Nat.leb_spec (budget s) K); [|lia]. eexists. split; [reflexivity|].
  destruct (enable =? 0); [by apply mon_ret|]. quiet. destruct (r =? 0xffffffff); [by apply mon_ret|]. do 7 quiet.
  destruct (negb (r0 =? PTT_CRB_DATA_SIZE)); [quiet; by apply mon_ret|]. quiet. unfold ptt_tpm_startup, ptt_tpm_clear.
  apply mon_bind, mon_bind. destruct s as [m o n]. eapply mon_mono; [|apply run_guard; rewrite ?startup_no_clear, ?Nat.add_0_r; exact Hb].
  cbn beta. rewrite startup_no_clear, Nat.add_0_r. intros [rc|] ? [m1 ->]; apply mon_ret; [|by apply mon_ret].
  apply mon_bind, mon_call. intros clear. unfold guard at 1. cbn [tpm_event t_opts].
  destruct (clear =? default 0 (o "tpm_clear"%string)) eqn:Eg; [|exists None; split; [done|apply Hlost]].
  destruct (Nat.leb_spec (budget (TpmState m1 o n)) K) as [_|Hx]; [|unfold budget in *; cbn in *; lia]. eexists. split; [reflexivity|].
  destruct (clear =? 0) eqn:Ec; [by apply mon_ret|]. apply Z.eqb_eq in Eg as ->.
  assert (Hr : requested o = 1%nat) by (unfold requested; by rewrite Ec). unfold budget in Hb. cbn in Hb. rewrite Hr in Hb.
  apply mon_bind, gmon_call. intros [|]; (eexists; split; [reflexivity|]); (split; [unfold budget; cbn; lia|]).
  - apply mon_bind, mon_bind. eapply mon_mono; [|apply run_guard; rewrite ?clear_is_clear; unfold requested, set_opt; cbn; lia].
    cbn beta. intros [rc'|] ? [m2 ->]; apply mon_ret; by apply mon_ret.
  - by apply mon_ret.
Qed.

Lemma guard_budget t s s' :
  (budget s <= K)%nat -> is_Some (monitor (guard K) (Some s) t) -> monitor tpm_event s t = Some s' -> (budget s' <= K)%nat.
Proof.
  revert s. induction t as [|e t IH]; intros s Hb; cbn [monitor]; [by intros _ [= <-]|]. unfold guard at 1.
  destruct (tpm_event s e) as [s1|]; [|done]. destruct (Nat.leb_spec (budget s1) K); [|by intros []]. by apply IH.
Qed.
End guarded.

Lemma boot_budget fuel s t s' :
  cut_short (ptt_setup fuel false) t -> monitor tpm_event s t = Some s' -> (budget s' <= budget s)%nat.
Proof.
  intros (t' & r & Hex) Hm. eapply (guard_budget (budget s)); [done| |exact Hm].
  destruct (mon_exec _ _ _ _ _ _ (setup_guard (budget s) fuel s (le_n _)) Hex) as (m & Hg & _).
  rewrite monitor_app in Hg. destruct (monitor (guard (budget s)) (Some s) t); [by eexists|done].
Qed.

(** C16: A request to clear the TPM is honoured at most once.  Over any series
    of boots, each run to its end or cut off at any point (a hang, a reset or
    a power loss, also in the middle of a command), with a TPM that may answer
    anything or never: as long as the option store returns what was last
    stored, the number of times TPM2_Clear is started plus the requests left
    is at most the number of requests at the beginning.  In particular a
    machine whose TPM hangs in the command does not clear again. *)
Theorem clear_at_most_once (fuel : nat) (s s' : tpm_state) (ts : list (list (event tp)))
    (Hboots : Forall (cut_short (ptt_setup fuel false)) ts) (Hopts : boots s ts = Some s') :
  (t_clears s' + requested (t_opts s') <= t_clears s + requested (t_opts s))%nat.
Proof.
  change (budget s' <= budget s)%nat. revert s Hopts. induction Hboots as [|t ts Ht _ IH]; intros s; cbn [boots]; [by intros [= <-]|].
  destruct (monitor tpm_event (power_on s) t) as [s1|] eqn:E; [|done]. intros Hb. apply IH in Hb.
  apply (boot_budget fuel) in E; [|done]. unfold budget, power_on in *. cbn in *. lia.
Qed.

(** ** A machine whose TPM never finishes a command *)

Record nvram := mkNv { nv_clear : Z; nv_polls : nat }.
Definition hung_tpm : handler tp nvram := fun c w =>
  match c as c return tp_res c * nvram with
  | read8 _ => (0, w)
  | read32 a => (if a =? PTT_CRB_BASE + CRB_CTRL_CMD_SIZE then PTT_CRB_DATA_SIZE else 1, w)
  | get_uint_option n _ => (if String.eqb n "tpm_clear" then nv_clear w else 1, w)
  | set_uint_option n v => (true, if String.eqb n "tpm_clear" then mkNv v (nv_polls w) else w)
  | stopwatch_expired => match nv_polls w with O => (true, w) | S k => (false, mkNv (nv_clear w) k) end
  | write8 _ _ | write32 _ _ | udelay _ | acpi_add_table _ _ => (tt, w)
  | stopwatch_init_msecs_expire _ => (tt, mkNv (nv_clear w) 3)
  end.
Definition first_boot : list (event tp) := run_trace hung_tpm (ptt_setup 10 false) (mkNv 1 0).
Definition second_boot : list (event tp) := run_trace hung_tpm (ptt_setup 10 false) (mkNv 0 0).
Definition asked_to_clear : tpm_state := TpmState (fun _ => None) (fun n => if String.eqb n "tpm_clear" then Some 1 else None) 0.

(** The first boot clears, the second does not. *)
Lemma clear_at_most_once_witness :
  exists s', boots asked_to_clear [first_boot; second_boot] = Some s' /\ (t_clears s' = 1)%nat
  /\ (t_clears s' + requested (t_opts s') <= 1)%nat.
Proof.
  destruct (boots asked_to_clear [first_boot; second_boot]) as [s'|] eqn:E; [|vm_compute in E; discriminate E].
  exists s'. split; [reflexivity|]. split; [vm_compute in E; injection E as <-; reflexivity|].
  refine (clear_at_most_once 10 asked_to_clear s' _ _ E).
  repeat (apply Forall_cons; split); [| |apply Forall_nil_2; exact I];
    (eexists [], _; rewrite app_nil_r; apply exec_run).
Defined.

(** ** The announced TPM *)

(** The boot-state entry, then the hook that writes the tables. *)
Definition ptt_boot `{AcpiLib} (fuel : nat) (current : Z) : fw tp (option Z) :=
  ptt_enabled ←? ptt_setup fuel false; ptt_write_tpm2_table ptt_enabled current.

(** The first answer of a kind, and the calls after a register was written. *)
Fixpoint first_answer (f : event tp -> option Z) (t : list (event tp)) : option Z :=
  match t with [] => None | e :: t => match f e with Some v => Some v | None => first_answer f t end end.
Definition option_answer (n : string) (e : event tp) : option Z :=
  match e with
  | Ev c r => match c as c return tp_res c -> option Z with get_uint_option n' _ => fun r => if String.eqb n' n then Some r else None | _ => fun _ => None end r
  end.
Definition read_answer (a : Z) (e : event tp) : option Z :=
  match e with
  | Ev c r => match c as c return tp_res c -> option Z with read32 a' => fun r => if a' =? a then Some r else None | _ => fun _ => None end r
  end.
Fixpoint since_write (a v : Z) (t : list (event tp)) : list (event tp) :=
  match t with
  | [] => []
  | e :: t => match ev_op e with write32 a' v' => if (a' =? a) && (v' =? v) then t else since_write a v t | _ => since_write a v t end
  end.

(** The setup option is not zero; the status register is not all ones; and the
    command size, once written, reads back. *)
Definition enabled_in_setup (t : list (event tp)) : bool :=
  match first_answer (option_answer "tpm_enable") t with Some v => negb (v =? 0) | None => false end.
Definition window_decodes (t : list (event tp)) : bool :=
  match first_answer (read_answer (PTT_CRB_BASE + CRB_HSTS)) t with Some v => negb (v =? 0xffffffff) | None => false end.
Definition size_kept (t : list (event tp)) : bool :=
  match first_answer (read_answer (PTT_CRB_BASE + CRB_CTRL_CMD_SIZE)) (since_write (PTT_CRB_BASE + CRB_CTRL_CMD_SIZE) PTT_CRB_DATA_SIZE t) with
  | Some v => v =? PTT_CRB_DATA_SIZE
  | None => false
  end.
Definition tpm_there (t : list (event tp)) : bool := enabled_in_setup t && window_decodes t && size_kept t.

Lemma first_answer_app f t e : f e = None -> first_answer f (t ++ [e]) = first_answer f t.
Proof. intros He. induction t as [|e' t IH]; cbn [app first_answer]; [by rewrite He|]. by destruct (f e'). Qed.
Lemma tpm_there_app t a b : tpm_there (t ++ [Ev (S := tp) (acpi_add_table a b) tt]) = tpm_there t.
Proof.
  unfold tpm_there, enabled_in_setup, window_decodes. rewrite !first_answer_app by done. f_equal. unfold size_kept.
  set (f := read_answer _). set (w := PTT_CRB_BASE + CRB_CTRL_CMD_SIZE).
  assert (Hs : first_answer f (since_write w PTT_CRB_DATA_SIZE (t ++ [Ev (S := tp) (acpi_add_table a b) tt])) = first_answer f (since_write w PTT_CRB_DATA_SIZE t)); [|by rewrite Hs].
  induction t as [|[c r] t IH]; cbn [app since_write]; [done|]. destruct c; cbn [ev_op]; try exact IH. destruct (_ && _); [by apply first_answer_app|exact IH].
Qed.
Definition no_table (c : tp_op) : Prop := match c with acpi_add_table _ _ => False | _ => True end.
Abbreviation tableless t := (Forall (fun e : event tp => no_table (ev_op e)) t).

(** The table as an operating system checks and reads it. *)
Definition table_ok (b : list Z) : Prop :=
  len b = SIZEOF_TPM2 /\ foldr Z.add 0 b mod 256 = 0 /\ field 0 4 b = lit "TPM2" /\ le_combine (field 4 4 b) = len b
  /\ le_combine (field 40 8 b) = PTT_CRB_BASE /\ le_combine (field 48 4 b) = ACPI_TPM2_SM_ACPI_START.

Section announced.
Context `{AcpiLib}.

Lemma sum_app (a b : list Z) : foldr Z.add 0 (a ++ b) = foldr Z.add 0 a + foldr Z.add 0 b.
Proof. induction a as [|x a IH]; cbn; [done|]. rewrite IH. lia. Qed.

Lemma table_written : exists b b', stores tpm2_stores (zeros SIZEOF_TPM2) = Some b /\ store 9 [acpi_checksum b] b = Some b' /\ table_ok b'.
Proof.
  assert (E : exists b, stores tpm2_stores (zeros SIZEOF_TPM2) = Some b /\ length b = 76%nat /\ b !! 9%nat = Some 0
    /\ field 0 4 b = lit "TPM2" /\ le_combine (field 4 4 b) = 76 /\ le_combine (field 40 8 b) = PTT_CRB_BASE
    /\ le_combine (field 48 4 b) = ACPI_TPM2_SM_ACPI_START).
  { unfold tpm2_stores. destruct H as [al id Hid cr Hcr as_ Has ar tr ck Hck]. cbn [OEM_ID ACPI_TABLE_CREATOR ASLC asl_revision tpm2_table_revision].
    destruct id as [|i0 [|i1 [|i2 [|i3 [|i4 [|i5 [|]]]]]]]; try discriminate Hid.
    destruct cr as [|c0 [|c1 [|c2 [|c3 [|c4 [|c5 [|c6 [|c7 [|]]]]]]]]]; try discriminate Hcr.
    destruct as_ as [|a0 [|a1 [|a2 [|a3 [|]]]]]; try discriminate Has.
    eexists. split; [reflexivity|]. split_and!; reflexivity. }
  destruct E as (b & Hb & Hl & H9 & H0 & H4 & H40 & H48). exists b.
  assert (Hs : b = take 9 b ++ [0] ++ drop 10 b) by (cbn [app]; by rewrite <- (take_drop_middle b 9 0 H9) at 1).
  eexists. split; [done|]. split.
  { unfold store, len. rewrite Hl. reflexivity. }
  change (Z.to_nat 9 + length [acpi_checksum b])%nat with 10%nat. change (Z.to_nat 9) with 9%nat.
  set (p := take 9 b) in *. set (q := drop 10 b) in *.
  assert (Hp : len p = 9) by (unfold len, p; rewrite length_take, Hl; done).
  assert (Hq : len q = 66) by (unfold len, q; rewrite length_drop, Hl; done).
  assert (Hf : forall off n x, 0 <= off -> 0 <= n -> off + n <= 9 -> field off n (p ++ [x] ++ q) = field off n b).
  { intros off n x ? ? ?. rewrite Hs at 1. rewrite !field_app by lia. done. }
  assert (Hg : forall off n x, 10 <= off -> field off n (p ++ [x] ++ q) = field off n b).
  { intros off n x Ho. rewrite Hs at 1. rewrite !(field_after _ _ p), !(field_after _ _ [_]) by (rewrite ?Hp; change (len [_]) with 1; lia). done. }
  unfold table_ok. rewrite !Hf, !Hg, H0, H4, H40, H48, !len_app, Hp, Hq by lia.
  split_and!; try reflexivity. pose proof (acpi_checksum_sum b) as Hc. rewrite Hs in Hc at 2. rewrite !sum_app in Hc |- *.
  etransitivity; [|exact Hc]. f_equal. cbn. lia.
Qed.

Lemma run_no_table fuel cmd : only (S := tp) no_table (ptt_run fuel cmd).
Proof.
  assert (Hst : forall a, only (S := tp) no_table (ptt_stage a cmd)).
  { induction cmd as [|c l IH]; intros a; cbn [ptt_stage]; [done|]. only_go. apply IH. }
  assert (Hw : only (S := tp) no_table (ptt_wait fuel)).
  { induction fuel as [|fuel IH]; cbn [ptt_wait]; [done|]. only_go. }
  unfold ptt_run. only_go. apply Hst.
Qed.

(** The setup says so exactly then. *)
Lemma setup_answers fuel :
  wp (ptt_setup fuel false) (fun r t => tableless t /\ forall en, r = Some en -> en = tpm_there t).
Proof.
  assert (Hrun : forall cmd, wp (ptt_run fuel cmd) (fun _ t => tableless t)) by (intros; apply only_wp, run_no_table).
  unfold ptt_setup, ptt_tpm_startup, ptt_tpm_clear. apply wp_call_bind. intros en. destruct (en =? 0) eqn:Een.
  { apply wp_ret. split; [by repeat constructor|]. intros ? [= <-]. transitivity (negb (en =? 0) && false && false); [by rewrite andb_false_r|reflexivity]. }
  apply wp_call_bind. intros hs. destruct (hs =? 0xffffffff) eqn:Ehs.
  { apply wp_ret. split; [by repeat constructor|]. intros ? [= <-]. transitivity (negb (en =? 0) && negb (hs =? 0xffffffff) && false); [by rewrite andb_false_r|reflexivity]. }
  do 6 (apply wp_bind, wp_call_; intros ?). apply wp_call_bind. intros v. destruct (negb (v =? PTT_CRB_DATA_SIZE)) eqn:Ev.
  { apply wp_bind, wp_call_. intros ?. apply wp_ret. split; [by repeat constructor|]. intros ? [= <-].
    transitivity (negb (en =? 0) && negb (hs =? 0xffffffff) && (v =? PTT_CRB_DATA_SIZE)); [by rewrite (proj1 (negb_true_iff _) Ev), andb_false_r|reflexivity]. }
  apply negb_false_iff in Ev. apply wp_bind, wp_call_. intros ?.
  eapply (wp_mono _ (fun r t => tableless t /\ forall en, r = Some en -> en = true)).
  { intros r' t [Hf Hr]. split; [by repeat (apply Forall_cons; split; [done|])|]. intros en' Hen. rewrite (Hr _ Hen).
    transitivity (negb (en =? 0) && negb (hs =? 0xffffffff) && (v =? PTT_CRB_DATA_SIZE)); [by rewrite Een, Ehs, Ev|reflexivity]. }
  unfold obind. apply wp_bind, wp_bind. eapply wp_mono; [|apply Hrun]. cbn beta. intros [rc|] t Ht; apply wp_ret.
  2:{ apply wp_ret. rewrite !app_nil_r. split; [done|]. by intros ? [=]. }
  apply wp_call_bind. intros clear. destruct (clear =? 0).
  { apply wp_ret. rewrite !app_nil_r. split; [by apply Forall_app; split; [|repeat constructor]|]. by intros ? [= <-]. }
  apply wp_call_bind. intros [|].
  2:{ apply wp_ret. rewrite !app_nil_r. split; [by apply Forall_app; split; [|repeat constructor]|]. by intros ? [= <-]. }
  apply wp_bind, wp_bind. eapply wp_mono; [|apply Hrun]. cbn beta. intros rc' t' Ht'.
  destruct rc'; apply wp_ret; apply wp_ret; rewrite !app_nil_r; (split; [|by intros ? [= <-]]); apply Forall_app; (split; [done|]);
    by repeat (apply Forall_cons; split; [done|]).
Qed.

(** Fuel runs out only while the stopwatch keeps running. *)
Definition unexpired (e : event tp) : bool :=
  match e with
  | Ev c r => match c as c return tp_res c -> bool with stopwatch_expired => fun r => negb r | _ => fun _ => false end r
  end.
Definition polls (t : list (event tp)) : nat := length (List.filter unexpired t).
Abbreviation exhausts fuel p := (wp p (fun r t => r = None -> (fuel <= polls t)%nat)).

Lemma polls_app t t' : polls (t ++ t') = (polls t + polls t')%nat.
Proof. unfold polls. by rewrite List.filter_app, length_app. Qed.
Lemma exhausts_bind {A B} fuel (p : fw tp A) (f : A -> fw tp (option B)) : (forall a, exhausts fuel (f a)) -> exhausts fuel (p ≫= f).
Proof.
  intros Hf. eapply wp_seq; [apply wp_true|]. cbn beta. intros a t _. eapply wp_mono; [|apply Hf]. cbn beta. intros r t' Hr Hn.
  rewrite polls_app. specialize (Hr Hn). lia.
Qed.
Lemma exhausts_obind {A B} fuel (p : fw tp (option A)) (f : A -> fw tp (option B)) :
  exhausts fuel p -> (forall a, exhausts fuel (f a)) -> exhausts fuel (obind p f).
Proof.
  intros Hp Hf. eapply wp_seq; [exact Hp|]. cbn beta. intros [a|] t Ht.
  - eapply wp_mono; [|apply Hf]. cbn beta. intros r t' Hr Hn. rewrite polls_app. specialize (Hr Hn). lia.
  - apply wp_ret. intros _. rewrite app_nil_r. by apply Ht.
Qed.
Lemma exhausts_some {A} fuel (a : A) : exhausts fuel (mret (M := fw tp) (Some a)).
Proof. by apply wp_ret. Qed.

Lemma wait_exhausts fuel : exhausts fuel (ptt_wait fuel).
Proof.
  induction fuel as [|fuel IH]; cbn [ptt_wait]; [apply wp_ret; intros; lia|]. apply wp_call_bind. intros s.
  destruct (Z.testbit s 0); [|by apply wp_ret]. apply wp_call_bind. intros [|]; [by apply wp_ret|]. apply wp_bind, wp_call_. intros ?.
  eapply wp_mono; [|exact IH]. cbn beta. intros r' t Hr Hn. specialize (Hr Hn). unfold polls in *. cbn. lia.
Qed.
Ltac exhausting :=
  repeat first [apply exhausts_some | apply exhausts_obind; [|intros ?] | apply exhausts_bind; intros ?
               | match goal with |- wp (if ?b then _ else _) _ => destruct b end].
Lemma setup_exhausts fuel en : exhausts fuel (ptt_setup fuel en).
Proof. unfold ptt_setup, ptt_tpm_startup, ptt_tpm_clear. exhausting; apply wait_exhausts. Qed.

(** C20: A TPM is announced only where one answers.  A TPM2 table is added
    exactly when the TPM is enabled in setup (the option read is not 0), the
    window decodes (the status register does not read all ones), and the
    command size written to it is read back; then there is one table, it is
    the last thing done, lies at the aligned address, is 76 bytes long, sums
    to zero, and names the CRB window with the ACPI start method.  Otherwise
    no table is added and the table pointer does not move.  The wait for the
    TPM lacks fuel only when the stopwatch did not expire in that many
    polls. *)
Theorem tpm2_announced (fuel : nat) (current : Z) (tr : list (event tp)) (o : option Z) (Hex : exec (ptt_boot fuel current) tr o) :
  match o with
  | Some r =>
      if tpm_there tr then
        exists t table, tr = t ++ [Ev (S := tp) (acpi_add_table (acpi_align_current current) table) tt]
          /\ tableless t /\ table_ok table /\ r = acpi_align_current current + SIZEOF_TPM2
      else r = current /\ tableless tr
  | None => (fuel <= polls tr)%nat
  end.
Proof.
  assert (Hn : exhausts fuel (ptt_boot fuel current)).
  { unfold ptt_boot. apply exhausts_obind; [apply setup_exhausts|]. intros en. unfold ptt_write_tpm2_table.
    destruct (negb en); [apply exhausts_some|]. destruct table_written as (b & b' & -> & -> & _). exhausting. }
  destruct o as [r|]; [|exact (proj1 (wp_exec _ _) Hn _ _ Hex eq_refl)]. revert r Hex. clear Hn.
  enough (Hw : wp (ptt_boot fuel current) (fun o tr => forall r, o = Some r ->
    if tpm_there tr then
      exists t table, tr = t ++ [Ev (S := tp) (acpi_add_table (acpi_align_current current) table) tt]
        /\ tableless t /\ table_ok table /\ r = acpi_align_current current + SIZEOF_TPM2
    else r = current /\ tableless tr)) by (intros r Hex; by apply (proj1 (wp_exec _ _) Hw _ _ Hex)).
  unfold ptt_boot. apply wp_bind. eapply wp_mono; [|apply setup_answers]. cbn beta. intros [en|] t [Hf Hen]; [|by apply wp_ret].
  rewrite (Hen en eq_refl). unfold ptt_write_tpm2_table.
  destruct (tpm_there t) eqn:Ew; cbn [negb]; [|apply wp_ret; rewrite app_nil_r, Ew; by intros ? [= <-]].
  destruct table_written as (b & b' & -> & -> & Hok). apply wp_bind, wp_call_. intros []. apply wp_ret. intros ? [= <-].
  rewrite (app_nil_r [_]), tpm_there_app. rewrite Ew. by exists t, b'.
Qed.
End announced.

(** A concrete table library. *)
#[global] Program Instance base_acpi : AcpiLib := {|
  acpi_align_current a := (a + 15) / 16 * 16;
  OEM_ID := lit "COREv4"; ACPI_TABLE_CREATOR := lit "COREBOOT"; ASLC := lit "CORE";
  asl_revision := 0x20230628; tpm2_table_revision := 4;
  acpi_checksum b := (- foldr Z.add 0 b) mod 256
|}.
Next Obligation. done. Qed.
Next Obligation. done. Qed.
Next Obligation. done. Qed.
Next Obligation. intros b. cbn. rewrite Z.add_mod_idemp_l by lia. by rewrite Z.add_opp_diag_l. Qed.

Lemma tpm2_announced_witness :
  exists table, table_ok table
  /\ last (run_trace hung_tpm (ptt_boot 10 1000) (mkNv 0 0)) = Some (Ev (S := tp) (acpi_add_table 1008 table) tt).
Proof.
  pose proof (exec_run hung_tpm (ptt_boot 10 1000) (mkNv 0 0)) as Hex.
  destruct (run_val hung_tpm (ptt_boot 10 1000) (mkNv 0 0)) as [r|] eqn:E; [|vm_compute in E; discriminate E].
  destruct (tpm2_announced 10 1000 _ (Some r) Hex) as (t & table & Ht & _ & Hok & _).
  exists table. split; [exact Hok|]. rewrite Ht, last_snoc. reflexivity.
Defined.
