(* ===== verification/Board.v ===== *)
(** * The coreboot mainboard

    Super I/O power policy (bootblock.c, smihandler.c), fan and SATA options
    (ramstage.c), the setup menu (cfr.c), and the small hooks of mainboard.c
    and pei_data.c.  coreboot's drivers are services. *)

From S2P Require Import Prelude Services.

(** ** Services *)

(** NUVOTON_PERCENT_TO_DUTY of superio/nuvoton/common/hwm.h: a scale from
    percent to the byte the chip takes. *)
Class FanDuty := {
  NUVOTON_PERCENT_TO_DUTY : Z -> Z;
  duty_mono a b : 0 <= a <= b -> b <= 100 -> NUVOTON_PERCENT_TO_DUTY a <= NUVOTON_PERCENT_TO_DUTY b;
  duty_range a : 0 <= a <= 100 -> 0 <= NUVOTON_PERCENT_TO_DUTY a <= 255
}.

Record nuvoton_fan_curve := mkCurve {
  fc_name : string; fc_bank : Z; fc_source : Z; fc_temp : list Z; fc_duty : list Z; fc_temp_tolerance : Z;
  fc_step_up_time : Z; fc_step_down_time : Z; fc_duty_per_step_up : Z; fc_duty_per_step_down : Z;
  fc_crit_temp : Z; fc_crit_duty_en : Z; fc_crit_duty : Z; fc_crit_temp_tolerance : Z }.

(** A PNP device is its port and logical device number. *)
Inductive mb_op :=
  | nuvoton_pnp_enter_conf_state (port ldn : Z)
  | pnp_set_logical_device (port ldn : Z)
  | pnp_unset_and_set_config (port ldn reg unset set : Z)
  | nuvoton_pnp_exit_conf_state (port ldn : Z)
  | enable_gpe (mask : Z)
  | pci_read_config16 (reg : Z)
  | printk_pmcon3 (value : Z) (flags : list bool)
  | get_uint_option (name : string) (fallback : Z)
  | nuvoton_hwm_enable_peci (base tjmax : Z)
  | nuvoton_hwm_enable_peci_calibration (base : Z)
  | nuvoton_hwm_configure_fan (base : Z) (curve : nuvoton_fan_curve)
  | pcidev_on_root (dev fn : Z)
  | set_enabled (dev : Z) (enabled : Z).

Definition mb_res (c : mb_op) : Type :=
  match c with
  | pci_read_config16 _ | get_uint_option _ _ => Z
  | pcidev_on_root _ _ => option Z
  | _ => unit
  end.
Definition mb : sig := Sig mb_op mb_res.

(** ** Super I/O: what happens when power returns *)

Definition SIO_PORT : Z := 0x4e.
Definition NCT677X_ACPI : Z := 0x0a.

Definition NCT_ACPI_PWR_LOSS_CTL : Z := 0xe4.
Definition NCT_PWR_LOSS_SHIFT : Z := 5.
Definition NCT_PWR_LOSS_MASK : Z := Z.shiftl 3 NCT_PWR_LOSS_SHIFT.
Definition NCT_ACPI_KBD_WAKE : Z := 0xe0.
Definition NCT_KBD_WAKEUP_PSOUT : Z := Z.shiftl 1 6.
Definition NCT_ACPI_PWR_STATE : Z := 0xe6.
Definition NCT_PWR_STATE_OFF : Z := Z.shiftl 1 4.

Definition MAINBOARD_POWER_OFF : Z := 0.
Definition MAINBOARD_POWER_ON : Z := 1.
Definition MAINBOARD_POWER_KEEP : Z := 2.

(** [config] is CONFIG_MAINBOARD_POWER_FAILURE_STATE. *)
Definition nct5577d_ac_loss_policy (config : Z) : fw mb unit :=
  let program (val : Z) :=
    _ ← call_ (S := mb) (nuvoton_pnp_enter_conf_state SIO_PORT NCT677X_ACPI);
    _ ← call_ (S := mb) (pnp_set_logical_device SIO_PORT NCT677X_ACPI);
    _ ← call_ (S := mb) (pnp_unset_and_set_config SIO_PORT NCT677X_ACPI NCT_ACPI_PWR_LOSS_CTL NCT_PWR_LOSS_MASK (Z.shiftl val NCT_PWR_LOSS_SHIFT));
    call_ (S := mb) (nuvoton_pnp_exit_conf_state SIO_PORT NCT677X_ACPI) in
  if config =? MAINBOARD_POWER_KEEP then program 3
  else if (config =? MAINBOARD_POWER_OFF) || (config =? MAINBOARD_POWER_ON) then program config
  else mret tt.

Definition mainboard_config_superio (config : Z) : fw mb unit := nct5577d_ac_loss_policy config.

(** Register and flags are lynxpoint's. *)
Section pmcon3.
Context (GEN_PMCON_3 SLEEP_AFTER_POWER_FAIL RTC_BATTERY_DEAD RTC_POWER_FAILED SUS_PWR_FLR : Z).
Definition log_rtc_well_state : fw mb unit :=
  pmcon3 ← call (S := mb) (pci_read_config16 GEN_PMCON_3);
  call_ (S := mb) (printk_pmcon3 pmcon3
    (map (fun b => negb (Z.land pmcon3 b =? 0)) [SLEEP_AFTER_POWER_FAIL; RTC_BATTERY_DEAD; RTC_POWER_FAILED; SUS_PWR_FLR])).
Definition bootblock_mainboard_init : fw mb unit := log_rtc_well_state.
End pmcon3.

Definition ACPI_S5 : Z := 5.
(** [PME_B0_EN] is lynxpoint's. *)
Definition mainboard_smi_sleep (PME_B0_EN slp_typ : Z) : fw mb unit :=
  if negb (slp_typ =? ACPI_S5) then mret tt
  else
    _ ← call_ (S := mb) (nuvoton_pnp_enter_conf_state SIO_PORT NCT677X_ACPI);
    _ ← call_ (S := mb) (pnp_set_logical_device SIO_PORT NCT677X_ACPI);
    _ ← call_ (S := mb) (pnp_unset_and_set_config SIO_PORT NCT677X_ACPI NCT_ACPI_KBD_WAKE NCT_KBD_WAKEUP_PSOUT 0);
    _ ← call_ (S := mb) (pnp_unset_and_set_config SIO_PORT NCT677X_ACPI NCT_ACPI_PWR_STATE 0 NCT_PWR_STATE_OFF);
    _ ← call_ (S := mb) (nuvoton_pnp_exit_conf_state SIO_PORT NCT677X_ACPI);
    call_ (S := mb) (enable_gpe PME_B0_EN).

(** ** Fan and SATA options *)

Definition HWM_IOBASE : Z := 0xa00.
Definition CPU_TJMAX : Z := 105.
Definition BANK_CPUFAN : Z := 2.
Definition FAN_SOURCE_CPUTIN : Z := 0x02.
Definition FAN_PROFILE_QUIET : Z := 0.
Definition FAN_PROFILE_BALANCED : Z := 1.
Definition FAN_PROFILE_PERFORMANCE : Z := 2.

Section fan.
Context `{FanDuty}.
Abbreviation DUTY := NUVOTON_PERCENT_TO_DUTY.

Definition cpu_fan_curves : list nuvoton_fan_curve :=
  [ mkCurve "CPUFAN/Quiet" BANK_CPUFAN FAN_SOURCE_CPUTIN [45; 60; 75; 90] [DUTY 20; DUTY 30; DUTY 45; DUTY 70] 3 4 8 2 1 100 1 (DUTY 100) 2;
    mkCurve "CPUFAN/Balanced" BANK_CPUFAN FAN_SOURCE_CPUTIN [40; 55; 70; 85] [DUTY 25; DUTY 40; DUTY 60; DUTY 85] 2 2 4 4 2 100 1 (DUTY 100) 2;
    mkCurve "CPUFAN/Performance" BANK_CPUFAN FAN_SOURCE_CPUTIN [35; 50; 65; 80] [DUTY 35; DUTY 55; DUTY 80; DUTY 100] 1 1 2 8 4 100 1 (DUTY 100) 2 ].

(** [None] is an index outside the table. *)
Definition hwm_init : fw mb (option unit) :=
  profile ← call (S := mb) (get_uint_option "fan_profile" FAN_PROFILE_BALANCED);
  let profile := if FAN_PROFILE_PERFORMANCE <? profile then FAN_PROFILE_BALANCED else profile in
  _ ← call_ (S := mb) (nuvoton_hwm_enable_peci HWM_IOBASE CPU_TJMAX);
  _ ← call_ (S := mb) (nuvoton_hwm_enable_peci_calibration HWM_IOBASE);
  match cpu_fan_curves !! Z.to_nat profile with
  | None => mret None
  | Some curve => _ ← call_ (S := mb) (nuvoton_hwm_configure_fan HWM_IOBASE curve); mret (Some tt)
  end.
End fan.

Definition sata_enable_from_option : fw mb unit :=
  sata ← call (S := mb) (pcidev_on_root 0x1f 2);
  match sata with
  | Some sata => v ← call (S := mb) (get_uint_option "sata_enable" 0); call_ (S := mb) (set_enabled sata v)
  | None => mret tt
  end.

(** ** The setup menu *)

Record sm_object := mkObject { opt_name : string; ui_name : string; default_value : Z; values : list (string * Z) }.
Record sm_obj_form := mkForm { form_name : string; obj_list : list sm_object }.

Definition fan_profile_values : list (string * Z) := [("Quiet", 0); ("Balanced", 1); ("Performance", 2)]%string.
Definition fan_profile : sm_object := mkObject "fan_profile" "CPU fan profile" 1 fan_profile_values.
Definition cooling : sm_obj_form := mkForm "Cooling" [fan_profile].

Definition power_state_values : list (string * Z) := [("Power off (S5)", 0); ("Power on (S0)", 1)]%string.
(** The default is CONFIG_MAINBOARD_POWER_FAILURE_STATE. *)
Definition power_on_after_fail (config : Z) : sm_object := mkObject "power_on_after_fail" "Restore power after AC loss" config power_state_values.
Definition power (config : Z) : sm_obj_form := mkForm "Power" [power_on_after_fail config].

Definition tpm_enable_values : list (string * Z) := [("Disabled", 0); ("Enabled", 1)]%string.
Definition tpm_enable : sm_object := mkObject "tpm_enable" "Firmware TPM (Intel PTT)" 1 tpm_enable_values.
Definition tpm_clear_values : list (string * Z) := [("No", 0); ("Clear next boot", 1)]%string.
Definition tpm_clear : sm_object := mkObject "tpm_clear" "Clear TPM (reset ownership)" 0 tpm_clear_values.
Definition security : sm_obj_form := mkForm "Security" [tpm_enable; tpm_clear].

Definition sata_enable_values : list (string * Z) := [("Disabled", 0); ("Enabled", 1)]%string.
Definition sata_enable : sm_object := mkObject "sata_enable" "SATA controller" 0 sata_enable_values.
Definition storage : sm_obj_form := mkForm "Storage" [sata_enable].

Definition cpu_feature_values : list (string * Z) := [("Disabled", 0); ("Enabled", 1)]%string.
Definition hyper_threading : sm_object := mkObject "hyper_threading" "Intel Hyper-Threading Technology" 1 cpu_feature_values.
Definition vmx : sm_object := mkObject "vmx" "Intel Virtualization Technology (VT-x)" 1 cpu_feature_values.
Definition vtd : sm_object := mkObject "vtd" "Intel VT for Directed I/O (VT-d)" 1 cpu_feature_values.
Definition processor_form : sm_obj_form := mkForm "Processor" [hyper_threading; vmx; vtd].

Definition sm_root (config : Z) : list sm_obj_form := [processor_form; security; power config; cooling; storage].
Definition menu (config : Z) : list sm_object := concat (map obj_list (sm_root config)).

(** ** Small hooks *)

(** CF9 reset register bits. *)
Definition SYS_RST : Z := Z.shiftl 1 1.
Definition RST_CPU : Z := Z.shiftl 1 2.
Definition FULL_RST : Z := Z.shiftl 1 3.
Definition mainboard_fill_fadt (HAVE_CF9_RESET : bool) (reset_value : Z) : Z :=
  if HAVE_CF9_RESET then Z.lor (Z.lor RST_CPU SYS_RST) FULL_RST else reset_value.

(** The addresses by channel and slot, [2 * channel + slot]. *)
Definition mb_get_spd_map (addresses : list Z) : list Z := <[2%nat := 0x52]> (<[0%nat := 0x50]> addresses).
