(* ===== verification/BoardSpec.v ===== *)
(** * The mainboard's options do what they say

    Power after AC loss, as the Super I/O decides it; fan curves; and that
    the setup menu and the code that reads its options agree. *)

From S2P Require Import Prelude Services Ptt Board.

(** ** The Super I/O *)

(** Registers by logical device and index; they can be written between enter
    and exit, for the selected device.  The chip sits at port 0x4e (the
    devicetree's pnp 4e): what is sent to another port does not reach it. *)
Record sio := mkSio { unlocked : bool; selected : option Z; regs : Z -> Z -> Z }.

Definition sio_event (s : sio) (e : event mb) : sio :=
  match ev_op e with
  | nuvoton_pnp_enter_conf_state port _ => if port =? 0x4e then mkSio true (selected s) (regs s) else s
  | nuvoton_pnp_exit_conf_state port _ => if port =? 0x4e then mkSio false (selected s) (regs s) else s
  | pnp_set_logical_device port l => if (port =? 0x4e) && unlocked s then mkSio true (Some l) (regs s) else s
  | pnp_unset_and_set_config port _ reg unset set =>
      match (port =? 0x4e) && unlocked s, selected s with
      | true, Some l =>
          mkSio true (Some l) (fun l' r' => if (l' =? l) && (r' =? reg) then Z.lor (Z.ldiff (regs s l' r') unset) set else regs s l' r')
      | _, _ => s
      end
  | _ => s
  end.
Definition sio_after (s : sio) (t : list (event mb)) : sio := foldl sio_event s t.

(** The chip's decision when AC returns: the policy of CR 0xe4[6:5], and for
    "last state" the latch CR 0xe6[4]. *)
Definition acpi_reg (s : sio) (r : Z) : Z := regs s NCT677X_ACPI r.
Definition switched_off (s : sio) : bool := Z.testbit (acpi_reg s NCT_ACPI_PWR_STATE) 4.
Definition powers_on (s : sio) : option bool :=
  let policy := Z.land (Z.shiftr (acpi_reg s NCT_ACPI_PWR_LOSS_CTL) NCT_PWR_LOSS_SHIFT) 3 in
  if policy =? 0 then Some false else if policy =? 1 then Some true else if policy =? 3 then Some (negb (switched_off s)) else None.

Definition policy_field (config : Z) : Z := if config =? MAINBOARD_POWER_KEEP then 3 else config.

Lemma policy_stored r v : 0 <= v < 4 -> Z.land (Z.shiftr (Z.lor (Z.ldiff r NCT_PWR_LOSS_MASK) (Z.shiftl v NCT_PWR_LOSS_SHIFT)) NCT_PWR_LOSS_SHIFT) 3 = v.
Proof.
  intros Hv. unfold NCT_PWR_LOSS_SHIFT. rewrite Z.shiftr_lor, Z.shiftr_ldiff, Z.shiftr_shiftl_l by lia.
  change (Z.shiftr NCT_PWR_LOSS_MASK 5) with 3. rewrite Z.sub_diag, Z.shiftl_0_r. rewrite Z.land_lor_distr_l, Z.land_ldiff, Z.lor_0_l.
  change 3 with (Z.ones 2) at 1. rewrite Z.land_ones by lia. apply Z.mod_small. lia.
Qed.

Definition known (config : Z) : Prop := config = MAINBOARD_POWER_OFF \/ config = MAINBOARD_POWER_ON \/ config = MAINBOARD_POWER_KEEP.

(** What the two programs do to the registers. *)
Lemma policy_registers config s t u :
  known config -> exec (mainboard_config_superio config) t u ->
  unlocked (sio_after s t) = false /\ forall l r, regs (sio_after s t) l r =
    if (l =? NCT677X_ACPI) && (r =? NCT_ACPI_PWR_LOSS_CTL)
    then Z.lor (Z.ldiff (regs s l r) NCT_PWR_LOSS_MASK) (Z.shiftl (policy_field config) NCT_PWR_LOSS_SHIFT) else regs s l r.
Proof.
  intros Hk. refine (proj1 (wp_exec _ (fun _ t => _)) _ t u). unfold mainboard_config_superio, nct5577d_ac_loss_policy.
  destruct Hk as [->|[->| ->]]; cbn [Z.eqb orb]; do 4 intros ?; split; reflexivity.
Qed.
Lemma sleep_registers pme s t u :
  exec (mainboard_smi_sleep pme ACPI_S5) t u ->
  unlocked (sio_after s t) = false /\ forall l r, regs (sio_after s t) l r =
    if (l =? NCT677X_ACPI) && (r =? NCT_ACPI_PWR_STATE) then Z.lor (regs s l r) NCT_PWR_STATE_OFF
    else if (l =? NCT677X_ACPI) && (r =? NCT_ACPI_KBD_WAKE) then Z.ldiff (regs s l r) NCT_KBD_WAKEUP_PSOUT else regs s l r.
Proof.
  refine (proj1 (wp_exec _ (fun _ t => _)) _ t u). unfold mainboard_smi_sleep. cbn [negb Z.eqb ACPI_S5 Pos.eqb]. do 6 intros ?.
  split; [done|]. intros l r5. cbn -[Z.lor Z.ldiff Z.eqb]. change (SIO_PORT =? 0x4e) with true. cbn -[Z.lor Z.ldiff Z.eqb].
  destruct (l =? NCT677X_ACPI); [|done]. cbn [andb].
  destruct (Z.eqb_spec r5 NCT_ACPI_PWR_STATE) as [->|Hr]; [cbn; by rewrite Z.ldiff_0_r|]. 
  destruct (r5 =? NCT_ACPI_KBD_WAKE); [by rewrite Z.lor_0_r|done].
Qed.

(** Bits of a small constant. *)
Lemma small_bit c i : 0 <= i -> 0 <= c < 128 -> (forall k, (k < 7)%nat -> i = Z.of_nat k -> Z.testbit c i = false) -> Z.testbit c i = false.
Proof.
  intros Hi Hc Hk. destruct (Z.lt_ge_cases i 7) as [Hl|Hl]; [apply (Hk (Z.to_nat i)); lia|].
  destruct (Z.eq_dec c 0) as [->|]; [apply Z.bits_0|]. apply Z.bits_above_log2; [lia|]. apply Z.log2_lt_pow2; [lia|].
  pose proof (Z.pow_le_mono_r 2 7 i). lia.
Qed.
Ltac small_bits Hi :=
  apply small_bit; [done|by vm_compute|]; let k := fresh "k" in intros k ? ->; do 7 (destruct k as [|k]; [first [reflexivity | exfalso; apply Hi; cbn; tauto]|]); lia.

Lemma policy_frame config x i : known config -> 0 <= i -> ~ (i = 5 \/ i = 6) ->
  Z.testbit (Z.lor (Z.ldiff x NCT_PWR_LOSS_MASK) (Z.shiftl (policy_field config) NCT_PWR_LOSS_SHIFT)) i = Z.testbit x i.
Proof.
  intros Hk Hi Hn. rewrite Z.lor_spec, Z.ldiff_spec.
  assert (Hm : Z.testbit NCT_PWR_LOSS_MASK i = false) by small_bits Hn.
  assert (Hp : Z.testbit (Z.shiftl (policy_field config) NCT_PWR_LOSS_SHIFT) i = false).
  { destruct Hk as [->|[->| ->]]; small_bits Hn. }
  by rewrite Hm, Hp, andb_true_r, orb_false_r.
Qed.
Lemma latch_frame x i : 0 <= i -> i <> 4 -> Z.testbit (Z.lor x NCT_PWR_STATE_OFF) i = Z.testbit x i.
Proof.
  intros Hi Hn. rewrite Z.lor_spec. assert (Hm : Z.testbit NCT_PWR_STATE_OFF i = false) by small_bits Hn. by rewrite Hm, orb_false_r.
Qed.
Lemma wake_frame x i : 0 <= i -> i <> 6 -> Z.testbit (Z.ldiff x NCT_KBD_WAKEUP_PSOUT) i = Z.testbit x i.
Proof.
  intros Hi Hn. rewrite Z.ldiff_spec. assert (Hm : Z.testbit NCT_KBD_WAKEUP_PSOUT i = false) by small_bits Hn. by rewrite Hm, andb_true_r.
Qed.

(** C37: Power after an outage is the configured policy.  With the bootblock's
    write of CR 0xe4[6:5], and the latch cleared while the board runs, the
    Super I/O brings a running board back unless the policy is "off"; after
    the SMI handler has taken the board to S5, only the policy "on" does.
    The registers keep every other bit, the keyboard wake bit is off, and the
    chip is locked again.  Other sleep states touch nothing. *)
Theorem power_restored (config : Z) (s : sio) (pme : Z) (t1 t2 t3 : list (event mb)) (slp : Z)
    (Hk : known config) (Hrun : Z.testbit (acpi_reg s NCT_ACPI_PWR_STATE) 4 = false) (Hslp : slp <> ACPI_S5)
    (H1 : exec (mainboard_config_superio config) t1 tt) (H2 : exec (mainboard_smi_sleep pme ACPI_S5) t2 tt)
    (H3 : exec (mainboard_smi_sleep pme slp) t3 tt) :
  let running := sio_after s t1 in
  let off := sio_after running t2 in
  powers_on running = Some (negb (config =? MAINBOARD_POWER_OFF))
  /\ powers_on off = Some (config =? MAINBOARD_POWER_ON)
  /\ (unlocked running = false /\ unlocked off = false /\ Z.testbit (acpi_reg off NCT_ACPI_KBD_WAKE) 6 = false)
  /\ (forall l r i, ~ (l = NCT677X_ACPI /\ ((r = NCT_ACPI_PWR_LOSS_CTL /\ (i = 5 \/ i = 6)) \/ (r = NCT_ACPI_PWR_STATE /\ i = 4)
        \/ (r = NCT_ACPI_KBD_WAKE /\ i = 6))) -> 0 <= i -> Z.testbit (regs off l r) i = Z.testbit (regs s l r) i)
  /\ t3 = [].
Proof.
  intros running off. destruct (policy_registers config s t1 tt Hk H1) as [U1 R1]. destruct (sleep_registers pme running t2 tt H2) as [U2 R2].
  fold running in R1, U1. fold off in R2, U2.
  assert (Hp : Z.land (Z.shiftr (acpi_reg running NCT_ACPI_PWR_LOSS_CTL) NCT_PWR_LOSS_SHIFT) 3 = policy_field config).
  { unfold acpi_reg. rewrite R1. apply policy_stored. by destruct Hk as [->|[->| ->]]. }
  assert (Ho : acpi_reg off NCT_ACPI_PWR_LOSS_CTL = acpi_reg running NCT_ACPI_PWR_LOSS_CTL) by (unfold acpi_reg; by rewrite R2).
  assert (Hl : switched_off running = false) by (unfold switched_off, acpi_reg; by rewrite R1).
  assert (Hs : switched_off off = true).
  { unfold switched_off, acpi_reg. rewrite R2. cbn [Z.eqb Pos.eqb NCT677X_ACPI NCT_ACPI_PWR_STATE andb]. rewrite Z.lor_spec. apply orb_true_r. }
  split_and!; try done.
  - unfold powers_on. rewrite Hp, Hl. by destruct Hk as [->|[->| ->]].
  - unfold powers_on. rewrite Ho, Hp, Hs. by destruct Hk as [->|[->| ->]].
  - unfold acpi_reg. rewrite R2. cbn [Z.eqb Pos.eqb NCT677X_ACPI NCT_ACPI_PWR_STATE NCT_ACPI_KBD_WAKE andb]. rewrite Z.ldiff_spec. apply andb_false_r.
  - intros l r i Hn Hi. rewrite R2. destruct (Z.eqb_spec l NCT677X_ACPI) as [->|Hne]; cbn [andb].
    2:{ rewrite R1. by destruct (Z.eqb_spec l NCT677X_ACPI). }
    destruct (Z.eqb_spec r NCT_ACPI_PWR_STATE) as [->|H6]; [rewrite latch_frame, R1 by tauto; done|].
    destruct (Z.eqb_spec r NCT_ACPI_KBD_WAKE) as [->|H0]; [rewrite wake_frame, R1 by tauto; done|]. rewrite R1. cbn [andb].
    destruct (Z.eqb_spec r NCT_ACPI_PWR_LOSS_CTL) as [->|H4]; [|by rewrite andb_false_r].
    rewrite Z.eqb_refl. apply policy_frame; tauto.
  - unfold mainboard_smi_sleep in H3. destruct (Z.eqb_spec slp ACPI_S5); [done|]. by destruct H3.
Qed.

(** ** A board *)

Definition board_env (option_value : Z) : handler mb unit := fun c w =>
  match c as c return mb_res c * unit with
  | pci_read_config16 _ => (0, w)
  | get_uint_option _ _ => (option_value, w)
  | pcidev_on_root _ _ => (Some 1, w)
  | nuvoton_pnp_enter_conf_state _ _ | pnp_set_logical_device _ _ | pnp_unset_and_set_config _ _ _ _ _ | nuvoton_pnp_exit_conf_state _ _
  | enable_gpe _ | printk_pmcon3 _ _ | nuvoton_hwm_enable_peci _ _ | nuvoton_hwm_enable_peci_calibration _
  | nuvoton_hwm_configure_fan _ _ | set_enabled _ _ => (tt, w)
  end.
Definition cold_sio : sio := mkSio false None (fun _ r => if r =? NCT_ACPI_PWR_STATE then 0 else 0xff).

(** "Keep": back after an outage, but not after a shutdown. *)
Lemma power_restored_witness :
  let t1 := run_trace (board_env 0) (mainboard_config_superio MAINBOARD_POWER_KEEP) tt in
  let t2 := run_trace (board_env 0) (mainboard_smi_sleep 7 ACPI_S5) tt in
  powers_on (sio_after cold_sio t1) = Some true /\ powers_on (sio_after (sio_after cold_sio t1) t2) = Some false.
Proof.
  intros t1 t2.
  destruct (power_restored MAINBOARD_POWER_KEEP cold_sio 7 t1 t2 (run_trace (board_env 0) (mainboard_smi_sleep 7 3) tt) 3)
    as (H1 & H2 & _); [by right; right|reflexivity|discriminate|exact (exec_run (board_env 0) (mainboard_config_superio MAINBOARD_POWER_KEEP) tt)
    |exact (exec_run (board_env 0) (mainboard_smi_sleep 7 ACPI_S5) tt)|exact (exec_run (board_env 0) (mainboard_smi_sleep 7 3) tt)|].
  split; [exact H1|exact H2].
Defined.

(** ** Fan curves *)

(** Duties rise with the temperature, the last point is below the critical
    temperature, and that is below TjMax and means full speed. *)
Fixpoint rising (l : list Z) : bool := match l with a :: (b :: _) as l' => (a <? b) && rising l' | _ => true end.
Fixpoint not_falling (l : list Z) : bool := match l with a :: (b :: _) as l' => (a <=? b) && not_falling l' | _ => true end.

Definition curve_ok `{FanDuty} (c : nuvoton_fan_curve) : Prop :=
  length (fc_temp c) = 4%nat /\ length (fc_duty c) = 4%nat /\ rising (fc_temp c) = true /\ not_falling (fc_duty c) = true
  /\ Forall (fun t => t < fc_crit_temp c) (fc_temp c) /\ fc_crit_temp c < CPU_TJMAX
  /\ Forall (fun d => 0 <= d <= fc_crit_duty c) (fc_duty c) /\ fc_crit_duty_en c = 1 /\ fc_crit_duty c = NUVOTON_PERCENT_TO_DUTY 100
  /\ fc_crit_duty c <= 255 /\ fc_bank c = BANK_CPUFAN.

Section fan.
Context `{FanDuty}.

Lemma curves_ok : Forall curve_ok cpu_fan_curves.
Proof.
  pose proof (duty_range 100 ltac:(lia)) as H100.
  assert (Hr : forall a, 0 <= a <= 100 -> 0 <= NUVOTON_PERCENT_TO_DUTY a <= NUVOTON_PERCENT_TO_DUTY 100).
  { intros a Ha. pose proof (duty_range a Ha). pose proof (duty_mono a 100). lia. }
  assert (Hm : forall a b, 0 <= a <= b -> b <= 100 -> (NUVOTON_PERCENT_TO_DUTY a <=? NUVOTON_PERCENT_TO_DUTY b) = true).
  { intros a b Ha Hb. by apply Z.leb_le, duty_mono. }
  unfold cpu_fan_curves. repeat (apply Forall_cons; split); [| | |apply Forall_nil_2; exact I];
    (unfold curve_ok; cbn [fc_temp fc_duty fc_crit_temp fc_crit_duty fc_crit_duty_en fc_bank]; split_and!; try done; try lia;
      [cbn [not_falling]; by rewrite !Hm by lia|repeat (apply Forall_cons; split; [lia|]); apply Forall_nil_2; exact I
      |repeat (apply Forall_cons; split; [apply Hr; lia|]); apply Forall_nil_2; exact I]).
Qed.

Definition unsigned_option (e : event mb) : Prop :=
  match e with
  | Ev c r => match c as c return mb_res c -> Prop with get_uint_option _ _ => fun r => is_uint 32 r | _ => fun _ => True end r
  end.

(** C38: The fan follows a sound curve, and the one chosen.  Whatever the
    stored option holds, exactly one curve is programmed, inside the table: it
    has four points of rising temperature and not falling duty, all below the
    critical temperature, at which the fan runs at full speed before TjMax.
    A value the setup menu offers selects the profile the menu names; any
    other value selects Balanced. *)
Theorem fan_curve_selected (tr : list (event mb)) (r : option unit) (Hex : exec hwm_init tr r) (Hu : Forall unsigned_option tr) :
  r = Some tt /\ exists v curve,
    tr = [Ev (S := mb) (get_uint_option "fan_profile" FAN_PROFILE_BALANCED) v; Ev (S := mb) (nuvoton_hwm_enable_peci HWM_IOBASE CPU_TJMAX) tt;
          Ev (S := mb) (nuvoton_hwm_enable_peci_calibration HWM_IOBASE) tt; Ev (S := mb) (nuvoton_hwm_configure_fan HWM_IOBASE curve) tt]
    /\ curve_ok curve
    /\ (forall text, (text, v) ∈ values fan_profile -> fc_name curve = ("CPUFAN/" ++ text)%string)
    /\ (v ∉ map snd (values fan_profile) -> fc_name curve = "CPUFAN/Balanced"%string).
Proof.
  refine (proj1 (wp_exec hwm_init (fun r tr => Forall unsigned_option tr -> _)) _ tr r Hex Hu). clear.
  unfold hwm_init. apply wp_call_bind. intros v. cbv zeta. apply wp_bind, wp_call_. intros []. apply wp_bind, wp_call_. intros [].
  destruct (Z.lt_ge_cases v 0) as [Hneg|Hv].
  { eapply wp_mono; [|apply wp_true]. cbn beta. intros r t _ Hf. apply Forall_cons in Hf as [Hf _]. destruct Hf. lia. }
  assert (Hsel : exists curve, cpu_fan_curves !! Z.to_nat (if FAN_PROFILE_PERFORMANCE <? v then FAN_PROFILE_BALANCED else v) = Some curve
    /\ (forall text, (text, v) ∈ values fan_profile -> fc_name curve = ("CPUFAN/" ++ text)%string)
    /\ (v ∉ map snd (values fan_profile) -> fc_name curve = "CPUFAN/Balanced"%string)).
  { destruct (Z.ltb_spec FAN_PROFILE_PERFORMANCE v) as [Hl|Hl]; unfold FAN_PROFILE_PERFORMANCE in Hl.
    - eexists. split; [reflexivity|]. split; [|done]. intros text Ht. exfalso. unfold values, fan_profile, fan_profile_values in Ht.
      rewrite !elem_of_cons in Ht. destruct Ht as [[= -> ->]|[[= -> ->]|[[= -> ->]|Ht%elem_of_nil]]]; lia || done.
    - assert (v = 0 \/ v = 1 \/ v = 2) as [->|[->| ->]] by lia; (eexists; split; [reflexivity|]; split;
        [intros text Ht; unfold values, fan_profile, fan_profile_values in Ht; rewrite !elem_of_cons in Ht;
           destruct Ht as [[= ->]|[[= ->]|[[= ->]|Ht%elem_of_nil]]]; done
        |intros Hn; destruct Hn; cbn; rewrite !elem_of_cons; tauto]). }
  destruct Hsel as (curve & Hc & Ho & Hb). rewrite Hc. apply wp_bind, wp_call_. intros []. apply wp_ret. intros _. split; [done|].
  exists v, curve. split; [done|]. split; [|done]. eapply Forall_lookup_1; [apply curves_ok|exact Hc].
Qed.
End fan.

(** The scale of superio/nuvoton/common/hwm.h. *)
#[global] Program Instance base_duty : FanDuty := {| NUVOTON_PERCENT_TO_DUTY a := a * 255 / 100 |}.
Next Obligation. intros a b Ha Hb. cbn. apply Z.div_le_mono; lia. Qed.
Next Obligation. intros a Ha. cbn. split; [apply Z.div_pos; lia|apply Z.div_le_upper_bound; lia]. Qed.

Definition configured_curve (e : event mb) : option nuvoton_fan_curve :=
  match ev_op e with nuvoton_hwm_configure_fan _ c => Some c | _ => None end.

Lemma fan_curve_selected_witness :
  exists curve, curve_ok curve /\ fc_name curve = "CPUFAN/Balanced"%string
  /\ omap configured_curve (run_trace (board_env 77) hwm_init tt) = [curve].
Proof.
  destruct (fan_curve_selected _ _ (exec_run (board_env 77) hwm_init tt)) as (_ & v & curve & Ht & Hok & _).
  - repeat (apply Forall_cons; split; [vm_compute; repeat split; discriminate|]); apply Forall_nil_2; exact I.
  - exists curve. split; [exact Hok|]. assert (Hc := f_equal (omap configured_curve) Ht). split; [|exact Hc].
    vm_compute in Hc. injection Hc as <-. reflexivity.
Defined.

(** ** The menu *)

(** An option is read with the fallback the menu shows as its default. *)
Definition offered (config : Z) (n : string) (d : Z) : Prop := exists o, o ∈ menu config /\ opt_name o = n /\ default_value o = d.
Definition reads_offered (config : Z) (c : mb_op) : Prop := match c with get_uint_option n d => offered config n d | _ => True end.
Definition tpm_reads_offered (config : Z) (c : tp_op) : Prop :=
  match c with
  | Ptt.get_uint_option n d => offered config n d
  | set_uint_option n v => exists o, o ∈ menu config /\ opt_name o = n /\ v ∈ map snd (values o)
  | _ => True
  end.

Section menu.
Context `{FanDuty} (config : Z).

Lemma in_menu o : In o (menu config) -> offered config (opt_name o) (default_value o).
Proof. intros Ho. exists o. by rewrite list_elem_of_In. Qed.

Lemma wait_reads_offered fuel : only (S := tp) (tpm_reads_offered config) (ptt_wait fuel).
Proof. induction fuel as [|fuel IH]; cbn [ptt_wait]; [done|]. only_go. Qed.
Lemma clear_reset_offered : only (S := tp) (tpm_reads_offered config) (call (S := tp) (set_uint_option "tpm_clear" 0)).
Proof. apply only_call. exists tpm_clear. rewrite list_elem_of_In. cbn. rewrite elem_of_cons. tauto. Qed.
End menu.

(** C39: The setup menu and the firmware agree.  Option names are unique and
    every default is one of the choices shown (with the power policy set to
    off or on).  The fan, SATA and TPM code reads only options of the menu,
    with the menu's default as the fallback for an option never stored, and
    writes back only options of the menu, with one of the values shown. *)
Theorem menu_agrees `{FanDuty} (config : Z) (fuel : nat) (enabled : bool) (t1 t2 : list (event mb)) (t3 : list (event tp)) r1 r3
    (Hc : config = MAINBOARD_POWER_OFF \/ config = MAINBOARD_POWER_ON)
    (H1 : exec hwm_init t1 r1) (H2 : exec sata_enable_from_option t2 tt) (H3 : exec (ptt_setup fuel enabled) t3 r3) :
  NoDup (map opt_name (menu config)) /\ Forall (fun o => default_value o ∈ map snd (values o)) (menu config)
  /\ Forall (fun e : event mb => reads_offered config (ev_op e)) (t1 ++ t2) /\ Forall (fun e : event tp => tpm_reads_offered config (ev_op e)) t3.
Proof.
  assert (Hm : forall o, In o (menu config) -> offered config (opt_name o) (default_value o)) by apply in_menu.
  split; [|split; [|split]].
  - apply (bool_decide_unpack _). vm_compute. exact I.
  - destruct Hc as [->| ->]; apply (bool_decide_unpack _); vm_compute; exact I.
  - apply Forall_app. split.
    + eapply only_exec; [|exact H1]. unfold hwm_init. only_go. apply only_call, (Hm fan_profile). cbn. tauto.
    + eapply only_exec; [|exact H2]. unfold sata_enable_from_option. only_go. apply only_call, (Hm sata_enable). cbn. tauto.
  - eapply only_exec; [|exact H3]. unfold ptt_setup, ptt_tpm_startup, ptt_tpm_clear.
    repeat first [apply wait_reads_offered | apply clear_reset_offered | apply only_call, (Hm tpm_enable); cbn; tauto
                 | apply only_call, (Hm tpm_clear); cbn; tauto | progress only_go].
Qed.

Lemma menu_agrees_witness :
  Forall (fun o => default_value o ∈ map snd (values o)) (menu MAINBOARD_POWER_ON)
  /\ Forall (fun e : event mb => reads_offered MAINBOARD_POWER_ON (ev_op e))
       (run_trace (board_env 2) hwm_init tt ++ run_trace (board_env 1) sata_enable_from_option tt).
Proof.
  pose (answer := fun (c : tp_op) (w : unit) =>
    match c as c return tp_res c * unit with
    | read8 _ | read32 _ | Ptt.get_uint_option _ _ => (0, w)
    | stopwatch_expired | set_uint_option _ _ => (true, w)
    | write8 _ _ | write32 _ _ | stopwatch_init_msecs_expire _ | udelay _ | acpi_add_table _ _ => (tt, w)
    end).
  destruct (menu_agrees MAINBOARD_POWER_ON 3 false _ _ _ _ _ (or_intror eq_refl) (exec_run (board_env 2) hwm_init tt)
              (exec_run (board_env 1) sata_enable_from_option tt) (exec_run (S := tp) answer (ptt_setup 3 false) tt)) as (_ & Hd & Hr & _).
  split; [exact Hd|exact Hr].
Defined.
