(* ===== verification/BoardTables.v ===== *)
(** * The mainboard's tables

    gpio.c, hda_verb.c, the USB port settings of pei_data.c and the system
    UUID of mainboard.c.  The macros they are written with are coreboot's, and
    interfaces here. *)

From S2P Require Import Prelude.

(** ** Array initialisers of C

    [[i] = v] stores at [i], [v] at the index after the last one; what is not
    named is zero. *)
Inductive init (A : Type) := at_ (i : nat) (v : A) | next (v : A).
Arguments at_ {A} i v.
Arguments next {A} v.

Fixpoint initialise {A} (zero : A) (l : list (init A)) (i : nat) (array : list A) : list A :=
  match l with
  | [] => array
  | e :: l =>
      let '(i, v) := match e with at_ i v => (i, v) | next v => (i, v) end in
      let array := array ++ replicate (S i - length array) zero in
      initialise zero l (S i) (<[i := v]> array)
  end.

(** ** Pins (gpio.c) *)

(** lp_gpio.h: the pin settings and the value coreboot stops at. *)
Class LpGpio := {
  pin : Type;
  conf : Z -> Z -> pin;
  LP_GPIO_NATIVE : pin; LP_GPIO_INPUT : pin; LP_GPIO_INPUT_INVERT : pin; LP_GPIO_OUT_HIGH : pin; LP_GPIO_OUT_LOW : pin; LP_GPIO_END : pin;
  GPIO_MODE_GPIO : Z; GPIO_DIR_INPUT : Z; GPIO_IRQ_LEVEL : Z; GPO_LEVEL_HIGH : Z; GPO_LEVEL_LOW : Z; GPIO_SENSE_DISABLE : Z;
  is_end : pin -> bool;
  end_ends : is_end LP_GPIO_END = true;
  settings_go_on : Forall (fun p => is_end p = false) [LP_GPIO_NATIVE; LP_GPIO_INPUT; LP_GPIO_INPUT_INVERT; LP_GPIO_OUT_HIGH; LP_GPIO_OUT_LOW];
  conf_goes_on a b c1 : a = GPIO_MODE_GPIO -> b = GPIO_DIR_INPUT \/ b = GPO_LEVEL_HIGH \/ b = GPO_LEVEL_LOW ->
    is_end (conf (Z.lor a b) c1) = false /\ is_end (conf (Z.lor (Z.lor a b) GPIO_IRQ_LEVEL) c1) = false
}.

Section pins.
Context `{LpGpio}.

(** Members not named in a braced initialiser are zero. *)
Definition mainboard_lp_gpio_map : list (init pin) :=
  [ at_ 0 LP_GPIO_NATIVE; at_ 1 LP_GPIO_NATIVE; at_ 2 LP_GPIO_NATIVE; at_ 3 LP_GPIO_NATIVE; at_ 4 LP_GPIO_NATIVE;
    at_ 5 LP_GPIO_NATIVE; at_ 6 LP_GPIO_NATIVE; at_ 7 LP_GPIO_NATIVE; at_ 8 LP_GPIO_INPUT;
    at_ 9 (conf (Z.lor (Z.lor GPIO_MODE_GPIO GPIO_DIR_INPUT) GPIO_IRQ_LEVEL) 0);
    at_ 10 (conf (Z.lor GPIO_MODE_GPIO GPO_LEVEL_HIGH) GPIO_SENSE_DISABLE); at_ 11 LP_GPIO_NATIVE; at_ 12 LP_GPIO_NATIVE;
    at_ 13 (conf (Z.lor GPIO_MODE_GPIO GPO_LEVEL_HIGH) GPIO_SENSE_DISABLE); at_ 14 LP_GPIO_OUT_HIGH; at_ 15 LP_GPIO_INPUT;
    at_ 16 LP_GPIO_INPUT; at_ 17 (conf (Z.lor GPIO_MODE_GPIO GPO_LEVEL_LOW) GPIO_SENSE_DISABLE); at_ 18 LP_GPIO_NATIVE;
    at_ 19 LP_GPIO_NATIVE; at_ 20 LP_GPIO_INPUT; at_ 21 LP_GPIO_NATIVE; at_ 22 LP_GPIO_NATIVE; at_ 23 LP_GPIO_NATIVE;
    at_ 24 LP_GPIO_OUT_LOW; at_ 25 (conf (Z.lor GPIO_MODE_GPIO GPO_LEVEL_HIGH) GPIO_SENSE_DISABLE); at_ 26 LP_GPIO_INPUT;
    at_ 27 LP_GPIO_INPUT; at_ 28 (conf (Z.lor GPIO_MODE_GPIO GPO_LEVEL_HIGH) GPIO_SENSE_DISABLE); at_ 29 LP_GPIO_NATIVE;
    at_ 30 LP_GPIO_NATIVE; at_ 31 LP_GPIO_INPUT; at_ 32 LP_GPIO_NATIVE; at_ 33 LP_GPIO_NATIVE; at_ 34 LP_GPIO_NATIVE;
    at_ 35 LP_GPIO_NATIVE; at_ 36 LP_GPIO_NATIVE; at_ 37 LP_GPIO_NATIVE; at_ 38 LP_GPIO_NATIVE; at_ 39 LP_GPIO_NATIVE;
    at_ 40 LP_GPIO_NATIVE; at_ 41 LP_GPIO_NATIVE; at_ 42 LP_GPIO_NATIVE; at_ 43 LP_GPIO_NATIVE; at_ 44 LP_GPIO_INPUT;
    at_ 45 (conf (Z.lor GPIO_MODE_GPIO GPO_LEVEL_HIGH) GPIO_SENSE_DISABLE);
    at_ 46 (conf (Z.lor GPIO_MODE_GPIO GPO_LEVEL_HIGH) GPIO_SENSE_DISABLE); at_ 47 LP_GPIO_INPUT_INVERT;
    at_ 48 (conf (Z.lor GPIO_MODE_GPIO GPO_LEVEL_LOW) GPIO_SENSE_DISABLE);
    at_ 49 (conf (Z.lor GPIO_MODE_GPIO GPO_LEVEL_HIGH) GPIO_SENSE_DISABLE);
    at_ 50 (conf (Z.lor (Z.lor GPIO_MODE_GPIO GPIO_DIR_INPUT) GPIO_IRQ_LEVEL) 0); at_ 51 LP_GPIO_INPUT; at_ 52 LP_GPIO_INPUT;
    at_ 53 LP_GPIO_INPUT; at_ 54 LP_GPIO_INPUT; at_ 55 LP_GPIO_INPUT;
    at_ 56 (conf (Z.lor GPIO_MODE_GPIO GPO_LEVEL_HIGH) GPIO_SENSE_DISABLE);
    at_ 57 (conf (Z.lor GPIO_MODE_GPIO GPO_LEVEL_LOW) GPIO_SENSE_DISABLE);
    at_ 58 (conf (Z.lor (Z.lor GPIO_MODE_GPIO GPIO_DIR_INPUT) GPIO_IRQ_LEVEL) 0);
    at_ 59 (conf (Z.lor GPIO_MODE_GPIO GPO_LEVEL_HIGH) GPIO_SENSE_DISABLE); at_ 60 LP_GPIO_NATIVE; at_ 61 LP_GPIO_NATIVE;
    at_ 62 LP_GPIO_NATIVE; at_ 63 LP_GPIO_NATIVE; at_ 64 LP_GPIO_NATIVE; at_ 65 LP_GPIO_NATIVE; at_ 66 LP_GPIO_INPUT;
    at_ 67 LP_GPIO_NATIVE; at_ 68 LP_GPIO_NATIVE; at_ 69 LP_GPIO_NATIVE;
    at_ 70 (conf (Z.lor GPIO_MODE_GPIO GPO_LEVEL_LOW) GPIO_SENSE_DISABLE); at_ 71 LP_GPIO_NATIVE; at_ 72 LP_GPIO_INPUT;
    at_ 73 LP_GPIO_NATIVE; at_ 74 LP_GPIO_NATIVE; at_ 75 LP_GPIO_NATIVE; at_ 76 LP_GPIO_NATIVE; at_ 77 LP_GPIO_INPUT;
    at_ 78 LP_GPIO_INPUT; at_ 79 LP_GPIO_INPUT; at_ 80 LP_GPIO_INPUT; at_ 81 LP_GPIO_NATIVE; at_ 82 LP_GPIO_NATIVE;
    at_ 83 (conf (Z.lor GPIO_MODE_GPIO GPO_LEVEL_LOW) GPIO_SENSE_DISABLE);
    at_ 84 (conf (Z.lor GPIO_MODE_GPIO GPO_LEVEL_LOW) GPIO_SENSE_DISABLE);
    at_ 85 (conf (Z.lor GPIO_MODE_GPIO GPO_LEVEL_LOW) GPIO_SENSE_DISABLE); at_ 86 LP_GPIO_INPUT;
    at_ 87 (conf (Z.lor GPIO_MODE_GPIO GPO_LEVEL_LOW) GPIO_SENSE_DISABLE);
    at_ 88 (conf (Z.lor GPIO_MODE_GPIO GPO_LEVEL_HIGH) GPIO_SENSE_DISABLE);
    at_ 89 (conf (Z.lor GPIO_MODE_GPIO GPO_LEVEL_HIGH) GPIO_SENSE_DISABLE);
    at_ 90 (conf (Z.lor GPIO_MODE_GPIO GPO_LEVEL_LOW) GPIO_SENSE_DISABLE); at_ 91 LP_GPIO_NATIVE; at_ 92 LP_GPIO_NATIVE;
    at_ 93 LP_GPIO_NATIVE; at_ 94 LP_GPIO_NATIVE; next LP_GPIO_END ].

(** The array, and the pins coreboot programs: those before the end mark. *)
Definition pin_table : list pin := initialise (conf 0 0) mainboard_lp_gpio_map 0 [].
Fixpoint programmed (l : list pin) : list pin :=
  match l with [] => [] | p :: l => if is_end p then [] else p :: programmed l end.
End pins.

(** ** Audio codec (hda_verb.c) *)

Class Azalia := {
  AZALIA_SUBVENDOR : Z -> Z -> list Z;
  AZALIA_PIN_CFG : Z -> Z -> Z -> list Z;
  AZALIA_PIN_CFG_NC : Z -> Z;
  subvendor_four c v : length (AZALIA_SUBVENDOR c v) = 4%nat;
  pin_cfg_four c p v : length (AZALIA_PIN_CFG c p v) = 4%nat
}.

Section verbs.
Context `{Azalia}.

Definition cim_verb_data : list Z :=
  [0x10ec0283; 0x80862057; 11]
  ++ AZALIA_SUBVENDOR 0 0x80862057
  ++ AZALIA_PIN_CFG 0 0x12 0x40000000
  ++ AZALIA_PIN_CFG 0 0x14 (AZALIA_PIN_CFG_NC 0)
  ++ AZALIA_PIN_CFG 0 0x17 (AZALIA_PIN_CFG_NC 0)
  ++ AZALIA_PIN_CFG 0 0x18 (AZALIA_PIN_CFG_NC 0)
  ++ AZALIA_PIN_CFG 0 0x19 0x03a11020
  ++ AZALIA_PIN_CFG 0 0x1a (AZALIA_PIN_CFG_NC 0)
  ++ AZALIA_PIN_CFG 0 0x1b (AZALIA_PIN_CFG_NC 0)
  ++ AZALIA_PIN_CFG 0 0x1d 0x40500001
  ++ AZALIA_PIN_CFG 0 0x1e (AZALIA_PIN_CFG_NC 0)
  ++ AZALIA_PIN_CFG 0 0x21 0x03211010.
Definition pc_beep_verbs : list Z := [].

(** Codecs in a table: identifier, subsystem, count, and count sets of four
    words; [None] when the table ends inside one. *)
Fixpoint codecs (fuel : nat) (l : list Z) : option (list (Z * Z * list Z)) :=
  match fuel, l with
  | _, [] => Some []
  | S fuel, id :: ssid :: n :: l =>
      let k := Z.to_nat (4 * n) in
      if (length l <? k)%nat then None
      else (fun r => (id, ssid, take k l) :: r) <$> codecs fuel (drop k l)
  | _, _ => None
  end.
End verbs.

(** ** USB ports (pei_data.c) *)

Record usb2_port_setting := mkUsb2 { usb2_length : Z; usb2_enable : Z; usb2_over_current_pin : Z; usb2_location : Z }.
Record usb3_port_setting := mkUsb3 { usb3_enable : Z; usb3_over_current_pin : Z; usb3_fixed_eq : Z }.

Section ports.
(** pei_data.h *)
Context (USB_OC_PIN_SKIP USB_PORT_BACK_PANEL : Z) (MAX_USB2_PORTS MAX_USB3_PORTS : nat).

Definition port_array {A} (zero : A) (l : list A) (max : nat) : list A := l ++ replicate (max - length l) zero.
Definition mainboard_usb2_ports : list usb2_port_setting :=
  port_array (mkUsb2 0 0 0 0)
    [ mkUsb2 0x0040 1 USB_OC_PIN_SKIP USB_PORT_BACK_PANEL; mkUsb2 0x0040 1 USB_OC_PIN_SKIP USB_PORT_BACK_PANEL;
      mkUsb2 0x0040 1 USB_OC_PIN_SKIP USB_PORT_BACK_PANEL; mkUsb2 0x0040 1 USB_OC_PIN_SKIP USB_PORT_BACK_PANEL;
      mkUsb2 0x0040 1 USB_OC_PIN_SKIP USB_PORT_BACK_PANEL; mkUsb2 0x0040 1 USB_OC_PIN_SKIP USB_PORT_BACK_PANEL;
      mkUsb2 0x0040 1 USB_OC_PIN_SKIP USB_PORT_BACK_PANEL; mkUsb2 0x0040 1 USB_OC_PIN_SKIP USB_PORT_BACK_PANEL ] MAX_USB2_PORTS.
Definition mainboard_usb3_ports : list usb3_port_setting :=
  port_array (mkUsb3 0 0 0)
    [ mkUsb3 1 USB_OC_PIN_SKIP 0; mkUsb3 1 USB_OC_PIN_SKIP 0; mkUsb3 1 USB_OC_PIN_SKIP 0; mkUsb3 1 USB_OC_PIN_SKIP 0 ] MAX_USB3_PORTS.
End ports.

(** ** System UUID and ACPI hook (mainboard.c) *)

Definition SYSTEM_UUID : list Z := lit "d97878df-9997-5a65-9e67-8f035e3fd79d".

Definition hex_value (c : Z) : option Z :=
  if (0x30 <=? c) && (c <=? 0x39) then Some (c - 0x30)
  else if (0x61 <=? c) && (c <=? 0x66) then Some (c - 0x61 + 10)
  else if (0x41 <=? c) && (c <=? 0x46) then Some (c - 0x41 + 10) else None.
Fixpoint hex_bytes (n : nat) (s : list Z) : option (list Z * list Z) :=
  match n with
  | O => Some ([], s)
  | S n => match s with
           | h :: l :: s => a ← hex_value h; b ← hex_value l; '(r, s) ← hex_bytes n s; Some (16 * a + b :: r, s)
           | _ => None
           end
  end.
Definition dash (s : list Z) : option (list Z) := match s with c :: s => if c =? 0x2d then Some s else None | [] => None end.
(** The SMBIOS 2.6 order: the first three fields little-endian. *)
Definition smbios_uuid (s : list Z) : option (list Z) :=
  '(a, s) ← hex_bytes 4 s; s ← dash s; '(b, s) ← hex_bytes 2 s; s ← dash s; '(c, s) ← hex_bytes 2 s; s ← dash s;
  '(d, s) ← hex_bytes 2 s; s ← dash s; '(e, s) ← hex_bytes 6 s;
  match s with [] => Some (rev a ++ rev b ++ rev c ++ d ++ e) | _ => None end.

(** parse_uuid, as its users rely on it: a malformed text leaves zeros. *)
Class UuidLib := {
  parse_uuid : list Z -> list Z;
  parse_uuid_spec s : parse_uuid s = default (repeat 0 16) (smbios_uuid s)
}.
Definition smbios_system_set_uuid `{UuidLib} : list Z := parse_uuid SYSTEM_UUID.

Inductive acpi_writer := ptt_writer | other_writer.
Record device_operations := mkOps { write_acpi_tables : option acpi_writer }.
Definition mainboard_enable (TPM2_PTT_ACPI_START : bool) (ops : device_operations) : device_operations :=
  if TPM2_PTT_ACPI_START then mkOps (Some ptt_writer) else ops.

(** ** The tables are well-formed *)

Section theorems.
Context `{LpGpio, Azalia, UuidLib}.

Lemma programmed_goes_on (l : list pin) : Forall (fun p => is_end p = false) l -> programmed (l ++ [LP_GPIO_END]) = l.
Proof. induction 1 as [|p l Hp _ IH]; cbn; [by rewrite end_ends|]. by rewrite Hp, IH. Qed.

Ltac pin_goes_on :=
  first [ by apply (Forall_forall _ _) with (1 := settings_go_on); rewrite !elem_of_cons; tauto
        | by eapply conf_goes_on; auto
        | by apply (conf_goes_on _ _ 0); auto ].

Definition value_of (e : init pin) : pin := match e with at_ _ p | next p => p end.
Definition index_of (e : init pin) : option nat := match e with at_ i _ => Some i | next _ => None end.

(** Every pin from 0 to 94 is set, none left at zero by a missing initialiser,
    and coreboot programs exactly these. *)
Theorem pins_programmed :
  length (programmed pin_table) = 95%nat
  /\ forall i p, (i < 95)%nat -> pin_table !! i = Some p -> mainboard_lp_gpio_map !! i = Some (at_ i p).
Proof.
  assert (Ht : pin_table = map value_of mainboard_lp_gpio_map) by reflexivity. rewrite Ht. split.
  - change (map value_of mainboard_lp_gpio_map) with (map value_of (take 95 mainboard_lp_gpio_map) ++ [LP_GPIO_END]).
    rewrite programmed_goes_on; [reflexivity|]. repeat (apply Forall_cons; split; [pin_goes_on|]). apply Forall_nil_2.
  - assert (Hi : map index_of (take 95 mainboard_lp_gpio_map) = map Some (seq 0 95)) by reflexivity.
    intros i p Hlt Hp. apply (f_equal (lookup i)) in Hi. change (map index_of ?l) with (index_of <$> l) in Hi. change (map Some ?l) with (Some <$> l) in Hi.
    change (map value_of ?l) with (value_of <$> l) in Hp.
    rewrite !list_lookup_fmap, lookup_take_lt, lookup_seq_lt in Hi by lia. rewrite list_lookup_fmap in Hp.
    destruct (mainboard_lp_gpio_map !! i) as [[j q|q]|]; [|done|done]. cbn in Hi, Hp. congruence.
Qed.

(** The table holds one codec, with the subsystem its first verb writes, and
    as many sets as it announces. *)
Theorem codec_table :
  exists verbs, codecs 2 cim_verb_data = Some [(0x10ec0283, 0x80862057, verbs)] /\ length verbs = 44%nat
    /\ take 4 verbs = AZALIA_SUBVENDOR 0 0x80862057.
Proof.
  unfold cim_verb_data. cbn [app]. set (v := AZALIA_SUBVENDOR 0 _ ++ _).
  assert (Hv : length v = 44%nat) by (subst v; by rewrite !length_app, subvendor_four, !pin_cfg_four).
  exists v. cbn [codecs]. change (Z.to_nat (4 * 11)) with 44%nat. rewrite Hv. change (44 <? 44)%nat with false. cbv iota.
  rewrite take_ge, drop_ge by lia. split; [done|]. split; [done|]. subst v. by rewrite take_app_length' by by rewrite subvendor_four.
Qed.

(** The type 1 UUID is the constant in SMBIOS order, a version 5 UUID of the
    RFC 4122 variant, and not the zeros of a malformed text. *)
Theorem system_uuid :
  smbios_system_set_uuid
  = [0xdf; 0x78; 0x78; 0xd9; 0x97; 0x99; 0x65; 0x5a; 0x9e; 0x67; 0x8f; 0x03; 0x5e; 0x3f; 0xd7; 0x9d]
  /\ Z.shiftr (nth 7 smbios_system_set_uuid 0) 4 = 5 /\ Z.shiftr (nth 8 smbios_system_set_uuid 0) 6 = 2.
Proof. unfold smbios_system_set_uuid. rewrite parse_uuid_spec. by vm_compute. Qed.

(** The eight USB 2 and four USB 3 ports are on; any further port is off. *)
Theorem ports_enabled (skip panel : Z) (max2 max3 i : nat) :
  (usb2_enable <$> mainboard_usb2_ports skip panel max2 !! i) = (if decide (i < 8)%nat then Some 1 else if decide (i < max2)%nat then Some 0 else None)
  /\ (usb3_enable <$> mainboard_usb3_ports skip max3 !! i) = (if decide (i < 4)%nat then Some 1 else if decide (i < max3)%nat then Some 0 else None).
Proof.
  unfold mainboard_usb2_ports, mainboard_usb3_ports, port_array. split.
  - destruct (decide (i < 8)%nat) as [Hi|Hi]; [rewrite lookup_app_l by (cbn; lia); by do 8 (destruct i as [|i]; [done|]); lia|].
    rewrite lookup_app_r by (cbn; lia). cbn [length]. destruct (decide (i < max2)%nat); [by rewrite lookup_replicate_2 by lia|].
    rewrite lookup_ge_None_2; [done|]. rewrite length_replicate. lia.
  - destruct (decide (i < 4)%nat) as [Hi|Hi]; [rewrite lookup_app_l by (cbn; lia); by do 4 (destruct i as [|i]; [done|]); lia|].
    rewrite lookup_app_r by (cbn; lia). cbn [length]. destruct (decide (i < max3)%nat); [by rewrite lookup_replicate_2 by lia|].
    rewrite lookup_ge_None_2; [done|]. rewrite length_replicate. lia.
Qed.
End theorems.

(** ** Interfaces that exist *)

#[global] Program Instance plain_gpio : LpGpio := {|
  pin := Z * Z; conf a b := (a, b);
  LP_GPIO_NATIVE := (0, 0); LP_GPIO_INPUT := (5, 0); LP_GPIO_INPUT_INVERT := (13, 0); LP_GPIO_OUT_HIGH := (0x80000001, 4);
  LP_GPIO_OUT_LOW := (1, 4); LP_GPIO_END := (0xffffffff, 0);
  GPIO_MODE_GPIO := 1; GPIO_DIR_INPUT := 4; GPIO_IRQ_LEVEL := 16; GPO_LEVEL_HIGH := 0x80000000; GPO_LEVEL_LOW := 0; GPIO_SENSE_DISABLE := 4;
  is_end p := fst p =? 0xffffffff
|}.
Next Obligation. reflexivity. Qed.
Next Obligation. by repeat constructor. Qed.
Next Obligation. intros a b c1 -> Hb. by destruct Hb as [->|[->| ->]]. Qed.
#[global] Program Instance plain_azalia : Azalia := {|
  AZALIA_SUBVENDOR c v := [c; v; 0; 0]; AZALIA_PIN_CFG c p v := [c; p; v; 0]; AZALIA_PIN_CFG_NC n := 0x411111f0 + n
|}.
Next Obligation. reflexivity. Qed.
Next Obligation. reflexivity. Qed.
#[global] Program Instance plain_uuid : UuidLib := {| parse_uuid s := default (repeat 0 16) (smbios_uuid s) |}.
Next Obligation. reflexivity. Qed.
